(* ===== verification/_CoqProject ===== *)
-Q . S2P
Prelude.v
Crypto.v
FrostUtil.v
FrostConfig.v
Messages.v
SigningRound.v
DkgRound.v
Net.v
FrostSigner.v
FrostCoordinator.v
CoordinatorRound.v
CoordinatorSign.v
DkgSystem.v
Barrier.v
AsyncDkg.v
SignRound.v
SignSystem.v
AsyncSign.v
AsyncRestart.v
AsyncSession.v
Http.v
Relay.v
Tcp.v
StacksNode.v
PegQueue.v
BitcoinNode.v
BitcoinWallet.v
StacksWallet.v
StacksCoordinator.v
CoordinatorConfig.v
CoordinatorStart.v
Broadcast.v
SignerProcess.v
JsRpc.v
ApiTypes.v
Sql.v
ApiDb.v
ApiSpec.v
ApiRoutes.v
ApiMain.v
ApiCli.v
Doctor.v
SbtcScript.v
TestVectors.v
SbtcCli.v
TestProcess.v
TestUtils.v
UnitTest.v
HttpTests.v
FrostTests.v
QueueTests.v
WalletTests.v
ConfigTests.v
NodeTests.v
ApiTests.v
CoordinatorTests.v
PureFrost.v
FrostBtc.v
RpcTests.v
