(* ===== verification/Prelude.v ===== *)
(** * sBTC core engineering monorepo: a verification library

    The repository holds the Rust services of an sBTC peg: FROST signers that
    share a Bitcoin key, a coordinator that drives their key generation and
    signing, a relay that carries their messages over HTTP, and a peg coordinator
    that watches a Stacks node for deposits and withdrawals, mints and burns sBTC
    and pays out bitcoin.  Around them are a web API for signers to vote on
    transactions, a diagnosis tool for Stacks nodes, and tools that build deposit
    and withdrawal transactions.  This library models these programs as
    executable definitions and proves what they guarantee, and where they fall
    short.

    ** Conventions

    This file is the prelude.  [res E A] is the outcome of a Rust call: [Ok],
    [Err], a panic, or [Diverge] for a loop that used up its fuel; [M S E A] is a
    method on a state [S], whose mutations survive errors and panics as in Rust
    (the [?] operator is [mbind], a conversion of the error type [with_err], a
    call on a field [zoom]).  [keeps I m] says that [m] keeps an invariant
    whatever its outcome, [returns m] that it never runs out of fuel.  Machine
    integers are [Z] with their wrap-around or overflow check written out
    ([uadd], [usub], [wrapping_add], [as_i64], ...; [BuildProfile] says whether
    arithmetic is checked).  Bytes are [list Z], [HashMap] and [BTreeMap] are
    [gmap] ([btree_values] is the iteration in key order).

    Code outside the repository is a type class: the curve and cipher
    ([Crypto.P256k1]), [wsts] ([Crypto.Wsts], [Crypto.WstsAggregator]), HTTP and
    JSON-RPC clients ([Net.HttpClient], [StacksNode.RpcClient],
    [BitcoinNode.BitcoinRpc]), the Stacks and Bitcoin libraries
    ([StacksNode.StacksTypes], [StacksWallet.StacksTxLib],
    [BitcoinNode.BitcoinTypes]), JSON, TOML and address parsers.  Laws that a
    theorem relies on are separate classes ([Crypto.P256k1Laws],
    [DkgRound.WstsLaws], [SignRound.WstsSignLaws], [CoordinatorStart.KeyLaws],
    [TestProcess.FreshUuids], [PureFrost.WstsPartyLaws]).  Every file with such
    parameters ends with an executable instance, in a module [Toy...], and a
    module [...Witness] that applies each theorem there.

    ** The parts and their files

    - [FrostUtil], [FrostConfig]: [frost-signer/src/util.rs], [config.rs].
    - [Messages]: the message types of [frost-signer/src/signing_round.rs] and
      [net.rs], the bytes that are hashed for a signature, signing and verifying.
    - [SigningRound]: the signer's state machine, one definition per handler of
      [signing_round.rs]; [process] dispatches a message and ends the phase.
      [DkgRound]: the rounds of several signers on a common log of messages.
      [CoordinatorRound], [DkgSystem]: the coordinator's side of such a round, and
      both sides on one log.  [SignRound], [CoordinatorSign], [SignSystem]: the
      same for a signing round, and key generation and signing in one run.
      [Barrier]: processes that read and write a shared log in any interleaving;
      [AsyncDkg], [AsyncSign], [AsyncSession]: key generation, signing, and one
      after the other as such processes; [AsyncRestart]: any number of key
      generations that the coordinator starts again because their key has an odd y.
    - [Net]: [frost-signer/src/net.rs]; the interface [NetListen], the HTTP
      implementation, and [ScriptNet], a network that delivers a given script.
    - [FrostSigner]: [frost-signer/src/signer.rs]; message verification, the
      polling thread, the signer's main loop.  The two threads share a channel.
    - [FrostCoordinator]: [frost-coordinator/src/coordinator.rs] over any
      [NetListen]: key generation, nonces, signature shares.
    - [Http]: [yarpc/src], the HTTP codec; [Relay]: [relay-server/src], the
      memory state, the server and the proxy; [Tcp]: streams in memory and over
      TCP, and the remote server of [relay-server-test.rs].
    - [StacksNode], [BitcoinNode]: the interfaces of
      [stacks-coordinator/src/stacks_node] and [bitcoin_node.rs] and the clients
      that implement them.
    - [PegQueue]: [stacks-coordinator/src/peg_queue]; the SQLite tables as maps.
    - [BitcoinWallet], [StacksWallet]: [bitcoin_wallet.rs], [stacks_wallet.rs].
    - [StacksCoordinator]: the traits of [stacks-coordinator/src/coordinator.rs]
      over any Stacks node, Bitcoin node and network.
    - [CoordinatorConfig], [CoordinatorStart]: [config.rs], the start-up of
      [coordinator.rs], [frost-coordinator/src/lib.rs] and [main.rs].
    - [Broadcast]: the composition of [Net], [Http] and [Relay]: any number of
      listeners behind one relay, its specification as a log, infinite runs.
    - [SignerProcess]: [start_p2p_sync] as two threads under an arbitrary
      schedule, and the [main] functions of [frost-signer], [stacks-signer] and
      [frost-coordinator].
    - [JsRpc]: [yarpc/src/rpc], calls to a JavaScript process.
    - [ApiTypes], [ApiDb], [ApiRoutes], [ApiMain], [ApiCli]: [stacks-signer-api/src],
      its data, its SQL tables (with [Sql], generic operations on keyed rows), its
      handlers and routes, its commands, its command line and the served site.
      [ApiSpec] is the abstract state, ballots and a configuration, and the relation
      [represents] to the tables.
    - [Doctor]: [stacks-doctor/src], the four commands on what they read.
    - [SbtcScript], [TestVectors], [SbtcCli]: scripts and transactions, the
      payloads of [test-vectors/src], and the commands of [sbtc-cli/src].
    - [TestProcess], [TestUtils]: [test-utils/src/lib.rs], the processes of the
      integration tests with their ports, and the transactions they build.
    - [UnitTest]: tests as computations that end without a panic.  [HttpTests],
      [FrostTests], [QueueTests], [WalletTests], [ConfigTests], [NodeTests],
      [ApiTests]: the unit tests of the crates, translated.  [CoordinatorTests]:
      the integration tests of [frost-coordinator], with the configurations they
      generate and the processes they start.  [PureFrost], [FrostBtc]: the tests of
      [frost-test].  [RpcTests]: calls to the scripts of [yarpc/js/tests].

    The peg coordinator uses its parts through the interfaces [StacksNode],
    [BitcoinNode], [NetListen] and [BuildStacksTransaction]; the clients' files
    show that they keep the promises it relies on ([ReturningNode],
    [ReturningBitcoin]).

    ** What the theorems show

    - Key generation and signing: the coordinator's key is the even sum of the
      shares it stores, a returned signature verifies under it and uses exactly
      the collected nonces; every command ends on a network with finitely many
      messages, and signing panics at most inside [wsts].  A signer only visits the key
      generation states, ends each phase exactly when it is complete, sends
      shares its peers decrypt, and answers signature requests share by share.
      Honest signers that receive each other's answers, in any order, all complete
      a key generation round with the same commitments; with a coordinator on the
      same log, its key is the sum of the constant terms of these commitments, and
      the signature they then make verifies under it
      ([SignSystem.dkg_sign_completes]).  Scheduled in any way, reading the log and
      sending to it one message at a time, they always end with a key and with a
      signature ([AsyncRestart.dkg_inevitable], [AsyncSign.sign_inevitable]), also when
      they start without a key ([AsyncSession.session_inevitable]): after any number
      of attempts whose key has an odd y, provided that one has an even y, and after
      any number of nonces with an odd sum, provided that one is even.
    - Messages: what passes verification was signed with the sender's registered
      key; what a signer sends passes it; different kinds of messages have
      different preimages, except that the two begin messages share one, and the
      two end messages another.
    - Relay: every node reads the posted messages in order, a proxy refines the
      memory state, also over a new TCP connection for every request
      ([Tcp.proxies_refine]), requests and responses survive the codec, reading ends.
    - Composition: the signers' transport is a shared log that every listener
      reads in order, and a listener that keeps polling receives every message;
      under any schedule of its threads a signer handles exactly the received
      messages that verify.
    - Peg: the queue catches up block by block and hands out work in order;
      processing terminates and consumes what fails; mints and burns are bounded
      in attempts; bitcoin is paid out only after the burn; a fulfilled peg-out
      conserves value and every input carries a signature of the wallet's key.
    - Signer API: the handlers on the tables refine the abstract ballots; the
      tables stay consistent whichever statements fail; requests in sequence
      accept one vote per transaction, requests at the same time may not; the
      swagger site serves its document and the API ([ApiCli.swagger_doc_spec]).
    - Tools: deposits and withdrawals have the outputs that were asked for in
      their order and readable payloads; the reports of the doctor are those
      their description gives; live test processes never share a port.
    - Tests: the unit tests pass on these definitions whenever the external
      libraries behave as documented on the tests' literals
      ([HttpTests.http_tests_pass], [FrostTests.signer_tests_pass],
      [QueueTests.ToyQueueTests.queue_tests_pass], ...), which also checks the
      definitions; the generated configurations of the integration tests meet the
      assumptions of the composed key generation and signing, so these tests pass
      too when the signers are honest, also if keys with an odd y come before the one
      with an even y ([CoordinatorTests.coordinator_tests_pass]); the random selection of
      signers ends with that many different ones ([PureFrost.select_parties_spec]).
    - Shortcomings of the code, each with a theorem: a forged message of private
      shares ends a signer, the recipient of a peg-out is ignored, signer data
      never loads from the contract, a key generation that begins while private
      shares are gathered ends the signers (the coordinator's own restart for an
      odd key comes before that and is accepted), a huge content length stops the
      relay, a failed key generation is taken for a success, hashing private shares
      panics on most key ids, old work is handed out again on reopening, the
      swagger page does not find a document in a directory.

    ** Fuel

    The waiting loops of the FROST coordinator, the polling loops and the main
    loops are unbounded in the source.  [FrostCoordinator.run_terminates] shows
    that one more unit than the network has messages is enough;
    [StacksCoordinator.process_queue_works_off] that one more round than there are
    waiting rows is; the broadcast loop runs on the 13 attempts it can make
    ([StacksCoordinator.peg_in_bounded]).  Header parsing runs on the length of
    its input ([Http.read_ends]), a random selection on the number of parties
    ([PureFrost.select_parties_spec]).  A signer's process runs under a list of turns
    ([SignerProcess.start_p2p_sync]) and the transport under an infinite schedule
    ([Broadcast.broadcast_delivers]), so neither needs fuel.

    ** Not modelled

    Panics inside libraries, except where a class says so ([ecdsa_sign], and what
    [wsts] makes of the contents of messages: [Crypto.WstsAggregator]); running out
    of memory, so reading a body of a large declared length that still fits
    [isize::MAX] ([Http.read_exact_vec]) is taken to find the stream short instead.
    In [Broadcast] the relay is reachable: every request of the HTTP client arrives
    once and is answered ([Broadcast.RelayBehind]), so the retries of [Net.retry]
    stop after their first attempt there.
    Logging, command-line parsing, sleeping, TCP accept, the content of the
    generated OpenAPI document and the threads' timing; faults of SQLite in the peg
    queue (those of the signer API are modelled: any statement of [ApiDb] may fail)
    and of the disk beyond a file that cannot be opened or created.  Rows without [ORDER BY]
    come in the order of insertion, which SQLite does not promise.  Encodings of
    other crates (JSON, TOML, bincode, consensus encoding) are parameters.  Of
    the [tests] directories the stubs, the tests of the [stacks-signer] binary and
    [local_bitcoin_node.rs] have no model; neither have the unit test of the key
    file of [stacks-signer] and the ignored one of the peg coordinator.  The Clarity contracts are another language. *)

From Stdlib Require Export ZArith Lia.
From stdpp Require Export base tactics option list numbers strings gmap fin_maps sorting.

#[global] Set Default Goal Selector "!".
#[global] Open Scope Z_scope.

(** [run]: an equation between closed terms, by evaluating both sides. *)
Ltac run :=
  lazymatch goal with
  | |- @eq ?T ?a ?b => vm_cast_no_check (@eq_refl T b)
  | |- Z.lt ?a ?b => vm_cast_no_check (@eq_refl comparison Lt)
  end.

(** [by_compute]: a closed decidable proposition, by evaluating its decision. *)
Ltac by_compute := apply (bool_decide_unpack _); vm_compute; exact I.

(** ** Rust outcomes

    [res E A] is what a Rust call can do: return [Ok]/[Err] (or simply a
    value), panic ([unwrap] on a failure, an out-of-range index, a checked
    overflow), or, for an unbounded loop run with a finite amount of fuel,
    not finish ([Diverge]). *)
Inductive res (E A : Type) : Type :=
  | Ok (a : A)
  | Err (e : E)
  | Panic
  | Diverge.
Arguments Ok {E A} a.
Arguments Err {E A} e.
Arguments Panic {E A}.
Arguments Diverge {E A}.

#[export] Instance res_ret (E : Type) : MRet (res E) := fun A a => Ok a.
#[export] Instance res_bind (E : Type) : MBind (res E) := fun A B f m =>
  match m with
  | Ok a => f a
  | Err e => Err e
  | Panic => Panic
  | Diverge => Diverge
  end.
#[export] Instance res_fmap (E : Type) : FMap (res E) := fun A B f m =>
  match m with
  | Ok a => Ok (f a)
  | Err e => Err e
  | Panic => Panic
  | Diverge => Diverge
  end.

#[export] Instance res_eq_dec (E A : Type) `{EqDecision E, EqDecision A} :
  EqDecision (res E A).
Proof. solve_decision. Defined.

(** [Result::map_err] and the [From] conversion that [?] inserts. *)
Definition map_err {E F A : Type} (f : E -> F) (m : res E A) : res F A :=
  match m with
  | Ok a => Ok a
  | Err e => Err (f e)
  | Panic => Panic
  | Diverge => Diverge
  end.

(** A call whose type has no error case, used where errors are possible. *)
Definition no_err {F A : Type} (m : res Empty_set A) : res F A :=
  map_err (fun e : Empty_set => match e with end) m.

(** [Option::ok_or] and [Option::unwrap] / indexing. *)
Definition ok_or {E A : Type} (o : option A) (e : E) : res E A :=
  match o with Some a => Ok a | None => Err e end.
Definition unwrap {E A : Type} (o : option A) : res E A :=
  match o with Some a => Ok a | None => Panic end.

(** [Result::unwrap] / [expect]. *)
Definition unwrap_ok {E F A : Type} (m : res E A) : res F A :=
  match m with
  | Ok a => Ok a
  | Err _ => Panic
  | Panic => Panic
  | Diverge => Diverge
  end.

(** The call completed: neither panic nor divergence. *)
Definition completes {E A : Type} (m : res E A) : bool :=
  match m with Ok _ | Err _ => true | Panic | Diverge => false end.

Lemma Ok_inj {E A : Type} (a b : A) : Ok (E := E) a = Ok b -> a = b.
Proof. by intros [= ->]. Qed.

Lemma res_bind_Ok_inv {E A B : Type} (m : res E A) (f : A -> res E B) (b : B) :
  m ≫= f = Ok b -> exists a, m = Ok a /\ f a = Ok b.
Proof. destruct m; simpl; intros; simplify_eq; eauto. Qed.

Lemma res_bind_assoc {E A B C : Type} (m : res E A) (f : A -> res E B) (g : B -> res E C) :
  (m ≫= f) ≫= g = m ≫= (fun a => f a ≫= g).
Proof. by destruct m. Qed.

Lemma res_bind_ret {E A : Type} (m : res E A) : m ≫= mret = m.
Proof. by destruct m. Qed.

Lemma res_bind_Ok {E A B : Type} (a : A) (f : A -> res E B) : (Ok a ≫= f) = f a.
Proof. done. Qed.

Lemma map_err_Ok_inv {E F A : Type} (f : E -> F) (m : res E A) (a : A) :
  map_err f m = Ok a -> m = Ok a.
Proof. destruct m; simpl; congruence. Qed.

Lemma no_err_Ok_inv {F A : Type} (m : res Empty_set A) (a : A) :
  no_err (F := F) m = Ok a -> m = Ok a.
Proof. apply map_err_Ok_inv. Qed.

Lemma ok_or_Ok_inv {E A : Type} (o : option A) (e : E) (a : A) :
  ok_or o e = Ok a -> o = Some a.
Proof. destruct o; simpl; congruence. Qed.

Lemma unwrap_Ok_inv {E A : Type} (o : option A) (a : A) :
  unwrap (E := E) o = Ok a -> o = Some a.
Proof. destruct o; simpl; congruence. Qed.

(** Left folds and traversals whose body can fail, as [for] loops with [?]. *)
Fixpoint foldM {E A B : Type} (f : B -> A -> res E B) (b : B) (l : list A) : res E B :=
  match l with
  | [] => Ok b
  | a :: l' => b' ← f b a; foldM f b' l'
  end.

Fixpoint mapR {E A B : Type} (f : A -> res E B) (l : list A) : res E (list B) :=
  match l with
  | [] => Ok []
  | a :: l' => b ← f a; bs ← mapR f l'; mret (b :: bs)
  end.

Lemma foldM_app {E A B : Type} (f : B -> A -> res E B) (b : B) (l1 l2 : list A) :
  foldM f b (l1 ++ l2) = b' ← foldM f b l1; foldM f b' l2.
Proof.
  revert b; induction l1 as [|a l1 IH]; intros b; simpl; [done|].
  rewrite res_bind_assoc. destruct (f b a); simpl; auto.
Qed.

(** An invariant of the accumulator is kept by a successful fold. *)
Lemma foldM_ind {E A B : Type} (P : B -> Prop) (f : B -> A -> res E B) (b b' : B) (l : list A) :
  P b -> (forall x a x', a ∈ l -> P x -> f x a = Ok x' -> P x') ->
  foldM f b l = Ok b' -> P b'.
Proof.
  revert b; induction l as [|a l IH]; intros b Hb Hstep; simpl.
  - by intros [= <-].
  - intros (x & Hx & Hl)%res_bind_Ok_inv.
    eapply IH; [|intros ?????; eapply Hstep; [by right|..]|exact Hl]; eauto.
    eapply Hstep; [by left|..]; eauto.
Qed.

Lemma mapR_Forall2 {E A B : Type} (f : A -> res E B) (l : list A) (bs : list B) :
  mapR f l = Ok bs <-> Forall2 (fun a b => f a = Ok b) l bs.
Proof.
  split.
  - revert bs; induction l as [|a l IH]; intros bs; simpl.
    + intros [= <-]; constructor.
    + intros (b & Hb & (bs' & Hbs & [= <-])%res_bind_Ok_inv)%res_bind_Ok_inv.
      constructor; auto.
  - induction 1 as [|a b l bs Hab _ IH]; simpl; [done|].
    by rewrite Hab; simpl; rewrite IH.
Qed.

Lemma mapR_fmap {E A B : Type} (f : A -> res E B) (g : A -> B) (l : list A) :
  (forall x, x ∈ l -> f x = Ok (g x)) -> mapR f l = Ok (g <$> l).
Proof. intros Hf. apply mapR_Forall2, Forall2_fmap_r, Forall_Forall2_diag, Forall_forall. exact Hf. Qed.

Lemma mapR_length {E A B : Type} (f : A -> res E B) (l : list A) (bs : list B) :
  mapR f l = Ok bs -> length bs = length l.
Proof. intros H%mapR_Forall2. symmetry. by eapply Forall2_length. Qed.

Lemma length_filter_fmap {A B : Type} (P : B -> Prop) `{!forall b, Decision (P b)}
    (f : A -> B) (l : list A) :
  length (filter P (f <$> l)) = length (filter (fun a => P (f a)) l).
Proof.
  induction l as [|a l IH]; [done|]. rewrite fmap_cons, !filter_cons.
  destruct (decide (P (f a))); simpl; congruence.
Qed.

(** ** State-and-outcome monad

    [M S E A] models a method taking [&mut self] (state [S]) and returning
    [Result<A, E>].  Like in Rust, the mutations made before an early return
    or a panic are kept in the resulting state. *)
Definition M (S E A : Type) : Type := S -> S * res E A.

#[export] Instance M_ret (S E : Type) : MRet (M S E) := fun A a s => (s, Ok a).
#[export] Instance M_bind (S E : Type) : MBind (M S E) := fun A B f m s =>
  match m s with
  | (s', Ok a) => f a s'
  | (s', Err e) => (s', Err e)
  | (s', Panic) => (s', Panic)
  | (s', Diverge) => (s', Diverge)
  end.

Definition get_st {S E : Type} : M S E S := fun s => (s, Ok s).
Definition put_st {S E : Type} (s : S) : M S E unit := fun _ => (s, Ok tt).
Definition gets {S E A : Type} (f : S -> A) : M S E A := fun s => (s, Ok (f s)).
Definition modify {S E : Type} (f : S -> S) : M S E unit := fun s => (f s, Ok tt).
Definition throw {S E A : Type} (e : E) : M S E A := fun s => (s, Err e).
Definition panic {S E A : Type} : M S E A := fun s => (s, Panic).
Definition lift {S E A : Type} (r : res E A) : M S E A := fun s => (s, r).
Definition when {S E : Type} (b : bool) (m : M S E unit) : M S E unit :=
  if b then m else mret tt.

(** A call whose error type is converted by [?] ([From]). *)
Definition with_err {S E F A : Type} (f : E -> F) (m : M S E A) : M S F A :=
  fun s => let '(s', r) := m s in (s', map_err f r).

(** [.unwrap()] on the result of a call. *)
Definition with_unwrap {S E F A : Type} (m : M S E A) : M S F A :=
  fun s => let '(s', r) := m s in (s', unwrap_ok r).

(** [if let Ok(a) = m]: the error itself is dropped. *)
Definition attempt {S E F A : Type} (m : M S E A) : M S F (option A) :=
  fun s => let '(s', r) := m s in
    (s', match r with
         | Ok a => Ok (Some a)
         | Err _ => Ok None
         | Panic => Panic
         | Diverge => Diverge
         end).

(** A method of a field: run [m] on the part of the state [get] reads and
    [set] writes back. *)
Definition zoom {S T E A : Type} (get : S -> T) (set : T -> S -> S) (m : M T E A) : M S E A :=
  fun s => let '(t, r) := m (get s) in (set t s, r).

Fixpoint for_each {S E A : Type} (f : A -> M S E unit) (l : list A) : M S E unit :=
  match l with
  | [] => mret tt
  | a :: l' => f a ;; for_each f l'
  end.

(** A [for] loop that updates an accumulator. *)
Fixpoint foldS {S E A B : Type} (f : B -> A -> M S E B) (b : B) (l : list A) : M S E B :=
  match l with
  | [] => mret b
  | a :: l' => b' ← f b a; foldS f b' l'
  end.

Lemma foldS_app {S E A B : Type} (f : B -> A -> M S E B) (b : B) (l1 l2 : list A) (s : S) :
  foldS f b (l1 ++ l2) s = (b' ← foldS f b l1; foldS f b' l2) s.
Proof.
  revert b s; induction l1 as [|a l1 IH]; intros b s; simpl; [done|].
  unfold mbind, M_bind. destruct (f b a s) as [s' [b'| | |]]; [apply IH|done..].
Qed.

Lemma M_bind_eq {S E A B : Type} (m : M S E A) (f : A -> M S E B) (s : S) :
  (m ≫= f) s = match m s with
               | (s', Ok a) => f a s'
               | (s', Err e) => (s', Err e)
               | (s', Panic) => (s', Panic)
               | (s', Diverge) => (s', Diverge)
               end.
Proof. done. Qed.

Lemma M_step {S E A B : Type} (m : M S E A) (f : A -> M S E B) (s s' : S) (a : A) :
  m s = (s', Ok a) -> (m ≫= f) s = f a s'.
Proof. intros Hm. by rewrite M_bind_eq, Hm. Qed.

Lemma M_lift_Ok {S E A B : Type} (a : A) (f : A -> M S E B) (s : S) : (lift (Ok a) ≫= f) s = f a s.
Proof. done. Qed.

Lemma M_left_id {S E A B : Type} (a : A) (f : A -> M S E B) (s : S) :
  (mret a ≫= f) s = f a s.
Proof. done. Qed.

Lemma M_right_id {S E A : Type} (m : M S E A) (s : S) : (m ≫= mret) s = m s.
Proof. rewrite M_bind_eq. by destruct (m s) as [? []]. Qed.

Lemma M_assoc {S E A B C : Type} (m : M S E A) (f : A -> M S E B) (g : B -> M S E C) (s : S) :
  ((m ≫= f) ≫= g) s = (m ≫= (fun a => f a ≫= g)) s.
Proof. rewrite !M_bind_eq. by destruct (m s) as [? []]. Qed.

Lemma M_bind_Ok_inv {S E A B : Type} (m : M S E A) (f : A -> M S E B) (s s' : S) (b : B) :
  (m ≫= f) s = (s', Ok b) -> exists s1 a, m s = (s1, Ok a) /\ f a s1 = (s', Ok b).
Proof. rewrite M_bind_eq. destruct (m s) as [? []]; intros; simplify_eq; eauto. Qed.

Lemma with_err_Ok_inv {S E F A : Type} (g : E -> F) (m : M S E A) (s s' : S) (a : A) :
  with_err g m s = (s', Ok a) -> m s = (s', Ok a).
Proof.
  unfold with_err. destruct (m s) as [s1 r] eqn:Hm; intros [= <- Hr].
  by apply map_err_Ok_inv in Hr as ->.
Qed.

Create HintDb monad_ops.
#[export] Hint Unfold get_st put_st gets modify throw panic lift when
  mret M_ret : monad_ops.

(** [inv_M H]: decompose a successful run [H : (m ≫= f) s = (s', Ok b)] into
    its successive steps. *)
Ltac inv_M H :=
  lazymatch type of H with
  | mbind _ _ _ = (_, Ok _) =>
      let s := fresh "s" in let a := fresh "a" in
      let H1 := fresh H in let H2 := fresh H in
      apply M_bind_Ok_inv in H as (s & a & H1 & H2);
      inv_M H1; inv_M H2
  | mret _ _ = (_, Ok _) => injection H as ??; simplify_eq
  | get_st _ = (_, Ok _) => injection H as ??; simplify_eq
  | modify _ _ = (_, Ok _) => injection H as ??; simplify_eq
  | put_st _ _ = (_, Ok _) => injection H as ??; simplify_eq
  | gets _ _ = (_, Ok _) => injection H as ??; simplify_eq
  | throw _ _ = (_, Ok _) => discriminate H
  | panic _ = (_, Ok _) => discriminate H
  | _ => idtac
  end.

(** *** Invariants of the state

    [keeps I m]: whatever the outcome (error and panic included), [m] leads
    from states satisfying [I] to states satisfying [I]. *)
Definition keeps {S E A : Type} (I : S -> Prop) (m : M S E A) : Prop :=
  forall s, I s -> I (m s).1.

Create HintDb keeps.

Section keeps.
Context {S E : Type} (I : S -> Prop).
Implicit Types (s : S).

Lemma keeps_ret {A : Type} (a : A) : keeps (E := E) I (mret a).
Proof. by intros s. Qed.
Lemma keeps_get : keeps (E := E) I get_st.
Proof. by intros s. Qed.
Lemma keeps_gets {A : Type} (f : S -> A) : keeps (E := E) I (gets f).
Proof. by intros s. Qed.
Lemma keeps_throw {A : Type} (e : E) : keeps (A := A) I (throw e).
Proof. by intros s. Qed.
Lemma keeps_panic {A : Type} : keeps (E := E) (A := A) I panic.
Proof. by intros s. Qed.
Lemma keeps_lift {A : Type} (r : res E A) : keeps I (lift r).
Proof. by intros s. Qed.
Lemma keeps_modify (f : S -> S) : (forall s, I s -> I (f s)) -> keeps (E := E) I (modify f).
Proof. intros Hf s Hs. by apply Hf. Qed.
Lemma keeps_bind {A B : Type} (m : M S E A) (f : A -> M S E B) :
  keeps I m -> (forall a, keeps I (f a)) -> keeps I (m ≫= f).
Proof.
  intros Hm Hf s Hs. rewrite M_bind_eq. specialize (Hm s Hs).
  destruct (m s) as [s1 []]; simpl in *; auto. by apply Hf.
Qed.
Lemma keeps_with_err {F A : Type} (g : E -> F) (m : M S E A) :
  keeps I m -> keeps I (with_err g m).
Proof. intros Hm s Hs. unfold with_err. specialize (Hm s Hs). by destruct (m s). Qed.
Lemma keeps_attempt {F A : Type} (m : M S E A) : keeps I m -> keeps I (attempt (F := F) m).
Proof. intros Hm s Hs. unfold attempt. specialize (Hm s Hs). by destruct (m s). Qed.
Lemma keeps_for_each {A : Type} (f : A -> M S E unit) (l : list A) :
  (forall a, a ∈ l -> keeps I (f a)) -> keeps I (for_each f l).
Proof.
  induction l as [|a l IH]; intros Hf; simpl; [apply keeps_ret|].
  apply keeps_bind; [apply Hf; by left|intros _; apply IH; intros; apply Hf; by right].
Qed.
End keeps.
Lemma keeps_foldS {S E A B : Type} (I : S -> Prop) (f : B -> A -> M S E B) (b : B) (l : list A) :
  (forall b a, a ∈ l -> keeps I (f b a)) -> keeps I (foldS f b l).
Proof.
  revert b; induction l as [|a l IH]; intros b Hf; simpl; [apply keeps_ret|].
  apply keeps_bind; [apply Hf; by left|intros b'; apply IH; intros; apply Hf; by right].
Qed.
#[export] Hint Resolve keeps_ret keeps_get keeps_gets keeps_throw keeps_panic
  keeps_lift keeps_bind keeps_with_err keeps_attempt : keeps.

Lemma keeps_iff {S E A : Type} (I J : S -> Prop) (m : M S E A) :
  (forall s, I s <-> J s) -> keeps I m -> keeps J m.
Proof. intros HIJ Hm s Hs%HIJ. by apply HIJ, Hm. Qed.

(** [returns m]: [m] never runs out of fuel. *)
Definition returns {S E A : Type} (m : M S E A) : Prop := forall s, (m s).2 <> Diverge.

Create HintDb returns.

Lemma returns_ret {S E A : Type} (a : A) : returns (S := S) (E := E) (mret a).
Proof. by intros s. Qed.
Lemma returns_gets {S E A : Type} (f : S -> A) : returns (E := E) (gets f).
Proof. by intros s. Qed.
Lemma returns_modify {S E : Type} (f : S -> S) : returns (E := E) (modify f).
Proof. by intros s. Qed.
Lemma returns_throw {S E A : Type} (e : E) : returns (S := S) (A := A) (throw e).
Proof. by intros s. Qed.
Lemma returns_lift {S E A : Type} (r : res E A) : r <> Diverge -> returns (S := S) (lift r).
Proof. by intros Hr s. Qed.
Lemma returns_ok_or {S E A : Type} (o : option A) (e : E) : returns (S := S) (lift (ok_or o e)).
Proof. apply returns_lift. by destruct o. Qed.
Lemma returns_bind {S E A B : Type} (m : M S E A) (f : A -> M S E B) :
  returns m -> (forall a, returns (f a)) -> returns (m ≫= f).
Proof.
  intros Hm Hf s. rewrite M_bind_eq. specialize (Hm s). destruct (m s) as [s1 []]; try done.
  apply Hf.
Qed.
#[export] Hint Resolve returns_ret returns_gets returns_modify returns_throw returns_ok_or
  returns_bind : returns.

(** ** Machine integers

    An unsigned [w]-bit integer is a [Z] in [0, 2^w).  Arithmetic panics on
    overflow when the binary is built with overflow checks (debug profile) and
    wraps around otherwise (release profile); [BuildProfile] says which. *)
Class BuildProfile := overflow_checks : bool.

Definition in_uint (w x : Z) : Prop := 0 <= x < 2 ^ w.
#[export] Instance in_uint_dec (w x : Z) : Decision (in_uint w x).
Proof. unfold in_uint. apply _. Defined.
Abbreviation in_u8 := (in_uint 8).
Abbreviation in_u32 := (in_uint 32).
Abbreviation in_u64 := (in_uint 64).

Section arith.
Context {BP : BuildProfile} {E : Type} (w : Z).

Definition checked (x : Z) : res E Z :=
  if overflow_checks && negb (bool_decide (in_uint w x)) then Panic else Ok (x mod 2 ^ w).
Definition uadd (a b : Z) : res E Z := checked (a + b).
Definition usub (a b : Z) : res E Z := checked (a - b).
Definition umul (a b : Z) : res E Z := checked (a * b).

Lemma checked_small (x : Z) : in_uint w x -> checked x = Ok x.
Proof.
  intros Hx. unfold checked. rewrite bool_decide_true by done.
  rewrite andb_false_r. by rewrite Z.mod_small.
Qed.
Lemma checked_Ok_range (x y : Z) : 0 <= w -> checked x = Ok y -> in_uint w y.
Proof.
  unfold checked, in_uint. intros Hw. case_match; intros [= <-].
  apply Z.mod_pos_bound. lia.
Qed.
End arith.

(** [wrapping_add], [saturating_sub], and the [as] casts. *)
Definition wrapping_add (w a b : Z) : Z := (a + b) mod 2 ^ w.
Definition saturating_sub (a b : Z) : Z := Z.max 0 (a - b).
Definition as_i64 (x : Z) : Z := if x <? 2 ^ 63 then x else x - 2 ^ 64.
Definition as_u64 (x : Z) : Z := x mod 2 ^ 64.
Definition as_u32 (x : Z) : Z := x mod 2 ^ 32.
Definition as_u8 (x : Z) : Z := x mod 2 ^ 8.
Definition usize_max : Z := 2 ^ 64 - 1.

(** Storing a [u64] in a signed 64-bit column and reading it back. *)
Lemma as_u64_as_i64 (x : Z) : in_u64 x -> as_u64 (as_i64 x) = x.
Proof.
  unfold in_uint, as_u64, as_i64. intros Hx. case_match.
  - apply Z.mod_small. lia.
  - replace (x - 2 ^ 64) with (x + (-1) * 2 ^ 64) by lia.
    rewrite Z.mod_add by lia. apply Z.mod_small. lia.
Qed.

Lemma as_i64_small (x : Z) : 0 <= x < 2 ^ 63 -> as_i64 x = x.
Proof. unfold as_i64. intros. case_match; lia. Qed.

Lemma as_u64_range (x : Z) : in_u64 (as_u64 x).
Proof. unfold in_uint, as_u64. apply Z.mod_pos_bound. lia. Qed.

(** ** Bytes *)
Abbreviation bytes := (list Z).

(** [to_be_bytes] of an [n]-byte integer. *)
Fixpoint be_bytes (n : nat) (x : Z) : bytes :=
  match n with
  | O => []
  | S n' => be_bytes n' (x / 256) ++ [x mod 256]
  end.
Definition be_decode (l : bytes) : Z := foldl (fun acc b => acc * 256 + b) 0 l.

Lemma be_bytes_length (n : nat) (x : Z) : length (be_bytes n x) = n.
Proof. revert x; induction n; intros x; simpl; [done|]. rewrite length_app, IHn. simpl. lia. Qed.

Lemma be_decode_bytes (n : nat) (x : Z) : be_decode (be_bytes n x) = x mod 256 ^ Z.of_nat n.
Proof.
  revert x; induction n as [|n IH]; intros x.
  { simpl. change (256 ^ 0) with 1. by rewrite Z.mod_1_r. }
  simpl be_bytes. unfold be_decode. rewrite foldl_app. simpl.
  fold (be_decode (be_bytes n (x / 256))). rewrite IH.
  rewrite Nat2Z.inj_succ, Z.pow_succ_r by lia.
  rewrite Z.rem_mul_r by lia. lia.
Qed.

#[global] Opaque be_bytes.

Lemma be_bytes_inj (n : nat) (x y : Z) :
  0 <= x < 256 ^ Z.of_nat n -> 0 <= y < 256 ^ Z.of_nat n ->
  be_bytes n x = be_bytes n y -> x = y.
Proof.
  intros Hx Hy Heq. apply (f_equal be_decode) in Heq.
  rewrite !be_decode_bytes, !Z.mod_small in Heq by lia. done.
Qed.

Lemma be_bytes_u32_inj (x y : Z) : in_u32 x -> in_u32 y -> be_bytes 4 x = be_bytes 4 y -> x = y.
Proof. unfold in_uint. intros ??. apply be_bytes_inj; lia. Qed.
Lemma be_bytes_u64_inj (x y : Z) : in_u64 x -> in_u64 y -> be_bytes 8 x = be_bytes 8 y -> x = y.
Proof. unfold in_uint. intros ??. apply be_bytes_inj; lia. Qed.

(** [str::as_bytes] of a literal. *)
Fixpoint as_bytes (s : string) : bytes :=
  match s with
  | EmptyString => []
  | String a s' => Z.of_N (Ascii.N_of_ascii a) :: as_bytes s'
  end.

(** ** Splitting strings *)

(** [str::split(char)]: the first piece and the others. *)
Fixpoint split_on (sep : Ascii.ascii) (s : string) : string * list string :=
  match s with
  | EmptyString => ("", [])
  | String c s' =>
      let '(first, rest) := split_on sep s' in
      if Ascii.eqb c sep then ("", first :: rest) else (String c first, rest)
  end.

(** A string without the separator is its own first piece, with any other it is
    the piece before the first one. *)
Lemma split_on_no_sep (sep : Ascii.ascii) (s : string) :
  sep ∉ String.list_ascii_of_string s -> split_on sep s = (s, []).
Proof.
  induction s as [|c s IH]; simpl; [done|].
  intros [Hc Hs]%not_elem_of_cons. rewrite IH by done.
  by destruct (Ascii.eqb_spec c sep).
Qed.

Lemma split_on_sep (sep : Ascii.ascii) (s rest : string) :
  sep ∉ String.list_ascii_of_string s ->
  split_on sep (s +:+ String sep rest) = (s, (split_on sep rest).1 :: (split_on sep rest).2).
Proof.
  induction s as [|c s IH]; simpl.
  - intros _. rewrite Ascii.eqb_refl. by destruct (split_on sep rest).
  - intros [Hc Hs]%not_elem_of_cons. rewrite IH by done.
    by destruct (Ascii.eqb_spec c sep).
Qed.

(** ** Ordered maps

    [BTreeMap<u32, V>] iterates in increasing key order. *)
Definition entry_le {V : Type} (x y : Z * V) : Prop := x.1 <= y.1.
#[export] Instance entry_le_dec (V : Type) (x y : Z * V) : Decision (entry_le x y).
Proof. unfold entry_le. apply _. Defined.

Definition btree_entries {V : Type} (m : gmap Z V) : list (Z * V) :=
  merge_sort entry_le (map_to_list m).
Definition btree_values {V : Type} (m : gmap Z V) : list V := (btree_entries m).*2.
Definition btree_keys {V : Type} (m : gmap Z V) : list Z := (btree_entries m).*1.

Section btree.
Context {V : Type}.
Implicit Types (m : gmap Z V).

Lemma btree_entries_perm m : btree_entries m ≡ₚ map_to_list m.
Proof. apply merge_sort_Permutation. Qed.

Lemma elem_of_btree_entries m k v : (k, v) ∈ btree_entries m <-> m !! k = Some v.
Proof. by rewrite btree_entries_perm, elem_of_map_to_list. Qed.

Lemma elem_of_btree_values m v : v ∈ btree_values m <-> exists k, m !! k = Some v.
Proof.
  unfold btree_values. rewrite list_elem_of_fmap. split.
  - intros ([k v'] & -> & Hin%elem_of_btree_entries). eauto.
  - intros (k & Hk). exists (k, v). split; [done|]. by apply elem_of_btree_entries.
Qed.

Lemma btree_values_length m : length (btree_values m) = size m.
Proof. unfold btree_values. by rewrite length_fmap, btree_entries_perm, length_map_to_list. Qed.

Lemma btree_keys_NoDup m : NoDup (btree_keys m).
Proof. unfold btree_keys. rewrite btree_entries_perm. apply NoDup_fst_map_to_list. Qed.

Lemma btree_entries_sorted m : StronglySorted entry_le (btree_entries m).
Proof.
  apply Sorted_StronglySorted; [unfold entry_le; intros ???; lia|].
  apply Sorted_merge_sort. unfold entry_le; intros ??; lia.
Qed.
End btree.

(** [HashSet<u32>::from(1..=n)] *)
Definition range_set (n : Z) : gset Z := list_to_set (seqZ 1 n).

Lemma elem_of_range_set (n k : Z) : k ∈ range_set n <-> 1 <= k <= n.
Proof. unfold range_set. rewrite elem_of_list_to_set, elem_of_seqZ. lia. Qed.

(** ** Tables

    A map filled from a list of entries, and lists of answers. *)
Lemma foldl_insert_table {A V : Type} (key : A -> Z) (val : A -> V) (c : gmap Z V) (l : list A) :
  NoDup (key <$> l) ->
  foldl (fun c m => <[key m := val m]> c) c l = list_to_map ((fun m => (key m, val m)) <$> l) ∪ c.
Proof.
  revert c. induction l as [|m l IH]; intros c; [simpl; by rewrite map_empty_union|].
  rewrite !fmap_cons. intros [Hni Hnd]%NoDup_cons. cbn [foldl fold_left].
  rewrite IH, list_to_map_cons by done. rewrite <-insert_union_l, insert_union_r; [done|].
  apply not_elem_of_list_to_map_1. by rewrite <-list_fmap_compose.
Qed.

Lemma table_perm {A V : Type} (key : A -> Z) (val : A -> V) (l1 l2 : list A) :
  NoDup (key <$> l2) -> l1 ≡ₚ l2 ->
  foldl (fun c m => <[key m := val m]> c) ∅ l1 = (list_to_map ((fun m => (key m, val m)) <$> l2) : gmap Z V).
Proof.
  intros Hnd Hp. rewrite foldl_insert_table by by rewrite Hp. rewrite map_union_empty.
  apply list_to_map_proper; [|by rewrite Hp]. by rewrite Hp, <-list_fmap_compose.
Qed.

Lemma table_lookup {A V : Type} (key : A -> Z) (val : A -> V) (l : list A) (k : Z) (v : V) :
  NoDup (key <$> l) ->
  (list_to_map ((fun m => (key m, val m)) <$> l) : gmap Z V) !! k = Some v <->
  exists m, m ∈ l /\ key m = k /\ val m = v.
Proof.
  intros Hnd. rewrite <-elem_of_list_to_map by by rewrite <-list_fmap_compose.
  rewrite list_elem_of_fmap. split; [intros (m & [= -> ->] & Hm); eauto|].
  intros (m & Hm & <- & <-). eauto.
Qed.

(** A table grows with its entries, by one for each new key. *)
Lemma table_grows {A V : Type} (key : A -> Z) (val : A -> V) (c : gmap Z V) (l : list A) :
  (size c <= size (foldl (fun c m => <[key m := val m]> c) c l))%nat.
Proof.
  revert c; induction l as [|m l IH]; intros c; simpl; [done|].
  etrans; [|apply IH]. rewrite map_size_insert. destruct (c !! _); simpl; lia.
Qed.

Lemma table_size_le {A V : Type} (key : A -> Z) (val : A -> V) (c : gmap Z V) (l : list A) :
  (size (foldl (fun c m => <[key m := val m]> c) c l) <= size c + length l)%nat.
Proof.
  revert c; induction l as [|m l IH]; intros c; simpl; [lia|].
  etrans; [apply IH|]. rewrite map_size_insert. destruct (c !! _); simpl; lia.
Qed.

Lemma table_size {A V : Type} (key : A -> Z) (val : A -> V) (l : list A) : NoDup (key <$> l) ->
  size (foldl (fun c m => <[key m := val m]> c) ∅ l : gmap Z V) = length l.
Proof.
  intros Hnd. rewrite (table_perm key val l l Hnd) by done.
  rewrite map_size_list_to_map; [apply length_fmap|]. by rewrite <-list_fmap_compose.
Qed.

(** [collect] to a [HashMap]: later entries replace earlier ones. *)
Definition collect {V : Type} (l : list (Z * V)) : gmap Z V := foldl (fun m e => <[e.1 := e.2]> m) ∅ l.

Lemma collect_table {V : Type} (l : list (Z * V)) : NoDup l.*1 -> collect l = list_to_map l.
Proof.
  intros Hnd. unfold collect. rewrite (table_perm fst snd l l) by done. f_equal.
  rewrite <-(list_fmap_id l) at 2. apply list_fmap_ext. by intros i [k v] _.
Qed.

Lemma omap_length_le {A B : Type} (f : A -> option B) (l : list A) : (length (omap f l) <= length l)%nat.
Proof. induction l as [|a l IH]; simpl; [done|]. destruct (f a); simpl; [by apply le_n_S|by apply Nat.le_le_succ_r]. Qed.

Lemma concat_fmap {A B : Type} (f : A -> list B) (l : list A) : concat (f <$> l) = l ≫= f.
Proof. induction l as [|a l IH]; [done|]. by rewrite fmap_cons, bind_cons, <-IH. Qed.

Lemma bind_ext_in {A B : Type} (f g : A -> list B) (l : list A) :
  (forall x, x ∈ l -> f x = g x) -> l ≫= f = l ≫= g.
Proof.
  induction l as [|x l IH]; intros Hfg; [done|]. rewrite !bind_cons, (Hfg x) by by left.
  rewrite IH; [done|]. intros y Hy. apply Hfg. by right.
Qed.

Lemma bind_fmap {A B C : Type} (f : B -> C) (g : A -> list B) (l : list A) :
  l ≫= (fun x => f <$> g x) = f <$> (l ≫= g).
Proof. induction l as [|x l IH]; [done|]. by rewrite !bind_cons, fmap_app, IH. Qed.

Lemma bind_perm {A B : Type} (f g : A -> list B) (l : list A) :
  (forall x, x ∈ l -> f x ≡ₚ g x) -> l ≫= f ≡ₚ l ≫= g.
Proof.
  induction l as [|x l IH]; intros Hfg; [done|]. rewrite !bind_cons, (Hfg x) by by left.
  rewrite IH; [done|]. intros y Hy. apply Hfg. by right.
Qed.

(** The keys of an ordered map whose domain is an interval. *)
Lemma btree_keys_interval {V : Type} (m : gmap Z V) (n : Z) :
  (forall k, is_Some (m !! k) <-> k ∈ seqZ 1 n) -> btree_keys m = seqZ 1 n.
Proof.
  intros Hm. apply (StronglySorted_unique Z.le).
  - pose proof (btree_entries_sorted m) as Hs. unfold btree_keys.
    induction Hs as [|e l Hs IH Hf]; [constructor|]. rewrite fmap_cons. constructor; [done|].
    by apply Forall_fmap.
  - clear. apply Sorted_StronglySorted; [intros ???; lia|]. unfold seqZ.
    generalize (Z.to_nat n). intros k.
    assert (forall a, Sorted Z.le ((fun i => Z.of_nat i + 1) <$> seq a k)) as Hs.
    { induction k as [|k IH]; intros a; [constructor|]. simpl. constructor; [apply IH|].
      destruct k; constructor. simpl. lia. }
    apply (Hs O).
  - apply NoDup_Permutation; [apply btree_keys_NoDup|apply NoDup_seqZ|]. intros k. rewrite <-Hm.
    unfold btree_keys. rewrite list_elem_of_fmap. split.
    + intros ([k' v] & -> & Hin%elem_of_btree_entries). eauto.
    + intros [v Hv]. exists (k, v). split; [done|]. by apply elem_of_btree_entries.
Qed.

(** The entries of a table in key order are those of the list in some order. *)
Lemma btree_entries_table {A V : Type} (key : A -> Z) (val : A -> V) (l : list A) :
  NoDup (key <$> l) ->
  exists l', l' ≡ₚ l /\
    btree_entries (list_to_map ((fun a => (key a, val a)) <$> l) : gmap Z V) =
      (fun a => (key a, val a)) <$> l'.
Proof.
  intros Hnd. assert (btree_entries (list_to_map ((fun a => (key a, val a)) <$> l) : gmap Z V) ≡ₚ
    (fun a => (key a, val a)) <$> l) as Hp.
  { rewrite btree_entries_perm, map_to_list_to_map; [done|]. by rewrite <-list_fmap_compose. }
  apply Permutation_map_inv in Hp as (l' & Hl & Hp). exists l'. split; [by symmetry|exact Hl].
Qed.

Lemma fmap_bind {A B C : Type} (f : A -> B) (g : B -> list C) (l : list A) :
  (f <$> l) ≫= g = l ≫= (fun a => g (f a)).
Proof. induction l as [|a l IH]; [done|]. by rewrite fmap_cons, !bind_cons, IH. Qed.

Lemma bind_Permutation {A B : Type} (f : A -> list B) (l1 l2 : list A) :
  l1 ≡ₚ l2 -> l1 ≫= f ≡ₚ l2 ≫= f.
Proof. intros Hl. by rewrite Hl. Qed.

Lemma btree_values_lookup {V : Type} (m : gmap Z V) : btree_values m = omap (fun k => m !! k) (btree_keys m).
Proof.
  unfold btree_values, btree_keys.
  assert (forall e, e ∈ btree_entries m -> m !! e.1 = Some e.2) as He
    by by intros [k v] Hin%elem_of_btree_entries.
  revert He. generalize (btree_entries m). intros l He. induction l as [|e l IH]; [done|].
  rewrite !fmap_cons. simpl. rewrite (He e) by by left. f_equal. apply IH. intros e' He'. apply He. by right.
Qed.

Lemma btree_values_fmap_keys {V W : Type} (f : V -> W) (m : gmap Z V) :
  btree_keys (f <$> m) = btree_keys m -> btree_values (f <$> m) = f <$> btree_values m.
Proof.
  intros Hk. rewrite !btree_values_lookup, Hk. generalize (btree_keys m). intros l.
  induction l as [|k l IH]; [done|]. simpl. rewrite lookup_fmap. destruct (m !! k); simpl; [by f_equal|done].
Qed.
