(* ===== verification/Crypto.v ===== *)
(** * External cryptography

    The crates [p256k1] (curve, ECDSA), [sha2], [aes-gcm], [rand_core] and
    [wsts] (FROST) are not part of the repository.  They are interfaces here:
    [P256k1], [Wsts] and [WstsAggregator] give the types and the calls the
    sources use, [P256k1Laws] states the documented behaviour that some
    theorems rely on.  [ToyCrypto] is an executable instance that satisfies the
    laws; the witnesses run on it. *)
From S2P Require Import Prelude.

(** [aead::Error] and [p256k1::ecdsa::Error] are opaque. *)
Inductive AesGcmError := AesGcmErrorOpaque.
Inductive EcdsaError := EcdsaErrorOpaque.

Class P256k1 := {
  Scalar : Type;
  Point : Type;
  PublicKey : Type;                         (* ecdsa::PublicKey *)
  Rng : Type;                               (* state behind OsRng *)
  Point_eq_dec :: EqDecision Point;
  PublicKey_eq_dec :: EqDecision PublicKey;
  scalar_new : Scalar;                      (* Scalar::new() *)
  scalar_to_bytes : Scalar -> bytes;
  scalar_try_from : bytes -> option Scalar; (* Scalar::try_from(&[u8]) *)
  point_default : Point;
  point_add : Point -> Point -> Point;
  point_mul : Scalar -> Point -> Point;
  point_compress : Point -> bytes;          (* compress().as_bytes() *)
  point_try_from : bytes -> option Point;   (* Point::try_from(&Compressed) *)
  point_has_even_y : Point -> bool;
  pk_to_bytes : PublicKey -> bytes;
  ecdsa_sign : bytes -> Scalar -> option bytes;            (* Signature::new, to_bytes *)
  ecdsa_sig_try_from : bytes -> bool;                      (* the signature parses *)
  ecdsa_verify : bytes -> bytes -> PublicKey -> bool;      (* signature, hash, key *)
  sha256 : bytes -> bytes;
  aes_encrypt : bytes -> bytes -> bytes -> option bytes;   (* key, nonce, data *)
  aes_decrypt : bytes -> bytes -> bytes -> option bytes;   (* key, nonce, cipher *)
  fill_bytes : nat -> Rng -> bytes * Rng;
}.

(** Public key of a private key: not called by the modelled code, used to state
    the laws. *)
Class P256k1Laws `{P256k1} := {
  point_of : Scalar -> Point;
  pk_of : Scalar -> PublicKey;
  pk_point : forall sk, point_try_from (pk_to_bytes (pk_of sk)) = Some (point_of sk);
  diffie_hellman : forall a b, point_mul a (point_of b) = point_mul b (point_of a);
  scalar_roundtrip : forall s, scalar_try_from (scalar_to_bytes s) = Some s;
  aes_roundtrip : forall key nonce data cipher,
    aes_encrypt key nonce data = Some cipher -> aes_decrypt key nonce cipher = Some data;
  aes_encrypt_total : forall key nonce data, is_Some (aes_encrypt key nonce data);
  fill_bytes_length : forall n rng, length (fill_bytes n rng).1 = n;
  ecdsa_correct : forall h sk sig,
    ecdsa_sign h sk = Some sig ->
    ecdsa_sig_try_from sig = true /\ ecdsa_verify sig h (pk_of sk) = true;
}.

(** [wsts::common] and [wsts::v1::Signer]. *)
Class Wsts `{P256k1} := {
  PolyCommitment : Type;
  PublicNonce : Type;
  SignatureShare : Type;
  WstsSigner : Type;                                    (* wsts::v1::Signer *)
  poly_id : PolyCommitment -> Z;                        (* poly.id.id.get_u32() *)
  poly_A : PolyCommitment -> list Point;                (* poly.A *)
  nonce_D : PublicNonce -> Point;
  nonce_E : PublicNonce -> Point;
  share_id : SignatureShare -> Z;
  share_z_i : SignatureShare -> Scalar;
  signer_new : Z -> list Z -> Z -> Z -> Rng -> WstsSigner * Rng;
  signer_get_id : WstsSigner -> Z;
  signer_get_key_ids : WstsSigner -> list Z;
  signer_reset_polys : WstsSigner -> Rng -> WstsSigner * Rng;
  signer_get_poly_commitments : WstsSigner -> Rng -> list PolyCommitment * Rng;
  signer_get_shares : WstsSigner -> gmap Z (gmap Z Scalar);
  (* the [Debug] rendering of the error map, when there is one *)
  signer_compute_secrets :
    WstsSigner -> gmap Z (gmap Z Scalar) -> list PolyCommitment -> WstsSigner * option string;
  signer_gen_nonces : WstsSigner -> Rng -> WstsSigner * list PublicNonce * Rng;
  signer_sign :
    WstsSigner -> bytes -> list Z -> list Z -> list PublicNonce -> list SignatureShare;
}.

(** [wsts::compute::intermediate], [v1::SignatureAggregator],
    [taproot::SchnorrProof].  A call that computes with the contents of messages,
    such as polynomials that may be too short, may panic inside [wsts]: [None]. *)
Class WstsAggregator `{Wsts} := {
  Aggregator : Type;
  AggregatorError : Type;
  Signature : Type;
  SchnorrProof : Type;
  TaprootError : Type;
  Element : Type;                                         (* x coordinate *)
  point_x : Point -> Element;
  compute_intermediate : bytes -> list Z -> list PublicNonce -> option Point;  (* the [R] part *)
  aggregator_new : Z -> Z -> list PolyCommitment -> option (Aggregator + AggregatorError);
  aggregator_sign :
    Aggregator -> bytes -> list PublicNonce -> list SignatureShare -> option (Signature + AggregatorError);
  schnorr_new : Signature -> SchnorrProof + TaprootError;
  schnorr_verify : SchnorrProof -> Element -> bytes -> bool;
}.

Definition of_sum {E A : Type} (x : A + E) : res E A :=
  match x with inl a => Ok a | inr e => Err e end.

(** A call that may panic. *)
Definition of_call {E A : Type} (x : option (A + E)) : res E A :=
  match x with Some r => of_sum r | None => Panic end.

(** ** An executable instance

    Scalars and points are integers with generator 1, a signature is the
    signer's key followed by the message, AES prefixes the key.  It satisfies
    [P256k1Laws]; it is insecure and only serves to run the definitions. *)
Module ToyCrypto.
#[export] Instance toy_p256k1 : P256k1 := {|
  Scalar := Z;
  Point := Z;
  PublicKey := Z;
  Rng := Z;
  scalar_new := 0;
  scalar_to_bytes s := [s];
  scalar_try_from b := match b with [s] => Some s | _ => None end;
  point_default := 0;
  point_add := Z.add;
  point_mul := Z.mul;
  point_compress p := [p];
  point_try_from b := match b with [p] => Some p | _ => None end;
  point_has_even_y := Z.even;
  pk_to_bytes k := [k];
  ecdsa_sign h sk := Some (sk :: h);
  ecdsa_sig_try_from sig := negb (bool_decide (sig = []));
  ecdsa_verify sig h k := bool_decide (sig = k :: h);
  sha256 b := b;
  aes_encrypt key nonce data := Some (key ++ data);
  aes_decrypt key nonce cipher :=
    if bool_decide (take (length key) cipher = key) then Some (drop (length key) cipher) else None;
  fill_bytes n rng := (replicate n rng, rng + 1)
|}.

#[export] Program Instance toy_laws : P256k1Laws := {| point_of s := s; pk_of s := s |}.
Next Obligation. done. Qed.
Next Obligation. intros; simpl. apply Z.mul_comm. Qed.
Next Obligation. done. Qed.
Next Obligation.
  simpl; intros key nonce data cipher [= <-].
  by rewrite take_app_length, bool_decide_true, drop_app_length.
Qed.
Next Obligation. intros; simpl; eauto. Qed.
Next Obligation. intros n rng; simpl. apply length_replicate. Qed.
Next Obligation. intros h sk sig [= <-]; simpl. by rewrite bool_decide_true. Qed.

(** A toy signer holds its key ids; its polynomial for key [k] is the
    constant [k + 1], its share of key [src] for key [dst] is [100 * src + dst]. *)
Record ToySigner := { toy_id : Z; toy_key_ids : list Z; toy_total : Z; toy_ready : bool }.

#[export] Instance toy_wsts : Wsts := {|
  PolyCommitment := Z * list Z;
  PublicNonce := Z * Z;
  SignatureShare := Z * Z;
  WstsSigner := ToySigner;
  poly_id := fst;
  poly_A := snd;
  nonce_D := fst;
  nonce_E := snd;
  share_id := fst;
  share_z_i := snd;
  signer_new id ids total threshold rng :=
    ({| toy_id := id; toy_key_ids := ids; toy_total := total; toy_ready := false |}, rng + 1);
  signer_get_id := toy_id;
  signer_get_key_ids := toy_key_ids;
  signer_reset_polys s rng :=
    ({| toy_id := toy_id s; toy_key_ids := toy_key_ids s; toy_total := toy_total s;
        toy_ready := false |}, rng + 1);
  signer_get_poly_commitments s rng :=
    ((fun k => (k + 1, [2 * (k + 1)])) <$> toy_key_ids s, rng + 1);
  signer_get_shares s :=
    list_to_map ((fun src =>
      (src, list_to_map ((fun dst => (dst, 100 * src + dst)) <$> seqZ 0 (toy_total s))))
      <$> toy_key_ids s);
  signer_compute_secrets s shares polys :=
    ({| toy_id := toy_id s; toy_key_ids := toy_key_ids s; toy_total := toy_total s;
        toy_ready := true |},
     if bool_decide (Z.of_nat (length polys) = toy_total s) then None
     else Some "wrong number of commitments"%string);
  signer_gen_nonces s rng := (s, (fun k => (k, rng)) <$> toy_key_ids s, rng + 1);
  signer_sign s msg signer_ids key_ids nonces := (fun k => (k, k)) <$> toy_key_ids s;
|}.

#[export] Instance toy_aggregator : WstsAggregator := {|
  Aggregator := Z * Z * list (Z * list Z);
  AggregatorError := string;
  Signature := Z;
  SchnorrProof := Z;
  TaprootError := unit;
  Element := Z;
  point_x p := p;
  compute_intermediate msg ids nonces := Some (foldr Z.add 0 (snd <$> nonces));
  aggregator_new total threshold polys :=
    if bool_decide (Z.of_nat (length polys) = total) then
      if forallb (fun p : Z * list Z => negb (bool_decide (p.2 = []))) polys then Some (inl (total, threshold, polys))
      else None
    else Some (inr "bad polynomial count"%string);
  aggregator_sign agg msg nonces shares := Some (inl (foldr Z.add 0 ((fst : Z * list Z -> Z) <$> agg.2)));
  schnorr_new sig := inl sig;
  schnorr_verify proof x msg := bool_decide (2 * proof = x);
|}.
End ToyCrypto.
