(* ===== verification/FrostUtil.v ===== *)
(** * [frost-signer/src/util.rs]: shared secrets and share encryption *)
From S2P Require Import Prelude Crypto.

Section FrostUtil.
  Context {CP : P256k1}.

Definition AES_GCM_NONCE_SIZE : nat := 12.

(** The digest is a 32-byte array by type, so copying it into [[u8; 32]] cannot
    fail. *)
Definition make_shared_secret (private_key : Scalar) (public_key : Point) : bytes :=
  let shared_key := point_mul private_key public_key in
  sha256 (as_bytes "DH_SHARED_SECRET_KEY/" ++ point_compress shared_key).

Definition encrypt (key data : bytes) : M Rng AesGcmError bytes :=
  fun rng =>
    let '(nonce_vec, rng') := fill_bytes AES_GCM_NONCE_SIZE rng in
    match aes_encrypt key nonce_vec data with
    | Some cipher_vec => (rng', Ok (nonce_vec ++ cipher_vec))
    | None => (rng', Err AesGcmErrorOpaque)
    end.

(** Slicing [data[..12]] panics when [data] is shorter than a nonce. *)
Definition decrypt (key data : bytes) : res AesGcmError bytes :=
  if (length data <? AES_GCM_NONCE_SIZE)%nat then Panic
  else ok_or (aes_decrypt key (take AES_GCM_NONCE_SIZE data) (drop AES_GCM_NONCE_SIZE data))
             AesGcmErrorOpaque.

Lemma decrypt_encrypt {CL : P256k1Laws} (key data c : bytes) (rng rng' : Rng) :
  encrypt key data rng = (rng', Ok c) -> decrypt key c = Ok data.
Proof.
  unfold encrypt, decrypt. pose proof (fill_bytes_length AES_GCM_NONCE_SIZE rng) as Hlen.
  destruct (fill_bytes _ rng) as [nonce rng1]; simpl in Hlen.
  destruct (aes_encrypt key nonce data) as [cipher|] eqn:Hc; intros [= <- <-].
  rewrite length_app, (proj2 (Nat.ltb_ge _ _)) by lia.
  rewrite take_app_length', drop_app_length' by done.
  by erewrite aes_roundtrip.
Qed.

Lemma encrypt_total {CL : P256k1Laws} (key data : bytes) (rng : Rng) :
  exists rng' c, encrypt key data rng = (rng', Ok c).
Proof.
  unfold encrypt. destruct (fill_bytes _ rng) as [nonce rng1].
  destruct (aes_encrypt_total key nonce data) as [c ->]. eauto.
Qed.

Lemma shared_secret_comm {CL : P256k1Laws} (a b : Scalar) :
  make_shared_secret a (point_of b) = make_shared_secret b (point_of a).
Proof. unfold make_shared_secret. by rewrite diffie_hellman. Qed.

Lemma decrypt_short (key data : bytes) :
  decrypt key data = Panic <-> (length data < AES_GCM_NONCE_SIZE)%nat.
Proof.
  unfold decrypt. destruct (length data <? AES_GCM_NONCE_SIZE)%nat eqn:Hlt.
  - apply Nat.ltb_lt in Hlt. naive_solver.
  - apply Nat.ltb_ge in Hlt. split; [|lia]. by destruct (aes_decrypt _ _ _).
Qed.
End FrostUtil.
