(* ===== verification/FrostConfig.v ===== *)
(** * [frost-signer/src/config.rs]: signer configuration

    [RawConfig] is what [toml] deserialises; [Config] adds the parsed keys.
    Key parsing ([p256k1]) and the file and TOML readers are external calls. *)
From S2P Require Import Prelude Crypto.

Inductive KeyError := KeyErrorOpaque.
Inductive ScalarError := ScalarErrorOpaque.
Inductive IoError := IoErrorOpaque.
Inductive TomlError := TomlErrorOpaque.

(** [config::Error] *)
Inductive ConfigError :=
  | IO (e : IoError)
  | Toml (e : TomlError)
  | InvalidPublicKey (e : KeyError)
  | InvalidPrivateKey (e : ScalarError)
  | InvalidKeyID.

(** [RawSigners] and [RawConfig] *)
Record RawSigners := { raw_public_key : string; raw_key_ids : list Z }.
Record RawConfig := {
  rc_http_relay_url : string;
  rc_keys_threshold : Z;
  rc_network_private_key : string;
  rc_signers : list RawSigners;
  rc_coordinator_public_key : string
}.

(** Parsing done by other crates. *)
Class ConfigParsers `{P256k1} := {
  pk_try_from_str : string -> option PublicKey;      (* ecdsa::PublicKey::try_from(&str) *)
  scalar_try_from_str : string -> option Scalar;     (* Scalar::try_from(&str) *)
  read_to_string : string -> string + IoError;       (* fs::read_to_string *)
  toml_from_str : string -> RawConfig + TomlError    (* toml::from_str *)
}.

Abbreviation SignerKeyIds := (gmap Z (list Z)).

Section Config.
Context {CP : P256k1} {PP : ConfigParsers} {BP : BuildProfile}.

Record PublicKeys := { pk_signers : gmap Z PublicKey; pk_key_ids : gmap Z PublicKey }.

Definition PublicKeys_default : PublicKeys := {| pk_signers := ∅; pk_key_ids := ∅ |}.

Record Config := {
  cfg_http_relay_url : string;
  cfg_keys_threshold : Z;
  cfg_network_private_key : Scalar;
  cfg_public_keys : PublicKeys;
  cfg_signer_key_ids : SignerKeyIds;
  cfg_coordinator_public_key : PublicKey;
  cfg_total_signers : Z;
  cfg_total_keys : Z
}.

(** [util::parse_public_key] *)
Definition parse_public_key (public_key : string) : res KeyError PublicKey :=
  ok_or (pk_try_from_str public_key) KeyErrorOpaque.

(** [RawConfig::from_path] *)
Definition RawConfig_from_path (path : string) : res ConfigError RawConfig :=
  content ← map_err IO (of_sum (read_to_string path));
  map_err Toml (of_sum (toml_from_str content)).

(** [u32::try_from(i).unwrap()] *)
Definition u32_try_from {E : Type} (i : Z) : res E Z :=
  if bool_decide (in_u32 i) then Ok i else Panic.

Definition insert_key_id (pk : PublicKey) (public_keys : PublicKeys) (key_id : Z)
    : res ConfigError PublicKeys :=
  if key_id =? 0 then Err InvalidKeyID
  else Ok {| pk_signers := pk_signers public_keys;
             pk_key_ids := <[key_id := pk]> (pk_key_ids public_keys) |}.

Fixpoint public_keys_loop (i : Z) (signers : list RawSigners) (public_keys : PublicKeys)
    : res ConfigError PublicKeys :=
  match signers with
  | [] => Ok public_keys
  | s :: signers' =>
      signer_public_key ← map_err InvalidPublicKey (parse_public_key (raw_public_key s));
      public_keys ← foldM (insert_key_id signer_public_key) public_keys (raw_key_ids s);
      i32 ← u32_try_from i;
      signer_key ← uadd 32 i32 1;
      public_keys_loop (i + 1) signers'
        {| pk_signers := <[signer_key := signer_public_key]> (pk_signers public_keys);
           pk_key_ids := pk_key_ids public_keys |}
  end.

(** [RawConfig::public_keys] *)
Definition public_keys (rc : RawConfig) : res ConfigError PublicKeys :=
  public_keys_loop 0 (rc_signers rc) PublicKeys_default.

Fixpoint signer_key_ids_loop {E : Type} (i : Z) (signers : list RawSigners) (m : SignerKeyIds)
    : res E SignerKeyIds :=
  match signers with
  | [] => Ok m
  | s :: signers' =>
      key ← u32_try_from (i + 1);
      signer_key_ids_loop (i + 1) signers' (<[key := raw_key_ids s]> m)
  end.

(** [RawConfig::signer_key_ids] *)
Definition signer_key_ids {E : Type} (rc : RawConfig) : res E SignerKeyIds :=
  signer_key_ids_loop 0 (rc_signers rc) ∅.

(** [RawConfig::coordinator_public_key] and [network_private_key] *)
Definition coordinator_public_key (rc : RawConfig) : res ConfigError PublicKey :=
  map_err InvalidPublicKey (parse_public_key (rc_coordinator_public_key rc)).

Definition network_private_key (rc : RawConfig) : res ConfigError Scalar :=
  map_err InvalidPrivateKey
    (ok_or (scalar_try_from_str (rc_network_private_key rc)) ScalarErrorOpaque).

(** [Config::new] *)
Definition Config_new {E : Type} (keys_threshold : Z) (coordinator_public_key : PublicKey)
    (public_keys : PublicKeys) (signer_key_ids : SignerKeyIds) (network_private_key : Scalar)
    (http_relay_url : string) : res E Config :=
  total_signers ← u32_try_from (Z.of_nat (size (pk_signers public_keys)));
  total_keys ← u32_try_from (Z.of_nat (size (pk_key_ids public_keys)));
  mret {| cfg_keys_threshold := keys_threshold;
          cfg_coordinator_public_key := coordinator_public_key;
          cfg_network_private_key := network_private_key;
          cfg_http_relay_url := http_relay_url;
          cfg_total_signers := total_signers;
          cfg_total_keys := total_keys;
          cfg_public_keys := public_keys;
          cfg_signer_key_ids := signer_key_ids |}.

(** [impl TryFrom<&RawConfig> for Config] *)
Definition Config_try_from (rc : RawConfig) : res ConfigError Config :=
  cpk ← coordinator_public_key rc;
  pks ← public_keys rc;
  ids ← signer_key_ids rc;
  sk ← network_private_key rc;
  Config_new (rc_keys_threshold rc) cpk pks ids sk (rc_http_relay_url rc).

(** [Config::from_path] *)
Definition Config_from_path (path : string) : res ConfigError Config :=
  rc ← RawConfig_from_path path;
  Config_try_from rc.

(** ** Lemmas *)

Lemma insert_key_ids_spec (pk : PublicKey) (l : list Z) (pks pks' : PublicKeys) :
  foldM (insert_key_id pk) pks l = Ok pks' ->
  (0 ∉ l) /\ pk_signers pks' = pk_signers pks /\
  (forall k, pk_key_ids pks' !! k = if decide (k ∈ l) then Some pk else pk_key_ids pks !! k).
Proof.
  revert pks; induction l as [|k l IH]; intros pks; simpl.
  { intros [= <-]. split_and!; [set_solver|done|done]. }
  unfold insert_key_id at 2. destruct (k =? 0) eqn:Hk0; simpl; [discriminate|].
  intros (H0 & Hs & Hk)%IH; simpl in *. apply Z.eqb_neq in Hk0.
  split_and!; [intros [?|?]%elem_of_cons; [lia|done]|done|]. intros k'.
  rewrite Hk, lookup_insert. case_decide as Hin; [by rewrite decide_True by by right|].
  case_decide as Heq; subst; [by rewrite decide_True by by left|].
  rewrite decide_False; [done|]. intros [?|?]%elem_of_cons; congruence.
Qed.

(** One step of the loop, when the index fits a [u32]. *)
Lemma public_keys_loop_cons (i : Z) (s : RawSigners) (signers : list RawSigners) (old pks : PublicKeys) :
  0 <= i < 2 ^ 32 - 1 ->
  public_keys_loop i (s :: signers) old = Ok pks ->
  exists pk mid, pk_try_from_str (raw_public_key s) = Some pk /\
    (0 ∉ raw_key_ids s) /\
    pk_signers mid = <[i + 1 := pk]> (pk_signers old) /\
    (forall k, pk_key_ids mid !! k =
       if decide (k ∈ raw_key_ids s) then Some pk else pk_key_ids old !! k) /\
    public_keys_loop (i + 1) signers mid = Ok pks.
Proof.
  intros Hi. simpl.
  intros (pk & Hpk%map_err_Ok_inv%ok_or_Ok_inv & Hl)%res_bind_Ok_inv.
  apply res_bind_Ok_inv in Hl as (pks1 & (Hnz & Hsig & Hids)%insert_key_ids_spec & Hl).
  unfold u32_try_from in Hl. rewrite bool_decide_true in Hl by (unfold in_uint; lia).
  simpl in Hl. unfold uadd in Hl. rewrite checked_small in Hl by (unfold in_uint; lia).
  simpl in Hl. rewrite Hsig in Hl.
  eexists pk, _. split; [done|]. split; [done|].
  split; [|split; [|exact Hl]]; done.
Qed.

Definition signer_key (s : RawSigners) : option PublicKey := pk_try_from_str (raw_public_key s).

Lemma public_keys_loop_signers (i : Z) (signers : list RawSigners) (old pks : PublicKeys) :
  0 <= i -> i + Z.of_nat (length signers) < 2 ^ 32 ->
  public_keys_loop i signers old = Ok pks ->
  forall k, pk_signers pks !! k =
    if decide (i < k) then
      match signers !! Z.to_nat (k - i - 1) with
      | Some s => signer_key s
      | None => pk_signers old !! k
      end
    else pk_signers old !! k.
Proof.
  revert i old; induction signers as [|s signers IH]; intros i old Hi Hlen.
  { simpl. intros [= <-] k. case_decide; done. }
  simpl length in Hlen. intros (pk & mid & Hpk & _ & Hsig & _ & Hl)%public_keys_loop_cons k; [|lia].
  rewrite (IH (i + 1) mid ltac:(lia) ltac:(lia) Hl k), Hsig.
  case_decide as H1.
  - rewrite decide_True by lia.
    replace (Z.to_nat (k - i - 1)) with (S (Z.to_nat (k - (i + 1) - 1))) by lia. simpl.
    rewrite lookup_insert_ne by lia. done.
  - case_decide as H2.
    + assert (k = i + 1) as -> by lia. rewrite lookup_insert_eq.
      by replace (Z.to_nat (i + 1 - i - 1)) with O by lia.
    + by rewrite lookup_insert_ne by lia.
Qed.

Lemma public_keys_loop_ids (i : Z) (signers : list RawSigners) (old pks : PublicKeys) :
  0 <= i -> i + Z.of_nat (length signers) < 2 ^ 32 ->
  public_keys_loop i signers old = Ok pks ->
  (forall s, s ∈ signers -> is_Some (signer_key s) /\ (0 ∉ raw_key_ids s)) /\
  (forall k, is_Some (pk_key_ids pks !! k) <->
     is_Some (pk_key_ids old !! k) \/ exists s, s ∈ signers /\ k ∈ raw_key_ids s) /\
  (forall k pk, pk_key_ids pks !! k = Some pk ->
     pk_key_ids old !! k = Some pk \/
     exists s, s ∈ signers /\ k ∈ raw_key_ids s /\ signer_key s = Some pk).
Proof.
  revert i old; induction signers as [|s signers IH]; intros i old Hi Hlen.
  { simpl. intros [= <-]. split_and!; set_solver. }
  simpl length in Hlen. intros (pk & mid & Hpk & Hnz & _ & Hids & Hl)%public_keys_loop_cons; [|lia].
  apply IH in Hl as (H1 & H2 & H3); [|lia..].
  split_and!.
  - intros s' [->|Hs']%elem_of_cons; [|auto]. split; [by exists pk|done].
  - intros k. rewrite H2, Hids. case_decide as Hin.
    + split; [intros _; right; exists s; set_solver|]. intros _. left. by eexists.
    + split; [intros [?|(s' & ? & ?)]; [by left|right; exists s'; set_solver]|].
      intros [?|(s' & [->|?]%elem_of_cons & ?)]; [by left|done|right; eauto].
  - intros k pk' [Hold|(s' & ? & ? & ?)]%H3; [|right; exists s'; set_solver].
    rewrite Hids in Hold. case_decide as Hin; [|by left].
    injection Hold as <-. right. exists s. set_solver.
Qed.

(** ** Properties *)

(** The tables built from a configuration file: signer [i] (counted from 1)
    has the key of the [i]-th entry and there are no other signers; the key ids
    are exactly those listed, never 0, and each is mapped to the key of a signer
    that lists it. *)
Theorem public_keys_correct (rc : RawConfig) (pks : PublicKeys)
    (Hlen : Z.of_nat (length (rc_signers rc)) < 2 ^ 32)
    (Hok : public_keys rc = Ok pks) :
  (forall i, pk_signers pks !! i =
     if decide (1 <= i) then rc_signers rc !! Z.to_nat (i - 1) ≫= signer_key else None) /\
  (forall k, is_Some (pk_key_ids pks !! k) <-> exists s, s ∈ rc_signers rc /\ k ∈ raw_key_ids s) /\
  (forall k pk, pk_key_ids pks !! k = Some pk ->
     k <> 0 /\ exists s, s ∈ rc_signers rc /\ k ∈ raw_key_ids s /\ signer_key s = Some pk).
Proof.
  pose proof (public_keys_loop_signers 0 (rc_signers rc) _ _ (Z.le_refl 0) Hlen Hok) as Hs.
  apply public_keys_loop_ids in Hok as (H1 & H2 & H3); [|lia..]. simpl in *.
  split_and!.
  - intros i. rewrite Hs, lookup_empty, Z.sub_0_r.
    repeat case_decide; try lia; [by destruct (rc_signers rc !! _)|done].
  - intros k. rewrite H2, lookup_empty. split; [intros [[? [=]]|]; done|auto].
  - intros k pk [Hold|(s & Hs1 & Hs2 & Hs3)]%H3; [by rewrite lookup_empty in Hold|].
    split; [|eauto]. intros ->. by destruct (H1 _ Hs1).
Qed.
End Config.

Module FrostConfigWitness.
Import ToyCrypto.

(** A key is the length of its text; nothing can be read from disk. *)
#[export] Instance toy_parsers : ConfigParsers := {|
  pk_try_from_str s := Some (Z.of_nat (String.length s));
  scalar_try_from_str s := Some (Z.of_nat (String.length s));
  read_to_string _ := inr IoErrorOpaque;
  toml_from_str _ := inr TomlErrorOpaque
|}.
#[export] Instance debug_build : BuildProfile := true.

Definition raw : RawConfig :=
  {| rc_http_relay_url := ""; rc_keys_threshold := 2; rc_network_private_key := "abc";
     rc_signers := [{| raw_public_key := "x"; raw_key_ids := [1; 2] |};
                    {| raw_public_key := "yy"; raw_key_ids := [3] |}];
     rc_coordinator_public_key := "zzz" |}.
Definition tables : PublicKeys :=
  {| pk_signers := {[2 := 2; 1 := 1]}; pk_key_ids := {[3 := 2; 2 := 1; 1 := 1]} |}.

Lemma public_keys_correct_witness :
  pk_signers tables !! 2 = Some 2 /\ is_Some (pk_key_ids tables !! 3).
Proof.
  destruct (public_keys_correct raw tables) as (H1 & H2 & _); [run|run|].
  split; [rewrite H1; run|]. apply H2. exists {| raw_public_key := "yy"; raw_key_ids := [3] |}.
  split; [by right; left|by left].
Defined.
End FrostConfigWitness.
