(* ===== verification/Messages.v ===== *)
(** * Protocol messages

    [frost-signer/src/state_machine.rs], the message structs of
    [frost-signer/src/signing_round.rs], their [Signable] implementations, and
    the wire [Message] of [frost-signer/src/net.rs]. *)
From S2P Require Import Prelude Crypto.

(** ** [state_machine.rs] *)
Inductive States :=
  | Idle
  | DkgPublicDistribute
  | DkgPublicGather
  | DkgPrivateDistribute
  | DkgPrivateGather
  | SignGather
  | Signed.

#[export] Instance States_eq_dec : EqDecision States.
Proof. solve_decision. Defined.

(** [state_machine::Error]: the [String] is the formatted pair of states. *)
Inductive StateMachineError := BadStateChange (from to : States).

(** [trait StateMachine] *)
Class StateMachine (T : Type) := {
  move_to : States -> M T StateMachineError unit;
  can_move_to : T -> States -> res StateMachineError unit
}.

(** ** Signing and verification: [trait Signable]

    A hasher is the list of bytes it was fed ([Sha256::update] appends). *)
Class Signable (T : Type) := hash : T -> M bytes Empty_set unit.

Definition update (b : bytes) : M bytes Empty_set unit := modify (fun h => h ++ b).

Section Signable.
Context {CP : P256k1}.

(** [let mut hasher = Sha256::new(); self.hash(&mut hasher)] *)
Definition preimage `{Signable T} (self : T) : res Empty_set bytes :=
  match hash self [] with
  | (h, Ok _) => Ok h
  | (_, Err e) => Err e
  | (_, Panic) => Panic
  | (_, Diverge) => Diverge
  end.

(** [Signable::sign] *)
Definition sign `{Signable T} (self : T) (private_key : Scalar) : res EcdsaError bytes :=
  h ← no_err (preimage self);
  ok_or (ecdsa_sign (sha256 h) private_key) EcdsaErrorOpaque.

(** [Signable::verify] *)
Definition verify `{Signable T} (self : T) (signature : bytes) (public_key : PublicKey)
    : res Empty_set bool :=
  h ← preimage self;
  mret (ecdsa_sig_try_from signature && ecdsa_verify signature (sha256 h) public_key).

Lemma verify_sign {CL : P256k1Laws} `{Signable T} (self : T) (sk : Scalar) (sig : bytes) :
  sign self sk = Ok sig -> verify self sig (pk_of sk) = Ok true.
Proof.
  unfold sign, verify. intros (h & Hh%no_err_Ok_inv & Hs%ok_or_Ok_inv)%res_bind_Ok_inv.
  rewrite Hh; simpl. by destruct (ecdsa_correct _ _ _ Hs) as [-> ->].
Qed.
End Signable.

(** ** Message structs *)
Section Messages.
Context {CP : P256k1} {WP : Wsts}.

Inductive DkgStatus := Success | Failure (s : string).

Record DkgPublicShare := {
  dps_dkg_id : Z;
  dps_dkg_public_id : Z;
  dps_party_id : Z;
  dps_public_share : PolyCommitment
}.

Record DkgPrivateShares := {
  dprs_dkg_id : Z;
  dprs_key_id : Z;
  dprs_private_shares : gmap Z bytes
}.

Record DkgBegin := { db_dkg_id : Z }.

Record DkgEnd := { de_dkg_id : Z; de_signer_id : Z; de_status : DkgStatus }.

Record NonceRequest := { nr_dkg_id : Z; nr_sign_id : Z; nr_sign_nonce_id : Z }.

Record NonceResponse := {
  nresp_dkg_id : Z;
  nresp_sign_id : Z;
  nresp_sign_nonce_id : Z;
  nresp_signer_id : Z;
  nresp_key_ids : list Z;
  nresp_nonces : list PublicNonce
}.

Record SignatureShareRequest := {
  ssr_dkg_id : Z;
  ssr_sign_id : Z;
  ssr_correlation_id : Z;
  ssr_nonce_responses : list NonceResponse;
  ssr_message : bytes
}.

Record SignatureShareResponse := {
  ssresp_dkg_id : Z;
  ssresp_sign_id : Z;
  ssresp_correlation_id : Z;
  ssresp_signer_id : Z;
  ssresp_signature_shares : list SignatureShare
}.

Inductive MessageTypes :=
  | MDkgBegin (m : DkgBegin)
  | MDkgPrivateBegin (m : DkgBegin)
  | MDkgEnd (m : DkgEnd)
  | MDkgPublicEnd (m : DkgEnd)
  | MDkgPublicShare (m : DkgPublicShare)
  | MDkgPrivateShares (m : DkgPrivateShares)
  | MNonceRequest (m : NonceRequest)
  | MNonceResponse (m : NonceResponse)
  | MSignShareRequest (m : SignatureShareRequest)
  | MSignShareResponse (m : SignatureShareResponse).

(** [net::Message]: the wire format *)
Record Message := { msg : MessageTypes; sig : bytes }.

(** ** [impl Signable for ...] *)
Definition update_u32 (x : Z) := update (be_bytes 4 x).
Definition update_u64 (x : Z) := update (be_bytes 8 x).

#[export] Instance DkgPublicShare_hash : Signable DkgPublicShare := fun self =>
  update (as_bytes "DKG_PUBLIC_SHARE") ;;
  update_u64 (dps_dkg_id self) ;;
  update_u64 (dps_dkg_public_id self) ;;
  update_u32 (dps_party_id self) ;;
  for_each (fun a => update (point_compress a)) (poly_A (dps_public_share self)).

(** [for id in 0..self.private_shares.len() as u32]: indexing with a missing id
    panics. *)
#[export] Instance DkgPrivateShares_hash : Signable DkgPrivateShares := fun self =>
  update (as_bytes "DKG_PRIVATE_SHARES") ;;
  update_u64 (dprs_dkg_id self) ;;
  update_u32 (dprs_key_id self) ;;
  for_each (fun id =>
      update_u32 id ;;
      share ← lift (unwrap (dprs_private_shares self !! id));
      update share)
    (seqZ 0 (as_u32 (Z.of_nat (size (dprs_private_shares self))))).

#[export] Instance DkgBegin_hash : Signable DkgBegin := fun self =>
  update (as_bytes "DKG_BEGIN") ;;
  update_u64 (db_dkg_id self).

#[export] Instance DkgEnd_hash : Signable DkgEnd := fun self =>
  update (as_bytes "DKG_END") ;;
  update_u64 (de_dkg_id self) ;;
  update_u32 (de_signer_id self).

#[export] Instance NonceRequest_hash : Signable NonceRequest := fun self =>
  update (as_bytes "NONCE_REQUEST") ;;
  update_u64 (nr_dkg_id self) ;;
  update_u64 (nr_sign_id self) ;;
  update_u64 (nr_sign_nonce_id self).

#[export] Instance NonceResponse_hash : Signable NonceResponse := fun self =>
  update (as_bytes "NONCE_RESPONSE") ;;
  update_u64 (nresp_dkg_id self) ;;
  update_u64 (nresp_sign_id self) ;;
  update_u64 (nresp_sign_nonce_id self) ;;
  update_u32 (nresp_signer_id self) ;;
  for_each update_u32 (nresp_key_ids self) ;;
  for_each (fun nonce =>
      update (point_compress (nonce_D nonce)) ;;
      update (point_compress (nonce_E nonce)))
    (nresp_nonces self).

#[export] Instance SignatureShareRequest_hash : Signable SignatureShareRequest := fun self =>
  update (as_bytes "SIGNATURE_SHARE_REQUEST") ;;
  update_u64 (ssr_dkg_id self) ;;
  update_u64 (ssr_sign_id self) ;;
  update_u64 (ssr_correlation_id self) ;;
  for_each hash (ssr_nonce_responses self) ;;
  update (ssr_message self).

#[export] Instance SignatureShareResponse_hash : Signable SignatureShareResponse := fun self =>
  update (as_bytes "SIGNATURE_SHARE_RESPONSE") ;;
  update_u64 (ssresp_dkg_id self) ;;
  update_u64 (ssresp_sign_id self) ;;
  update_u64 (ssresp_correlation_id self) ;;
  update_u32 (ssresp_signer_id self) ;;
  for_each (fun signature_share =>
      update_u32 (share_id signature_share) ;;
      update (scalar_to_bytes (share_z_i signature_share)))
    (ssresp_signature_shares self).

(** The signer signs and verifies a [MessageTypes] by the struct it carries. *)
#[export] Instance MessageTypes_hash : Signable MessageTypes := fun self =>
  match self with
  | MDkgBegin m | MDkgPrivateBegin m => hash m
  | MDkgEnd m | MDkgPublicEnd m => hash m
  | MDkgPublicShare m => hash m
  | MDkgPrivateShares m => hash m
  | MNonceRequest m => hash m
  | MNonceResponse m => hash m
  | MSignShareRequest m => hash m
  | MSignShareResponse m => hash m
  end.
End Messages.

(** ** What is hashed

    [appends m b]: hashing with [m] cannot fail and feeds exactly [b]. *)
Definition appends (m : M bytes Empty_set unit) (b : bytes) : Prop :=
  forall h, m h = (h ++ b, Ok tt).

Create HintDb appends.

Lemma appends_update (b : bytes) : appends (update b) b.
Proof. done. Qed.

Lemma appends_bind (m1 m2 : M bytes Empty_set unit) (b1 b2 : bytes) :
  appends m1 b1 -> appends m2 b2 -> appends (m1 ;; m2) (b1 ++ b2).
Proof. intros H1 H2 h. rewrite M_bind_eq, H1, H2. by rewrite app_assoc. Qed.

Lemma appends_for_each {A : Type} (f : A -> M bytes Empty_set unit) (g : A -> bytes) (l : list A) :
  (forall a, appends (f a) (g a)) -> appends (for_each f l) (l ≫= g).
Proof.
  intros Hf. induction l as [|a l IH]; simpl.
  - intros h. by rewrite app_nil_r.
  - by apply appends_bind.
Qed.
#[export] Hint Resolve appends_update : appends.

Ltac solve_appends :=
  repeat first
    [ apply appends_bind
    | apply appends_for_each; intros ?
    | solve [eauto with appends] ].

Lemma appends_preimage `{Signable T} (self : T) (b : bytes) :
  appends (hash self) b -> preimage self = Ok b.
Proof. intros Hb. unfold preimage. by rewrite Hb. Qed.

Section Preimages.
Context {CP : P256k1} {WP : Wsts}.

(** The byte strings that are hashed. *)
Definition DkgPublicShare_bytes (self : DkgPublicShare) : bytes :=
  as_bytes "DKG_PUBLIC_SHARE" ++ be_bytes 8 (dps_dkg_id self) ++
  be_bytes 8 (dps_dkg_public_id self) ++ be_bytes 4 (dps_party_id self) ++
  (poly_A (dps_public_share self) ≫= point_compress).
Definition DkgBegin_bytes (self : DkgBegin) : bytes :=
  as_bytes "DKG_BEGIN" ++ be_bytes 8 (db_dkg_id self).
Definition DkgEnd_bytes (self : DkgEnd) : bytes :=
  as_bytes "DKG_END" ++ be_bytes 8 (de_dkg_id self) ++ be_bytes 4 (de_signer_id self).
Definition NonceRequest_bytes (self : NonceRequest) : bytes :=
  as_bytes "NONCE_REQUEST" ++ be_bytes 8 (nr_dkg_id self) ++
  be_bytes 8 (nr_sign_id self) ++ be_bytes 8 (nr_sign_nonce_id self).
Definition NonceResponse_bytes (self : NonceResponse) : bytes :=
  as_bytes "NONCE_RESPONSE" ++ be_bytes 8 (nresp_dkg_id self) ++
  be_bytes 8 (nresp_sign_id self) ++ be_bytes 8 (nresp_sign_nonce_id self) ++
  be_bytes 4 (nresp_signer_id self) ++ (nresp_key_ids self ≫= be_bytes 4) ++
  (nresp_nonces self ≫= fun n => point_compress (nonce_D n) ++ point_compress (nonce_E n)).
Definition SignatureShareRequest_bytes (self : SignatureShareRequest) : bytes :=
  as_bytes "SIGNATURE_SHARE_REQUEST" ++ be_bytes 8 (ssr_dkg_id self) ++
  be_bytes 8 (ssr_sign_id self) ++ be_bytes 8 (ssr_correlation_id self) ++
  (ssr_nonce_responses self ≫= NonceResponse_bytes) ++ ssr_message self.
Definition SignatureShareResponse_bytes (self : SignatureShareResponse) : bytes :=
  as_bytes "SIGNATURE_SHARE_RESPONSE" ++ be_bytes 8 (ssresp_dkg_id self) ++
  be_bytes 8 (ssresp_sign_id self) ++ be_bytes 8 (ssresp_correlation_id self) ++
  be_bytes 4 (ssresp_signer_id self) ++
  (ssresp_signature_shares self ≫= fun s => be_bytes 4 (share_id s) ++ scalar_to_bytes (share_z_i s)).

Lemma DkgPublicShare_appends self : appends (hash self) (DkgPublicShare_bytes self).
Proof. unfold hash, DkgPublicShare_hash, DkgPublicShare_bytes. solve_appends. Qed.
Lemma DkgBegin_appends self : appends (hash self) (DkgBegin_bytes self).
Proof. unfold hash, DkgBegin_hash, DkgBegin_bytes. solve_appends. Qed.
Lemma DkgEnd_appends self : appends (hash self) (DkgEnd_bytes self).
Proof. unfold hash, DkgEnd_hash, DkgEnd_bytes. solve_appends. Qed.
Lemma NonceRequest_appends self : appends (hash self) (NonceRequest_bytes self).
Proof. unfold hash, NonceRequest_hash, NonceRequest_bytes. solve_appends. Qed.
Lemma NonceResponse_appends self : appends (hash self) (NonceResponse_bytes self).
Proof. unfold hash, NonceResponse_hash, NonceResponse_bytes. solve_appends. Qed.
#[local] Hint Resolve NonceResponse_appends : appends.
Lemma SignatureShareRequest_appends self : appends (hash self) (SignatureShareRequest_bytes self).
Proof. unfold hash, SignatureShareRequest_hash, SignatureShareRequest_bytes. solve_appends. Qed.
Lemma SignatureShareResponse_appends self : appends (hash self) (SignatureShareResponse_bytes self).
Proof. unfold hash, SignatureShareResponse_hash, SignatureShareResponse_bytes. solve_appends. Qed.

(** Private shares: hashing walks the ids [0 .. len - 1]. *)
Definition private_share_hash (m : gmap Z bytes) (id : Z) : M bytes Empty_set unit :=
  update_u32 id ;; share ← lift (unwrap (m !! id)); update share.
Definition private_share_bytes (m : gmap Z bytes) (id : Z) : bytes :=
  be_bytes 4 id ++ default [] (m !! id).

Lemma private_share_hash_eq (m : gmap Z bytes) (id : Z) (h : bytes) :
  private_share_hash m id h =
  match m !! id with
  | Some s => (h ++ private_share_bytes m id, Ok tt)
  | None => (h ++ be_bytes 4 id, Panic)
  end.
Proof.
  unfold private_share_hash, private_share_bytes. rewrite M_bind_eq; simpl. rewrite M_bind_eq; simpl.
  destruct (m !! id); [|done]. unfold update_u32, update, modify; simpl. by rewrite app_assoc.
Qed.

Lemma private_shares_loop_appends (m : gmap Z bytes) (l : list Z) :
  (forall id, id ∈ l -> is_Some (m !! id)) ->
  appends (for_each (private_share_hash m) l) (l ≫= private_share_bytes m).
Proof.
  induction l as [|id l IH]; intros Hl.
  - intros h; simpl. by rewrite app_nil_r.
  - rewrite bind_cons. apply appends_bind; [|apply IH; intros; apply Hl; by right].
    destruct (Hl id ltac:(by left)) as [s Hs].
    intros h. by rewrite private_share_hash_eq, Hs.
Qed.

Lemma private_shares_loop_panics (m : gmap Z bytes) (l : list Z) (id : Z) (h : bytes) :
  id ∈ l -> m !! id = None -> (for_each (private_share_hash m) l h).2 = Panic.
Proof.
  intros Hin Hid. revert h; induction l as [|id' l IH]; intros h; [by apply not_elem_of_nil in Hin|].
  cbn [for_each]. rewrite M_bind_eq, private_share_hash_eq.
  destruct (m !! id') as [s|] eqn:Hs; [|done].
  apply IH. apply elem_of_cons in Hin as [->|]; [congruence|done].
Qed.

Definition DkgPrivateShares_header (self : DkgPrivateShares) : bytes :=
  as_bytes "DKG_PRIVATE_SHARES" ++ be_bytes 8 (dprs_dkg_id self) ++ be_bytes 4 (dprs_key_id self).

Definition private_share_ids (m : gmap Z bytes) : list Z := seqZ 0 (as_u32 (Z.of_nat (size m))).

Lemma DkgPrivateShares_hash_eq (self : DkgPrivateShares) (h : bytes) :
  hash self h =
  for_each (private_share_hash (dprs_private_shares self))
    (private_share_ids (dprs_private_shares self)) (h ++ DkgPrivateShares_header self).
Proof.
  unfold hash, DkgPrivateShares_hash, DkgPrivateShares_header.
  do 3 (rewrite M_bind_eq; cbn [update_u64 update_u32 update modify]).
  by rewrite <-!app_assoc.
Qed.
End Preimages.

(** ** Properties of the signed messages *)
Section MessageProperties.
Context {CP : P256k1} {WP : Wsts}.

Definition dkg_id_of (m : MessageTypes) : Z :=
  match m with
  | MDkgBegin m | MDkgPrivateBegin m => db_dkg_id m
  | MDkgEnd m | MDkgPublicEnd m => de_dkg_id m
  | MDkgPublicShare m => dps_dkg_id m
  | MDkgPrivateShares m => dprs_dkg_id m
  | MNonceRequest m => nr_dkg_id m
  | MNonceResponse m => nresp_dkg_id m
  | MSignShareRequest m => ssr_dkg_id m
  | MSignShareResponse m => ssresp_dkg_id m
  end.

(** The literal each [hash] starts with. *)
Definition domain_tag (m : MessageTypes) : string :=
  match m with
  | MDkgBegin _ | MDkgPrivateBegin _ => "DKG_BEGIN"
  | MDkgEnd _ | MDkgPublicEnd _ => "DKG_END"
  | MDkgPublicShare _ => "DKG_PUBLIC_SHARE"
  | MDkgPrivateShares _ => "DKG_PRIVATE_SHARES"
  | MNonceRequest _ => "NONCE_REQUEST"
  | MNonceResponse _ => "NONCE_RESPONSE"
  | MSignShareRequest _ => "SIGNATURE_SHARE_REQUEST"
  | MSignShareResponse _ => "SIGNATURE_SHARE_RESPONSE"
  end.

Lemma private_share_ids_range (m : gmap Z bytes) (id : Z) :
  Z.of_nat (size m) < 2 ^ 32 -> id ∈ private_share_ids m <-> 0 <= id < Z.of_nat (size m).
Proof.
  intros Hs. unfold private_share_ids, as_u32. rewrite elem_of_seqZ, Z.mod_small by lia. lia.
Qed.

(** The preimage of private shares exists exactly when no id is missing. *)
Lemma DkgPrivateShares_preimage (self : DkgPrivateShares) :
  let m := dprs_private_shares self in
  (forall id, id ∈ private_share_ids m -> is_Some (m !! id)) /\
    preimage self = Ok (DkgPrivateShares_header self ++ (private_share_ids m ≫= private_share_bytes m))
  \/ (exists id, id ∈ private_share_ids m /\ m !! id = None) /\ preimage self = Panic.
Proof.
  intros m. destruct (decide (Forall (fun id => is_Some (m !! id)) (private_share_ids m))) as [Hall|Hno].
  - left. rewrite Forall_forall in Hall. split; [done|].
    unfold preimage. rewrite DkgPrivateShares_hash_eq.
    by rewrite (private_shares_loop_appends _ _ Hall).
  - right. apply not_Forall_Exists in Hno; [|apply _].
    apply Exists_exists in Hno as (id & Hin & Hnone%eq_None_not_Some).
    split; [eauto|]. unfold preimage. rewrite DkgPrivateShares_hash_eq.
    pose proof (private_shares_loop_panics m (private_share_ids m) id
      ([] ++ DkgPrivateShares_header self) Hin Hnone) as Hp.
    fold m. by destruct (for_each _ _ _) as [h r]; simpl in Hp; subst.
Qed.

(** hashing [DkgPrivateShares] (the first step of both signing and
    verifying one) panics exactly when the ids of the private shares are not
    [0, 1, ..., n - 1]. *)
Theorem private_shares_hash_panics (self : DkgPrivateShares)
    (Hsize : Z.of_nat (size (dprs_private_shares self)) < 2 ^ 32) :
  preimage self = Panic <->
  dom (dprs_private_shares self) <>
    (list_to_set : _ -> gset Z) (seqZ 0 (Z.of_nat (size (dprs_private_shares self)))).
Proof.
  set (m := dprs_private_shares self) in *. split.
  - intros Hp Hdom. destruct (DkgPrivateShares_preimage self) as [[_ Hok]|[(id & Hin & Hn) _]]; [congruence|].
    apply private_share_ids_range in Hin; [|done].
    apply (not_elem_of_dom (D := gset Z)) in Hn. apply Hn.
    fold m. rewrite Hdom, elem_of_list_to_set, elem_of_seqZ. fold m in Hin. lia.
  - intros Hdom. destruct (DkgPrivateShares_preimage self) as [[Hall _]|[_ Hp]]; [|done].
    destruct Hdom. symmetry. apply leibniz_equiv, set_subseteq_size_equiv.
    + intros id. rewrite elem_of_list_to_set, elem_of_seqZ, elem_of_dom. intros Hid.
      apply Hall, private_share_ids_range; fold m; [done|lia].
    + rewrite size_dom. rewrite size_list_to_set by apply NoDup_seqZ. rewrite length_seqZ. lia.
Qed.

Lemma msg_preimage_shape (m : MessageTypes) (h : bytes) :
  preimage m = Ok h ->
  exists rest, h = as_bytes (domain_tag m) ++ be_bytes 8 (dkg_id_of m) ++ rest.
Proof.
  destruct m as [m|m|m|m|m|m|m|m|m|m]; intros Hp; change (preimage m = Ok h) in Hp;
    try (         first [ rewrite (appends_preimage _ _ (DkgBegin_appends m)) in Hp
               | rewrite (appends_preimage _ _ (DkgEnd_appends m)) in Hp
               | rewrite (appends_preimage _ _ (DkgPublicShare_appends m)) in Hp
               | rewrite (appends_preimage _ _ (NonceRequest_appends m)) in Hp
               | rewrite (appends_preimage _ _ (NonceResponse_appends m)) in Hp
               | rewrite (appends_preimage _ _ (SignatureShareRequest_appends m)) in Hp
               | rewrite (appends_preimage _ _ (SignatureShareResponse_appends m)) in Hp ];
         injection Hp as <-;
         first [ by eexists | exists []; by rewrite app_nil_r ]).
  destruct (DkgPrivateShares_preimage m) as [[_ Hok]|[_ Hok]]; [|congruence].
  rewrite Hok in Hp. injection Hp as <-. unfold DkgPrivateShares_header.
  rewrite <-!app_assoc. by eexists.
Qed.

(** C30: domain separation.  Two messages with the same signed bytes are of the
    same signed kind and belong to the same DKG round, so a signature never
    transfers to another kind of struct or to another round.  [DkgBegin] and
    [DkgPrivateBegin] are one kind, and so are [DkgPublicEnd] and [DkgEnd]: each
    two carry the same struct, and within such a pair it does transfer. *)
Theorem domain_separation (m1 m2 : MessageTypes) (h : bytes)
    (Hid1 : in_u64 (dkg_id_of m1)) (Hid2 : in_u64 (dkg_id_of m2))
    (H1 : preimage m1 = Ok h) (H2 : preimage m2 = Ok h) :
  domain_tag m1 = domain_tag m2 /\ dkg_id_of m1 = dkg_id_of m2.
Proof.
  apply msg_preimage_shape in H1 as [r1 ->]. apply msg_preimage_shape in H2 as [r2 Heq].
  assert (domain_tag m1 = domain_tag m2) as Htag.
  { destruct m1, m2; try reflexivity; exfalso; cbn in Heq; discriminate Heq. }
  split; [done|]. rewrite Htag in Heq. apply app_inv_head in Heq.
  apply app_inj_1 in Heq as [Heq _]; [|by rewrite !be_bytes_length].
  by apply be_bytes_u64_inj.
Qed.

(** the signature of an end-of-phase message covers the round and the
    signer only.  A [DkgPublicEnd] and a [DkgEnd] are signed over the same bytes
    exactly when they agree on these two, whatever their statuses: the signature
    of one authenticates the other with a status of one's choice. *)
Theorem end_signature_covers_ids_only (e1 e2 : DkgEnd)
    (Hd1 : in_u64 (de_dkg_id e1)) (Hd2 : in_u64 (de_dkg_id e2))
    (Hs1 : in_u32 (de_signer_id e1)) (Hs2 : in_u32 (de_signer_id e2)) :
  preimage (MDkgPublicEnd e1) = preimage (MDkgEnd e2) <->
  de_dkg_id e1 = de_dkg_id e2 /\ de_signer_id e1 = de_signer_id e2.
Proof.
  change (preimage e1 = preimage e2 <->
    de_dkg_id e1 = de_dkg_id e2 /\ de_signer_id e1 = de_signer_id e2).
  rewrite !(appends_preimage _ _ (DkgEnd_appends _)). unfold DkgEnd_bytes. split.
  - intros Heq%Ok_inj%app_inv_head. apply app_inj_1 in Heq as [H1 H2]; [|by rewrite !be_bytes_length].
    split; [by apply be_bytes_u64_inj|by apply be_bytes_u32_inj].
  - by intros [-> ->].
Qed.

(** the bytes of a [SignatureShareRequest] do not separate the nonce
    responses from the message: a suffix of the list can be moved, in its
    hashed form, to the front of the message without changing what is signed. *)
Theorem sign_request_malleable (dkg_id sign_id correlation_id : Z)
    (kept moved : list NonceResponse) (message : bytes) :
  preimage {| ssr_dkg_id := dkg_id; ssr_sign_id := sign_id; ssr_correlation_id := correlation_id;
              ssr_nonce_responses := kept ++ moved; ssr_message := message |} =
  preimage {| ssr_dkg_id := dkg_id; ssr_sign_id := sign_id; ssr_correlation_id := correlation_id;
              ssr_nonce_responses := kept;
              ssr_message := (moved ≫= NonceResponse_bytes) ++ message |}.
Proof.
  rewrite !(appends_preimage _ _ (SignatureShareRequest_appends _)).
  unfold SignatureShareRequest_bytes. simpl. by rewrite bind_app, <-!app_assoc.
Qed.
End MessageProperties.

Module MessagesWitness.
Import ToyCrypto.

Lemma private_shares_hash_panics_witness :
  preimage {| dprs_dkg_id := 1; dprs_key_id := 0; dprs_private_shares := {[1 := []]} |} = Panic.
Proof.
  apply (private_shares_hash_panics
    {| dprs_dkg_id := 1; dprs_key_id := 0; dprs_private_shares := {[1 := []]} |}).
  - run.
  - intros Heq. assert (1 ∈ (list_to_set (seqZ 0 1) : gset Z)) as Hin.
    { change (seqZ 0 (Z.of_nat (size _))) with (seqZ 0 1) in Heq. rewrite <-Heq. simpl. set_solver. }
    rewrite elem_of_list_to_set, elem_of_seqZ in Hin. lia.
Defined.

Lemma domain_separation_witness :
  dkg_id_of (MDkgBegin {| db_dkg_id := 5 |}) = dkg_id_of (MDkgPrivateBegin {| db_dkg_id := 5 |}).
Proof.
  refine (proj2 (domain_separation (MDkgBegin {| db_dkg_id := 5 |})
    (MDkgPrivateBegin {| db_dkg_id := 5 |}) (as_bytes "DKG_BEGIN" ++ be_bytes 8 5) _ _ _ _));
    try (unfold in_uint; simpl; lia); reflexivity.
Defined.

Lemma end_signature_covers_ids_only_witness :
  preimage (MDkgPublicEnd {| de_dkg_id := 5; de_signer_id := 1; de_status := Success |}) =
  preimage (MDkgEnd {| de_dkg_id := 5; de_signer_id := 1; de_status := Failure "forged" |}).
Proof.
  apply (end_signature_covers_ids_only
    {| de_dkg_id := 5; de_signer_id := 1; de_status := Success |}
    {| de_dkg_id := 5; de_signer_id := 1; de_status := Failure "forged" |});
    simpl; unfold in_uint; try lia; done.
Defined.
End MessagesWitness.
