(* ===== verification/SigningRound.v ===== *)
(** * [frost-signer/src/signing_round.rs]: the signer's side of DKG and signing

    State: [SigningRound].  One definition per method; [process] dispatches a
    message and detects the end of each gathering phase.  The methods also
    consume the randomness behind [OsRng], so they run in [M (SigningRound * Rng)]. *)
From stdpp Require Import pretty.
From S2P Require Import Prelude Crypto FrostUtil FrostConfig Messages.

Section SigningRound.
Context {CP : P256k1} {WP : Wsts} {BP : BuildProfile}.

(** [signing_round::Error] *)
Inductive SigningRoundError :=
  | InvalidPartyID
  | InvalidDkgPublicShare
  | InvalidDkgPrivateShares (ids : list Z)
  | InvalidNonceResponse
  | InvalidSignatureShare
  | SRStateMachineError (e : StateMachineError).

(** [signing_round::Signer] *)
Record Signer := { frost_signer : WstsSigner; signer_id : Z }.

Record SigningRound := mkSigningRound {
  dkg_id : Z;
  dkg_public_id : Z;
  sign_id : Z;
  sign_nonce_id : Z;
  threshold : Z;
  total_signers : Z;
  total_keys : Z;
  signer : Signer;
  state : States;
  commitments : gmap Z PolyCommitment;
  shares : gmap Z (gmap Z bytes);
  public_nonces : list PublicNonce;
  sr_network_private_key : Scalar;
  sr_public_keys : PublicKeys
}.

(** Field updates. *)
Definition set_state (x : States) (r : SigningRound) : SigningRound :=
  let '(mkSigningRound a b c d e f g h _ j k l m n) := r in
  mkSigningRound a b c d e f g h x j k l m n.
Definition set_frost_signer (x : WstsSigner) (r : SigningRound) : SigningRound :=
  let '(mkSigningRound a b c d e f g h i j k l m n) := r in
  mkSigningRound a b c d e f g {| frost_signer := x; signer_id := signer_id h |} i j k l m n.
Definition set_commitments (x : gmap Z PolyCommitment) (r : SigningRound) : SigningRound :=
  let '(mkSigningRound a b c d e f g h i _ k l m n) := r in
  mkSigningRound a b c d e f g h i x k l m n.
Definition set_shares (x : gmap Z (gmap Z bytes)) (r : SigningRound) : SigningRound :=
  let '(mkSigningRound a b c d e f g h i j _ l m n) := r in
  mkSigningRound a b c d e f g h i j x l m n.

(** The state the methods run in. *)
Abbreviation ST := (SigningRound * Rng)%type.

Definition get_self {E : Type} : M ST E SigningRound := gets fst.
Definition modify_self {E : Type} (f : SigningRound -> SigningRound) : M ST E unit :=
  modify (fun s => (f s.1, s.2)).
Definition on_self {E A : Type} (m : M SigningRound E A) : M ST E A :=
  zoom fst (fun r s => (r, s.2)) m.
Definition on_rng {E A : Type} (m : M Rng E A) : M ST E A :=
  zoom snd (fun rng s => (s.1, rng)) m.

(** *** [impl StateMachine for SigningRound] *)
Definition accepted (prev_state state : States) : bool :=
  match state with
  | Idle => true
  | DkgPublicDistribute =>
      bool_decide (prev_state = Idle) || bool_decide (prev_state = DkgPublicGather)
      || bool_decide (prev_state = DkgPrivateDistribute)
  | DkgPublicGather => bool_decide (prev_state = DkgPublicDistribute)
  | DkgPrivateDistribute => bool_decide (prev_state = DkgPublicGather)
  | DkgPrivateGather => bool_decide (prev_state = DkgPrivateDistribute)
  | SignGather => bool_decide (prev_state = Idle)
  | Signed => bool_decide (prev_state = SignGather)
  end.

Definition sr_can_move_to (self : SigningRound) (s : States) : res StateMachineError unit :=
  if accepted (state self) s then Ok tt else Err (BadStateChange (state self) s).

Definition sr_move_to (s : States) : M SigningRound StateMachineError unit :=
  self ← get_st;
  lift (sr_can_move_to self s) ;;
  modify (set_state s).

#[export] Instance SigningRound_StateMachine : StateMachine SigningRound :=
  {| move_to := sr_move_to; can_move_to := sr_can_move_to |}.

(** [self.move_to(s)?] *)
Definition move (s : States) : M ST SigningRoundError unit :=
  on_self (with_err SRStateMachineError (move_to s)).

(** *** [SigningRound::new] *)
Definition SigningRound_new {E : Type} (threshold total_signers total_keys signer_id : Z)
    (key_ids : list Z) (network_private_key : Scalar) (public_keys : PublicKeys)
    : M Rng E SigningRound := fun rng =>
  if threshold <=? total_keys then
    let '(frost_signer, rng') := signer_new signer_id key_ids total_keys threshold rng in
    (rng', Ok {| dkg_id := 0; dkg_public_id := 0; sign_id := 1; sign_nonce_id := 1;
                 threshold := threshold; total_signers := total_signers;
                 total_keys := total_keys;
                 signer := {| frost_signer := frost_signer; signer_id := signer_id |};
                 state := Idle; commitments := ∅; shares := ∅; public_nonces := [];
                 sr_network_private_key := network_private_key;
                 sr_public_keys := public_keys |})
  else (rng, Panic).

(** [frost-signer/src/signer.rs]: [struct Signer] *)
Record FrostSigner := { fs_config : Config; fs_signer_id : Z }.

(** [impl From<&FrostSigner> for SigningRound] *)
Definition SigningRound_from {E : Type} (fs : FrostSigner) : M Rng E SigningRound := fun rng =>
  let signer_id := fs_signer_id fs in
  let config := fs_config fs in
  if negb ((0 <? signer_id) && (signer_id <=? cfg_total_signers config)) then (rng, Panic)
  else
    match (ids ← unwrap (cfg_signer_key_ids config !! signer_id); mapR (fun i => usub 32 i 1) ids)
    with
    | Ok key_ids =>
        if cfg_keys_threshold config <=? cfg_total_keys config then
          let '(frost_signer, rng') :=
            signer_new signer_id key_ids (cfg_total_keys config) (cfg_keys_threshold config) rng in
          (rng', Ok {| dkg_id := 1; dkg_public_id := 1; sign_id := 1; sign_nonce_id := 1;
                       threshold := cfg_keys_threshold config;
                       total_keys := cfg_total_keys config;
                       total_signers := cfg_total_signers config;
                       signer := {| frost_signer := frost_signer; signer_id := signer_id |};
                       state := Idle; commitments := ∅; shares := ∅; public_nonces := [];
                       sr_network_private_key := cfg_network_private_key config;
                       sr_public_keys := cfg_public_keys config |})
        else (rng, Panic)
    | Err e => (rng, Err e)
    | Panic => (rng, Panic)
    | Diverge => (rng, Diverge)
    end.

(** *** [reset] *)
Definition reset {E : Type} (new_dkg_id : Z) : M ST E unit := fun '(self, rng) =>
  let '(fsgn, rng') := signer_reset_polys (frost_signer (signer self)) rng in
  (({| dkg_id := new_dkg_id; dkg_public_id := 0; sign_id := sign_id self;
       sign_nonce_id := sign_nonce_id self; threshold := threshold self;
       total_signers := total_signers self; total_keys := total_keys self;
       signer := {| frost_signer := fsgn; signer_id := signer_id (signer self) |};
       state := state self; commitments := ∅; shares := ∅; public_nonces := [];
       sr_network_private_key := sr_network_private_key self;
       sr_public_keys := sr_public_keys self |}, rng'), Ok tt).

(** *** Phase detection *)
Definition public_shares_done (self : SigningRound) : bool :=
  bool_decide (state self = DkgPublicGather)
  && (Z.of_nat (size (commitments self)) =? total_keys self).

Definition can_dkg_end (self : SigningRound) : bool :=
  bool_decide (state self = DkgPrivateGather)
  && (Z.of_nat (size (commitments self)) =? total_keys self)
  && (Z.of_nat (size (shares self)) =? total_keys self).

Definition dkg_public_ended {E : Type} : M ST E MessageTypes :=
  self ← get_self;
  mret (MDkgPublicEnd {| de_dkg_id := dkg_id self;
                         de_signer_id := signer_id (signer self);
                         de_status := Success |}).

(** *** [dkg_ended]

    The HashMap of private shares is visited in the order of [map_to_list];
    only the text of a failure depends on it. *)
Definition peer_point {E : Type} (self : SigningRound) (key_id : Z) : res E Point :=
  k ← uadd 32 key_id 1;
  pk ← unwrap (pk_key_ids (sr_public_keys self) !! k);
  unwrap (point_try_from (pk_to_bytes pk)).

Definition decrypt_share {E : Type} (self : SigningRound) (src_key_id : Z)
    (acc : gmap Z Scalar * list Z) (entry : Z * bytes) : res E (gmap Z Scalar * list Z) :=
  let '(decrypted_key_shares, invalid) := acc in
  let '(dst_key_id, private_share) := entry in
  if bool_decide (dst_key_id ∈ signer_get_key_ids (frost_signer (signer self))) then
    src_public_key ← peer_point self src_key_id;
    match decrypt (make_shared_secret (sr_network_private_key self) src_public_key) private_share with
    | Ok plain =>
        match scalar_try_from plain with
        | Some s => Ok (<[dst_key_id := s]> decrypted_key_shares, invalid)
        | None => Ok (decrypted_key_shares, invalid ++ [src_key_id])
        end
    | Err _ => Ok (decrypted_key_shares, invalid ++ [src_key_id])
    | Panic => Panic
    | Diverge => Diverge
    end
  else Ok (<[dst_key_id := scalar_new]> decrypted_key_shares, invalid).

Definition decrypt_key_shares {E : Type} (self : SigningRound)
    (acc : gmap Z (gmap Z Scalar) * list Z) (entry : Z * gmap Z bytes)
    : res E (gmap Z (gmap Z Scalar) * list Z) :=
  let '(decrypted_shares, invalid) := acc in
  let '(src_key_id, encrypted_shares) := entry in
  '(decrypted_key_shares, invalid) ←
    foldM (decrypt_share self src_key_id) (∅, invalid) (map_to_list encrypted_shares);
  mret (<[src_key_id := decrypted_key_shares]> decrypted_shares, invalid).

Definition decrypt_all {E : Type} (self : SigningRound)
    : res E (gmap Z (gmap Z Scalar) * list Z) :=
  foldM (decrypt_key_shares self) (∅, []) (map_to_list (shares self)).

(** [format!("{:?}", ids)] *)
Fixpoint debug_ids_tail (ids : list Z) : string :=
  match ids with
  | [] => "]"
  | i :: ids' => ", " +:+ pretty i +:+ debug_ids_tail ids'
  end.
Definition debug_ids (ids : list Z) : string :=
  match ids with
  | [] => "[]"
  | i :: ids' => "[" +:+ pretty i +:+ debug_ids_tail ids'
  end.

Definition end_message (self : SigningRound) (status : DkgStatus) : MessageTypes :=
  MDkgEnd {| de_dkg_id := dkg_id self; de_signer_id := signer_id (signer self);
             de_status := status |}.

Definition dkg_ended {E : Type} : M ST E MessageTypes :=
  self ← get_self;
  '(decrypted_shares, invalid) ← lift (decrypt_all self);
  if bool_decide (invalid = []) then
    let '(fsgn, err) :=
      signer_compute_secrets (frost_signer (signer self)) decrypted_shares
        (btree_values (commitments self)) in
    modify_self (set_frost_signer fsgn) ;;
    mret (end_message self (match err with None => Success | Some e => Failure e end))
  else mret (end_message self (Failure (debug_ids invalid))).

(** *** Signing handlers *)
Definition nonce_request {E : Type} (request : NonceRequest) : M ST E (list MessageTypes) :=
  fun '(self, rng) =>
    let fsgn := frost_signer (signer self) in
    let '(fsgn', nonces, rng') := signer_gen_nonces fsgn rng in
    ((set_frost_signer fsgn' self, rng'),
     Ok [MNonceResponse {| nresp_dkg_id := nr_dkg_id request; nresp_sign_id := nr_sign_id request;
                           nresp_sign_nonce_id := nr_sign_nonce_id request;
                           nresp_signer_id := signer_id (signer self);
                           nresp_key_ids := signer_get_key_ids fsgn;
                           nresp_nonces := nonces |}]).

Definition sign_share_response (self : SigningRound) (request : SignatureShareRequest)
    (id : Z) : MessageTypes :=
  MSignShareResponse
    {| ssresp_dkg_id := ssr_dkg_id request; ssresp_sign_id := ssr_sign_id request;
       ssresp_correlation_id := ssr_correlation_id request; ssresp_signer_id := id;
       ssresp_signature_shares :=
         signer_sign (frost_signer (signer self)) (ssr_message request)
           (nresp_signer_id <$> ssr_nonce_responses request)
           (ssr_nonce_responses request ≫= nresp_key_ids)
           (ssr_nonce_responses request ≫= nresp_nonces) |}.

Fixpoint sign_share_loop (self : SigningRound) (request : SignatureShareRequest)
    (signer_ids : list Z) : list MessageTypes :=
  match signer_ids with
  | [] => []
  | id :: signer_ids' =>
      if id =? signer_id (signer self) then
        sign_share_response self request id :: sign_share_loop self request signer_ids'
      else sign_share_loop self request signer_ids'
  end.

Definition sign_share_request {E : Type} (request : SignatureShareRequest)
    : M ST E (list MessageTypes) :=
  self ← get_self;
  mret (sign_share_loop self request (nresp_signer_id <$> ssr_nonce_responses request)).

(** *** DKG handlers *)
Definition public_share_message (self : SigningRound) (poly : PolyCommitment) : MessageTypes :=
  MDkgPublicShare {| dps_dkg_id := dkg_id self; dps_dkg_public_id := dkg_public_id self;
                     dps_party_id := poly_id poly; dps_public_share := poly |}.

Definition dkg_public_begin : M ST SigningRoundError (list MessageTypes) :=
  self ← get_self;
  polys ← on_rng (fun rng =>
    let '(polys, rng') := signer_get_poly_commitments (frost_signer (signer self)) rng in
    (rng', Ok polys));
  move DkgPublicGather ;;
  mret (public_share_message self <$> polys).

Definition dkg_begin (m : DkgBegin) : M ST SigningRoundError (list MessageTypes) :=
  reset (db_dkg_id m) ;;
  move DkgPublicDistribute ;;
  dkg_public_begin.

Definition encrypt_share {E : Type} (self : SigningRound) (encrypted_shares : gmap Z bytes)
    (entry : Z * Scalar) : M Rng E (gmap Z bytes) :=
  let '(dst_key_id, private_share) := entry in
  dst_public_key ← lift (peer_point self dst_key_id);
  encrypted_share ← with_unwrap
    (encrypt (make_shared_secret (sr_network_private_key self) dst_public_key)
       (scalar_to_bytes private_share));
  mret (<[dst_key_id := encrypted_share]> encrypted_shares).

Definition encrypt_key_shares {E : Type} (self : SigningRound) (msgs : list MessageTypes)
    (entry : Z * gmap Z Scalar) : M Rng E (list MessageTypes) :=
  let '(key_id, private_shares) := entry in
  encrypted_shares ← foldS (encrypt_share self) ∅ (map_to_list private_shares);
  mret (msgs ++ [MDkgPrivateShares {| dprs_dkg_id := dkg_id self; dprs_key_id := key_id;
                                     dprs_private_shares := encrypted_shares |}]).

Definition dkg_private_begin : M ST SigningRoundError (list MessageTypes) :=
  self ← get_self;
  msgs ← on_rng (foldS (encrypt_key_shares self) []
                   (map_to_list (signer_get_shares (frost_signer (signer self)))));
  move DkgPrivateGather ;;
  mret msgs.

Definition dkg_public_share {E : Type} (m : DkgPublicShare) : M ST E (list MessageTypes) :=
  modify_self (fun self =>
    set_commitments (<[dps_party_id m := dps_public_share m]> (commitments self)) self) ;;
  mret [].

Definition dkg_private_shares {E : Type} (m : DkgPrivateShares) : M ST E (list MessageTypes) :=
  modify_self (fun self =>
    set_shares (<[dprs_key_id m := dprs_private_shares m]> (shares self)) self) ;;
  mret [].

(** *** [process] *)
Definition dispatch (message : MessageTypes) : M ST SigningRoundError (list MessageTypes) :=
  match message with
  | MDkgBegin m => dkg_begin m
  | MDkgPrivateBegin _ => dkg_private_begin
  | MDkgPublicShare m => dkg_public_share m
  | MDkgPrivateShares m => dkg_private_shares m
  | MSignShareRequest m => sign_share_request m
  | MNonceRequest m => nonce_request m
  | MDkgEnd _ | MDkgPublicEnd _ | MNonceResponse _ | MSignShareResponse _ => mret []
  end.

Definition end_phase (out : list MessageTypes) : M ST SigningRoundError (list MessageTypes) :=
  self ← get_self;
  if public_shares_done self then
    dkg_end ← dkg_public_ended;
    move DkgPrivateDistribute ;;
    mret (out ++ [dkg_end])
  else if can_dkg_end self then
    dkg_end ← dkg_ended;
    move Idle ;;
    mret (out ++ [dkg_end])
  else mret out.

Definition process (message : MessageTypes) : M ST SigningRoundError (list MessageTypes) :=
  out ← dispatch message;
  end_phase out.
End SigningRound.

(** ** Lemmas and properties *)
Section Properties.
Context {CP : P256k1} {WP : Wsts} {BP : BuildProfile}.
Abbreviation ST := (SigningRound * Rng)%type.
Implicit Types (self : SigningRound) (rng : Rng) (s : ST).

Lemma move_eq (to : States) self rng :
  move to (self, rng) =
  if accepted (state self) to then ((set_state to self, rng), Ok tt)
  else ((self, rng), Err (SRStateMachineError (BadStateChange (state self) to))).
Proof.
  unfold move, on_self, zoom, with_err, move_to, SigningRound_StateMachine, sr_move_to,
    sr_can_move_to. rewrite !M_bind_eq. simpl. by destruct (accepted (state self) to).
Qed.

Lemma state_set_state (to : States) self : state (set_state to self) = to.
Proof. by destruct self. Qed.

(** The states a round is in between two messages. *)
Definition resting (st : States) : bool :=
  bool_decide (st = Idle) || bool_decide (st = DkgPublicGather)
  || bool_decide (st = DkgPrivateDistribute) || bool_decide (st = DkgPrivateGather).

(** What no message changes. *)
Definition static self :=
  (threshold self, total_signers self, total_keys self, signer_id (signer self),
   sr_network_private_key self, sr_public_keys self).

Definition after_reset (new_dkg_id : Z) self rng : ST :=
  let '(fsgn, rng') := signer_reset_polys (frost_signer (signer self)) rng in
  ({| dkg_id := new_dkg_id; dkg_public_id := 0; sign_id := sign_id self;
      sign_nonce_id := sign_nonce_id self; threshold := threshold self;
      total_signers := total_signers self; total_keys := total_keys self;
      signer := {| frost_signer := fsgn; signer_id := signer_id (signer self) |};
      state := state self; commitments := ∅; shares := ∅; public_nonces := [];
      sr_network_private_key := sr_network_private_key self;
      sr_public_keys := sr_public_keys self |}, rng').

Lemma reset_eq {E : Type} (id : Z) self rng :
  reset (E := E) id (self, rng) = (after_reset id self rng, Ok tt).
Proof. unfold reset, after_reset. by destruct (signer_reset_polys _ _). Qed.

(** [dkg_begin] in closed form: the round is reset in every case. *)
Lemma dkg_begin_eq (m : DkgBegin) self rng :
  let '(self1, rng1) := after_reset (db_dkg_id m) self rng in
  let '(polys, rng2) := signer_get_poly_commitments (frost_signer (signer self1)) rng1 in
  dkg_begin m (self, rng) =
  if accepted (state self) DkgPublicDistribute then
    ((set_state DkgPublicGather self1, rng2), Ok (public_share_message self1 <$> polys))
  else
    ((self1, rng1),
     Err (SRStateMachineError (BadStateChange (state self) DkgPublicDistribute))).
Proof.
  destruct (after_reset (db_dkg_id m) self rng) as [self1 rng1] eqn:Hr.
  destruct (signer_get_poly_commitments _ rng1) as [polys rng2] eqn:Hp.
  unfold dkg_begin, dkg_public_begin.
  rewrite M_bind_eq, reset_eq, Hr, M_bind_eq, move_eq.
  assert (state self1 = state self) as ->.
  { unfold after_reset in Hr. destruct (signer_reset_polys _ _). by simplify_eq. }
  destruct (accepted (state self) _); [|done]. rewrite M_bind_eq. simpl.
  rewrite M_bind_eq. unfold on_rng, zoom. simpl.
  assert (frost_signer (signer (set_state DkgPublicDistribute self1)) = frost_signer (signer self1))
    as -> by by destruct self1.
  rewrite Hp, M_bind_eq, move_eq, state_set_state. simpl. by destruct self1.
Qed.

(** The handlers that leave the phase alone. *)
Lemma dispatch_state (m : MessageTypes) self rng :
  match m with
  | MDkgBegin _ | MDkgPrivateBegin _ => True
  | _ => state (dispatch m (self, rng)).1.1 = state self
  end.
Proof.
  destruct m as [m|m|m|m|m|m|m|m|m|m]; simpl; try done.
  - by destruct self.
  - by destruct self.
  - unfold nonce_request. destruct (signer_gen_nonces _ _) as [[??]?]. by destruct self.
Qed.

Lemma dkg_private_begin_eq self rng :
  exists rng' r, dkg_private_begin (self, rng) =
    match r with
    | Ok msgs => (move DkgPrivateGather ;; mret msgs) (self, rng')
    | r => ((self, rng'), r)
    end.
Proof.
  unfold dkg_private_begin. rewrite M_bind_eq. simpl. rewrite M_bind_eq.
  unfold on_rng, zoom. simpl.
  destruct (foldS _ _ _ rng) as [rng' r]. exists rng', r. by destruct r.
Qed.

Lemma dispatch_resting (m : MessageTypes) self rng :
  resting (state self) = true -> resting (state (dispatch m (self, rng)).1.1) = true.
Proof.
  intros Hr. pose proof (dispatch_state m self rng) as Hs.
  destruct m as [m|m|m|m|m|m|m|m|m|m]; try by rewrite Hs.
  - pose proof (dkg_begin_eq m self rng) as Hb.
    destruct (after_reset (db_dkg_id m) self rng) as [self1 rng1] eqn:Ha.
    destruct (signer_get_poly_commitments _ rng1) as [polys rng2].
    simpl. rewrite Hb. unfold after_reset in Ha.
    destruct (signer_reset_polys _ _), (accepted _ _); simplify_eq; by simpl.
  - destruct (dkg_private_begin_eq self rng) as (rng' & r & Heq). simpl. rewrite Heq.
    destruct r; try done. rewrite M_bind_eq, move_eq. by destruct (accepted _ _), self.
Qed.

Lemma dkg_ended_state {E : Type} self rng :
  exists self' r, dkg_ended (E := E) (self, rng) = ((self', rng), r) /\
    state self' = state self /\ static self' = static self.
Proof.
  unfold dkg_ended. rewrite M_bind_eq. simpl. rewrite M_bind_eq. simpl.
  destruct (decrypt_all self) as [[dec inv]| | |]; try by eexists _, _.
  case_bool_decide; [|by eexists _, _].
  destruct (signer_compute_secrets _ _ _) as [fsgn err].
  eexists _, _; split; [done|]. by destruct self.
Qed.

Lemma end_phase_resting (out : list MessageTypes) self rng :
  resting (state self) = true -> resting (state (end_phase out (self, rng)).1.1) = true.
Proof.
  intros Hr. unfold end_phase. rewrite M_bind_eq. simpl.
  destruct (public_shares_done self).
  - rewrite M_bind_eq. simpl. rewrite M_bind_eq, move_eq. by destruct (accepted _ _), self.
  - destruct (can_dkg_end self); [|done]. rewrite M_bind_eq.
    destruct (dkg_ended_state (E := SigningRoundError) self rng) as (self' & r & -> & Hs & _).
    rewrite <-Hs in Hr. destruct r; try done. rewrite M_bind_eq, move_eq. by destruct (accepted _ _), self'.
Qed.

Lemma process_resting (m : MessageTypes) s :
  resting (state s.1) = true -> resting (state (process m s).1.1) = true.
Proof.
  destruct s as [self rng]; intros Hr. unfold process. rewrite M_bind_eq.
  pose proof (dispatch_resting m self rng Hr) as Hd.
  destruct (dispatch m (self, rng)) as [[self1 rng1] []]; try done. by apply end_phase_resting.
Qed.

(** *** What a message cannot change *)
Definition has_static c (s : ST) : Prop := static s.1 = c.

Lemma keeps_static_self {E : Type} c (f : SigningRound -> SigningRound) :
  (forall self, static (f self) = static self) -> keeps (E := E) (has_static c) (modify_self f).
Proof. intros Hf. apply keeps_modify. intros [self rng]. unfold has_static. simpl. by rewrite Hf. Qed.

Lemma keeps_static_move c (to : States) : keeps (has_static c) (move to).
Proof. intros [self rng] Hs. rewrite move_eq. by destruct (accepted _ _), self. Qed.

Lemma keeps_static_rng {E A : Type} c (m : M Rng E A) : keeps (has_static c) (on_rng m).
Proof. intros [self rng] Hs. unfold on_rng, zoom. simpl. by destruct (m rng). Qed.

Lemma keeps_static_dispatch c (m : MessageTypes) : keeps (has_static c) (dispatch m).
Proof.
  destruct m as [m|m|m|m|m|m|m|m|m|m]; simpl; try apply keeps_ret.
  - apply keeps_bind; [|intros _; apply keeps_bind;
      [apply keeps_static_move|intros _]].
    + intros [self rng] Hs. rewrite reset_eq. unfold after_reset.
      by destruct (signer_reset_polys _ _).
    + unfold dkg_public_begin. apply keeps_bind; [apply keeps_gets|intros self].
      apply keeps_bind; [apply keeps_static_rng|intros polys].
      apply keeps_bind; [apply keeps_static_move|intros _; apply keeps_ret].
  - apply keeps_bind; [apply keeps_gets|intros self].
    apply keeps_bind; [apply keeps_static_rng|intros msgs].
    apply keeps_bind; [apply keeps_static_move|intros _; apply keeps_ret].
  - apply keeps_bind; [|intros _; apply keeps_ret]. apply keeps_static_self. by intros [].
  - apply keeps_bind; [|intros _; apply keeps_ret]. apply keeps_static_self. by intros [].
  - intros [self rng] Hs. unfold nonce_request.
    destruct (signer_gen_nonces _ _) as [[??]?]. by destruct self.
  - apply keeps_bind; [apply keeps_gets|intros self; apply keeps_ret].
Qed.

Lemma process_static (m : MessageTypes) s : static (process m s).1.1 = static s.1.
Proof.
  enough (keeps (has_static (static s.1)) (process m)) as Hk by by apply (Hk s).
  apply keeps_bind; [apply keeps_static_dispatch|intros out].
  apply keeps_bind; [apply keeps_gets|intros self].
  destruct (public_shares_done self); [|destruct (can_dkg_end self); [|apply keeps_ret]].
  - apply keeps_bind; [apply keeps_bind; [apply keeps_gets|intros; apply keeps_ret]|intros e].
    apply keeps_bind; [apply keeps_static_move|intros _; apply keeps_ret].
  - apply keeps_bind; [|intros e; apply keeps_bind; [apply keeps_static_move|intros _; apply keeps_ret]].
    intros [self1 rng1] Hs.
    destruct (dkg_ended_state (E := SigningRoundError) self1 rng1) as (self' & r & -> & _ & Hst).
    unfold has_static in *. simpl in *. congruence.
Qed.

(** *** Reachable states *)
Definition process_step (s s' : ST) : Prop := exists m, (process m s).1 = s'.

(** C19: from a freshly configured signer, whatever messages arrive and whatever
    each call returns, the round rests in [Idle], [DkgPublicGather],
    [DkgPrivateDistribute] or [DkgPrivateGather]: [DkgPublicDistribute] is only
    passed through, [SignGather] and [Signed] are never entered; and the
    configured parameters and keys do not change. *)
Theorem reachable_states (fs : FrostSigner) rng rng' self s
    (Hnew : SigningRound_from (E := SigningRoundError) fs rng = (rng', Ok self))
    (Hreach : rtc process_step (self, rng') s) :
  resting (state s.1) = true /\ static s.1 = static self.
Proof.
  assert (resting (state self) = true) as Hinit.
  { unfold SigningRound_from in Hnew.
    repeat (case_match; simplify_eq). done. }
  remember (self, rng') as s0 eqn:Hs0.
  assert (resting (state s0.1) = true /\ static s0.1 = static self) as HI by by subst.
  clear Hs0. induction Hreach as [|s1 s2 s3 [m <-] _ IH]; [done|].
  apply IH. destruct HI as [HI1 HI2]. split; [by apply process_resting|].
  by rewrite process_static.
Qed.

(** *** The public gathering phase *)
Definition run (l : list MessageTypes) : M ST SigningRoundError (list MessageTypes) :=
  foldS (fun out m => o ← process m; mret (out ++ o)) [] l.

Definition share_messages (l : list DkgPublicShare) : list MessageTypes := MDkgPublicShare <$> l.

Definition add_commitments (c : gmap Z PolyCommitment) (l : list DkgPublicShare) :
    gmap Z PolyCommitment :=
  foldl (fun c m => <[dps_party_id m := dps_public_share m]> c) c l.

Lemma add_commitments_cons c m l :
  add_commitments c (m :: l) = add_commitments (<[dps_party_id m := dps_public_share m]> c) l.
Proof. done. Qed.

Lemma set_commitments_twice (c1 c2 : gmap Z PolyCommitment) self :
  set_commitments c2 (set_commitments c1 self) = set_commitments c2 self.
Proof. by destruct self. Qed.

Lemma public_shares_done_eq c self :
  public_shares_done (set_commitments c self)
  = bool_decide (state self = DkgPublicGather) && (Z.of_nat (size c) =? total_keys self).
Proof. by destruct self. Qed.

Lemma process_public_share (m : DkgPublicShare) self rng :
  state self = DkgPublicGather ->
  let c := <[dps_party_id m := dps_public_share m]> (commitments self) in
  process (MDkgPublicShare m) (self, rng) =
  if Z.of_nat (size c) =? total_keys self then
    ((set_state DkgPrivateDistribute (set_commitments c self), rng),
     Ok [MDkgPublicEnd {| de_dkg_id := dkg_id self; de_signer_id := signer_id (signer self);
                         de_status := Success |}])
  else ((set_commitments c self, rng), Ok []).
Proof.
  intros Hst c. unfold process. rewrite M_bind_eq. simpl. unfold end_phase. rewrite M_bind_eq.
  simpl. fold c. rewrite public_shares_done_eq, Hst. simpl.
  destruct (Z.of_nat (size c) =? total_keys self).
  - rewrite M_bind_eq. simpl. rewrite M_bind_eq, move_eq.
    assert (state (set_commitments c self) = DkgPublicGather) as -> by by destruct self.
    simpl. by destruct self.
  - assert (can_dkg_end (set_commitments c self) = false) as ->; [|done].
    unfold can_dkg_end. destruct self; simpl in *; by subst.
Qed.

Lemma add_commitments_dom_mono c (l : list DkgPublicShare) :
  (size c <= size (add_commitments c l))%nat.
Proof. apply (table_grows dps_party_id dps_public_share). Qed.

Lemma public_gather_quiet (l : list DkgPublicShare) self rng (out : list MessageTypes) :
  state self = DkgPublicGather ->
  Z.of_nat (size (add_commitments (commitments self) l)) < total_keys self ->
  foldS (fun out m => o ← process m; mret (out ++ o)) out (share_messages l) (self, rng)
  = ((set_commitments (add_commitments (commitments self) l) self, rng), Ok out).
Proof.
  revert self; induction l as [|m l IH]; intros self Hst Hlt; simpl; [by destruct self|].
  rewrite !M_bind_eq, process_public_share by done.
  pose proof (add_commitments_dom_mono (<[dps_party_id m := dps_public_share m]> (commitments self)) l).
  rewrite add_commitments_cons in *.
  rewrite (proj2 (Z.eqb_neq _ _)) by lia. simpl. rewrite app_nil_r.
  set (self1 := set_commitments _ self).
  assert (commitments self1 = <[dps_party_id m := dps_public_share m]> (commitments self) /\
          state self1 = state self /\ total_keys self1 = total_keys self) as (Hc & Hs & Ht)
    by by destruct self.
  fold (share_messages l). rewrite IH; [|congruence|by rewrite Hc, Ht].
  rewrite Hc. unfold self1. by rewrite set_commitments_twice.
Qed.

(** while gathering public shares a signer stays silent as long as some
    key's commitment is missing, and the message that brings the last one
    makes it announce the end of the phase, once, and get ready to distribute
    private shares; a key that is repeated keeps its latest commitment. *)
Theorem public_gather_ends (l : list DkgPublicShare) (m : DkgPublicShare) self rng
    (Hst : state self = DkgPublicGather)
    (Hbefore : Z.of_nat (size (add_commitments (commitments self) l)) < total_keys self)
    (Hafter : Z.of_nat (size (add_commitments (commitments self) (l ++ [m]))) = total_keys self) :
  run (share_messages l) (self, rng) =
    ((set_commitments (add_commitments (commitments self) l) self, rng), Ok []) /\
  run (share_messages (l ++ [m])) (self, rng) =
    ((set_state DkgPrivateDistribute
        (set_commitments (add_commitments (commitments self) (l ++ [m])) self), rng),
     Ok [MDkgPublicEnd {| de_dkg_id := dkg_id self; de_signer_id := signer_id (signer self);
                         de_status := Success |}]).
Proof.
  split; [by apply public_gather_quiet|].
  unfold run, share_messages. rewrite fmap_app.
  rewrite foldS_app, M_bind_eq, public_gather_quiet by done. simpl.
  set (self1 := set_commitments _ self).
  rewrite !M_bind_eq, process_public_share by by destruct self.
  unfold add_commitments in Hafter. rewrite foldl_app in Hafter. simpl in Hafter.
  fold (add_commitments (commitments self) l) in Hafter.
  assert (commitments self1 = add_commitments (commitments self) l /\ dkg_id self1 = dkg_id self /\
    signer_id (signer self1) = signer_id (signer self) /\
          total_keys self1 = total_keys self) as (-> & -> & -> & ->) by by destruct self.
  rewrite (proj2 (Z.eqb_eq _ _)) by done. simpl. unfold self1.
  rewrite set_commitments_twice. unfold add_commitments. by rewrite foldl_app.
Qed.

(** *** Opening the private shares

    [open_share] is not code but the specification of one step of [dkg_ended]:
    what it makes of one share, [Ok None] when the share is reported as invalid.
    [decrypt_share_eq] says that [decrypt_share] is this step. *)
Definition open_share {E : Type} self (src dst : Z) (private_share : bytes)
    : res E (option Scalar) :=
  if bool_decide (dst ∈ signer_get_key_ids (frost_signer (signer self))) then
    src_public_key ← peer_point self src;
    match decrypt (make_shared_secret (sr_network_private_key self) src_public_key) private_share with
    | Ok plain => Ok (scalar_try_from plain)
    | Err _ => Ok None
    | Panic => Panic
    | Diverge => Diverge
    end
  else Ok (Some scalar_new).

Definition opened self (src dst : Z) (private_share : bytes) : option Scalar :=
  match open_share (E := Empty_set) self src dst private_share with Ok o => o | _ => None end.

Lemma decrypt_share_eq {E : Type} self src acc dst private_share :
  decrypt_share (E := E) self src acc (dst, private_share) =
  o ← no_err (open_share self src dst private_share);
  Ok (match o with
      | Some x => (<[dst := x]> acc.1, acc.2)
      | None => (acc.1, acc.2 ++ [src])
      end).
Proof.
  destruct acc as [dec inv]. unfold decrypt_share, open_share.
  case_bool_decide; [|done]. unfold peer_point, uadd, checked.
  case_match; simpl; [done|]. destruct (pk_key_ids _ !! _); simpl; [|done].
  destruct (point_try_from _); simpl; [|done].
  destruct (decrypt _ _) as [plain| | |]; simpl; [|done..]. by destruct (scalar_try_from plain).
Qed.

Lemma decrypt_share_Ok {E : Type} self src acc dst private_share acc' :
  decrypt_share (E := E) self src acc (dst, private_share) = Ok acc' ->
  acc' = match opened self src dst private_share with
         | Some x => (<[dst := x]> acc.1, acc.2)
         | None => (acc.1, acc.2 ++ [src])
         end.
Proof.
  rewrite decrypt_share_eq. unfold opened.
  intros (o & ->%no_err_Ok_inv & [= <-])%res_bind_Ok_inv. done.
Qed.

Lemma decrypt_shares_spec {E : Type} self src (l : list (Z * bytes)) acc acc' :
  NoDup l.*1 ->
  foldM (decrypt_share (E := E) self src) acc l = Ok acc' ->
  (forall dst, acc'.1 !! dst =
     match (list_to_map l : gmap Z bytes) !! dst with
     | Some ct => match opened self src dst ct with Some x => Some x | None => acc.1 !! dst end
     | None => acc.1 !! dst
     end) /\
  (acc'.2 = [] <-> acc.2 = [] /\ Forall (fun e => is_Some (opened self src e.1 e.2)) l).
Proof.
  revert acc; induction l as [|[dst0 ct0] l IH]; intros acc; rewrite ?fmap_cons; simpl.
  { intros _ [= <-]. split; [done|]. naive_solver. }
  intros [Hni Hnd]%NoDup_cons (acc1 & ->%decrypt_share_Ok & (Hl & Hr)%IH)%res_bind_Ok_inv; [|done].
  split.
  - intros dst. rewrite Hl. destruct (decide (dst = dst0)) as [->|Hne].
    + rewrite lookup_insert_eq, not_elem_of_list_to_map_1 by done.
      destruct (opened self src dst0 ct0); simpl; [by rewrite lookup_insert_eq|done].
    + rewrite (lookup_insert_ne _ dst0) by done.
      destruct (opened self src dst0 ct0); simpl; [by rewrite lookup_insert_ne by done|done].
  - rewrite Hr, Forall_cons. simpl. destruct (opened self src dst0 ct0); simpl.
    + split; [intros [??]; split_and!; eauto|naive_solver].
    + split; [intros [[]%app_eq_nil _]; done|intros (_ & [? [=]] & _)].
Qed.

(** The tables of opened shares, computed without the accumulator. *)
Definition opened_key_shares self (src : Z) (m : gmap Z bytes) : gmap Z Scalar :=
  map_imap (opened self src) m.
Definition opened_shares self : gmap Z (gmap Z Scalar) :=
  map_imap (fun src m => Some (opened_key_shares self src m)) (shares self).

Lemma decrypt_key_shares_Ok {E : Type} self acc src m acc' :
  decrypt_key_shares (E := E) self acc (src, m) = Ok acc' ->
  acc'.1 = <[src := opened_key_shares self src m]> acc.1 /\
  (acc'.2 = [] <-> acc.2 = [] /\ map_Forall (fun dst ct => is_Some (opened self src dst ct)) m).
Proof.
  destruct acc as [dec inv]. unfold decrypt_key_shares.
  intros ([d i] & (Hl & Hr)%decrypt_shares_spec & [= <-])%res_bind_Ok_inv;
    [|apply NoDup_fst_map_to_list].
  simpl in *. rewrite list_to_map_to_list in Hl. split.
  - f_equal. apply map_eq. intros dst. rewrite Hl. unfold opened_key_shares.
    rewrite map_lookup_imap, lookup_empty. destruct (m !! dst); simpl; [|done]. by case_match.
  - rewrite Hr. unfold map_Forall. rewrite Forall_forall. split.
    + intros [? Hf]; split; [done|]. intros dst ct Hd. by apply (Hf (dst, ct)), elem_of_map_to_list.
    + intros [? Hf]; split; [done|]. intros [dst ct] Hd%elem_of_map_to_list. by apply Hf.
Qed.

Definition all_open self : Prop :=
  map_Forall (fun src m => map_Forall (fun dst ct => is_Some (opened self src dst ct)) m)
    (shares self).

Lemma decrypt_all_spec {E : Type} self dec inv :
  decrypt_all (E := E) self = Ok (dec, inv) ->
  dec = opened_shares self /\ (inv = [] <-> all_open self).
Proof.
  unfold decrypt_all.
  assert (forall l acc acc', NoDup l.*1 ->
    foldM (decrypt_key_shares (E := E) self) acc l = Ok acc' ->
    (forall src, acc'.1 !! src =
       match (list_to_map l : gmap Z (gmap Z bytes)) !! src with
       | Some m => Some (opened_key_shares self src m)
       | None => acc.1 !! src
       end) /\
    (acc'.2 = [] <-> acc.2 = [] /\
       Forall (fun e => map_Forall (fun dst ct => is_Some (opened self e.1 dst ct)) e.2) l))
    as Hgen.
  { induction l as [|[src0 m0] l IH]; intros acc acc'; rewrite ?fmap_cons; simpl.
    { intros _ [= <-]. split; [done|]. naive_solver. }
    intros [Hni Hnd]%NoDup_cons (acc1 & (H1 & H2)%decrypt_key_shares_Ok & (Hl & Hr)%IH)%res_bind_Ok_inv;
      [|done].
    split.
    - intros src. rewrite Hl, H1. destruct (decide (src = src0)) as [->|Hne].
      + by rewrite lookup_insert_eq, not_elem_of_list_to_map_1, lookup_insert_eq by done.
      + by rewrite !lookup_insert_ne by done.
    - rewrite Hr, H2, Forall_cons. tauto. }
  intros (Hl & Hr)%Hgen; [|apply NoDup_fst_map_to_list].
  simpl in *. rewrite list_to_map_to_list in Hl. split.
  - apply map_eq. intros src. rewrite Hl. unfold opened_shares.
    rewrite map_lookup_imap, lookup_empty. by destruct (shares self !! src).
  - rewrite Hr. unfold all_open, map_Forall. rewrite Forall_forall. split.
    + intros [_ Hf] src m Hs. by apply (Hf (src, m)), elem_of_map_to_list.
    + intros Hf; split; [done|]. intros [src m] Hs%elem_of_map_to_list. by apply Hf.
Qed.

(** C21: when a signer ends the private phase, it reports success exactly when
    every share addressed to one of its keys was decrypted with the secret it
    shares with the sender and parsed as a scalar, and [wsts] accepts the table
    of those scalars with the public commitments in key order. *)
Theorem dkg_ended_success self rng s' (m : MessageTypes)
    (Hok : dkg_ended (E := SigningRoundError) (self, rng) = (s', Ok m)) :
  m = end_message self Success <->
  all_open self /\
  (signer_compute_secrets (frost_signer (signer self)) (opened_shares self)
     (btree_values (commitments self))).2 = None.
Proof.
  unfold dkg_ended in Hok. rewrite M_bind_eq in Hok. simpl in Hok.
  rewrite M_bind_eq in Hok. simpl in Hok.
  destruct (decrypt_all self) as [[dec inv]| | |] eqn:Hd; try discriminate.
  apply decrypt_all_spec in Hd as [-> Hinv].
  case_bool_decide as Hi.
  - destruct (signer_compute_secrets _ _ _) as [fsgn err] eqn:Hc.
    rewrite M_bind_eq in Hok. simpl in Hok. injection Hok as _ <-.
    apply Hinv in Hi. unfold end_message. destruct err; simpl; split; naive_solver.
  - simpl in Hok. injection Hok as _ <-. unfold end_message. split; [by intros [=]|].
    intros [?%Hinv _]. done.
Qed.

(** *** Delivery of the private shares *)
Lemma encrypt_share_Ok {E : Type} self acc dst x rng rng' acc' :
  encrypt_share (E := E) self acc (dst, x) rng = (rng', Ok acc') ->
  exists pt ct rng1 rng2, peer_point (E := E) self dst = Ok pt /\
    encrypt (make_shared_secret (sr_network_private_key self) pt) (scalar_to_bytes x) rng1
      = (rng2, Ok ct) /\
    acc' = <[dst := ct]> acc.
Proof.
  unfold encrypt_share. rewrite M_bind_eq. unfold lift at 1.
  destruct (peer_point self dst) as [pt| | |]; try discriminate.
  rewrite M_bind_eq. unfold with_unwrap.
  destruct (encrypt _ _ rng) as [rng2 [ct| | |]] eqn:He; try discriminate.
  simpl. intros [= <- <-]. eauto 10.
Qed.

Lemma encrypt_shares_spec {E : Type} self (l : list (Z * Scalar)) acc rng rng' out :
  NoDup l.*1 ->
  foldS (encrypt_share (E := E) self) acc l rng = (rng', Ok out) ->
  (forall dst, (dst ∉ l.*1) -> out !! dst = acc !! dst) /\
  (forall dst x, (dst, x) ∈ l ->
     exists pt ct rng1 rng2, peer_point (E := E) self dst = Ok pt /\
       encrypt (make_shared_secret (sr_network_private_key self) pt) (scalar_to_bytes x) rng1
         = (rng2, Ok ct) /\
       out !! dst = Some ct).
Proof.
  revert acc rng; induction l as [|[dst0 x0] l IH]; intros acc rng; rewrite ?fmap_cons; simpl.
  { intros _ [= _ <-]. set_solver. }
  intros [Hni Hnd]%NoDup_cons (rng1 & acc1 & He & (Hout & Hin)%IH)%M_bind_Ok_inv; [|done].
  apply encrypt_share_Ok in He as (pt & ct & r1 & r2 & Hpt & He & ->). split.
  - intros dst Hd. rewrite Hout by set_solver. rewrite lookup_insert_ne; set_solver.
  - intros dst x [[= -> ->]|Hl]%elem_of_cons; [|eauto].
    exists pt, ct, r1, r2. split_and!; [done|done|]. by rewrite Hout, lookup_insert_eq.
Qed.

Lemma peer_point_Ok {E : Type} (F : Type) self (k : Z) (pt : Point) :
  peer_point (E := E) self k = Ok pt -> peer_point (E := F) self k = Ok pt.
Proof.
  unfold peer_point, uadd, checked. case_match; [done|]. simpl.
  destruct (pk_key_ids _ !! _); simpl; [|done]. destruct (point_try_from _); simpl; [|done]. congruence.
Qed.

Lemma share_opens {E : Type} {CL : P256k1Laws} (sender receiver : SigningRound)
    (src : Z) (private_shares : gmap Z Scalar) (rng rng' : Rng) (m : MessageTypes)
    (Hsend : encrypt_key_shares (E := E) sender [] (src, private_shares) rng = (rng', Ok [m]))
    (Hto : forall dst, dst ∈ signer_get_key_ids (frost_signer (signer receiver)) ->
       forall pt, peer_point (E := Empty_set) sender dst = Ok pt ->
       pt = point_of (sr_network_private_key receiver))
    (Hfrom : peer_point (E := Empty_set) receiver src
             = Ok (point_of (sr_network_private_key sender))) :
  exists encrypted_shares,
    m = MDkgPrivateShares {| dprs_dkg_id := dkg_id sender; dprs_key_id := src;
                             dprs_private_shares := encrypted_shares |} /\
    opened_key_shares receiver src encrypted_shares =
      map_imap (fun dst x =>
        Some (if bool_decide (dst ∈ signer_get_key_ids (frost_signer (signer receiver)))
              then x else scalar_new)) private_shares /\
    map_Forall (fun dst ct => is_Some (opened receiver src dst ct)) encrypted_shares.
Proof.
  unfold encrypt_key_shares in Hsend.
  apply M_bind_Ok_inv in Hsend as (rng1 & enc & Hf & Hm). simpl in Hm. injection Hm as _ <-.
  exists enc. split; [done|].
  apply encrypt_shares_spec in Hf as [Hout Hin]; [|apply NoDup_fst_map_to_list].
  assert (forall dst x, private_shares !! dst = Some x -> exists ct, enc !! dst = Some ct /\
    opened receiver src dst ct =
      Some (if bool_decide (dst ∈ signer_get_key_ids (frost_signer (signer receiver))) then x else scalar_new)) as Hopen.
  { intros dst x Hx. destruct (Hin dst x) as (pt & ct & r1 & r2 & Hpt & He & Hct); [by apply elem_of_map_to_list|].
    exists ct. split; [done|]. unfold opened, open_share. case_bool_decide as Hown; [|done].
    apply (peer_point_Ok Empty_set) in Hpt.
    apply Hto in Hpt as ->; [|done]. rewrite Hfrom. simpl.
    rewrite <-(shared_secret_comm (sr_network_private_key sender)).
    by rewrite (decrypt_encrypt _ _ _ _ _ He), scalar_roundtrip. }
  assert (forall dst, private_shares !! dst = None -> enc !! dst = None) as Hnone.
  { intros dst Hx. rewrite Hout; [by rewrite lookup_empty|].
    intros ([? y] & Hd & Hy)%list_elem_of_fmap. simpl in Hd. subst.
    apply elem_of_map_to_list in Hy. congruence. }
  split.
  - apply map_eq. intros dst. unfold opened_key_shares. rewrite !map_lookup_imap.
    destruct (private_shares !! dst) as [x|] eqn:Hx; simpl; [|by rewrite Hnone].
    destruct (Hopen dst x Hx) as (ct & -> & Ho). exact Ho.
  - intros dst ct Hct. destruct (private_shares !! dst) as [x|] eqn:Hx; [|by rewrite Hnone in Hct].
    destruct (Hopen dst x Hx) as (ct' & Hct' & Ho). simplify_eq. by eexists.
Qed.

(** Shares that all open are decrypted without a report. *)
Lemma decrypt_shares_open {E : Type} self src (l : list (Z * bytes)) acc :
  Forall (fun e => is_Some (opened self src e.1 e.2)) l ->
  exists dec, foldM (decrypt_share (E := E) self src) acc l = Ok (dec, acc.2).
Proof.
  intros Hl. revert acc. induction Hl as [|[dst ct] l [x Hx] _ IH]; intros acc; simpl; [exists acc.1; by destruct acc|].
  rewrite decrypt_share_eq. unfold opened in Hx. simpl in Hx.
  destruct (open_share self src dst ct) as [o| | |]; [|done..]. subst o. simpl. apply (IH (<[dst := x]> acc.1, acc.2)).
Qed.

Lemma decrypt_key_shares_open {E : Type} self acc src (m : gmap Z bytes) :
  map_Forall (fun dst ct => is_Some (opened self src dst ct)) m ->
  decrypt_key_shares (E := E) self acc (src, m) = Ok (<[src := opened_key_shares self src m]> acc.1, acc.2).
Proof.
  intros Hm. destruct acc as [dec inv].
  destruct (decrypt_shares_open (E := E) self src (map_to_list m) (∅, inv)) as [d Hd].
  { apply Forall_forall. intros [dst ct] Hin%elem_of_map_to_list. by apply Hm. }
  assert (decrypt_key_shares (E := E) self (dec, inv) (src, m) = Ok (<[src := d]> dec, inv)) as Hk.
  { unfold decrypt_key_shares. by rewrite Hd. }
  pose proof Hk as [Heq _]%decrypt_key_shares_Ok. simpl in Heq. by rewrite Hk, Heq.
Qed.

(** C20: private shares are delivered.  When [sender] builds the message for its
    key [src] and [receiver], where each knows the other's public key, decrypts
    its entries at the end of the private phase, no entry is reported as invalid,
    and what is stored for [src] are the scalars that were sent, for the keys of
    [receiver], and zero for the other keys. *)
Theorem share_delivery {CL : P256k1Laws} (sender receiver : SigningRound)
    (src : Z) (private_shares : gmap Z Scalar) (rng rng' : Rng) (m : MessageTypes)
    (decrypted : gmap Z (gmap Z Scalar)) (invalid : list Z)
    (Hsend : encrypt_key_shares (E := Empty_set) sender [] (src, private_shares) rng = (rng', Ok [m]))
    (Hto : forall dst, dst ∈ signer_get_key_ids (frost_signer (signer receiver)) ->
       forall pt, peer_point (E := Empty_set) sender dst = Ok pt ->
       pt = point_of (sr_network_private_key receiver))
    (Hfrom : peer_point (E := Empty_set) receiver src
             = Ok (point_of (sr_network_private_key sender))) :
  exists encrypted_shares,
    m = MDkgPrivateShares {| dprs_dkg_id := dkg_id sender; dprs_key_id := src;
                             dprs_private_shares := encrypted_shares |} /\
    decrypt_key_shares (E := SigningRoundError) receiver (decrypted, invalid) (src, encrypted_shares) =
      Ok (<[src := map_imap (fun dst x =>
             Some (if bool_decide (dst ∈ signer_get_key_ids (frost_signer (signer receiver)))
                   then x else scalar_new)) private_shares]> decrypted, invalid).
Proof.
  destruct (share_opens sender receiver src private_shares rng rng' m Hsend Hto Hfrom) as (enc & Hm & Ho & Hall).
  exists enc. split; [exact Hm|]. by rewrite decrypt_key_shares_open, Ho.
Qed.

(** *** Signing *)
Lemma sign_share_loop_eq self request (ids : list Z) :
  sign_share_loop self request ids =
  replicate (length (filter (fun id => id = signer_id (signer self)) ids))
    (sign_share_response self request (signer_id (signer self))).
Proof.
  induction ids as [|id ids IH]; simpl; [done|]. rewrite filter_cons.
  destruct (Z.eqb_spec id (signer_id (signer self))) as [->|Hne].
  - rewrite decide_True by done. simpl. by rewrite IH.
  - by rewrite decide_False by done.
Qed.

Lemma sign_share_answer self rng (request : SignatureShareRequest)
    (Hp : public_shares_done self = false) (Hq : can_dkg_end self = false) :
  process (MSignShareRequest request) (self, rng) =
  ((self, rng),
   Ok (replicate
        (length (filter (fun nr => nresp_signer_id nr = signer_id (signer self))
                   (ssr_nonce_responses request)))
        (sign_share_response self request (signer_id (signer self))))).
Proof.
  unfold process. rewrite M_bind_eq. simpl. unfold end_phase. rewrite M_bind_eq. simpl.
  rewrite Hp, Hq. simpl. by rewrite sign_share_loop_eq, length_filter_fmap.
Qed.

(** C22: outside the ends of the gathering phases, whatever the state and the
    round the request names, a signer answers a signature share request with
    one response per occurrence of its id among the nonce responses, each
    holding the shares [wsts] computes from the message and from all the signer
    ids, key ids and nonces of the request in their order; nothing of its state
    changes. *)
Theorem sign_share_request_answer self rng (request : SignatureShareRequest)
    (Hp : public_shares_done self = false) (Hq : can_dkg_end self = false) :
  let responses := ssr_nonce_responses request in
  process (MSignShareRequest request) (self, rng) =
  ((self, rng),
   Ok (replicate (length (filter (fun nr => nresp_signer_id nr = signer_id (signer self)) responses))
        (MSignShareResponse
          {| ssresp_dkg_id := ssr_dkg_id request; ssresp_sign_id := ssr_sign_id request;
             ssresp_correlation_id := ssr_correlation_id request;
             ssresp_signer_id := signer_id (signer self);
             ssresp_signature_shares :=
               signer_sign (frost_signer (signer self)) (ssr_message request)
                 (map nresp_signer_id responses)
                 (concat (map nresp_key_ids responses)) (concat (map nresp_nonces responses)) |}))).
Proof.
  intros responses. rewrite (sign_share_answer self rng request Hp Hq). unfold sign_share_response.
  assert (forall A (f : NonceResponse -> list A) l, concat (map f l) = l ≫= f) as Hbind.
  { intros A f l. induction l as [|x l IH]; [done|]. rewrite bind_cons, <-IH. done. }
  by rewrite !Hbind.
Qed.

(** *** Restarting DKG *)

(** a signer that has distributed its private shares cannot follow a
    restart of DKG: [DkgBegin] is refused with a state machine error, and the
    commitments and shares gathered so far are nevertheless dropped. *)
Theorem dkg_restart_rejected (m : DkgBegin) self rng
    (Hst : state self = DkgPrivateGather) :
  exists self' rng',
    process (MDkgBegin m) (self, rng) =
      ((self', rng'),
       Err (SRStateMachineError (BadStateChange DkgPrivateGather DkgPublicDistribute))) /\
    state self' = DkgPrivateGather /\ dkg_id self' = db_dkg_id m /\
    commitments self' = ∅ /\ shares self' = ∅.
Proof.
  pose proof (dkg_begin_eq m self rng) as Hb.
  destruct (after_reset (db_dkg_id m) self rng) as [self1 rng1] eqn:Ha.
  destruct (signer_get_poly_commitments _ rng1) as [polys rng2].
  rewrite Hst in Hb. simpl in Hb. exists self1, rng1.
  unfold process. rewrite M_bind_eq. simpl. rewrite Hb. split; [done|].
  unfold after_reset in Ha. destruct (signer_reset_polys _ _). by simplify_eq.
Qed.
End Properties.

(** ** Two configured signers, on the executable cryptography *)
Module Toy.
Import ToyCrypto.
#[export] Instance debug_build : BuildProfile := true.

(** Signer 1 (private key 10) owns keys 1 and 2, signer 2 (key 20) owns 3. *)
Definition public_keys : PublicKeys :=
  {| pk_signers := {[1 := 10; 2 := 20]}; pk_key_ids := {[1 := 10; 2 := 10; 3 := 20]} |}.
Definition config (private_key : Z) : Config :=
  {| cfg_http_relay_url := "http://relay"; cfg_keys_threshold := 2;
     cfg_network_private_key := private_key; cfg_public_keys := public_keys;
     cfg_signer_key_ids := {[1 := [1; 2]; 2 := [3]]}; cfg_coordinator_public_key := 30;
     cfg_total_signers := 2; cfg_total_keys := 3 |}.
Definition frost (id private_key : Z) : FrostSigner :=
  {| fs_config := config private_key; fs_signer_id := id |}.
Definition round_in (id private_key : Z) (key_ids : list Z) (st : States) : SigningRound :=
  {| dkg_id := 1; dkg_public_id := 1; sign_id := 1; sign_nonce_id := 1; threshold := 2;
     total_keys := 3; total_signers := 2;
     signer := {| frost_signer := {| toy_id := id; toy_key_ids := key_ids; toy_total := 3;
                                     toy_ready := false |};
                  signer_id := id |};
     state := st; commitments := ∅; shares := ∅; public_nonces := [];
     sr_network_private_key := private_key; sr_public_keys := public_keys |}.
Definition share (id : Z) : DkgPublicShare :=
  {| dps_dkg_id := 1; dps_dkg_public_id := 0; dps_party_id := id;
     dps_public_share := (id, [2 * id]) |}.
Definition share_request : SignatureShareRequest :=
  {| ssr_dkg_id := 1; ssr_sign_id := 1; ssr_correlation_id := 0;
     ssr_nonce_responses :=
       [{| nresp_dkg_id := 1; nresp_sign_id := 1; nresp_sign_nonce_id := 1; nresp_signer_id := 1;
           nresp_key_ids := [0; 1]; nresp_nonces := [(0, 5); (1, 5)] |}];
     ssr_message := [104; 105] |}.
End Toy.

Module SigningRoundWitness.
Import ToyCrypto.
Import Toy.

Lemma reachable_states_witness :
  resting (state (process (MDkgBegin {| db_dkg_id := 7 |}) (round_in 1 10 [0; 1] Idle, 1)).1.1) = true
  /\ state (process (MDkgBegin {| db_dkg_id := 7 |}) (round_in 1 10 [0; 1] Idle, 1)).1.1
     = DkgPublicGather.
Proof.
  split; [|reflexivity].
  refine (proj1 (reachable_states (frost 1 10) 0 1 (round_in 1 10 [0; 1] Idle) _ _ _)).
  - run.
  - apply rtc_once. exists (MDkgBegin {| db_dkg_id := 7 |}). reflexivity.
Defined.

Lemma public_gather_ends_witness :
  run (share_messages [share 1; share 2; share 2; share 3]) (round_in 1 10 [0; 1] DkgPublicGather, 0) =
  ((set_state DkgPrivateDistribute
      (set_commitments (add_commitments ∅ [share 1; share 2; share 2; share 3])
         (round_in 1 10 [0; 1] DkgPublicGather)), 0),
   Ok [MDkgPublicEnd {| de_dkg_id := 1; de_signer_id := 1; de_status := Success |}]).
Proof.
  refine (proj2 (public_gather_ends [share 1; share 2; share 2] (share 3)
    (round_in 1 10 [0; 1] DkgPublicGather) 0 _ _ _)); run.
Defined.

(** Signer 2 with one share per key, each for its own key. *)
Definition complete_round : SigningRound :=
  let ct src_key x := replicate 12 0 ++ make_shared_secret 20 src_key ++ [x] in
  set_shares {[0 := {[2 := ct 10 2]}; 1 := {[2 := ct 10 102]}; 2 := {[2 := ct 20 202; 1 := []]}]}
    (set_commitments {[1 := (1, [2]); 2 := (2, [4]); 3 := (3, [6])]}
       (round_in 2 20 [2] DkgPrivateGather)).

Lemma dkg_ended_success_witness :
  all_open complete_round /\
  (signer_compute_secrets (frost_signer (signer complete_round)) (opened_shares complete_round)
     (btree_values (commitments complete_round))).2 = None.
Proof.
  apply (dkg_ended_success complete_round 0
    (set_frost_signer (WP := toy_wsts) {| toy_id := 2; toy_key_ids := [2]; toy_total := 3; toy_ready := true |}
       complete_round, 0) (end_message complete_round Success)); run.
Defined.

Definition delivered : Rng * res Empty_set (list MessageTypes) :=
  encrypt_key_shares (E := Empty_set) (round_in 1 10 [0; 1] DkgPrivateDistribute) []
    (0, {[0 := 7; 1 := 8; 2 := 9]}) 0.
Definition delivered_message : MessageTypes :=
  match delivered with (_, Ok [m]) => m | _ => MDkgBegin {| db_dkg_id := 0 |} end.

Lemma share_delivery_witness :
  exists enc,
    delivered_message =
      MDkgPrivateShares {| dprs_dkg_id := 1; dprs_key_id := 0; dprs_private_shares := enc |} /\
    decrypt_key_shares (E := SigningRoundError) (round_in 2 20 [2] DkgPrivateGather) (∅, [5]) (0, enc) =
      Ok ({[0 := {[0 := 0; 1 := 0; 2 := 9]}]}, [5]).
Proof.
  destruct (share_delivery (round_in 1 10 [0; 1] DkgPrivateDistribute)
    (round_in 2 20 [2] DkgPrivateGather) 0 {[0 := 7; 1 := 8; 2 := 9]} 0 3 delivered_message ∅ [5])
    as (enc & Hm & Ho).
  - run.
  - intros dst Hin pt Hpt. apply list_elem_of_singleton in Hin as ->. injection Hpt as <-. run.
  - run.
  - exists enc. split; [exact Hm|]. rewrite Ho. run.
Defined.

(** Two responses in the request: the shares are made for both signers' keys and nonces. *)
Definition two_responses : SignatureShareRequest :=
  {| ssr_dkg_id := 1; ssr_sign_id := 2; ssr_correlation_id := 3;
     ssr_nonce_responses :=
       [{| nresp_dkg_id := 1; nresp_sign_id := 1; nresp_sign_nonce_id := 1; nresp_signer_id := 1;
           nresp_key_ids := [0; 1]; nresp_nonces := [(0, 5); (1, 5)] |};
        {| nresp_dkg_id := 1; nresp_sign_id := 1; nresp_sign_nonce_id := 1; nresp_signer_id := 2;
           nresp_key_ids := [2]; nresp_nonces := [(2, 7)] |}];
     ssr_message := [104; 105] |}.
Lemma sign_share_request_answer_witness :
  process (MSignShareRequest two_responses) (round_in 1 10 [0; 1] SignGather, 0) =
  ((round_in 1 10 [0; 1] SignGather, 0),
   Ok [MSignShareResponse {| ssresp_dkg_id := 1; ssresp_sign_id := 2; ssresp_correlation_id := 3;
         ssresp_signer_id := 1;
         ssresp_signature_shares :=
           signer_sign (frost_signer (signer (round_in 1 10 [0; 1] SignGather))) [104; 105]
             [1; 2] [0; 1; 2] [(0, 5); (1, 5); (2, 7)] |}]).
Proof.
  apply (sign_share_request_answer (round_in 1 10 [0; 1] SignGather) 0 two_responses);
    reflexivity.
Defined.

Lemma dkg_restart_rejected_witness :
  exists self' rng', process (MDkgBegin {| db_dkg_id := 2 |}) (complete_round, 0) =
      ((self', rng'),
       Err (SRStateMachineError (BadStateChange DkgPrivateGather DkgPublicDistribute))) /\
    state self' = DkgPrivateGather /\ dkg_id self' = 2 /\ commitments self' = ∅ /\ shares self' = ∅.
Proof. apply (dkg_restart_rejected {| db_dkg_id := 2 |} complete_round 0). reflexivity. Defined.
End SigningRoundWitness.
