(* ===== verification/DkgRound.v ===== *)
(** * A key generation round of honest signers

    The signers' [SigningRound]s of [frost-signer/src/signing_round.rs], composed:
    every signer processes the same log of messages, the [DkgBegin], the public
    shares the signers answered with, the [DkgPrivateBegin] and the private shares
    they answered with, in whatever order the relay mixed the answers of
    different signers, and with messages that signers ignore in between.
    What the composition relies on of [wsts] is [WstsLaws]: the key ids of
    commitments and shares, and that shares that fit the commitments are
    accepted. *)
From S2P Require Import Prelude Crypto FrostUtil FrostConfig Messages SigningRound.

(** [wsts::v1::Signer]: [share_valid p dst x] says that [x] is the value of the
    polynomial committed to by [p] at key [dst]; key ids count from 0, the ids
    of commitments from 1. *)
Class WstsLaws `{Wsts} := {
  num_keys : WstsSigner -> Z;
  poly_valid : PolyCommitment -> Prop;
  share_valid : PolyCommitment -> Z -> Scalar -> Prop;
  reset_key_ids : forall w rng, signer_get_key_ids (signer_reset_polys w rng).1 = signer_get_key_ids w;
  reset_num_keys : forall w rng, num_keys (signer_reset_polys w rng).1 = num_keys w;
  commitment_ids : forall w rng,
    poly_id <$> (signer_get_poly_commitments w rng).1 = Z.add 1 <$> signer_get_key_ids w;
  commitment_valid : forall w rng p, p ∈ (signer_get_poly_commitments w rng).1 -> poly_valid p;
  commitment_constant : forall w rng p,
    p ∈ (signer_get_poly_commitments w rng).1 -> is_Some (poly_A p !! O);
  shares_keys : forall w src, is_Some (signer_get_shares w !! src) <-> src ∈ signer_get_key_ids w;
  shares_dsts : forall w src m dst, signer_get_shares w !! src = Some m ->
    is_Some (m !! dst) <-> dst ∈ seqZ 0 (num_keys w);
  shares_valid : forall w rng p src m dst x,
    p ∈ (signer_get_poly_commitments w rng).1 -> poly_id p = src + 1 ->
    signer_get_shares w !! src = Some m -> m !! dst = Some x -> share_valid p dst x;
  secrets_computed : forall w shares polys,
    0 < num_keys w -> poly_id <$> polys = seqZ 1 (num_keys w) ->
    (forall p, p ∈ polys -> poly_valid p) ->
    (forall dst p, dst ∈ signer_get_key_ids w -> p ∈ polys ->
       exists m x, shares !! (poly_id p - 1) = Some m /\ m !! dst = Some x /\ share_valid p dst x) ->
    (signer_compute_secrets w shares polys).2 = None
}.

Section DkgRound.
Context {CP : P256k1} {WP : Wsts} {BP : BuildProfile} {CL : P256k1Laws} {WL : WstsLaws}.
Abbreviation ST := (SigningRound * Rng)%type.
Implicit Types (self : SigningRound) (rng : Rng) (s : ST) (w : WstsSigner).

(** ** One signer *)
Lemma run_cons (m : MessageTypes) (l : list MessageTypes) s :
  run (m :: l) s = (o ← process m; os ← run l; mret (o ++ os)) s.
Proof.
  assert (forall l out s, foldS (fun out m => o ← process m; mret (out ++ o)) out l s =
    (os ← run l; mret (out ++ os)) s) as Hacc.
  { clear. induction l as [|m l IH]; intros out s.
    { unfold run. rewrite M_bind_eq. simpl. by rewrite app_nil_r. }
    unfold run. simpl. rewrite !M_bind_eq. destruct (process m s) as [s1 [o| | |]]; simpl; [|done..].
    rewrite (IH (out ++ o)), (IH o), !M_bind_eq. destruct (run l s1) as [s2 [os| | |]]; simpl; [|done..].
    by rewrite app_assoc. }
  unfold run at 1. simpl. rewrite !M_bind_eq. destruct (process m s) as [s1 [o| | |]]; simpl; [|done..].
  by rewrite Hacc.
Qed.

Lemma run_app (l1 l2 : list MessageTypes) s :
  run (l1 ++ l2) s = (o1 ← run l1; o2 ← run l2; mret (o1 ++ o2)) s.
Proof.
  revert s. induction l1 as [|m l1 IH]; intros s.
  { rewrite M_bind_eq. unfold run at 2. simpl. rewrite M_bind_eq. by destruct (run l2 s) as [? []]. }
  simpl. rewrite run_cons, !M_bind_eq, run_cons, M_bind_eq.
  destruct (process m s) as [s1 [o| | |]]; simpl; [|done..]. rewrite !M_bind_eq, IH, M_bind_eq.
  destruct (run l1 s1) as [s2 [o1| | |]]; simpl; [|done..]. rewrite !M_bind_eq.
  destruct (run l2 s2) as [s3 [o2| | |]]; simpl; [|done..]. by rewrite app_assoc.
Qed.

(** The messages a signer ignores: what the others send at the end of their
    phases, and their answers to the coordinator's requests. *)
Definition is_quiet (m : MessageTypes) : Prop :=
  match m with
  | MDkgEnd _ | MDkgPublicEnd _ | MNonceResponse _ | MSignShareResponse _ => True
  | _ => False
  end.

(** Where a signer is in the round: what its state is apart from the random
    numbers, relative to the signer it started as. *)
Record at_phase (start : SigningRound) w (d : Z) (st : States) (cs : gmap Z PolyCommitment)
    (sh : gmap Z (gmap Z bytes)) self : Prop := {
  ap_static : static self = static start;
  ap_signer : frost_signer (signer self) = w;
  ap_dkg_id : dkg_id self = d;
  ap_state : state self = st;
  ap_commitments : commitments self = cs;
  ap_shares : shares self = sh
}.

Lemma static_fields self start : static self = static start ->
  total_keys self = total_keys start /\ signer_id (signer self) = signer_id (signer start) /\
  sr_network_private_key self = sr_network_private_key start /\
  sr_public_keys self = sr_public_keys start.
Proof. unfold static. by intros [= ? ? -> -> -> ->]. Qed.

(** The end of the public phase. *)
Definition public_end (d : Z) start : MessageTypes :=
  MDkgPublicEnd {| de_dkg_id := d; de_signer_id := signer_id (signer start); de_status := Success |}.
Definition success (d : Z) start : MessageTypes :=
  MDkgEnd {| de_dkg_id := d; de_signer_id := signer_id (signer start); de_status := Success |}.

Lemma end_quiet (m : MessageTypes) self rng :
  is_quiet m -> public_shares_done self = false -> can_dkg_end self = false ->
  process m (self, rng) = ((self, rng), Ok []).
Proof.
  intros Hm H1 H2. unfold process. rewrite M_bind_eq.
  assert (dispatch m (self, rng) = ((self, rng), Ok [])) as -> by by destruct m.
  unfold end_phase. rewrite M_bind_eq. simpl. by rewrite H1, H2.
Qed.

Lemma ends_quiet (l : list MessageTypes) self rng :
  Forall is_quiet l -> public_shares_done self = false -> can_dkg_end self = false ->
  run l (self, rng) = ((self, rng), Ok []).
Proof.
  intros Hl H1 H2. induction Hl as [|m l Hm _ IH]; [done|].
  by rewrite run_cons, M_bind_eq, end_quiet, M_bind_eq, IH.
Qed.

Lemma not_public self : state self <> DkgPublicGather -> public_shares_done self = false.
Proof. intros Hs. unfold public_shares_done. by rewrite bool_decide_false. Qed.
Lemma not_private self : state self <> DkgPrivateGather -> can_dkg_end self = false.
Proof. intros Hs. unfold can_dkg_end. by rewrite bool_decide_false. Qed.

(** *** The beginning *)
Definition begun w rng : WstsSigner := (signer_reset_polys w rng).1.
Definition rng_begun w rng : Rng := (signer_get_poly_commitments (begun w rng) (signer_reset_polys w rng).2).2.
Definition polys_of s : list PolyCommitment :=
  let '(w, rng') := signer_reset_polys (frost_signer (signer s.1)) s.2 in
  (signer_get_poly_commitments w rng').1.
Definition public_shares (d : Z) s : list DkgPublicShare :=
  (fun p => {| dps_dkg_id := d; dps_dkg_public_id := 0; dps_party_id := poly_id p;
               dps_public_share := p |}) <$> polys_of s.

Lemma process_begin (b : DkgBegin) self rng :
  accepted (state self) DkgPublicDistribute = true -> 0 < total_keys self ->
  exists self', process (MDkgBegin b) (self, rng) =
    ((self', rng_begun (frost_signer (signer self)) rng),
     Ok (MDkgPublicShare <$> public_shares (db_dkg_id b) (self, rng))) /\
    at_phase self (begun (frost_signer (signer self)) rng) (db_dkg_id b) DkgPublicGather ∅ ∅ self'.
Proof.
  intros Hacc Htot. pose proof (dkg_begin_eq b self rng) as Hb.
  unfold public_shares, polys_of, rng_begun, begun. cbn [fst snd].
  unfold after_reset in Hb. destruct (signer_reset_polys _ rng) as [w rng1]. cbn [fst snd] in *.
  rewrite Hacc in Hb. simpl in Hb. destruct (signer_get_poly_commitments w rng1) as [polys rng2]. cbn [fst snd].
  unfold process. rewrite M_bind_eq.
  change (dispatch (MDkgBegin b)) with (dkg_begin b). rewrite Hb. clear Hb.
  eexists. split.
  - unfold end_phase. rewrite M_bind_eq. simpl.
    unfold public_shares_done. simpl. rewrite map_size_empty.
    rewrite (proj2 (Z.eqb_neq _ _)) by lia. simpl. rewrite <-list_fmap_compose. done.
  - by destruct self.
Qed.

(** *** Gathering public shares *)
Definition public_of (m : MessageTypes) : option DkgPublicShare :=
  match m with MDkgPublicShare p => Some p | _ => None end.
Definition private_of (m : MessageTypes) : option DkgPrivateShares :=
  match m with MDkgPrivateShares p => Some p | _ => None end.

Lemma omap_none {A : Type} (get : MessageTypes -> option A) (l : list MessageTypes) :
  Forall (fun m => get m = None) l -> omap get l = [].
Proof. induction 1 as [|m l Hm _ IH]; [done|]. simpl. by rewrite Hm. Qed.

Lemma omap_sent {A : Type} (sent : A -> MessageTypes) (get : MessageTypes -> option A)
    (Hget : forall a, get (sent a) = Some a) (l : list A) : omap get (sent <$> l) = l.
Proof. induction l as [|a l IH]; [done|]. rewrite fmap_cons. simpl. rewrite Hget. f_equal. exact IH. Qed.

Lemma omap_cons {A : Type} (get : MessageTypes -> option A) (m : MessageTypes) (log : list MessageTypes) :
  omap get (m :: log) = match get m with Some a => a :: omap get log | None => omap get log end.
Proof. done. Qed.

(** A log is read up to the last message that [get] picks. *)
Lemma omap_split_last {A : Type} (get : MessageTypes -> option A) (log : list MessageTypes) :
  omap get log <> [] -> exists pre m a post, log = pre ++ m :: post /\ get m = Some a /\
    omap get log = omap get pre ++ [a] /\ Forall (fun m => get m = None) post.
Proof.
  induction log as [|m log IH]; [done|].
  rewrite omap_cons. intros Hne. destruct (decide (omap get log = [])) as [Hnil|Hsome].
  - rewrite Hnil in *. destruct (get m) as [a|] eqn:Ha; [|done]. exists [], m, a, log.
    split_and!; [done..|]. clear -Hnil. induction log as [|x log IH]; [by constructor|].
    simpl in Hnil. destruct (get x) eqn:Hx; [done|]. constructor; [done|by apply IH].
  - destruct (IH Hsome) as (pre & x & a & post & -> & Hx & Heq & Hpost). exists (m :: pre), x, a, post.
    split_and!; try done. rewrite Heq, omap_cons. by destruct (get m).
Qed.

Lemma quiet_or {A : Type} (get : MessageTypes -> option A) (log : list MessageTypes) :
  Forall (fun m => is_quiet m \/ is_Some (get m)) log -> Forall (fun m => get m = None) log ->
  Forall is_quiet log.
Proof.
  rewrite !Forall_forall. intros H1 H2 m Hm. destruct (H1 m Hm) as [|[a Ha]]; [done|].
  by rewrite (H2 m Hm) in Ha.
Qed.

(** As long as shares are missing, a signer stores them and says nothing. *)
Lemma gather_public_part (start : SigningRound) w (d : Z) (log : list MessageTypes)
    (cs : gmap Z PolyCommitment) self rng :
  Forall (fun m => is_quiet m \/ is_Some (public_of m)) log ->
  Z.of_nat (size (add_commitments cs (omap public_of log))) < total_keys start ->
  at_phase start w d DkgPublicGather cs ∅ self ->
  exists self', run log (self, rng) = ((self', rng), Ok []) /\
    at_phase start w d DkgPublicGather (add_commitments cs (omap public_of log)) ∅ self'.
Proof.
  revert cs self. induction log as [|m log IH]; intros cs self Hlog Hsize Hat; [by exists self|].
  apply Forall_cons in Hlog as [Hm Hlog]. pose proof Hat as [Hst Hw Hd Hs Hcs Hsh].
  destruct (static_fields _ _ Hst) as (Htot & _).
  pose proof (add_commitments_dom_mono cs (omap public_of (m :: log))) as Hmono.
  rewrite run_cons, M_bind_eq. rewrite omap_cons in *. destruct (public_of m) as [p|] eqn:Hp.
  - destruct m; try done. injection Hp as ->. rewrite add_commitments_cons in *.
    pose proof (add_commitments_dom_mono (<[dps_party_id p := dps_public_share p]> cs) (omap public_of log)).
    rewrite process_public_share by done. cbn zeta. rewrite Hcs, Htot, (proj2 (Z.eqb_neq _ _)) by lia.
    destruct (IH _ (set_commitments (<[dps_party_id p := dps_public_share p]> cs) self) Hlog Hsize) as (self' & Hr & Hat'); [destruct self; by split|].
    exists self'. rewrite M_bind_eq, Hr. by split.
  - destruct Hm as [Hm|[p' Hp']]; [|congruence]. rewrite end_quiet; [|done| |].
    + destruct (IH cs self) as (self' & Hr & Hat'); [done|done|done|].
      exists self'. rewrite M_bind_eq, Hr. by split.
    + unfold public_shares_done. rewrite Hcs, Htot, (proj2 (Z.eqb_neq _ _)); [by rewrite andb_false_r|lia].
    + apply not_private. by rewrite Hs.
Qed.

Lemma gather_public (start : SigningRound) w (d : Z) (log : list MessageTypes) self rng :
  Forall (fun m => is_quiet m \/ is_Some (public_of m)) log ->
  let l := omap public_of log in
  NoDup (dps_party_id <$> l) -> l <> [] -> Z.of_nat (length l) = total_keys start ->
  at_phase start w d DkgPublicGather ∅ ∅ self ->
  exists self', run log (self, rng) = ((self', rng), Ok [public_end d start]) /\
    at_phase start w d DkgPrivateDistribute (add_commitments ∅ l) ∅ self'.
Proof.
  intros Hlog l Hnd Hne Hsize Hat.
  destruct (omap_split_last public_of log Hne) as (pre & m & p & post & -> & Hm & Hl & Hpost).
  apply Forall_app in Hlog as [Hpre [_ Hlog]%Forall_cons]. unfold l in *. rewrite Hl in *. clear l Hl.
  pose proof (table_size dps_party_id dps_public_share _ Hnd) as Hall.
  rewrite fmap_app in Hnd. apply NoDup_app in Hnd as (Hnd & _ & _).
  pose proof (table_size dps_party_id dps_public_share _ Hnd) as Hpart.
  fold (add_commitments ∅ (omap public_of pre ++ [p])) in Hall. fold (add_commitments ∅ (omap public_of pre)) in Hpart.
  destruct (gather_public_part start w d pre ∅ self rng) as (self1 & Hr & [Hst Hw Hd Hs Hcs Hsh]); [done| |done|].
  { rewrite Hpart. rewrite length_app in Hsize. simpl in Hsize. lia. }
  destruct (static_fields _ _ Hst) as (Htot & Hid & _ & _).
  destruct m; try done. injection Hm as ->.
  rewrite run_app, M_bind_eq, Hr, M_bind_eq, run_cons, M_bind_eq, process_public_share by done. cbn zeta.
  rewrite Hcs, Htot. unfold add_commitments in *. rewrite foldl_app in *. cbn [foldl] in *.
  rewrite (proj2 (Z.eqb_eq _ _)) by lia. rewrite M_bind_eq, ends_quiet.
  - eexists. split; [simpl; unfold public_end; by rewrite Hd, Hid|]. by destruct self1.
  - by eapply quiet_or.
  - apply not_public. by rewrite state_set_state.
  - apply not_private. by rewrite state_set_state.
Qed.

(** *** Distributing private shares *)
Definition knows self (total : Z) : Prop :=
  forall k, k ∈ seqZ 0 total -> exists pt, peer_point (E := Empty_set) self k = Ok pt.

Lemma encrypt_shares_total {E : Type} self (total : Z) (l : list (Z * Scalar))
    (acc : gmap Z bytes) rng :
  knows self total -> (forall e, e ∈ l -> e.1 ∈ seqZ 0 total) ->
  exists rng' out, foldS (encrypt_share (E := E) self) acc l rng = (rng', Ok out).
Proof.
  intros Hk. revert acc rng. induction l as [|[dst x] l IH]; intros acc rng Hl; simpl; [eauto|].
  rewrite M_bind_eq, M_bind_eq. unfold lift.
  destruct (Hk dst (Hl (dst, x) ltac:(by left))) as [pt Hpt]. rewrite (peer_point_Ok E _ _ _ Hpt).
  rewrite M_bind_eq. unfold with_unwrap.
  destruct (encrypt_total (make_shared_secret (sr_network_private_key self) pt)
    (scalar_to_bytes x) rng) as (rng1 & c & ->). simpl. apply IH. intros e He. apply Hl. by right.
Qed.

(** The message for one key. *)
Definition sends self (e : Z * gmap Z Scalar) (p : DkgPrivateShares) : Prop :=
  dprs_key_id p = e.1 /\ exists rng rng',
    encrypt_key_shares (E := SigningRoundError) self [] e rng = (rng', Ok [MDkgPrivateShares p]).

Lemma encrypt_all_total self (total : Z) (l : list (Z * gmap Z Scalar))
    (acc : list MessageTypes) rng :
  knows self total -> (forall e dst, e ∈ l -> is_Some (e.2 !! dst) -> dst ∈ seqZ 0 total) ->
  exists rng' ps, foldS (encrypt_key_shares (E := SigningRoundError) self) acc l rng
      = (rng', Ok (acc ++ (MDkgPrivateShares <$> ps))) /\ Forall2 (sends self) l ps.
Proof.
  intros Hk. revert acc rng. induction l as [|[src m] l IH]; intros acc rng Hl.
  { exists rng, []. simpl. rewrite app_nil_r. by split; [|constructor]. }
  destruct (encrypt_shares_total (E := SigningRoundError) self total (map_to_list m) ∅ rng)
    as (rng1 & enc & He); [done| |].
  { intros [dst x] Hx%elem_of_map_to_list. apply (Hl (src, m)); [by left|]. simpl. by rewrite Hx. }
  set (p := {| dprs_dkg_id := dkg_id self; dprs_key_id := src; dprs_private_shares := enc |}).
  assert (forall acc, encrypt_key_shares (E := SigningRoundError) self acc (src, m) rng
    = (rng1, Ok (acc ++ [MDkgPrivateShares p]))) as Hmsg.
  { intros acc'. unfold encrypt_key_shares. by rewrite M_bind_eq, He. }
  destruct (IH (acc ++ [MDkgPrivateShares p]) rng1) as (rng' & ps & Hf & Hs).
  { intros e dst Hin. apply Hl. by right. }
  exists rng', (p :: ps). cbn [foldS]. rewrite M_bind_eq, Hmsg, Hf. split.
  - by rewrite <-app_assoc.
  - constructor; [|done]. split; [done|]. exists rng, rng1. apply (Hmsg []).
Qed.

Lemma process_private_begin (b : DkgBegin) (start : SigningRound) w (d total : Z)
    (cs : gmap Z PolyCommitment) self rng :
  at_phase start w d DkgPrivateDistribute cs ∅ self -> knows self total ->
  num_keys w = total -> 0 < total_keys start ->
  exists self' rng' ps, process (MDkgPrivateBegin b) (self, rng) =
      ((self', rng'), Ok (MDkgPrivateShares <$> ps)) /\
    Forall2 (sends self) (map_to_list (signer_get_shares w)) ps /\
    at_phase start w d DkgPrivateGather cs ∅ self'.
Proof.
  intros [Hst Hw Hd Hs Hcs Hsh] Hk Hn Htot. destruct (static_fields _ _ Hst) as (Ht & _).
  destruct (encrypt_all_total self total (map_to_list (signer_get_shares w)) [] rng)
    as (rng1 & ps & Hf & Hps); [done| |].
  { intros [src m] dst Hm%elem_of_map_to_list Hdst. rewrite <-Hn. by eapply shares_dsts. }
  exists (set_state DkgPrivateGather self), rng1, ps. split_and!; [|done|by destruct self].
  unfold process. rewrite M_bind_eq. cbn [dispatch]. unfold dkg_private_begin. rewrite M_bind_eq.
  unfold get_self at 1, gets. cbn [fst]. rewrite M_bind_eq. unfold on_rng, zoom. cbn [snd fst].
  rewrite Hw, Hf. rewrite M_bind_eq, move_eq, Hs. simpl. unfold end_phase. rewrite M_bind_eq. simpl.
  rewrite not_public by by rewrite state_set_state.
  unfold can_dkg_end. destruct self; simpl in *. subst. rewrite map_size_empty.
  rewrite (proj2 (Z.eqb_neq (Z.of_nat 0) _)) by lia. by rewrite andb_false_r.
Qed.

Lemma sends_dom self (e : Z * gmap Z Scalar) (p : DkgPrivateShares) :
  sends self e p -> forall dst, is_Some (dprs_private_shares p !! dst) <-> is_Some (e.2 !! dst).
Proof.
  destruct e as [src m]. intros [Hsrc (rng & rng' & Hs)] dst. unfold encrypt_key_shares in Hs.
  apply M_bind_Ok_inv in Hs as (rng1 & enc & Hf & Hm). injection Hm as _ <-.
  apply encrypt_shares_spec in Hf as [Hout Hin]; [|apply NoDup_fst_map_to_list]. simpl.
  destruct (m !! dst) as [x|] eqn:Hx.
  - destruct (Hin dst x) as (pt & ct & r1 & r2 & _ & _ & Hct); [by apply elem_of_map_to_list|].
    rewrite Hct. split; eauto.
  - rewrite Hout; [by rewrite lookup_empty|].
    intros ([d y] & Hd & Hy)%list_elem_of_fmap. simpl in Hd. subst. apply elem_of_map_to_list in Hy. congruence.
Qed.

(** *** Opening the shares *)
Lemma foldM_total {E A B : Type} (f : B -> A -> res E B) (b : B) (l : list A) :
  (forall b a, a ∈ l -> exists b', f b a = Ok b') -> exists b', foldM f b l = Ok b'.
Proof.
  revert b. induction l as [|a l IH]; intros b Hf; simpl; [eauto|].
  destruct (Hf b a) as [b' ->]; [by left|]. simpl. apply IH. intros b1 a1 Ha. apply Hf. by right.
Qed.

Lemma decrypt_all_total {E : Type} self :
  (forall src m dst ct, shares self !! src = Some m -> m !! dst = Some ct ->
     exists o, open_share (E := Empty_set) self src dst ct = Ok o) ->
  exists r, decrypt_all (E := E) self = Ok r.
Proof.
  intros Ho. unfold decrypt_all. apply foldM_total.
  intros [dec inv] [src m] Hm%elem_of_map_to_list. unfold decrypt_key_shares.
  destruct (foldM_total (decrypt_share (E := E) self src) (∅, inv) (map_to_list m)) as [[d i] ->].
  - intros acc [dst ct] Hct%elem_of_map_to_list. rewrite decrypt_share_eq.
    destruct (Ho src m dst ct Hm Hct) as [o ->]. simpl. eauto.
  - simpl. eauto.
Qed.

Lemma dkg_ended_ok self rng :
  (forall src m dst ct, shares self !! src = Some m -> m !! dst = Some ct ->
     is_Some (opened self src dst ct)) ->
  (signer_compute_secrets (frost_signer (signer self)) (opened_shares self)
     (btree_values (commitments self))).2 = None ->
  dkg_ended (E := SigningRoundError) (self, rng)
    = ((set_frost_signer (signer_compute_secrets (frost_signer (signer self)) (opened_shares self)
          (btree_values (commitments self))).1 self, rng), Ok (end_message self Success)).
Proof.
  intros Ho Hc. destruct (decrypt_all_total (E := SigningRoundError) self) as [[dec inv] Hd].
  { intros src m dst ct Hm Hct. destruct (Ho src m dst ct Hm Hct) as [x Hx]. unfold opened in Hx.
    destruct (open_share self src dst ct); [eauto|done..]. }
  destruct (decrypt_all_spec _ _ _ Hd) as [-> Hinv].
  destruct (signer_compute_secrets _ _ _) as [fsgn err] eqn:He. simpl in Hc. subst err.
  unfold dkg_ended. rewrite M_bind_eq. simpl. rewrite M_bind_eq. simpl. rewrite Hd.
  rewrite bool_decide_true by (apply Hinv; intros src m Hm dst ct Hct; by eapply Ho).
  rewrite He. done.
Qed.

(** *** Gathering private shares *)
Definition add_shares (sh : gmap Z (gmap Z bytes)) (l : list DkgPrivateShares) :
    gmap Z (gmap Z bytes) :=
  foldl (fun sh m => <[dprs_key_id m := dprs_private_shares m]> sh) sh l.

(** As long as shares are missing, a signer stores them and says nothing. *)
Lemma gather_private_part (start : SigningRound) w (d : Z) (log : list MessageTypes)
    (cs : gmap Z PolyCommitment) (sh : gmap Z (gmap Z bytes)) self rng :
  Forall (fun m => is_quiet m \/ is_Some (private_of m)) log ->
  Z.of_nat (size (add_shares sh (omap private_of log))) < total_keys start ->
  at_phase start w d DkgPrivateGather cs sh self ->
  exists self', run log (self, rng) = ((self', rng), Ok []) /\
    at_phase start w d DkgPrivateGather cs (add_shares sh (omap private_of log)) self'.
Proof.
  revert sh self. induction log as [|m log IH]; intros sh self Hlog Hsize Hat; [by exists self|].
  apply Forall_cons in Hlog as [Hm Hlog]. pose proof Hat as [Hst Hw Hd Hs Hcs Hsh].
  destruct (static_fields _ _ Hst) as (Htot & _).
  assert (forall self1 sh1, at_phase start w d DkgPrivateGather cs sh1 self1 ->
    (size sh1 <= size (add_shares sh (omap private_of (m :: log))))%nat -> can_dkg_end self1 = false) as Hnot.
  { intros self1 sh1 [Hst1 _ _ _ _ Hsh1] Hle. destruct (static_fields _ _ Hst1) as (Htot1 & _).
    unfold can_dkg_end. rewrite Hsh1, Htot1, (proj2 (Z.eqb_neq (Z.of_nat (size sh1)) _)) by lia.
    by rewrite andb_false_r. }
  rewrite run_cons, M_bind_eq. rewrite omap_cons in *. destruct (private_of m) as [p|] eqn:Hp.
  - destruct m; try done. injection Hp as ->. set (sh' := <[dprs_key_id p := dprs_private_shares p]> sh) in *.
    assert (at_phase start w d DkgPrivateGather cs sh' (set_shares sh' self)) as Hat1 by (destruct self; by split).
    destruct (IH sh' (set_shares sh' self)) as (self' & Hr & Hat'); [done|done|done|].
    assert (process (MDkgPrivateShares p) (self, rng) = end_phase [] (set_shares sh' self, rng)) as ->.
    { unfold process. rewrite M_bind_eq. simpl. unfold sh'. by rewrite Hsh. }
    unfold end_phase. rewrite M_bind_eq. simpl. rewrite not_public by by rewrite (ap_state _ _ _ _ _ _ _ Hat1).
    rewrite (Hnot _ sh' Hat1) by apply (table_grows dprs_key_id dprs_private_shares sh' (omap private_of log)). simpl.
    exists self'. rewrite M_bind_eq, Hr. by split.
  - destruct Hm as [Hm|[p' Hp']]; [|congruence]. rewrite end_quiet; [|done| |].
    + destruct (IH sh self) as (self' & Hr & Hat'); [done|done|done|].
      exists self'. rewrite M_bind_eq, Hr. by split.
    + apply not_public. by rewrite Hs.
    + apply (Hnot _ sh Hat), (table_grows dprs_key_id dprs_private_shares).
Qed.

(** The last missing share. *)
Lemma process_last_private (start : SigningRound) w (d : Z) (p : DkgPrivateShares)
    (cs : gmap Z PolyCommitment) (sh : gmap Z (gmap Z bytes)) (P : WstsSigner -> Prop) self rng :
  let sh' := <[dprs_key_id p := dprs_private_shares p]> sh in
  Z.of_nat (size sh') = total_keys start -> Z.of_nat (size cs) = total_keys start ->
  (forall self1, at_phase start w d DkgPrivateGather cs sh' self1 ->
     exists fsgn, P fsgn /\ dkg_ended (E := SigningRoundError) (self1, rng)
       = ((set_frost_signer fsgn self1, rng), Ok (end_message self1 Success))) ->
  at_phase start w d DkgPrivateGather cs sh self ->
  exists self', process (MDkgPrivateShares p) (self, rng) = ((self', rng), Ok [success d start]) /\
    static self' = static start /\ state self' = Idle /\ commitments self' = cs /\
    P (frost_signer (signer self')).
Proof.
  intros sh' Hsize Hcsz Hend Hat. set (self1 := set_shares sh' self).
  assert (at_phase start w d DkgPrivateGather cs sh' self1) as Hat1 by (destruct Hat, self; by split).
  assert (process (MDkgPrivateShares p) (self, rng) = end_phase [] (self1, rng)) as ->.
  { unfold process. rewrite M_bind_eq. simpl. unfold self1, sh'. by rewrite (ap_shares _ _ _ _ _ _ _ Hat). }
  destruct (Hend self1 Hat1) as (fsgn & HP & Hf). destruct Hat1 as [Hst _ Hd Hs Hcs Hsh].
  destruct (static_fields _ _ Hst) as (Htot & Hid & _).
  unfold end_phase. rewrite M_bind_eq. simpl. rewrite not_public by by rewrite Hs.
  assert (can_dkg_end self1 = true) as ->.
  { unfold can_dkg_end. rewrite Hs, Hcs, Hsh, Htot, bool_decide_true by done.
    by rewrite (proj2 (Z.eqb_eq _ _) Hcsz), (proj2 (Z.eqb_eq _ _) Hsize). }
  rewrite M_bind_eq, Hf, M_bind_eq, move_eq. eexists. split.
  - simpl. unfold end_message, success. by rewrite Hd, Hid.
  - by destruct self.
Qed.

Lemma gather_private (start : SigningRound) w (d : Z) (log : list MessageTypes)
    (cs : gmap Z PolyCommitment) (P : WstsSigner -> Prop) self rng :
  Forall (fun m => is_quiet m \/ is_Some (private_of m)) log ->
  let l := omap private_of log in
  NoDup (dprs_key_id <$> l) -> l <> [] ->
  Z.of_nat (length l) = total_keys start -> Z.of_nat (size cs) = total_keys start ->
  (forall self1, at_phase start w d DkgPrivateGather cs (add_shares ∅ l) self1 ->
     exists fsgn, P fsgn /\ dkg_ended (E := SigningRoundError) (self1, rng)
       = ((set_frost_signer fsgn self1, rng), Ok (end_message self1 Success))) ->
  at_phase start w d DkgPrivateGather cs ∅ self ->
  exists self', run log (self, rng) = ((self', rng), Ok [success d start]) /\
    static self' = static start /\ state self' = Idle /\ commitments self' = cs /\
    P (frost_signer (signer self')).
Proof.
  intros Hlog l Hnd Hne Hsize Hcsz Hend Hat.
  destruct (omap_split_last private_of log Hne) as (pre & m & p & post & -> & Hm & Hl & Hpost).
  apply Forall_app in Hlog as [Hpre [_ Hlog]%Forall_cons]. unfold l in *. rewrite Hl in *. clear l Hl.
  pose proof (table_size dprs_key_id dprs_private_shares _ Hnd) as Hall.
  rewrite fmap_app in Hnd. apply NoDup_app in Hnd as (Hnd & _ & _).
  pose proof (table_size dprs_key_id dprs_private_shares _ Hnd) as Hpart.
  fold (add_shares ∅ (omap private_of pre ++ [p])) in Hall. fold (add_shares ∅ (omap private_of pre)) in Hpart.
  destruct (gather_private_part start w d pre cs ∅ self rng) as (self1 & Hr & Hat1); [done| |done|].
  { rewrite Hpart. rewrite length_app in Hsize. simpl in Hsize. lia. }
  destruct m; try done. injection Hm as ->. unfold add_shares in *. rewrite foldl_app in *. cbn [foldl] in *.
  match type of Hall with ?x = ?y => assert (Z.of_nat x = total_keys start) as Hfull by by rewrite Hall end.
  destruct (process_last_private start w d p cs _ P self1 rng Hfull Hcsz Hend Hat1)
    as (self2 & Hp & Hst2 & Hidle & Hcs2 & HP).
  exists self2. split; [|done].
  rewrite run_app, M_bind_eq, Hr, M_bind_eq, run_cons, M_bind_eq, Hp, M_bind_eq, ends_quiet; [done|..].
  - by eapply quiet_or.
  - apply not_public. by rewrite Hidle.
  - apply not_private. by rewrite Hidle.
Qed.

(** ** The cluster *)
Definition key_ids s : list Z := signer_get_key_ids (frost_signer (signer s.1)).

(** Signers that hold each key once, agree on the number of keys, may start a
    round, and know each other's public keys. *)
Record cluster (nodes : list ST) (total : Z) : Prop := {
  cl_total : 0 < total < 2 ^ 32;
  cl_keys : nodes ≫= key_ids ≡ₚ seqZ 0 total;
  cl_node : forall s, s ∈ nodes -> total_keys s.1 = total /\
    num_keys (frost_signer (signer s.1)) = total /\ accepted (state s.1) DkgPublicDistribute = true;
  cl_peers : forall s s' k, s ∈ nodes -> s' ∈ nodes -> k ∈ key_ids s' ->
    pk_key_ids (sr_public_keys s.1) !! (k + 1) = Some (pk_of (sr_network_private_key s'.1))
}.

(** What a signer answers, and where it is afterwards. *)
Definition answers (l : list MessageTypes) s : list MessageTypes :=
  match (run l s).2 with Ok out => out | _ => [] end.
Definition after (l : list MessageTypes) s : ST := (run l s).1.

(** A log that consists of the given answers and of ignored messages, in any order. *)
Definition mixes (log out : list MessageTypes) : Prop :=
  exists ends, Forall is_quiet ends /\ log ≡ₚ out ++ ends.

Lemma mixes_omap {A : Type} (sent : A -> MessageTypes) (get : MessageTypes -> option A)
    (log : list MessageTypes) (l : list A) :
  (forall a, get (sent a) = Some a) -> (forall m, is_quiet m -> get m = None) ->
  mixes log (sent <$> l) ->
  Forall (fun m => is_quiet m \/ is_Some (get m)) log /\ omap get log ≡ₚ l.
Proof.
  intros Hget Hnone (ends & Hends & Hp). split; rewrite Hp.
  - apply Forall_app. split; [|eapply Forall_impl; [exact Hends|]; by left].
    apply Forall_fmap, Forall_forall. intros a _. right. simpl. by rewrite Hget.
  - rewrite omap_app, (omap_none get ends) by (eapply Forall_impl; [exact Hends|exact Hnone]).
    by rewrite (omap_sent _ _ Hget), app_nil_r.
Qed.

(** The commitments of the round by party id. *)
Definition commitment_table (d : Z) (nodes : list ST) : gmap Z PolyCommitment :=
  list_to_map ((fun p => (dps_party_id p, dps_public_share p)) <$> (nodes ≫= public_shares d)).

Section Round.
Context (nodes : list ST) (total : Z) (Hc : cluster nodes total).

Lemma key_owner (k : Z) : k ∈ seqZ 0 total -> exists s, s ∈ nodes /\ k ∈ key_ids s.
Proof.
  intros Hk. rewrite <-(cl_keys _ _ Hc) in Hk. apply list_elem_of_bind in Hk as (s & Hs & Hin). eauto.
Qed.
Lemma key_in_range s (k : Z) : s ∈ nodes -> k ∈ key_ids s -> k ∈ seqZ 0 total.
Proof. intros Hs Hk. rewrite <-(cl_keys _ _ Hc). apply list_elem_of_bind. eauto. Qed.

Lemma peer_point_node s s' (k : Z) self : s ∈ nodes -> s' ∈ nodes -> k ∈ key_ids s' ->
  static self = static s.1 ->
  peer_point (E := Empty_set) self k = Ok (point_of (sr_network_private_key s'.1)).
Proof.
  intros Hs Hs' Hk Hst. pose proof (key_in_range s' k Hs' Hk) as Hr. apply elem_of_seqZ in Hr.
  destruct (static_fields _ _ Hst) as (_ & _ & _ & Hpk). unfold peer_point, uadd.
  pose proof (cl_total _ _ Hc). rewrite checked_small by (unfold in_uint; lia). simpl.
  rewrite Hpk, (cl_peers _ _ Hc s s' k) by done. simpl. by rewrite pk_point.
Qed.

Lemma knows_node s self : s ∈ nodes -> static self = static s.1 -> knows self total.
Proof.
  intros Hs Hst k Hk. destruct (key_owner k Hk) as (s' & Hs' & Hin). eexists. exact (peer_point_node s s' k self Hs Hs' Hin Hst).
Qed.

Lemma party_ids (d : Z) : dps_party_id <$> (nodes ≫= public_shares d) = Z.add 1 <$> (nodes ≫= key_ids).
Proof.
  clear Hc. induction nodes as [|s l IH]; [done|]. rewrite !bind_cons, !fmap_app, IH. f_equal.
  unfold public_shares, polys_of, key_ids. pose proof (reset_key_ids (frost_signer (signer s.1)) s.2) as Hk.
  destruct (signer_reset_polys _ _) as [w rng']. simpl in Hk. rewrite <-Hk, <-(commitment_ids w rng').
  by rewrite <-list_fmap_compose.
Qed.

Lemma party_ids_perm (d : Z) : dps_party_id <$> (nodes ≫= public_shares d) ≡ₚ seqZ 1 total.
Proof.
  rewrite party_ids, (cl_keys _ _ Hc). by rewrite (fmap_add_seqZ 1).
Qed.

Lemma party_ids_NoDup (d : Z) : NoDup (dps_party_id <$> (nodes ≫= public_shares d)).
Proof. rewrite party_ids_perm. apply NoDup_seqZ. Qed.

Lemma nodes_NoDup s : s ∈ nodes -> NoDup (key_ids s).
Proof.
  intros Hs. apply list_elem_of_split in Hs as (l1 & l2 & Hl). pose proof (cl_keys _ _ Hc) as Hk.
  assert (NoDup (nodes ≫= key_ids)) as Hnd by (rewrite Hk; apply NoDup_seqZ).
  rewrite Hl, bind_app, bind_cons, !NoDup_app in Hnd. tauto.
Qed.

Definition signer_of s : WstsSigner := begun (frost_signer (signer s.1)) s.2.
Lemma signer_of_keys s : signer_get_key_ids (signer_of s) = key_ids s.
Proof. apply reset_key_ids. Qed.
Lemma signer_of_num s : s ∈ nodes -> num_keys (signer_of s) = total.
Proof. intros Hs. unfold signer_of, begun. rewrite reset_num_keys. apply (cl_node _ _ Hc s Hs). Qed.

(** The random numbers that are left after [DkgBegin]. *)
Definition rng_of s : Rng := rng_begun (frost_signer (signer s.1)) s.2.

(** *** The two answers *)
Context (b pb : DkgBegin) (log1 : list MessageTypes).
Abbreviation d := (db_dkg_id b).
Hypothesis mixed1 : mixes log1 (nodes ≫= answers [MDkgBegin b]).

Lemma node_begin s : s ∈ nodes ->
  exists self1, process (MDkgBegin b) s = ((self1, rng_of s), Ok (MDkgPublicShare <$> public_shares d s)) /\
    at_phase s.1 (signer_of s) d DkgPublicGather ∅ ∅ self1.
Proof.
  intros Hs. destruct (cl_node _ _ Hc s Hs) as (Ht & _ & Hacc). destruct s as [self rng].
  pose proof (cl_total _ _ Hc). apply process_begin; [done|]. simpl in *. lia.
Qed.

Lemma run_one (m : MessageTypes) s : run [m] s = process m s.
Proof.
  rewrite run_cons, M_bind_eq. destruct (process m s) as [s1 [o| | |]]; try done.
  rewrite M_bind_eq. simpl. by rewrite app_nil_r.
Qed.

Lemma answers_begin s : s ∈ nodes -> answers [MDkgBegin b] s = MDkgPublicShare <$> public_shares d s.
Proof. intros Hs. unfold answers. rewrite run_one. by destruct (node_begin s Hs) as (? & -> & _). Qed.

(** *** Parts of the answers *)

(** [q] is some of the answers [out], not all of them. *)
Definition partial (q out : list MessageTypes) : Prop := exists more, more <> [] /\ q ++ more ≡ₚ out.

Lemma partial_omap {A : Type} (sent : A -> MessageTypes) (get : MessageTypes -> option A)
    (q : list MessageTypes) (l : list A) :
  (forall a, get (sent a) = Some a) -> partial q (sent <$> l) ->
  Forall (fun m => is_quiet m \/ is_Some (get m)) q /\ (length (omap get q) < length l)%nat.
Proof.
  intros Hget (more & Hne & Hp).
  assert (forall m, m ∈ q ++ more -> is_Some (get m)) as Hall.
  { intros m. rewrite Hp. intros (a & -> & _)%list_elem_of_fmap. by rewrite Hget. }
  split.
  - apply Forall_forall. intros m Hm. right. apply Hall, elem_of_app. by left.
  - rewrite <-(omap_sent sent get Hget l), <-Hp, omap_app, length_app. destruct more as [|m more]; [done|].
    destruct (Hall m) as [a Ha]; [apply elem_of_app; right; by left|]. simpl. rewrite Ha. simpl. lia.
Qed.

Lemma node_begin_part (q : list MessageTypes) s : s ∈ nodes ->
  partial q (nodes ≫= answers [MDkgBegin b]) -> (run (MDkgBegin b :: q) s).2 = Ok (answers [MDkgBegin b] s).
Proof.
  intros Hs Hq. rewrite (bind_ext_in _ _ _ answers_begin), bind_fmap in Hq.
  destruct (partial_omap MDkgPublicShare public_of q _ (fun _ => eq_refl) Hq) as [Hlog Hlen].
  destruct (node_begin s Hs) as (self1 & Hb & Hat). destruct (cl_node _ _ Hc s Hs) as (Ht & _).
  assert (length (nodes ≫= public_shares d) = Z.to_nat total) as Hall.
  { rewrite <-(length_fmap dps_party_id), (party_ids_perm d). apply length_seqZ. }
  pose proof (table_size_le dps_party_id dps_public_share ∅ (omap public_of q)) as Hsz.
  rewrite map_size_empty in Hsz. pose proof (cl_total _ _ Hc).
  destruct (gather_public_part s.1 (signer_of s) d q ∅ self1 (rng_of s)) as (self2 & Hr & _); [done| |done|].
  - rewrite Ht. unfold add_commitments. lia.
  - rewrite (answers_begin s Hs), run_cons, M_bind_eq, Hb, M_bind_eq, Hr. simpl. by rewrite app_nil_r.
Qed.

Lemma log1_shares : Forall (fun m => is_quiet m \/ is_Some (public_of m)) log1 /\
  omap public_of log1 ≡ₚ nodes ≫= public_shares d.
Proof.
  apply (mixes_omap MDkgPublicShare); [done|by intros []|].
  rewrite <-bind_fmap, <-(bind_ext_in _ _ _ answers_begin). exact mixed1.
Qed.

Lemma table_interval (k : Z) : is_Some (commitment_table d nodes !! k) <-> k ∈ seqZ 1 total.
Proof.
  rewrite <-(party_ids_perm d), list_elem_of_fmap. unfold commitment_table. split.
  - intros [p (m & Hm & <- & _)%table_lookup]; [eauto|apply party_ids_NoDup].
  - intros (m & -> & Hm). exists (dps_public_share m). apply table_lookup; [apply party_ids_NoDup|eauto].
Qed.

Lemma table_keys : btree_keys (commitment_table d nodes) = seqZ 1 total.
Proof. apply btree_keys_interval, table_interval. Qed.

Lemma commitment_table_size : Z.of_nat (size (commitment_table d nodes)) = total.
Proof.
  rewrite <-btree_values_length. unfold btree_values. rewrite length_fmap.
  rewrite <-(length_fmap fst). fold (btree_keys (commitment_table d nodes)). rewrite table_keys, length_seqZ.
  pose proof (cl_total _ _ Hc). lia.
Qed.

(** A commitment of the table: whose it is. *)
Lemma table_poly (k : Z) (p : PolyCommitment) : commitment_table d nodes !! k = Some p ->
  poly_id p = k /\ exists s, s ∈ nodes /\ p ∈ polys_of s.
Proof.
  intros (m & Hm & <- & <-)%table_lookup; [|apply party_ids_NoDup].
  apply list_elem_of_bind in Hm as (s & Hm & Hs). unfold public_shares in Hm.
  apply list_elem_of_fmap in Hm as (q & -> & Hq). simpl. eauto.
Qed.

Lemma node_public s : s ∈ nodes ->
  exists self2, run (MDkgBegin b :: log1) s =
      ((self2, rng_of s), Ok ((MDkgPublicShare <$> public_shares d s) ++ [public_end d s.1])) /\
    at_phase s.1 (signer_of s) d DkgPrivateDistribute (commitment_table d nodes) ∅ self2.
Proof.
  intros Hs. destruct (node_begin s Hs) as (self1 & Hb & Hat1).
  destruct log1_shares as [Hlog Hperm]. destruct (cl_node _ _ Hc s Hs) as (Ht & _).
  pose proof (cl_total _ _ Hc) as Htot.
  assert (Z.of_nat (length (omap public_of log1)) = total) as Hlen.
  { rewrite Hperm, <-(length_fmap dps_party_id), (party_ids_perm d), length_seqZ. lia. }
  destruct (gather_public s.1 (signer_of s) d log1 self1 (rng_of s)) as (self2 & Hr & Hat2); try done.
  - rewrite Hperm. apply party_ids_NoDup.
  - intros Hnil. rewrite Hnil in Hlen. simpl in Hlen. lia.
  - by rewrite Hlen, Ht.
  - exists self2. rewrite run_cons, M_bind_eq, Hb, M_bind_eq, Hr. split; [done|].
    unfold add_commitments in Hat2. rewrite (table_perm _ _ _ _ (party_ids_NoDup d) Hperm) in Hat2. done.
Qed.

Definition privates s : list DkgPrivateShares :=
  omap private_of (answers [MDkgPrivateBegin pb] (after (MDkgBegin b :: log1) s)).

Lemma node_private s : s ∈ nodes ->
  exists self2 rng2 self3 rng3,
    after (MDkgBegin b :: log1) s = (self2, rng2) /\ static self2 = static s.1 /\
    process (MDkgPrivateBegin pb) (self2, rng2) = ((self3, rng3), Ok (MDkgPrivateShares <$> privates s)) /\
    Forall2 (sends self2) (map_to_list (signer_get_shares (signer_of s))) (privates s) /\
    at_phase s.1 (signer_of s) d DkgPrivateGather (commitment_table d nodes) ∅ self3.
Proof.
  intros Hs. destruct (node_public s Hs) as (self2 & Hr & Hat). set (rng2 := rng_of s) in *.
  destruct (cl_node _ _ Hc s Hs) as (Ht & _). pose proof (cl_total _ _ Hc) as Htot.
  destruct (process_private_begin pb s.1 (signer_of s) d total _ self2 rng2 Hat) as
    (self3 & rng3 & ps & Hp & Hsend & Hat3);
    [by eapply (knows_node s); [|apply (ap_static _ _ _ _ _ _ _ Hat)]|by apply signer_of_num|lia|].
  assert (after (MDkgBegin b :: log1) s = (self2, rng2)) as Haft by (unfold after; by rewrite Hr).
  assert (privates s = ps) as Hps.
  { unfold privates, answers. rewrite Haft, run_one, Hp. by apply omap_sent. }
  exists self2, rng2, self3, rng3. rewrite Hps. split_and!; try done. apply (ap_static _ _ _ _ _ _ _ Hat).
Qed.

Lemma private_ids s : s ∈ nodes -> dprs_key_id <$> privates s ≡ₚ key_ids s.
Proof.
  intros Hs. destruct (node_private s Hs) as (self2 & rng2 & self3 & rng3 & _ & _ & _ & Hsend & _).
  assert (dprs_key_id <$> privates s = (map_to_list (signer_get_shares (signer_of s))).*1) as ->.
  { induction Hsend as [|e p l ps [Hp _] _ IH]; [done|]. rewrite !fmap_cons. congruence. }
  apply NoDup_Permutation; [apply NoDup_fst_map_to_list|by apply nodes_NoDup|]. intros k.
  rewrite <-signer_of_keys, <-shares_keys, list_elem_of_fmap. split.
  - intros ([k' m] & -> & Hm%elem_of_map_to_list). eauto.
  - intros [m Hm]. exists (k, m). split; [done|]. by apply elem_of_map_to_list.
Qed.

Lemma private_ids_perm : dprs_key_id <$> (nodes ≫= privates) ≡ₚ seqZ 0 total.
Proof.
  rewrite <-bind_fmap, <-(cl_keys _ _ Hc). apply bind_perm. apply private_ids.
Qed.

(** *** What a signer opens *)
Lemma private_sender s (p : DkgPrivateShares) : s ∈ nodes -> p ∈ privates s ->
  exists self2 m, static self2 = static s.1 /\
    signer_get_shares (signer_of s) !! dprs_key_id p = Some m /\ sends self2 (dprs_key_id p, m) p.
Proof.
  intros Hs Hp. destruct (node_private s Hs) as (self2 & _ & _ & _ & _ & Hst & _ & Hsend & _).
  apply list_elem_of_lookup in Hp as [i Hi].
  destruct (Forall2_lookup_r _ _ _ _ _ Hsend Hi) as ([src m] & He & Hpe).
  pose proof (proj1 Hpe) as Hk. simpl in Hk. subst src. exists self2, m. split_and!; [done| |done].
  apply elem_of_map_to_list. by eapply list_elem_of_lookup_2.
Qed.

(** The shares another signer sent for a key, opened: its own value at every
    key the signer owns. *)
Lemma private_opens s s' (p : DkgPrivateShares) self : s ∈ nodes -> s' ∈ nodes -> p ∈ privates s' ->
  static self = static s.1 -> frost_signer (signer self) = signer_of s ->
  exists m, signer_get_shares (signer_of s') !! dprs_key_id p = Some m /\
    (forall dst, is_Some (dprs_private_shares p !! dst) <-> is_Some (m !! dst)) /\
    opened_key_shares self (dprs_key_id p) (dprs_private_shares p) =
      map_imap (fun dst x => Some (if bool_decide (dst ∈ key_ids s) then x else scalar_new)) m.
Proof.
  intros Hs Hs' Hp Hst Hw. destruct (private_sender s' p Hs' Hp) as (self2 & m & Hst2 & Hm & Hsend).
  exists m. split; [done|]. split; [exact (sends_dom _ _ _ Hsend)|].
  assert (dprs_key_id p ∈ key_ids s') as Hkey.
  { rewrite <-signer_of_keys. apply shares_keys. by rewrite Hm. }
  destruct (static_fields _ _ Hst) as (_ & _ & Hpk & _), (static_fields _ _ Hst2) as (_ & _ & Hpk2 & _).
  destruct Hsend as [_ (rng & rng' & Henc)].
  edestruct (share_opens self2 self _ m _ _ _ Henc) as (enc & Heq & Hopen & _).
  - rewrite Hw, signer_of_keys. intros dst Hdst pt.
    rewrite (peer_point_node s' s dst self2 Hs' Hs Hdst Hst2), Hpk. congruence.
  - rewrite Hpk2. exact (peer_point_node s s' _ self Hs Hs' Hkey Hst).
  - injection Heq as Heq. rewrite Heq. simpl. rewrite Hopen, Hw, signer_of_keys. done.
Qed.

(** *** The private phase *)
Lemma answers_private s : s ∈ nodes ->
  answers [MDkgPrivateBegin pb] (after (MDkgBegin b :: log1) s) = MDkgPrivateShares <$> privates s.
Proof.
  intros Hs. destruct (node_private s Hs) as (self2 & rng2 & self3 & rng3 & Haft & _ & Hp & _).
  unfold answers. by rewrite Haft, run_one, Hp.
Qed.

Lemma node_private_part (q : list MessageTypes) s : s ∈ nodes ->
  partial q (nodes ≫= (fun s => answers [MDkgPrivateBegin pb] (after (MDkgBegin b :: log1) s))) ->
  (run (MDkgBegin b :: log1 ++ MDkgPrivateBegin pb :: q) s).2 =
    Ok ((MDkgPublicShare <$> public_shares d s) ++ [public_end d s.1] ++ (MDkgPrivateShares <$> privates s)).
Proof.
  intros Hs Hq. rewrite (bind_ext_in _ _ _ answers_private), bind_fmap in Hq.
  destruct (partial_omap MDkgPrivateShares private_of q _ (fun _ => eq_refl) Hq) as [Hlog Hlen].
  destruct (node_public s Hs) as (self2 & Hr & _). set (rng2 := rng_of s) in *.
  destruct (node_private s Hs) as (self2' & rng2' & self3 & rng3 & Haft & _ & Hp & _ & Hat3).
  unfold after in Haft. rewrite Hr in Haft. injection Haft as <- <-.
  assert (length (nodes ≫= privates) = Z.to_nat total) as Hall.
  { rewrite <-(length_fmap dprs_key_id), private_ids_perm. apply length_seqZ. }
  pose proof (table_size_le dprs_key_id dprs_private_shares ∅ (omap private_of q)) as Hsz.
  rewrite map_size_empty in Hsz. pose proof (cl_total _ _ Hc). destruct (cl_node _ _ Hc s Hs) as (Ht & _).
  destruct (gather_private_part s.1 (signer_of s) d q (commitment_table d nodes) ∅ self3 rng3) as (self4 & Hr4 & _); [done| |exact Hat3|].
  - rewrite Ht. unfold add_shares. lia.
  - rewrite app_comm_cons, run_app, M_bind_eq, Hr, M_bind_eq, run_cons, M_bind_eq, Hp, M_bind_eq, Hr4.
    simpl. by rewrite !app_nil_r, <-app_assoc.
Qed.

Context (log2 : list MessageTypes).
Hypothesis mixed2 : mixes log2 (nodes ≫= (fun s => answers [MDkgPrivateBegin pb] (after (MDkgBegin b :: log1) s))).

Lemma log2_shares : Forall (fun m => is_quiet m \/ is_Some (private_of m)) log2 /\
  omap private_of log2 ≡ₚ nodes ≫= privates.
Proof.
  apply (mixes_omap MDkgPrivateShares); [done|by intros []|].
  rewrite <-bind_fmap, <-(bind_ext_in _ _ _ answers_private). exact mixed2.
Qed.

(** The gathered shares, one message per key. *)
Lemma gathered_lookup (src : Z) (m : gmap Z bytes) :
  add_shares ∅ (omap private_of log2) !! src = Some m <->
  exists s p, s ∈ nodes /\ p ∈ privates s /\ dprs_key_id p = src /\ dprs_private_shares p = m.
Proof.
  destruct log2_shares as [_ Hperm]. pose proof private_ids_perm as Hids.
  assert (NoDup (dprs_key_id <$> (nodes ≫= privates))) as Hnd by (rewrite Hids; apply NoDup_seqZ).
  unfold add_shares. rewrite (table_perm _ _ _ _ Hnd Hperm), (table_lookup _ _ _ _ _ Hnd). split.
  - intros (p & Hp & <- & <-). apply list_elem_of_bind in Hp as (s & Hp & Hs). eauto 6.
  - intros (s & p & Hs & Hp & <- & <-). exists p. split; [|done]. apply list_elem_of_bind. eauto.
Qed.

(** Where the last share is expected, a signer holds what [wsts] asks for. *)
Lemma gathered_open s self : s ∈ nodes ->
  at_phase s.1 (signer_of s) d DkgPrivateGather (commitment_table d nodes)
    (add_shares ∅ (omap private_of log2)) self -> all_open self.
Proof.
  intros Hs [Hst Hw _ _ _ Hsh] src m Hm dst ct Hct. rewrite Hsh in Hm.
  apply gathered_lookup in Hm as (s' & p & Hs' & Hp & <- & <-).
  destruct (private_opens s s' p self Hs Hs' Hp Hst Hw) as (m & _ & Hdom & Hopen).
  destruct (proj1 (Hdom dst) ltac:(by rewrite Hct)) as [x Hx].
  assert (opened_key_shares self (dprs_key_id p) (dprs_private_shares p) !! dst
    = opened self (dprs_key_id p) dst ct) as <-.
  { unfold opened_key_shares. by rewrite map_lookup_imap, Hct. }
  rewrite Hopen, map_lookup_imap, Hx. simpl. eauto.
Qed.

Lemma gathered_share s s' (p : PolyCommitment) (dst : Z) self :
  s ∈ nodes -> s' ∈ nodes -> p ∈ polys_of s' -> dst ∈ key_ids s ->
  at_phase s.1 (signer_of s) d DkgPrivateGather (commitment_table d nodes)
    (add_shares ∅ (omap private_of log2)) self ->
  exists m x, opened_shares self !! (poly_id p - 1) = Some m /\ m !! dst = Some x /\ share_valid p dst x.
Proof.
  intros Hs Hs' Hp Hdst [Hst Hw _ _ _ Hsh]. unfold polys_of in Hp.
  pose proof (reset_key_ids (frost_signer (signer s'.1)) s'.2) as Hreset.
  assert (signer_of s' = (signer_reset_polys (frost_signer (signer s'.1)) s'.2).1) as Hw' by done.
  destruct (signer_reset_polys (frost_signer (signer s'.1)) s'.2) as [w' rng']. simpl in Hreset, Hw', Hp.
  assert (poly_id p - 1 ∈ key_ids s') as Hk.
  { pose proof (list_elem_of_fmap_2 poly_id _ _ Hp) as Hid. rewrite commitment_ids in Hid.
    apply list_elem_of_fmap in Hid as (k & -> & Hk). replace (1 + k - 1) with k by lia.
    unfold key_ids. by rewrite <-Hreset. }
  rewrite <-(private_ids s' Hs') in Hk. apply list_elem_of_fmap in Hk as (q & Hq & Hin).
  destruct (private_opens s s' q self Hs Hs' Hin Hst Hw) as (m & Hm & _ & Hopen).
  rewrite Hw', <-Hq in Hm.
  destruct (proj2 (shares_dsts _ _ _ dst Hm)) as [x Hx].
  { rewrite <-Hw', (signer_of_num s' Hs'). by apply (key_in_range s). }
  exists (opened_key_shares self (dprs_key_id q) (dprs_private_shares q)), x. split_and!.
  - unfold opened_shares. rewrite map_lookup_imap, Hsh, Hq.
    rewrite (proj2 (gathered_lookup (dprs_key_id q) (dprs_private_shares q))) by eauto 8. done.
  - rewrite Hopen, map_lookup_imap, Hx. simpl. by rewrite bool_decide_true.
  - eapply shares_valid; [exact Hp| |exact Hm|done]. lia.
Qed.

Lemma table_poly_ids : poly_id <$> btree_values (commitment_table d nodes) = seqZ 1 total.
Proof.
  rewrite <-table_keys. unfold btree_values, btree_keys. rewrite <-list_fmap_compose.
  apply list_fmap_ext. intros i [k p] Hi. simpl.
  apply list_elem_of_lookup_2, elem_of_btree_entries in Hi. by apply table_poly.
Qed.

Lemma table_valid (p : PolyCommitment) : p ∈ btree_values (commitment_table d nodes) -> poly_valid p.
Proof.
  intros [k Hk]%elem_of_btree_values. apply table_poly in Hk as (_ & s' & Hs' & Hp).
  unfold polys_of in Hp. destruct (signer_reset_polys _ _) as [w' rng']. by eapply commitment_valid.
Qed.

(** [w] is what [wsts] makes of [s]'s signer and shares for the round's commitments. *)
Definition computed s w : Prop :=
  exists sh, w = (signer_compute_secrets (signer_of s) sh (btree_values (commitment_table d nodes))).1 /\
    (signer_compute_secrets (signer_of s) sh (btree_values (commitment_table d nodes))).2 = None.

Lemma node_ends s self rng : s ∈ nodes ->
  at_phase s.1 (signer_of s) d DkgPrivateGather (commitment_table d nodes)
    (add_shares ∅ (omap private_of log2)) self ->
  exists fsgn, computed s fsgn /\ dkg_ended (E := SigningRoundError) (self, rng)
    = ((set_frost_signer fsgn self, rng), Ok (end_message self Success)).
Proof.
  intros Hs Hat. pose proof (gathered_open s self Hs Hat) as Hopen.
  pose proof Hat as [_ Hw _ _ Hcs _].
  assert ((signer_compute_secrets (signer_of s) (opened_shares self)
             (btree_values (commitment_table d nodes))).2 = None) as Hnone.
  { apply secrets_computed.
    - rewrite signer_of_num by done. by apply (cl_total _ _ Hc).
    - by rewrite signer_of_num, table_poly_ids.
    - apply table_valid.
    - intros dst p Hdst [k Hk]%elem_of_btree_values. apply table_poly in Hk as (_ & s' & Hs' & Hp).
      rewrite signer_of_keys in Hdst. by apply (gathered_share s s'). }
  eexists. split; [|apply dkg_ended_ok].
  - exists (opened_shares self). by rewrite Hw, Hcs.
  - intros src m dst ct Hm. exact (Hopen src m Hm dst ct).
  - by rewrite Hw, Hcs.
Qed.

Lemma node_round s : s ∈ nodes ->
  exists self2 rng2, run (MDkgBegin b :: log1 ++ MDkgPrivateBegin pb :: log2) s =
      ((self2, rng2), Ok ((MDkgPublicShare <$> public_shares d s) ++ [public_end d s.1] ++
                          (MDkgPrivateShares <$> privates s) ++ [success d s.1])) /\
    static self2 = static s.1 /\ state self2 = Idle /\
    commitments self2 = commitment_table d nodes /\ computed s (frost_signer (signer self2)).
Proof.
  intros Hs. destruct (node_public s Hs) as (self2 & Hr & Hat2). set (rng2 := rng_of s) in *.
  destruct (node_private s Hs) as (self2' & rng2' & self3 & rng3 & Haft & _ & Hp & _ & Hat3).
  unfold after in Haft. rewrite Hr in Haft. injection Haft as <- <-.
  destruct (cl_node _ _ Hc s Hs) as (Ht & _). pose proof (cl_total _ _ Hc) as Htot.
  destruct log2_shares as [Hlog Hperm].
  assert (Z.of_nat (length (omap private_of log2)) = total) as Hlen.
  { rewrite Hperm, <-(length_fmap dprs_key_id), private_ids_perm, length_seqZ. lia. }
  destruct (gather_private s.1 (signer_of s) d log2 (commitment_table d nodes) (computed s) self3 rng3)
    as (self4 & Hr4 & Hst4 & Hidle & Hcs4 & Hcomp); try done.
  - rewrite Hperm, private_ids_perm. apply NoDup_seqZ.
  - intros Hnil. rewrite Hnil in Hlen. simpl in Hlen. lia.
  - by rewrite Hlen, Ht.
  - by rewrite commitment_table_size.
  - intros self5. by apply node_ends.
  - exists self4, rng3. split; [|done].
    rewrite app_comm_cons, run_app, M_bind_eq, Hr, M_bind_eq, run_cons, M_bind_eq, Hp, M_bind_eq, Hr4.
    simpl. by rewrite <-!app_assoc.
Qed.
End Round.

(** a round of honest signers ends. When signers that hold each of the
    [total] keys once and know each other's public keys each process [DkgBegin],
    then all the answers to it, then [DkgPrivateBegin], then all the answers to
    that one - the answers in any order, with any messages that signers ignore in
    between - no signer fails or panics. Each answers with its public shares, the end of the public phase, the shares of each of
    its keys once, and [DkgEnd] with success; each ends idle with its
    configuration unchanged, and all of them with the same commitments, those of
    the keys 1 to [total]. *)
Theorem dkg_round_succeeds (nodes : list ST) (total : Z) (b pb : DkgBegin)
    (log1 log2 : list MessageTypes) s
    (Hc : cluster nodes total)
    (H1 : mixes log1 (nodes ≫= answers [MDkgBegin b]))
    (H2 : mixes log2 (nodes ≫= (fun s => answers [MDkgPrivateBegin pb] (after (MDkgBegin b :: log1) s))))
    (Hs : s ∈ nodes) :
  exists self rng ps,
    run (MDkgBegin b :: log1 ++ MDkgPrivateBegin pb :: log2) s =
      ((self, rng), Ok ((MDkgPublicShare <$> public_shares (db_dkg_id b) s) ++
                        [public_end (db_dkg_id b) s.1] ++
                        (MDkgPrivateShares <$> ps) ++ [success (db_dkg_id b) s.1])) /\
    dprs_key_id <$> ps ≡ₚ key_ids s /\
    static self = static s.1 /\ state self = Idle /\
    commitments self = commitment_table (db_dkg_id b) nodes /\
    btree_keys (commitments self) = seqZ 1 total.
Proof.
  destruct (node_round nodes total Hc b pb log1 H1 log2 H2 s Hs) as (self & rng & Hr & Hst & Hi & Hcs & _).
  exists self, rng, (privates b pb log1 s). split; [exact Hr|]. rewrite Hcs. split_and!; try done.
  - by apply private_ids with (nodes := nodes) (total := total).
  - by apply table_keys.
Qed.
End DkgRound.

(** The toy signers satisfy the laws: the share of key [src] for [dst] is
    [100 * src + dst]. *)
Module DkgToy.
Import ToyCrypto.

Lemma toy_share_lookup (f : Z -> Z) (l : list Z) (k : Z) (x : Z) :
  (list_to_map ((fun i => (i, f i)) <$> l) : gmap Z Z) !! k = Some x -> x = f k.
Proof. intros (i & [= <- <-] & _)%elem_of_list_to_map_2%list_elem_of_fmap. done. Qed.

Lemma toy_is_Some {V : Type} (f : Z -> V) (l : list Z) (k : Z) :
  is_Some ((list_to_map ((fun i => (i, f i)) <$> l) : gmap Z V) !! k) <-> k ∈ l.
Proof.
  split.
  - intros [x (i & [= <- _] & Hi)%elem_of_list_to_map_2%list_elem_of_fmap]. done.
  - intros Hk. apply not_eq_None_Some. intros Hn%not_elem_of_list_to_map_2. apply Hn.
    apply list_elem_of_fmap. exists (k, f k). split; [done|]. apply list_elem_of_fmap. eauto.
Qed.

#[export] Program Instance toy_wsts_laws : WstsLaws := {|
  num_keys := toy_total;
  poly_valid p := p.2 = [2 * p.1];
  share_valid p dst x := x = 100 * (p.1 - 1) + dst
|}.
Next Obligation. done. Qed.
Next Obligation. done. Qed.
Next Obligation.
  intros w rng. simpl. rewrite <-list_fmap_compose. apply list_fmap_ext. intros i k _. simpl. lia.
Qed.
Next Obligation. intros w rng p (k & -> & _)%list_elem_of_fmap. done. Qed.
Next Obligation. intros w rng p (k & -> & _)%list_elem_of_fmap. simpl. eauto. Qed.
Next Obligation. intros w src. apply toy_is_Some. Qed.
Next Obligation.
  intros w src m dst Hm. simpl in Hm. apply elem_of_list_to_map_2, list_elem_of_fmap in Hm as (k & [= -> ->] & _).
  apply toy_is_Some.
Qed.
Next Obligation.
  intros w rng p src m dst x _ Hid Hm Hx. simpl in *.
  apply elem_of_list_to_map_2, list_elem_of_fmap in Hm as (k & [= -> ->] & _).
  rewrite (toy_share_lookup (fun dst => 100 * k + dst) _ _ _ Hx), Hid. lia.
Qed.
Next Obligation.
  intros w shares polys Hpos Hids _ _. simpl in *. apply (f_equal length) in Hids.
  rewrite length_fmap, length_seqZ in Hids. by rewrite bool_decide_true by lia.
Qed.
End DkgToy.

Module DkgRoundWitness.
Import ToyCrypto.
Import Toy.
Import DkgToy.

Definition node1 : SigningRound * Rng := (round_in 1 10 [0; 1] Idle, 0).
Definition node2 : SigningRound * Rng := (round_in 2 20 [2] Idle, 6).
Definition seven : DkgBegin := {| db_dkg_id := 7 |}.
(** The answers of the second signer come first, an early end in between. *)
Definition first_log : list MessageTypes :=
  answers [MDkgBegin seven] node2 ++ public_end 7 node2.1 :: answers [MDkgBegin seven] node1.
Definition private_answers (s : SigningRound * Rng) : list MessageTypes :=
  answers [MDkgPrivateBegin seven] (after (MDkgBegin seven :: first_log) s).
Definition second_log : list MessageTypes :=
  private_answers node1 ++ private_answers node2 ++ [success 7 node1.1].

Lemma toy_nodes s : s ∈ [node1; node2] -> s = node1 \/ s = node2.
Proof. set_solver. Qed.

Lemma toy_cluster : cluster [node1; node2] 3.
Proof.
  split.
  - done.
  - reflexivity.
  - intros s [-> | ->]%toy_nodes; by vm_compute.
  - intros s s' k [-> | ->]%toy_nodes [-> | ->]%toy_nodes Hk; unfold key_ids in Hk; simpl in Hk;
      repeat (apply elem_of_cons in Hk as [-> | Hk]; [done|]); by apply elem_of_nil in Hk.
Qed.

Lemma dkg_round_succeeds_witness :
  exists self rng ps,
    run (MDkgBegin seven :: first_log ++ MDkgPrivateBegin seven :: second_log) node2 =
      ((self, rng), Ok ([MDkgPublicShare {| dps_dkg_id := 7; dps_dkg_public_id := 0; dps_party_id := 3;
                                            dps_public_share := (3, [6]) |}] ++
                        [public_end 7 node2.1] ++ (MDkgPrivateShares <$> ps) ++ [success 7 node2.1])) /\
    dprs_key_id <$> ps ≡ₚ [2] /\ state self = Idle /\
    commitments self = {[1 := (1, [2]); 2 := (2, [4]); 3 := (3, [6])]}.
Proof.
  destruct (dkg_round_succeeds [node1; node2] 3 seven seven first_log second_log node2)
    as (self & rng & ps & Hr & Hps & _ & Hi & Hcs & _).
  - apply toy_cluster.
  - exists [public_end 7 node2.1]. split; [by repeat constructor|].
    unfold first_log. rewrite !bind_cons. simpl. solve_Permutation.
  - exists [success 7 node1.1]. split; [by repeat constructor|].
    unfold second_log, private_answers. rewrite !bind_cons. simpl. solve_Permutation.
  - by right; left.
  - exists self, rng, ps. split_and!; [exact Hr|exact Hps|exact Hi|]. rewrite Hcs. vm_compute. reflexivity.
Defined.
End DkgRoundWitness.
