(* ===== verification/Net.v ===== *)
(** * [frost-signer/src/net.rs]: message transport

    [NetListen] is the interface the signer and the coordinator are written
    against; [HttpNetListen] implements it over the relay's HTTP interface.  The
    HTTP client ([ureq]), [bincode] and the retry policy ([backoff]) are external:
    [HttpClient] gives their calls as functions on a network state. *)
From stdpp Require Import pretty.
From S2P Require Import Prelude Crypto Messages.

(** [trait NetListen]: [&self] methods with network effects also thread the
    state. *)
Class NetListen `{CP : P256k1, WP : !Wsts} (N : Type) := {
  NetError : Type;
  net_listen : N -> N;
  net_poll : Z -> N -> N;
  net_next_message : N -> N * option Message;
  net_send_message : Message -> M N NetError unit
}.

(** A network that has finitely many messages left to deliver: each one uses up
    some of its budget, and sending does not add to it. *)
Class FiniteNet {CP : P256k1} {WP : Wsts} {N : Type} {NL : NetListen N} := {
  net_budget : N -> nat;
  net_budget_next : forall id n n' r,
    net_next_message (net_poll id n) = (n', r) ->
    (net_budget n' + (if r is Some _ then 1 else 0) <= net_budget n)%nat;
  net_budget_send : forall m n n' r,
    net_send_message m n = (n', r) -> (net_budget n' <= net_budget n)%nat /\ r <> Diverge
}.

(** A network that delivers: [net_pending n l sent] says that [l] is what the
    next polls deliver, whatever is sent in between, and [sent] what was sent. *)
Class DeliveringNet {CP : P256k1} {WP : Wsts} {N : Type} {NL : NetListen N} := {
  net_pending : N -> list Message -> list Message -> Prop;
  net_pending_next : forall id n m l sent, net_pending n (m :: l) sent ->
    exists n', net_next_message (net_poll id n) = (n', Some m) /\ net_pending n' l sent;
  net_pending_send : forall m n l sent, net_pending n l sent ->
    exists n', net_send_message m n = (n', Ok tt) /\ net_pending n' l (sent ++ [m])
}.

(** The number of times the retry policy ([backoff::retry_notify] with an
    exponential timer) calls an operation that keeps failing before it gives up. *)
Class Backoff := backoff_attempts : nat.

(** The HTTP client: [http_get] returns the status and body, or [None] for what
    [ureq] reports as an error; [http_post] whether the request succeeded. *)
Class HttpClient `{CP : P256k1, WP : !Wsts} := {
  World : Type;
  BincodeError : Type;
  http_get : string -> World -> World * option (Z * bytes);
  http_post : string -> bytes -> World -> World * bool;
  bincode_serialize : Message -> bytes + BincodeError;
  bincode_deserialize : bytes -> option Message
}.

Section Net.
Context {CP : P256k1} {WP : Wsts} {HC : HttpClient} {BO : Backoff}.

(** [HttpNet], [HttpNetListen] *)
Record HttpNet := { http_relay_url : string; connected : bool }.
Record HttpNetListen := { net : HttpNet; in_queue : list Message }.

Definition HttpNet_new (url : string) : HttpNet := {| http_relay_url := url; connected := true |}.
Definition HttpNetListen_new (n : HttpNet) (q : list Message) : HttpNetListen :=
  {| net := n; in_queue := q |}.

(** [net::Error] *)
Inductive NetErrorKind := SerializationError (e : BincodeError) | Timeout.

Definition url_with_id (base : string) (id : Z) : string := base +:+ "?id=" +:+ pretty id.

Definition set_connected (b : bool) (l : HttpNetListen) : HttpNetListen :=
  {| net := {| http_relay_url := http_relay_url (net l); connected := b |};
     in_queue := in_queue l |}.

(** [HttpNetListen::poll]; [Vec::push] appends. *)
Definition poll (id : Z) (st : HttpNetListen * World) : HttpNetListen * World :=
  let '(self, w) := st in
  let '(w', r) := http_get (url_with_id (http_relay_url (net self)) id) w in
  match r with
  | Some (status, body) =>
      let self' := set_connected true self in
      if status =? 200 then
        match bincode_deserialize body with
        | Some m => ({| net := net self'; in_queue := in_queue self' ++ [m] |}, w')
        | None => (self', w')
        end
      else (self', w')
  | None => (if connected (net self) then set_connected false self else self, w')
  end.

(** [Vec::pop] takes from the end. *)
Definition next_message (st : HttpNetListen * World) : (HttpNetListen * World) * option Message :=
  let '(self, w) := st in
  match last (in_queue self) with
  | Some m =>
      (({| net := net self; in_queue := take (length (in_queue self) - 1) (in_queue self) |}, w),
       Some m)
  | None => ((self, w), None)
  end.

(** [backoff::retry_notify]: every error of the request is transient. *)
Fixpoint retry (attempts : nat) (request : World -> World * bool) (w : World) : World * bool :=
  match attempts with
  | O => (w, false)
  | S n => let '(w', ok) := request w in if ok then (w', true) else retry n request w'
  end.

(** [HttpNet::send_message] *)
Definition HttpNet_send_message (self : HttpNet) (m : Message) : M World NetErrorKind unit := fun w =>
  match bincode_serialize m with
  | inr e => (w, Err (SerializationError e))
  | inl b =>
      let '(w', ok) := retry backoff_attempts (http_post (http_relay_url self) b) w in
      (w', if ok then Ok tt else Err Timeout)
  end.

Definition send_message (m : Message) : M (HttpNetListen * World) NetErrorKind unit :=
  fun '(self, w) =>
    let '(w', r) := HttpNet_send_message (net self) m w in ((self, w'), r).

#[export] Instance HttpNetListen_NetListen : NetListen (HttpNetListen * World) := {|
  NetError := NetErrorKind;
  net_listen st := st;
  net_poll := poll;
  net_next_message := next_message;
  net_send_message := send_message
|}.

(** The message the relay handed out, if the response carries one. *)
Definition polled (url : string) (id : Z) (w : World) : option Message :=
  match (http_get (url_with_id url id) w).2 with
  | Some (status, body) => if status =? 200 then bincode_deserialize body else None
  | None => None
  end.

(** the listener's queue is a stack.  A poll followed by [next_message]
    yields the message just received, before any message that was queued
    earlier, and otherwise the most recent queued one; nothing else is lost or
    duplicated. *)
Theorem poll_next_message (id : Z) (self : HttpNetListen) (w : World) :
  exists c, next_message (poll id (self, w)) =
  let w' := (http_get (url_with_id (http_relay_url (net self)) id) w).1 in
  let l q := {| net := {| http_relay_url := http_relay_url (net self); connected := c |};
                in_queue := q |} in
  match polled (http_relay_url (net self)) id w with
  | Some m => ((l (in_queue self), w'), Some m)
  | None =>
      match last (in_queue self) with
      | Some m => ((l (take (length (in_queue self) - 1) (in_queue self)), w'), Some m)
      | None => ((l (in_queue self), w'), None)
      end
  end.
Proof.
  destruct self as [[url con] q]. unfold poll, polled. simpl.
  destruct (http_get _ w) as [w' [[status body]|]]; simpl.
  - exists true. destruct (status =? 200); [destruct (bincode_deserialize body)|]; simpl.
    + unfold next_message. simpl. rewrite last_snoc, length_app. simpl.
      replace (length q + 1 - 1)%nat with (length q) by lia. by rewrite take_app_length.
    + by destruct (last q).
    + by destruct (last q).
  - exists false. destruct con; simpl; by destruct (last q).
Qed.

End Net.

(** A network that delivers a given list of messages, one per poll, and
    records what is sent: it runs the protocol code in examples. *)
Module ScriptNet.
Section ScriptNet.
Context {CP : P256k1} {WP : Wsts}.

Record Script := {
  to_deliver : list (option Message);
  queue : list Message;
  outbox : list Message
}.

Definition script_poll (id : Z) (s : Script) : Script :=
  match to_deliver s with
  | [] => s
  | None :: d => {| to_deliver := d; queue := queue s; outbox := outbox s |}
  | Some m :: d => {| to_deliver := d; queue := queue s ++ [m]; outbox := outbox s |}
  end.

Definition script_next (s : Script) : Script * option Message :=
  match last (queue s) with
  | Some m => ({| to_deliver := to_deliver s; queue := take (length (queue s) - 1) (queue s);
                  outbox := outbox s |}, Some m)
  | None => (s, None)
  end.

Definition script_send (m : Message) : M Script Empty_set unit :=
  modify (fun s => {| to_deliver := to_deliver s; queue := queue s; outbox := outbox s ++ [m] |}).

#[export] Instance Script_NetListen : NetListen Script := {|
  NetError := Empty_set;
  net_listen s := s;
  net_poll := script_poll;
  net_next_message := script_next;
  net_send_message := script_send
|}.

Lemma script_next_budget (s s' : Script) (r : option Message) :
  script_next s = (s', r) ->
  (length (to_deliver s') + length (queue s') + (if r is Some _ then 1 else 0)
   <= length (to_deliver s) + length (queue s))%nat.
Proof.
  unfold script_next. destruct (last (queue s)) as [m|] eqn:Hl; intros [= <- <-]; simpl; [|lia].
  rewrite length_take. destruct (queue s); simpl in *; [done|lia].
Qed.

#[export] Program Instance Script_FiniteNet : FiniteNet :=
  {| net_budget s := (length (to_deliver s) + length (queue s))%nat |}.
Next Obligation.
  simpl. intros id s s' r Hn%script_next_budget. etrans; [exact Hn|].
  unfold script_poll. destruct (to_deliver s) as [|[m|] d] eqn:Hd; simpl; rewrite ?Hd; simpl;
    rewrite ?length_app; simpl; lia.
Qed.
Next Obligation. simpl. intros m s s' r [= <- <-]. by split. Qed.

#[export] Program Instance Script_DeliveringNet : DeliveringNet :=
  {| net_pending s l sent := to_deliver s = Some <$> l /\ queue s = [] /\ outbox s = sent |}.
Next Obligation.
  intros id [d q o] m l sent. simpl. intros (-> & -> & ->). by eexists.
Qed.
Next Obligation. simpl. intros m s l sent (H1 & H2 & H3). by rewrite <-H3; eexists. Qed.

Definition script (l : list (option Message)) : Script :=
  {| to_deliver := l; queue := []; outbox := [] |}.
End ScriptNet.
End ScriptNet.
