(* ===== verification/FrostSigner.v ===== *)
(** * [frost-signer/src/signer.rs]: the signer process

    Two threads share a channel: [poll_loop] polls the network and forwards the
    messages that [verify_msg] accepts; [start_signing_round] feeds them to the
    [SigningRound] and sends the signed answers.  Each loop body is one
    definition; the loops run it on fuel. *)
From S2P Require Import Prelude Crypto FrostUtil FrostConfig Messages SigningRound Net.

Section FrostSigner.
Context {CP : P256k1} {WP : Wsts} {BP : BuildProfile} {N : Type} {NL : NetListen N}.

(** [signer::Error] *)
Inductive SignerError :=
  | HttpNetError (e : NetError)
  | SigningRoundErr (e : SigningRoundError)
  | RecvError
  | SendError.

(** [Signer::new] *)
Definition FrostSigner_new (config : Config) (id : Z) : FrostSigner :=
  {| fs_config := config; fs_signer_id := id |}.

(** *** [verify_msg] *)
Definition verify_by `{Signable T} (m : T) (signature : bytes) (key : option PublicKey)
    : res Empty_set bool :=
  match key with
  | Some public_key => verify m signature public_key
  | None => mret false
  end.

Definition verify_msg (m : Message) (public_keys : PublicKeys) (coordinator_public_key : PublicKey)
    : res Empty_set bool :=
  match msg m with
  | MDkgBegin b | MDkgPrivateBegin b => verify b (sig m) coordinator_public_key
  | MDkgEnd e | MDkgPublicEnd e => verify_by e (sig m) (pk_signers public_keys !! de_signer_id e)
  | MDkgPublicShare s => verify_by s (sig m) (pk_key_ids public_keys !! dps_party_id s)
  | MDkgPrivateShares s =>
      key_id ← uadd 32 (dprs_key_id s) 1;
      verify_by s (sig m) (pk_key_ids public_keys !! key_id)
  | MNonceRequest r => verify r (sig m) coordinator_public_key
  | MNonceResponse r => verify_by r (sig m) (pk_signers public_keys !! nresp_signer_id r)
  | MSignShareRequest r => verify r (sig m) coordinator_public_key
  | MSignShareResponse r => verify_by r (sig m) (pk_signers public_keys !! ssresp_signer_id r)
  end.

(** *** The channel ([std::sync::mpsc]): sending fails once the receiver is gone *)
Record Channel := { receiver_alive : bool; pending : list Message }.

Definition tx_send (m : Message) : M Channel SignerError unit := fun c =>
  if receiver_alive c then
    ({| receiver_alive := true; pending := pending c ++ [m] |}, Ok tt)
  else (c, Err SendError).

(** *** [poll_loop] *)
Definition BASE_TIMEOUT : Z := 2.
Definition MAX_TIMEOUT : Z := 128.

Record PollState := { pl_net : N; pl_timeout : Z; pl_tx : Channel }.

Definition next_timeout (timeout : Z) : Z :=
  if timeout =? 0 then BASE_TIMEOUT
  else if MAX_TIMEOUT <=? timeout then MAX_TIMEOUT
  else timeout * 2.

(** One iteration; the result is the number of milliseconds slept. *)
Definition poll_step (id : Z) (public_keys : PublicKeys) (coordinator_public_key : PublicKey)
    : M PollState SignerError Z := fun st =>
  let '(n, received) := net_next_message (net_poll id (pl_net st)) in
  match received with
  | None =>
      let timeout := next_timeout (pl_timeout st) in
      ({| pl_net := n; pl_timeout := timeout; pl_tx := pl_tx st |}, Ok timeout)
  | Some m =>
      let after tx := {| pl_net := n; pl_timeout := 0; pl_tx := tx |} in
      match verify_msg m public_keys coordinator_public_key with
      | Ok true => let '(tx, r) := tx_send m (pl_tx st) in (after tx, _ ← r; Ok 0)
      | Ok false => (after (pl_tx st), Ok 0)
      | Err e => match e with end
      | Panic => (after (pl_tx st), Panic)
      | Diverge => (after (pl_tx st), Diverge)
      end
  end.

(** The thread, observed for [fuel] iterations. *)
Fixpoint poll_loop (fuel : nat) (id : Z) (public_keys : PublicKeys)
    (coordinator_public_key : PublicKey) : M PollState SignerError unit :=
  match fuel with
  | O => lift Diverge
  | S fuel' =>
      poll_step id public_keys coordinator_public_key ;;
      poll_loop fuel' id public_keys coordinator_public_key
  end.

Definition poll_start (n : N) : PollState :=
  {| pl_net := n; pl_timeout := BASE_TIMEOUT;
     pl_tx := {| receiver_alive := true; pending := [] |} |}.

(** *** [start_signing_round] *)
Definition sign_outbound {E : Type} (network_private_key : Scalar) (out : MessageTypes)
    : res E Message :=
  s ← unwrap_ok (sign out network_private_key);
  mret {| msg := out; sig := s |}.

Definition SignerST : Type := (SigningRound * Rng) * N.

Definition on_round {A : Type} (m : M (SigningRound * Rng) SigningRoundError A)
    : M SignerST SignerError A :=
  zoom fst (fun r s => (r, s.2)) (with_err SigningRoundErr m).
Definition on_net {A : Type} (m : M N NetError A) : M SignerST SignerError A :=
  zoom snd (fun n s => (s.1, n)) (with_err HttpNetError m).

Definition handle_inbound (network_private_key : Scalar) (inbound : Message)
    : M SignerST SignerError unit :=
  outbounds ← on_round (process (msg inbound));
  for_each (fun out =>
      m ← lift (sign_outbound network_private_key out);
      on_net (net_send_message m)) outbounds.

(** The loop over the messages the channel delivers; when the sending thread is
    gone and the channel is empty, [recv] fails. *)
Fixpoint signing_loop (network_private_key : Scalar) (rx : list Message)
    : M SignerST SignerError unit :=
  match rx with
  | [] => throw RecvError
  | inbound :: rx' =>
      handle_inbound network_private_key inbound ;;
      signing_loop network_private_key rx'
  end.

Definition start_signing_round (self : FrostSigner) (rx : list Message)
    : M (Rng * N) SignerError unit := fun '(rng, n) =>
  match SigningRound_from self rng with
  | (rng', Ok round) =>
      let '((r, n'), o) :=
        signing_loop (cfg_network_private_key (fs_config self)) rx ((round, rng'), n) in
      ((r.2, n'), o)
  | (rng', Err e) => ((rng', n), Err e)
  | (rng', Panic) => ((rng', n), Panic)
  | (rng', Diverge) => ((rng', n), Diverge)
  end.

(** ** Who may send what *)
Definition authorised_key (public_keys : PublicKeys) (coordinator_public_key : PublicKey)
    (m : MessageTypes) : option PublicKey :=
  match m with
  | MDkgBegin _ | MDkgPrivateBegin _ | MNonceRequest _ | MSignShareRequest _ =>
      Some coordinator_public_key
  | MDkgEnd e | MDkgPublicEnd e => pk_signers public_keys !! de_signer_id e
  | MDkgPublicShare s => pk_key_ids public_keys !! dps_party_id s
  | MDkgPrivateShares s => pk_key_ids public_keys !! (dprs_key_id s + 1)
  | MNonceResponse r => pk_signers public_keys !! nresp_signer_id r
  | MSignShareResponse r => pk_signers public_keys !! ssresp_signer_id r
  end.

(** The key id of private shares can be moved to [1, N] without overflow. *)
Definition key_id_fits (m : MessageTypes) : Prop :=
  match m with MDkgPrivateShares s => in_u32 (dprs_key_id s + 1) | _ => True end.

Lemma verify_msg_eq (m : Message) (pks : PublicKeys) (cpk : PublicKey) :
  key_id_fits (msg m) ->
  verify_msg m pks cpk = verify_by (msg m) (sig m) (authorised_key pks cpk (msg m)).
Proof.
  unfold verify_msg. destruct (msg m) as [b|b|e|e|s|s|r|r|r|r]; simpl; intros Hfit; try done.
  unfold uadd. by rewrite checked_small by done.
Qed.

Lemma verify_by_true `{Signable T} (m : T) (signature : bytes) (key : option PublicKey) :
  verify_by m signature key = Ok true <->
  exists k h, key = Some k /\ preimage m = Ok h /\ ecdsa_sig_try_from signature = true /\
              ecdsa_verify signature (sha256 h) k = true.
Proof.
  destruct key as [k|]; simpl; [|naive_solver]. unfold verify. split.
  - intros (h & Hh & Hv)%res_bind_Ok_inv. injection Hv as Hv.
    apply andb_prop in Hv as [??]. eauto 10.
  - intros (k' & h & [= ->] & -> & Hp & Hv). simpl. by rewrite Hp, Hv.
Qed.

(** C23: [verify_msg] accepts a message exactly when the sender it claims is known
    and its signature over the message's bytes verifies under that sender's key:
    the coordinator's for requests, the signer's for answers, the key's owner
    for shares. *)
Theorem verify_msg_authentic (m : Message) (pks : PublicKeys) (cpk : PublicKey)
    (Hfit : key_id_fits (msg m)) :
  verify_msg m pks cpk = Ok true <->
  exists k h, authorised_key pks cpk (msg m) = Some k /\ preimage (msg m) = Ok h /\
    ecdsa_sig_try_from (sig m) = true /\ ecdsa_verify (sig m) (sha256 h) k = true.
Proof. rewrite verify_msg_eq by done. apply verify_by_true. Qed.

(** C24: what a signer sends is accepted by every node whose tables list the
    signer's key for the identity the message claims. *)
Theorem outbound_accepted {CL : P256k1Laws} (sk : Scalar) (out : MessageTypes) (m : Message)
    (pks : PublicKeys) (cpk : PublicKey) (Hfit : key_id_fits out)
    (Hsign : sign_outbound (E := Empty_set) sk out = Ok m)
    (Hkey : authorised_key pks cpk out = Some (pk_of sk)) :
  msg m = out /\ verify_msg m pks cpk = Ok true.
Proof.
  unfold sign_outbound in Hsign. apply res_bind_Ok_inv in Hsign as (s & Hs & [= <-]).
  split; [done|]. rewrite verify_msg_eq by done. simpl. rewrite Hkey. simpl.
  apply verify_sign. by destruct (sign out sk); simplify_eq/=.
Qed.

(** ** The polling thread *)

(** The messages popped in the first [n] iterations. *)
Fixpoint received (n : nat) (id : Z) (net : N) : list (option Message) :=
  match n with
  | O => []
  | S n' => let '(net', r) := net_next_message (net_poll id net) in r :: received n' id net'
  end.

Definition accepted_messages (pks : PublicKeys) (cpk : PublicKey) (l : list (option Message)) :
    list Message :=
  filter (fun m => verify_msg m pks cpk = Ok true) (omap id l).

Definition backoff_timeout (t : Z) : Prop := t ∈ [0; 2; 4; 8; 16; 32; 64; 128].

Lemma next_timeout_range (t : Z) : backoff_timeout t -> backoff_timeout (next_timeout t).
Proof.
  unfold backoff_timeout. intros Ht.
  assert (Forall (fun t => next_timeout t ∈ [0; 2; 4; 8; 16; 32; 64; 128]) [0; 2; 4; 8; 16; 32; 64; 128])
    as Hall by by_compute.
  by eapply Forall_forall in Hall.
Qed.

(** as long as the signing thread lives and no verification panics, the
    polling thread runs forever; it forwards exactly the received messages that
    verify, in order, and between two polls it sleeps 0, 2, 4, ... or 128
    milliseconds. *)
Theorem poll_loop_forwards (n : nat) (id : Z) (pks : PublicKeys) (cpk : PublicKey) (st : PollState)
    (Halive : receiver_alive (pl_tx st) = true) (Ht : backoff_timeout (pl_timeout st))
    (Hverify : forall m, Some m ∈ received n id (pl_net st) -> exists b, verify_msg m pks cpk = Ok b) :
  exists st', poll_loop n id pks cpk st = (st', Diverge) /\
    pending (pl_tx st') =
      pending (pl_tx st) ++ accepted_messages pks cpk (received n id (pl_net st)) /\
    backoff_timeout (pl_timeout st').
Proof.
  revert st Halive Ht Hverify. induction n as [|n IH]; intros st Halive Ht Hverify; simpl in *.
  { exists st. split_and!; [done| |done]. unfold accepted_messages. simpl. by rewrite app_nil_r. }
  rewrite M_bind_eq. unfold poll_step at 1.
  destruct (net_next_message _) as [net' [m|]] eqn:Hn.
  - destruct (Hverify m ltac:(by left)) as [b Hb]. rewrite Hb.
    assert (forall m', Some m' ∈ received n id net' -> exists b, verify_msg m' pks cpk = Ok b) as Hv
      by (intros; apply Hverify; by right).
    unfold accepted_messages. simpl. rewrite filter_cons. destruct b.
    + rewrite decide_True by done. unfold tx_send. rewrite Halive.
      edestruct IH as (st' & -> & Hp & Ht'); [| | |exists st'; split_and!; [done| |done]];
        simpl; [done|by left|done|]. rewrite Hp. simpl. by rewrite <-app_assoc.
    + rewrite decide_False by congruence.
      edestruct IH as (st' & -> & Hp & Ht'); [| | |exists st'; split_and!; [done| |done]];
        simpl; [done|by left|done|]. by rewrite Hp.
  - edestruct IH as (st' & -> & Hp & Ht'); [| | |exists st'; split_and!; [done| |done]]; simpl.
    + done.
    + by apply next_timeout_range.
    + intros m' Hm'. apply Hverify. by right.
    + by rewrite Hp.
Qed.

(** ** The signing thread *)

(** an error of the signing round ends the signer.  In particular a
    [DkgBegin] that arrives after the private shares were distributed, as when
    a coordinator gives up on a round in its private phase and is run again, makes
    [start_signing_round] return: nothing is sent and the remaining messages are
    never processed.  The [DkgBegin] that the coordinator itself sends when a key
    has an odd y comes before the private shares, and is accepted
    ([AsyncRestart.dkg_inevitable]). *)
Theorem restart_ends_signer (b : DkgBegin) (s : bytes) (rx : list Message) (sk : Scalar)
    (self : SigningRound) (rng : Rng) (n : N) (Hst : state self = DkgPrivateGather) :
  exists self' rng',
    signing_loop sk ({| msg := MDkgBegin b; sig := s |} :: rx) ((self, rng), n) =
    (((self', rng'), n),
     Err (SigningRoundErr (SRStateMachineError
            (BadStateChange DkgPrivateGather DkgPublicDistribute)))) /\
    commitments self' = ∅ /\ shares self' = ∅.
Proof.
  destruct (dkg_restart_rejected b self rng Hst) as (self' & rng' & Hp & _ & _ & Hc & Hs).
  exists self', rng'. split_and!; [|done|done].
  simpl. unfold handle_inbound. rewrite !M_bind_eq. unfold on_round at 1, zoom, with_err. simpl.
  by rewrite Hp.
Qed.
End FrostSigner.

Module FrostSignerWitness.
Import ToyCrypto.
Import Toy.
Import ScriptNet.

Definition begin : Message :=
  {| msg := MDkgBegin {| db_dkg_id := 1 |};
     sig := 30 :: as_bytes "DKG_BEGIN" ++ be_bytes 8 1 |}.
Definition forged : Message :=
  {| msg := MDkgBegin {| db_dkg_id := 1 |};
     sig := 10 :: as_bytes "DKG_BEGIN" ++ be_bytes 8 1 |}.
Definition net0 : Script := script [Some forged; None; Some begin].

Lemma begin_ok : verify_msg begin public_keys 30 = Ok true.
Proof. run. Qed.
Lemma forged_ok : verify_msg forged public_keys 30 = Ok false.
Proof. run. Qed.

Lemma verify_msg_authentic_witness :
  exists k h, authorised_key public_keys 30 (msg begin) = Some k /\ preimage (msg begin) = Ok h /\
    ecdsa_sig_try_from (sig begin) = true /\ ecdsa_verify (sig begin) (sha256 h) k = true.
Proof. apply (verify_msg_authentic begin public_keys 30); [exact I|exact begin_ok]. Defined.

Definition response : MessageTypes :=
  MNonceResponse {| nresp_dkg_id := 1; nresp_sign_id := 1; nresp_sign_nonce_id := 1;
                    nresp_signer_id := 2; nresp_key_ids := [2]; nresp_nonces := [(1, 1)] |}.
Definition signed_response : Message :=
  match sign_outbound (CP := toy_p256k1) (E := Empty_set) 20 response with Ok m => m | _ => begin end.

Lemma outbound_accepted_witness :
  msg signed_response = response /\ verify_msg signed_response public_keys 30 = Ok true.
Proof. apply (outbound_accepted (CP := toy_p256k1) 20 response); [exact I|run|run]. Defined.

Lemma poll_loop_forwards_witness :
  exists st', poll_loop 3 1 public_keys 30 (poll_start net0) = (st', Diverge) /\
    pending (pl_tx st') = accepted_messages public_keys 30 [Some forged; None; Some begin] /\
    backoff_timeout (pl_timeout st').
Proof.
  assert (received (CP := toy_p256k1) 3 1 (pl_net (poll_start net0))
          = [Some forged; None; Some begin]) as Hr by run.
  destruct (poll_loop_forwards (CP := toy_p256k1) 3 1 public_keys 30 (poll_start net0))
    as (st' & Hs & Hp & Ht).
  - reflexivity.
  - by_compute.
  - rewrite Hr. intros m Hm.
    apply elem_of_cons in Hm as [[= ->]|Hm]; [exists false; exact forged_ok|].
    apply elem_of_cons in Hm as [[=]|Hm].
    apply list_elem_of_singleton in Hm. injection Hm as ->. exists true. exact begin_ok.
  - exists st'. split_and!; [exact Hs| |exact Ht]. rewrite Hp, Hr. reflexivity.
Defined.

Lemma restart_ends_signer_witness :
  exists self' rng',
    signing_loop (CP := toy_p256k1) 10 [begin] ((round_in 1 10 [0; 1] DkgPrivateGather, 0), net0) =
    (((self', rng'), net0),
     Err (SigningRoundErr (SRStateMachineError
            (BadStateChange DkgPrivateGather DkgPublicDistribute)))) /\
    commitments self' = ∅ /\ shares self' = ∅.
Proof.
  apply (restart_ends_signer (CP := toy_p256k1) {| db_dkg_id := 1 |}
           (30 :: as_bytes "DKG_BEGIN" ++ be_bytes 8 1) [] 10
           (round_in 1 10 [0; 1] DkgPrivateGather) 0 net0).
  reflexivity.
Defined.
End FrostSignerWitness.
