(* ===== verification/FrostCoordinator.v ===== *)
(** * [frost-coordinator/src/coordinator.rs]: the FROST coordinator

    [Coordinator] drives distributed key generation and signing over any
    [NetListen].  The waiting loops are unbounded in the source; here they run on
    fuel, and [run_terminates] shows that one more than
    the number of messages the network can still deliver is enough. *)
From S2P Require Import Prelude Crypto FrostConfig Messages Net.

Section FrostCoordinator.
Context {CP : P256k1} {WP : Wsts} {WA : WstsAggregator} {N : Type} {NL : NetListen N}
  {BO : Backoff}.

(** [coordinator::Error] *)
Inductive CoordinatorError :=
  | NetworkError (e : NetError)
  | NoAggregatePublicKey
  | AggregatorErr (e : AggregatorError)
  | Taproot (e : TaprootError)
  | SchnorrProofFailed
  | CTimeout
  | CConfigError (e : ConfigError)
  | InvalidSignerMessage.

Inductive Command :=
  | Dkg
  | Sign (m : bytes)
  | DkgSign (m : bytes)
  | GetAggregatePublicKey.

Record Coordinator := mkCoordinator {
  id : Z;
  current_dkg_id : Z;
  current_dkg_public_id : Z;
  current_sign_id : Z;
  current_sign_nonce_id : Z;
  total_signers : Z;
  total_keys : Z;
  threshold : Z;
  network : N;
  dkg_public_shares : gmap Z DkgPublicShare;
  public_nonces : gmap Z NonceResponse;
  signature_shares : gmap Z (list SignatureShare);
  aggregate_public_key : Point;
  co_network_private_key : Scalar;
  public_key : PublicKey
}.

(** Field updates. *)
Definition set_current_dkg_id (x : Z) (c : Coordinator) : Coordinator :=
  let '(mkCoordinator a _ d e f g h i j k l m n o p) := c in
  mkCoordinator a x d e f g h i j k l m n o p.
Definition set_network (x : N) (c : Coordinator) : Coordinator :=
  let '(mkCoordinator a b d e f g h i _ k l m n o p) := c in
  mkCoordinator a b d e f g h i x k l m n o p.
Definition set_dkg_public_shares (x : gmap Z DkgPublicShare) (c : Coordinator) : Coordinator :=
  let '(mkCoordinator a b d e f g h i j _ l m n o p) := c in
  mkCoordinator a b d e f g h i j x l m n o p.
Definition set_public_nonces (x : gmap Z NonceResponse) (c : Coordinator) : Coordinator :=
  let '(mkCoordinator a b d e f g h i j k _ m n o p) := c in
  mkCoordinator a b d e f g h i j k x m n o p.
Definition set_signature_shares (x : gmap Z (list SignatureShare)) (c : Coordinator) : Coordinator :=
  let '(mkCoordinator a b d e f g h i j k l _ n o p) := c in
  mkCoordinator a b d e f g h i j k l x n o p.
Definition set_aggregate_public_key (x : Point) (c : Coordinator) : Coordinator :=
  let '(mkCoordinator a b d e f g h i j k l m _ o p) := c in
  mkCoordinator a b d e f g h i j k l m x o p.

Abbreviation CM := (M Coordinator CoordinatorError).

(** [Coordinator::new] *)
Definition Coordinator_new {E : Type} (id : Z) (config : Config) (network : N) : res E Coordinator :=
  Ok {| id := id; current_dkg_id := 0; current_dkg_public_id := 0; current_sign_id := 1;
        current_sign_nonce_id := 1; total_signers := cfg_total_signers config;
        total_keys := cfg_total_keys config; threshold := cfg_keys_threshold config;
        network := network; dkg_public_shares := ∅; public_nonces := ∅; signature_shares := ∅;
        aggregate_public_key := point_default;
        co_network_private_key := cfg_network_private_key config;
        public_key := cfg_coordinator_public_key config |}.

Definition get_aggregate_public_key (c : Coordinator) : res CoordinatorError Point :=
  if bool_decide (aggregate_public_key c = point_default) then Err NoAggregatePublicKey
  else Ok (aggregate_public_key c).

(** ** Network access *)
Definition on_network {A : Type} (m : M N NetError A) : CM A :=
  zoom network set_network (with_err NetworkError m).

(** [self.network.send_message(Message { sig: m.sign(..).expect(..), msg })] *)
Definition sign_and_send `{Signable T} (m : T) (wrap : T -> MessageTypes) : CM unit :=
  c ← get_st;
  s ← lift (unwrap_ok (sign m (co_network_private_key c)));
  on_network (net_send_message {| msg := wrap m; sig := s |}).

(** [backoff::retry_notify] around one poll. *)
Fixpoint poll_attempts (attempts : nat) (id : Z) (n : N) : N * option Message :=
  match attempts with
  | O => (n, None)
  | S k =>
      match net_next_message (net_poll id n) with
      | (n', Some m) => (n', Some m)
      | (n', None) => poll_attempts k id n'
      end
  end.

Definition wait_for_next_message : CM Message := fun c =>
  match poll_attempts backoff_attempts (id c) (network c) with
  | (n', Some m) => (set_network n' c, Ok m)
  | (n', None) => (set_network n' c, Err CTimeout)
  end.

(** ** Distributed key generation *)
Definition start_public_shares : CM unit :=
  modify (set_dkg_public_shares ∅) ;;
  c ← get_st;
  sign_and_send {| db_dkg_id := current_dkg_id c |} MDkgBegin.

Definition start_private_shares : CM unit :=
  c ← get_st;
  sign_and_send {| db_dkg_id := current_dkg_id c |} MDkgPrivateBegin.

(** Sum of the constant terms; indexing an empty polynomial panics. *)
Definition add_share {E : Type} (s : Point) (dps : DkgPublicShare) : res E Point :=
  a ← unwrap (poly_A (dps_public_share dps) !! O);
  mret (point_add s a).

Definition calculate_aggregate_public_key : CM Point :=
  c ← get_st;
  key ← lift (foldM add_share point_default (btree_values (dkg_public_shares c)));
  modify (set_aggregate_public_key key) ;;
  mret key.

Definition handle_public_message (ids_to_await : gset Z) (m : MessageTypes) : CM (gset Z) :=
  match m with
  | MDkgPublicEnd e => mret (ids_to_await ∖ {[de_signer_id e]})
  | MDkgPublicShare s =>
      modify (fun c => set_dkg_public_shares (<[dps_party_id s := s]> (dkg_public_shares c)) c) ;;
      mret ids_to_await
  | _ => mret ids_to_await
  end.

Fixpoint wait_for_public_shares_loop (fuel : nat) (ids_to_await : gset Z) : CM Point :=
  match fuel with
  | O => lift Diverge
  | S fuel' =>
      let next ids_to_await :=
        m ← wait_for_next_message;
        ids_to_await ← handle_public_message ids_to_await (msg m);
        wait_for_public_shares_loop fuel' ids_to_await in
      if bool_decide (ids_to_await = ∅) then
        key ← calculate_aggregate_public_key;
        if point_has_even_y key then
          modify (set_aggregate_public_key key) ;;
          mret key
        else
          c ← get_st;
          start_public_shares ;;
          next (range_set (total_signers c))
      else next ids_to_await
  end.

Definition wait_for_public_shares (fuel : nat) : CM Point :=
  c ← get_st;
  wait_for_public_shares_loop fuel (range_set (total_signers c)).

Fixpoint wait_for_dkg_end_loop (fuel : nat) (ids_to_await : gset Z) : CM unit :=
  match fuel with
  | O => lift Diverge
  | S fuel' =>
      if bool_decide (ids_to_await = ∅) then mret tt
      else
        m ← wait_for_next_message;
        match msg m with
        | MDkgEnd e => wait_for_dkg_end_loop fuel' (ids_to_await ∖ {[de_signer_id e]})
        | _ => wait_for_dkg_end_loop fuel' ids_to_await
        end
  end.

Definition wait_for_dkg_end (fuel : nat) : CM unit :=
  c ← get_st;
  wait_for_dkg_end_loop fuel (range_set (total_signers c)).

Definition run_distributed_key_generation (fuel : nat) : CM Point :=
  modify (fun c => set_current_dkg_id (wrapping_add 64 (current_dkg_id c) 1) c) ;;
  start_public_shares ;;
  public_key ← wait_for_public_shares fuel;
  start_private_shares ;;
  wait_for_dkg_end fuel ;;
  mret public_key.

(** ** Signing *)
Definition handle_nonce_message (m : MessageTypes) : CM unit :=
  match m with
  | MNonceResponse r =>
      modify (fun c => set_public_nonces (<[nresp_signer_id r := r]> (public_nonces c)) c)
  | _ => mret tt
  end.

Fixpoint collect_nonces_loop (fuel : nat) : CM unit :=
  match fuel with
  | O => lift Diverge
  | S fuel' =>
      m ← wait_for_next_message;
      handle_nonce_message (msg m) ;;
      c ← get_st;
      if Z.of_nat (size (public_nonces c)) =? total_signers c then mret tt
      else collect_nonces_loop fuel'
  end.

Definition collect_nonces (fuel : nat) : CM unit :=
  modify (set_public_nonces ∅) ;;
  c ← get_st;
  sign_and_send {| nr_dkg_id := current_dkg_id c; nr_sign_id := current_sign_id c;
                   nr_sign_nonce_id := current_sign_nonce_id c |} MNonceRequest ;;
  collect_nonces_loop fuel.

Definition compute_aggregate_nonce (fuel : nat) (m : bytes) : CM Point :=
  collect_nonces fuel ;;
  c ← get_st;
  lift (unwrap (compute_intermediate m
          (btree_values (public_nonces c) ≫= nresp_key_ids)
          (btree_values (public_nonces c) ≫= nresp_nonces))).

Definition request_signature_shares (nonce_responses : list NonceResponse) (m : bytes) : CM unit :=
  c ← get_st;
  sign_and_send {| ssr_dkg_id := current_dkg_id c; ssr_sign_id := current_sign_id c;
                   ssr_correlation_id := 0; ssr_nonce_responses := nonce_responses;
                   ssr_message := m |} MSignShareRequest.

Definition handle_share_message (signers : gset Z) (m : MessageTypes) : CM (gset Z) :=
  match m with
  | MSignShareResponse r =>
      if bool_decide (ssresp_signer_id r ∈ signers) then
        modify (fun c => set_signature_shares
          (<[ssresp_signer_id r := ssresp_signature_shares r]> (signature_shares c)) c) ;;
        mret (signers ∖ {[ssresp_signer_id r]})
      else mret signers
  | _ => mret signers
  end.

Fixpoint collect_signature_shares_loop (fuel : nat) (signers : gset Z) : CM unit :=
  match fuel with
  | O => lift Diverge
  | S fuel' =>
      if bool_decide (signers = ∅) then mret tt
      else
        m ← wait_for_next_message;
        signers ← handle_share_message signers (msg m);
        collect_signature_shares_loop fuel' signers
  end.

Definition collect_signature_shares (fuel : nat) : CM unit :=
  c ← get_st;
  collect_signature_shares_loop fuel (dom (public_nonces c)).

(** Nonces are collected again until the aggregate nonce has an even y. *)
Fixpoint even_nonce_loop (fuel : nat) (m : bytes) : CM unit :=
  match fuel with
  | O => lift Diverge
  | S fuel' =>
      R ← compute_aggregate_nonce fuel m;
      if point_has_even_y R then mret tt else even_nonce_loop fuel' m
  end.

(** [self.signature_shares[i]] for the signers that sent nonces. *)
Definition gather_shares {E : Type} (c : Coordinator) : res E (list SignatureShare) :=
  @concat _ <$> mapR (fun i => unwrap (signature_shares c !! i)) (btree_keys (public_nonces c)).

Definition polys (c : Coordinator) : list PolyCommitment :=
  dps_public_share <$> btree_values (dkg_public_shares c).

Definition sign_message (fuel : nat) (m : bytes) : CM (Signature * SchnorrProof) :=
  c ← get_st;
  if bool_decide (aggregate_public_key c = point_default) then throw NoAggregatePublicKey
  else
    even_nonce_loop fuel m ;;
    c ← get_st;
    aggregator ← lift (map_err AggregatorErr
      (of_call (aggregator_new (total_keys c) (threshold c) (polys c))));
    let nonce_responses := btree_values (public_nonces c) in
    request_signature_shares nonce_responses m ;;
    collect_signature_shares fuel ;;
    c ← get_st;
    shares ← lift (gather_shares c);
    sig ← lift (map_err AggregatorErr
      (of_call (aggregator_sign aggregator m (nonce_responses ≫= nresp_nonces) shares)));
    proof ← lift (map_err Taproot (of_sum (schnorr_new sig)));
    if schnorr_verify proof (point_x (aggregate_public_key c)) m then mret (sig, proof)
    else throw SchnorrProofFailed.

Definition run (fuel : nat) (command : Command) : CM unit :=
  match command with
  | Dkg => run_distributed_key_generation fuel ;; mret tt
  | Sign m => sign_message fuel m ;; mret tt
  | DkgSign m => run_distributed_key_generation fuel ;; sign_message fuel m ;; mret tt
  | GetAggregatePublicKey =>
      c ← get_st;
      lift (get_aggregate_public_key c) ;; mret tt
  end.
End FrostCoordinator.

(** ** What a waiting step does to the coordinator *)
Section Lemmas.
Context {CP : P256k1} {WP : Wsts} {WA : WstsAggregator} {N : Type} {NL : NetListen N}
  {BO : Backoff}.
Implicit Types (c : Coordinator (N := N)).

Lemma wait_Ok c c' m :
  wait_for_next_message c = (c', Ok m) -> exists n, c' = set_network n c.
Proof.
  unfold wait_for_next_message. destruct (poll_attempts _ _ _) as [n [m'|]]; intros; simplify_eq.
  by eexists.
Qed.

Lemma sign_and_send_Ok `{Signable T} (m : T) (wrap : T -> MessageTypes) c c' :
  sign_and_send m wrap c = (c', Ok tt) -> exists n, c' = set_network n c.
Proof.
  unfold sign_and_send. intros (c1 & a & [= <- <-] & Hs)%M_bind_Ok_inv.
  apply M_bind_Ok_inv in Hs as (c2 & s & Hl & Hn). injection Hl as <- _.
  unfold on_network, zoom, with_err in Hn. destruct (net_send_message _ _) as [n r].
  injection Hn as <- _. by eexists.
Qed.

(** Proof step: the waiting primitives only change the network. *)
Ltac net_only :=
  repeat match goal with
  | H : wait_for_next_message _ = (_, Ok _) |- _ =>
      apply wait_Ok in H as [? ->]
  | H : sign_and_send _ _ _ = (_, Ok _) |- _ =>
      apply sign_and_send_Ok in H as [? ->]
  end.

(** What signing does not change. *)
Definition signing_static c :=
  (id c, current_dkg_id c, current_sign_id c, total_signers c, total_keys c, threshold c,
   dkg_public_shares c, aggregate_public_key c, co_network_private_key c).

(** *** Collecting nonces *)
Definition nonces_keyed c : Prop :=
  map_Forall (fun i r => nresp_signer_id r = i) (public_nonces c).
Definition nonces_complete c : Prop :=
  nonces_keyed c /\ Z.of_nat (size (public_nonces c)) = total_signers c.

Lemma collect_nonces_loop_Ok (fuel : nat) c c' :
  nonces_keyed c -> collect_nonces_loop fuel c = (c', Ok tt) ->
  nonces_complete c' /\ signing_static c' = signing_static c.
Proof.
  revert c; induction fuel as [|fuel IH]; intros c Hk; simpl; [done|].
  intros (c1 & m & [n ->]%wait_Ok & Hr)%M_bind_Ok_inv.
  apply M_bind_Ok_inv in Hr as (c2 & [] & Hh & Hr).
  apply M_bind_Ok_inv in Hr as (c3 & c3' & [= <- <-] & Hr).
  assert (nonces_keyed c2 /\ signing_static c2 = signing_static c) as (Hk2 & Hs).
  { unfold nonces_keyed in *.
    destruct (msg m); simpl in Hh; injection Hh as <-; destruct c; simpl in *; try done.
    split; [|done]. by apply map_Forall_insert_2. }
  destruct (Z.eqb_spec (Z.of_nat (size (public_nonces c2))) (total_signers c2)).
  - injection Hr as <-. done.
  - apply IH in Hr as [H1 H2]; [|done]. split; [exact H1|congruence].
Qed.

Lemma collect_nonces_Ok (fuel : nat) c c' :
  collect_nonces fuel c = (c', Ok tt) ->
  nonces_complete c' /\ signing_static c' = signing_static c.
Proof.
  unfold collect_nonces. intros (c1 & [] & [= <-] & Hr)%M_bind_Ok_inv.
  apply M_bind_Ok_inv in Hr as (c2 & c2' & [= <- <-] & Hr).
  apply M_bind_Ok_inv in Hr as (c3 & [] & [n ->]%sign_and_send_Ok & Hr).
  apply collect_nonces_loop_Ok in Hr as [H1 H2].
  - split; [done|]. rewrite H2. by destruct c.
  - unfold nonces_keyed. destruct c; simpl. apply map_Forall_empty.
Qed.

Definition aggregate_nonce (m : bytes) c : option Point :=
  compute_intermediate m (btree_values (public_nonces c) ≫= nresp_key_ids)
    (btree_values (public_nonces c) ≫= nresp_nonces).

Lemma compute_aggregate_nonce_Ok (fuel : nat) (m : bytes) c c' R :
  compute_aggregate_nonce fuel m c = (c', Ok R) ->
  collect_nonces fuel c = (c', Ok tt) /\ aggregate_nonce m c' = Some R.
Proof.
  unfold compute_aggregate_nonce. intros (c2 & [] & Hc & Hn)%M_bind_Ok_inv.
  apply M_bind_Ok_inv in Hn as (c3 & c3' & [= <- <-] & Hu). unfold aggregate_nonce, lift in *.
  unfold unwrap in Hu. case_match; by simplify_eq.
Qed.

Lemma even_nonce_loop_Ok (fuel : nat) (m : bytes) c c' :
  even_nonce_loop fuel m c = (c', Ok tt) ->
  nonces_complete c' /\ signing_static c' = signing_static c /\
  point_has_even_y <$> aggregate_nonce m c' = Some true.
Proof.
  revert c; induction fuel as [|fuel IH]; intros c; [done|]. cbn [even_nonce_loop].
  intros (c1 & R & [[H1 H2]%collect_nonces_Ok HR]%compute_aggregate_nonce_Ok & Hr)%M_bind_Ok_inv.
  destruct (point_has_even_y R) eqn:He.
  - injection Hr as <-. rewrite HR. simpl. by rewrite He.
  - apply IH in Hr as (H1' & H2' & H3'). split_and!; [done|congruence|done].
Qed.

(** *** Collecting signature shares *)
Lemma collect_signature_shares_loop_Ok (fuel : nat) (signers : gset Z) c c' :
  collect_signature_shares_loop fuel signers c = (c', Ok tt) ->
  (forall i, i ∈ signers \/ is_Some (signature_shares c !! i) -> is_Some (signature_shares c' !! i)) /\
  public_nonces c' = public_nonces c /\ signing_static c' = signing_static c.
Proof.
  revert c signers; induction fuel as [|fuel IH]; intros c signers; simpl; [done|].
  case_bool_decide as He.
  { intros [= <-]. split_and!; try done. intros i [Hi|?]; [set_solver|done]. }
  intros (c1 & m & [n ->]%wait_Ok & Hr)%M_bind_Ok_inv.
  apply M_bind_Ok_inv in Hr as (c2 & signers' & Hh & (H1 & H2 & H3)%IH).
  assert ((forall i, i ∈ signers \/ is_Some (signature_shares c !! i) ->
             i ∈ signers' \/ is_Some (signature_shares c2 !! i)) /\
          public_nonces c2 = public_nonces c /\ signing_static c2 = signing_static c)
    as (Hi & Hp & Ha).
  { destruct c; destruct (msg m) as [r|r|r|r|r|r|r|r|r|r]; simpl in Hh; try (by injection Hh as <- <-).
    case_bool_decide as Hin; [|by injection Hh as <- <-].
    injection Hh as <- <-. simpl. split_and!; try done.
    intros i Hi. destruct (decide (i = ssresp_signer_id r)) as [->|Hne].
    - right. rewrite lookup_insert_eq. by eexists.
    - rewrite lookup_insert_ne by done. set_solver. }
  split_and!; try congruence. intros i Hi'. by apply H1, Hi.
Qed.

Lemma gather_shares_total {E : Type} c :
  (forall i, i ∈ dom (public_nonces c) -> is_Some (signature_shares c !! i)) ->
  exists shares, gather_shares (E := E) c = Ok shares.
Proof.
  intros Hall. unfold gather_shares.
  assert (exists l, mapR (fun i => unwrap (E := E) (signature_shares c !! i))
                      (btree_keys (public_nonces c)) = Ok l) as [l ->]; [|by eexists].
  assert (Forall (fun i => is_Some (signature_shares c !! i)) (btree_keys (public_nonces c))) as Hf.
  { apply Forall_forall. intros i Hi. apply Hall, elem_of_dom. unfold btree_keys in Hi.
    apply list_elem_of_fmap in Hi as ([i' r] & -> & Hr%elem_of_btree_entries). by eexists. }
  induction Hf as [|i l [x Hx] _ [ys IH]]; [by eexists|]. simpl. rewrite Hx. simpl.
  rewrite IH. by eexists.
Qed.

(** The signing rounds: nonces, then one share from each of their senders. *)
Lemma sign_message_rounds (fuel : nat) (m : bytes) c c' sp :
  sign_message fuel m c = (c', Ok sp) ->
  aggregate_public_key c <> point_default /\
  exists c1 aggregator shares,
    even_nonce_loop fuel m c = (c1, Ok tt) /\
    aggregator_new (total_keys c1) (threshold c1) (polys c1) = Some (inl aggregator) /\
    (exists n, collect_signature_shares fuel (set_network n c1) = (c', Ok tt)) /\
    gather_shares (E := Empty_set) c' = Ok shares /\
    aggregator_sign aggregator m (btree_values (public_nonces c1) ≫= nresp_nonces) shares = Some (inl sp.1) /\
    schnorr_new sp.1 = inl sp.2 /\
    schnorr_verify sp.2 (point_x (aggregate_public_key c')) m = true.
Proof.
  unfold sign_message. intros (? & ? & [= <- <-] & Hr)%M_bind_Ok_inv.
  case_bool_decide as Hd; [done|]. split; [done|].
  apply M_bind_Ok_inv in Hr as (c1 & [] & He & Hr).
  apply M_bind_Ok_inv in Hr as (? & ? & [= <- <-] & Hr).
  apply M_bind_Ok_inv in Hr as (? & agg & [= <- Hagg%map_err_Ok_inv] & Hr).
  apply M_bind_Ok_inv in Hr as (c2 & [] & Hq & Hr).
  apply M_bind_Ok_inv in Hr as (c3 & [] & Hs & Hr).
  apply M_bind_Ok_inv in Hr as (? & ? & [= <- <-] & Hr).
  apply M_bind_Ok_inv in Hr as (? & shares & [= <- Hg] & Hr).
  apply M_bind_Ok_inv in Hr as (? & sg & [= <- Hsig%map_err_Ok_inv] & Hr).
  apply M_bind_Ok_inv in Hr as (? & proof & [= <- Hproof%map_err_Ok_inv] & Hr).
  destruct (schnorr_verify _ _ m) eqn:Hv; [|done]. injection Hr as <- <-.
  unfold request_signature_shares in Hq.
  apply M_bind_Ok_inv in Hq as (? & ? & [= <- <-] & [n ->]%sign_and_send_Ok).
  exists c1, agg, shares. simpl.
  destruct (aggregator_new _ _ _) as [[]|]; simplify_eq/=. destruct (aggregator_sign _ _ _ _) as [[]|]; simplify_eq/=.
  destruct (schnorr_new _); simplify_eq/=. split_and!; try done; [by eexists|].
  unfold gather_shares in *. destruct (mapR _ _) eqn:Hm; simplify_eq/=.
  assert (mapR (fun i => unwrap (E := Empty_set) (signature_shares c3 !! i)) (btree_keys (public_nonces c3))
          = Ok a) as ->; [|done].
  apply mapR_Forall2. apply mapR_Forall2 in Hm. eapply Forall2_impl; [done|].
  intros i x. simpl. by destruct (_ !! i); intros; simplify_eq/=.
Qed.

(** Signing changes neither keys nor parameters, and the nonces that are left
    are those of the signing round. *)
Lemma sign_message_static (fuel : nat) (m : bytes) c c' sp :
  sign_message fuel m c = (c', Ok sp) ->
  signing_static c' = signing_static c /\
  exists c1, even_nonce_loop fuel m c = (c1, Ok tt) /\ public_nonces c' = public_nonces c1 /\
    signing_static c1 = signing_static c.
Proof.
  intros (_ & c1 & agg & shares & He & _ & (n & Hs) & _)%sign_message_rounds.
  pose proof He as (_ & H2 & _)%even_nonce_loop_Ok.
  unfold collect_signature_shares in Hs. apply M_bind_Ok_inv in Hs as (? & ? & [= <- <-] & Hs).
  apply collect_signature_shares_loop_Ok in Hs as (_ & Hpn & Hst).
  assert (signing_static (set_network n c1) = signing_static c1 /\
          public_nonces (set_network n c1) = public_nonces c1) as [Hn1 Hn2] by by destruct c1.
  split; [congruence|]. exists c1. split_and!; congruence.
Qed.

Lemma sign_message_verifies (fuel : nat) (m : bytes) c c' sig proof :
  sign_message fuel m c = (c', Ok (sig, proof)) ->
  schnorr_verify proof (point_x (aggregate_public_key c)) m = true /\
  aggregate_public_key c' = aggregate_public_key c.
Proof.
  intros Hok. pose proof Hok as [Hst _]%sign_message_static.
  apply sign_message_rounds in Hok as (_ & c1 & agg & shares & _ & _ & _ & _ & _ & _ & Hv).
  unfold signing_static in Hst. simplify_eq. simpl in Hv. split; congruence.
Qed.

(** C4: a successful [sign_message] returns a proof that verifies under the
    aggregate public key held before the call: what it aggregates are the shares
    of exactly the [total_signers] signers whose nonces make up the final, even
    aggregate nonce, in signer order, with the polynomials gathered by the key
    generation.  Keys, public shares and parameters are left unchanged. *)
Theorem sign_message_valid (fuel : nat) (m : bytes) c c' sig proof
    (Hok : sign_message fuel m c = (c', Ok (sig, proof))) :
  signing_static c' = signing_static c /\
  aggregate_public_key c <> point_default /\
  schnorr_verify proof (point_x (aggregate_public_key c)) m = true /\
  schnorr_new sig = inl proof /\
  Z.of_nat (size (public_nonces c')) = total_signers c /\
  point_has_even_y <$> aggregate_nonce m c' = Some true /\
  exists aggregator shares,
    aggregator_new (total_keys c) (threshold c) (polys c) = Some (inl aggregator) /\
    gather_shares (E := Empty_set) c' = Ok shares /\
    aggregator_sign aggregator m (btree_values (public_nonces c') ≫= nresp_nonces) shares = Some (inl sig).
Proof.
  pose proof Hok as [Hver _]%sign_message_verifies.
  pose proof Hok as (Hst & c1 & He & Hpn & Hst1)%sign_message_static.
  apply sign_message_rounds in Hok as (Hd & c1' & agg & shares & He' & Hagg & _ & Hg & Hsig & Hp & _).
  rewrite He in He'. injection He' as <-.
  apply even_nonce_loop_Ok in He as ([_ H1] & _ & H3). simpl in *.
  unfold signing_static in Hst1. unfold aggregate_nonce, polys in *.
  split; [exact Hst|]. rewrite Hpn. simplify_eq. split_and!; try congruence.
  exists agg, shares. split_and!; congruence.
Qed.

(** *** Key generation *)
Definition dkg_static c :=
  (id c, current_dkg_id c, current_sign_id c, total_signers c, total_keys c, threshold c,
   public_nonces c, signature_shares c, co_network_private_key c).

(** Sum of the constant terms in key order. *)
Definition key_of_shares (m : gmap Z DkgPublicShare) : res Empty_set Point :=
  foldM add_share point_default (btree_values m).

Lemma foldM_err {E F A B : Type} (f : forall E : Type, B -> A -> res E B) (b b' : B) (l : list A) :
  (forall b a b', f E b a = Ok b' -> f F b a = Ok b') ->
  foldM (f E) b l = Ok b' -> foldM (f F) b l = Ok b'.
Proof.
  intros Hf. revert b; induction l as [|a l IH]; intros b; simpl; [congruence|].
  intros (x & Hx%Hf & Hl%IH)%res_bind_Ok_inv. rewrite Hx. exact Hl.
Qed.

Lemma calculate_aggregate_public_key_Ok c c' key :
  calculate_aggregate_public_key c = (c', Ok key) ->
  c' = set_aggregate_public_key key c /\ key_of_shares (dkg_public_shares c) = Ok key.
Proof.
  unfold calculate_aggregate_public_key. intros (? & ? & [= <- <-] & Hr)%M_bind_Ok_inv.
  apply M_bind_Ok_inv in Hr as (? & k & [= <- Hk] & Hr).
  apply M_bind_Ok_inv in Hr as (? & [] & [= <-] & [= <- <-]). split; [done|].
  unfold key_of_shares. revert Hk. apply (foldM_err (fun E => add_share (E := E))).
  intros b a b'. unfold add_share. destruct (_ !! _); simpl; [by intros [= ->]|done].
Qed.

Lemma handle_public_message_static (ids ids' : gset Z) (m : MessageTypes) c c' :
  handle_public_message ids m c = (c', Ok ids') ->
  dkg_static c' = dkg_static c.
Proof. destruct m; simpl; try (by intros [= <- <-]). intros [= <- <-]. by destruct c. Qed.

Lemma wait_for_public_shares_loop_Ok (fuel : nat) (ids : gset Z) c c' key :
  wait_for_public_shares_loop fuel ids c = (c', Ok key) ->
  dkg_static c' = dkg_static c /\ aggregate_public_key c' = key /\ point_has_even_y key = true /\
  key_of_shares (dkg_public_shares c') = Ok key.
Proof.
  revert ids c; induction fuel as [|fuel IH]; intros ids c; [done|]. simpl.
  case_bool_decide.
  - intros (c1 & k & [-> Hk]%calculate_aggregate_public_key_Ok & Hr)%M_bind_Ok_inv.
    destruct (point_has_even_y k) eqn:He.
    + apply M_bind_Ok_inv in Hr as (? & [] & [= <-] & [= <- <-]). by destruct c.
    + apply M_bind_Ok_inv in Hr as (? & ? & [= <- <-] & Hr).
      apply M_bind_Ok_inv in Hr as (c2 & [] & Hs & Hr).
      unfold start_public_shares in Hs.
      apply M_bind_Ok_inv in Hs as (? & [] & [= <-] & Hs).
      apply M_bind_Ok_inv in Hs as (? & ? & [= <- <-] & [n ->]%sign_and_send_Ok).
      apply M_bind_Ok_inv in Hr as (? & m & [n' ->]%wait_Ok & Hr).
      apply M_bind_Ok_inv in Hr as (c4 & ids' & Hh%handle_public_message_static & (H1 & H2)%IH).
      split; [|done]. rewrite H1, Hh. by destruct c.
  - intros (? & m & [n' ->]%wait_Ok & Hr)%M_bind_Ok_inv.
    apply M_bind_Ok_inv in Hr as (c4 & ids' & Hh%handle_public_message_static & (H1 & H2)%IH).
    split; [|done]. rewrite H1, Hh. by destruct c.
Qed.

Lemma wait_for_dkg_end_loop_S (fuel : nat) (ids : gset Z) c :
  wait_for_dkg_end_loop (S fuel) ids c =
  if bool_decide (ids = ∅) then (c, Ok tt)
  else
    (m ← wait_for_next_message;
     match msg m with
     | MDkgEnd e => wait_for_dkg_end_loop fuel (ids ∖ {[de_signer_id e]})
     | _ => wait_for_dkg_end_loop fuel ids
     end) c.
Proof. simpl. by case_bool_decide. Qed.

Lemma wait_for_dkg_end_loop_Ok (fuel : nat) (ids : gset Z) c c' :
  wait_for_dkg_end_loop fuel ids c = (c', Ok tt) -> exists n, c' = set_network n c.
Proof.
  revert ids c; induction fuel as [|fuel IH]; intros ids c; [done|]. simpl.
  case_bool_decide; [intros [= <-]; exists (network c); by destruct c|].
  intros (? & m & [n ->]%wait_Ok & Hr)%M_bind_Ok_inv.
  destruct (msg m); apply IH in Hr as [n' ->]; exists n'; by destruct c.
Qed.

(** The rounds of a key generation: the shares decide, the rest only talks. *)
Lemma dkg_rounds (fuel : nat) c c' key :
  run_distributed_key_generation fuel c = (c', Ok key) ->
  exists n n' c2,
    wait_for_public_shares_loop fuel (range_set (total_signers c))
      (set_network n (set_dkg_public_shares ∅
        (set_current_dkg_id ((current_dkg_id c + 1) mod 2 ^ 64) c))) = (c2, Ok key) /\
    c' = set_network n' c2.
Proof.
  unfold run_distributed_key_generation. intros (? & [] & [= <-] & Hr)%M_bind_Ok_inv.
  apply M_bind_Ok_inv in Hr as (? & [] & Hs & Hr). unfold start_public_shares in Hs.
  apply M_bind_Ok_inv in Hs as (? & [] & [= <-] & Hs).
  apply M_bind_Ok_inv in Hs as (? & ? & [= <- <-] & [n ->]%sign_and_send_Ok).
  apply M_bind_Ok_inv in Hr as (c2 & k & Hw & Hr).
  apply M_bind_Ok_inv in Hw as (? & ? & [= <- <-] & Hw).
  apply M_bind_Ok_inv in Hr as (? & [] & Hs & Hr). unfold start_private_shares in Hs.
  apply M_bind_Ok_inv in Hs as (? & ? & [= <- <-] & [n' ->]%sign_and_send_Ok).
  apply M_bind_Ok_inv in Hr as (? & [] & Hend & [= <- <-]).
  apply M_bind_Ok_inv in Hend as (? & ? & [= <- <-] & [n'' ->]%wait_for_dkg_end_loop_Ok).
  exists n, n'', c2. split; [|by destruct c2]. rewrite <-Hw. by destruct c.
Qed.

Lemma dkg_aggregate_key (fuel : nat) c c' key :
  run_distributed_key_generation fuel c = (c', Ok key) -> aggregate_public_key c' = key.
Proof.
  intros (n & n' & c2 & (_ & H2 & _)%wait_for_public_shares_loop_Ok & ->)%dkg_rounds.
  by destruct c2.
Qed.

(** C18: a successful key generation returns, and stores, the sum of the constant
    terms of the public shares that are stored with it; that key has an even y
    coordinate.  The round number advances by one, wrapping around at the end of
    [u64], and the signing state is untouched. *)
Theorem dkg_key (fuel : nat) c c' key
    (Hok : run_distributed_key_generation fuel c = (c', Ok key)) :
  key_of_shares (dkg_public_shares c') = Ok key /\ aggregate_public_key c' = key /\
  point_has_even_y key = true /\
  dkg_static c' = dkg_static (set_current_dkg_id ((current_dkg_id c + 1) mod 2 ^ 64) c).
Proof.
  apply dkg_rounds in Hok as (n & n' & c2 & (H1 & H2 & H3 & H4)%wait_for_public_shares_loop_Ok & ->).
  destruct c2; simpl in *. split_and!; try done.
  unfold dkg_static in *. simpl in *. rewrite H1. by destruct c.
Qed.

(** Whatever the outcome, signing does not change the aggregate key. *)
Section KeepsKey.
Context (key : Point).
Abbreviation has_key := (fun c => aggregate_public_key c = key).

Lemma keeps_key_wait : keeps has_key wait_for_next_message.
Proof.
  intros c Hc. unfold wait_for_next_message. destruct (poll_attempts _ _ _) as [n [x|]]; by destruct c.
Qed.
Lemma keeps_key_modify (f : Coordinator -> Coordinator) :
  (forall c, aggregate_public_key (f c) = aggregate_public_key c) ->
  keeps (E := CoordinatorError) has_key (modify f).
Proof. intros Hf. apply keeps_modify. intros c <-. apply Hf. Qed.
Lemma keeps_key_send `{Signable T} (x : T) (wrap : T -> MessageTypes) :
  keeps has_key (sign_and_send x wrap).
Proof.
  apply keeps_bind; [auto with keeps|intros c0].
  apply keeps_bind; [auto with keeps|intros s c Hc]. unfold on_network, zoom, with_err.
  destruct (net_send_message _ _). by destruct c.
Qed.
#[local] Hint Resolve keeps_key_wait keeps_key_send : keeps.

Lemma keeps_key_nonces (fuel : nat) : keeps has_key (collect_nonces_loop fuel).
Proof.
  induction fuel as [|fuel IH]; [apply (keeps_lift _ Diverge)|]. cbn [collect_nonces_loop].
  apply keeps_bind; [auto with keeps|intros x]. apply keeps_bind.
  - destruct (msg x); simpl; auto with keeps. apply keeps_key_modify. by intros [].
  - intros _. apply keeps_bind; [auto with keeps|intros c]. case_match; auto with keeps.
Qed.
Lemma keeps_key_even_nonce (fuel : nat) (m : bytes) : keeps has_key (even_nonce_loop fuel m).
Proof.
  induction fuel as [|fuel IH]; [apply (keeps_lift _ Diverge)|]. cbn [even_nonce_loop].
  apply keeps_bind; [|intros R; case_match; [auto with keeps|exact IH]].
  apply keeps_bind; [|auto with keeps].
  apply keeps_bind; [apply keeps_key_modify; by intros []|intros _].
  apply keeps_bind; [auto with keeps|intros c].
  apply keeps_bind; [auto with keeps|intros _; apply keeps_key_nonces].
Qed.
Lemma keeps_key_shares (fuel : nat) (signers : gset Z) :
  keeps has_key (collect_signature_shares_loop fuel signers).
Proof.
  revert signers; induction fuel as [|fuel IH]; intros signers; [apply (keeps_lift _ Diverge)|].
  cbn [collect_signature_shares_loop]. case_bool_decide; [auto with keeps|].
  apply keeps_bind; [auto with keeps|intros x]. apply keeps_bind; [|done].
  destruct (msg x); simpl; auto with keeps. case_bool_decide; [|auto with keeps].
  apply keeps_bind; [apply keeps_key_modify; by intros []|auto with keeps].
Qed.

Lemma sign_message_keeps_key (fuel : nat) (m : bytes) : keeps has_key (sign_message fuel m).
Proof.
  unfold sign_message. apply keeps_bind; [auto with keeps|intros c0].
  case_bool_decide; [auto with keeps|].
  apply keeps_bind; [apply keeps_key_even_nonce|intros _].
  apply keeps_bind; [auto with keeps|intros c1]. apply keeps_bind; [auto with keeps|intros agg].
  apply keeps_bind; [apply keeps_bind; [auto with keeps|intros; auto with keeps]|intros _].
  apply keeps_bind; [apply keeps_bind; [auto with keeps|intros; apply keeps_key_shares]|intros _].
  apply keeps_bind; [auto with keeps|intros c2]. apply keeps_bind; [auto with keeps|intros shares].
  apply keeps_bind; [auto with keeps|intros sg]. apply keeps_bind; [auto with keeps|intros pf].
  case_match; auto with keeps.
Qed.
End KeepsKey.
End Lemmas.

(** ** Termination on a network with finitely many messages *)
Section Termination.
Context {CP : P256k1} {WP : Wsts} {WA : WstsAggregator} {N : Type} {NL : NetListen N}
  {FN : FiniteNet} {BO : Backoff}.
Implicit Types (c : Coordinator (N := N)).

Definition budget c : nat := net_budget (network c).

(** [stops b d m]: started with at most [b] messages left, [m] does not diverge
    and, when it succeeds, has used at least [d] of them. *)
Definition stops {A : Type} (b d : nat) (m : M (Coordinator (N := N)) CoordinatorError A) : Prop :=
  forall c c' r, (budget c <= b)%nat -> m c = (c', r) ->
    r <> Diverge /\ (forall a, r = Ok a -> (budget c' + d <= budget c)%nat).

Lemma stops_weaken {A : Type} (b d d' : nat) (m : M Coordinator CoordinatorError A) :
  (d <= d')%nat -> stops b d' m -> stops b d m.
Proof.
  intros Hd Hm c c' r Hb Hr. destruct (Hm c c' r Hb Hr) as [H1 H2].
  split; [done|]. intros a Ha. specialize (H2 a Ha). lia.
Qed.

Lemma stops_bind {A B : Type} (b d d' : nat) (m : M Coordinator CoordinatorError A)
    (f : A -> M Coordinator CoordinatorError B) :
  stops b d m -> (forall a, stops (b - d) d' (f a)) -> stops b (d + d') (m ≫= f).
Proof.
  intros Hm Hf c c' r Hb. rewrite M_bind_eq.
  destruct (m c) as [c1 r1] eqn:H1. destruct (Hm c c1 r1 Hb H1) as [Hd Hok].
  destruct r1 as [a|e| |]; intros Hr; try (injection Hr as <- <-; done).
  specialize (Hok a eq_refl). destruct (Hf a c1 c' r ltac:(lia) Hr) as [H2 H3].
  split; [done|]. intros x Hx. specialize (H3 x Hx). lia.
Qed.

Lemma stops_bind0 {A B : Type} (b : nat) (m : M Coordinator CoordinatorError A)
    (f : A -> M Coordinator CoordinatorError B) :
  stops b 0 m -> (forall a, stops b 0 (f a)) -> stops b 0 (m ≫= f).
Proof. intros Hm Hf. apply (stops_bind b 0 0); [done|]. by rewrite Nat.sub_0_r. Qed.

Lemma stops_ret {A : Type} (b : nat) (a : A) : stops b 0 (mret a).
Proof. intros c c' r _ [= <- <-]. split; [done|]. intros; lia. Qed.
Lemma stops_get (b : nat) : stops b 0 get_st.
Proof. intros c c' r _ [= <- <-]. split; [done|]. intros; lia. Qed.
Lemma stops_throw {A : Type} (b : nat) (e : CoordinatorError) : stops (A := A) b 0 (throw e).
Proof. intros c c' r _ [= <- <-]. done. Qed.
Lemma stops_lift {A : Type} (b : nat) (x : res CoordinatorError A) : x <> Diverge -> stops b 0 (lift x).
Proof. intros Hx c c' r _ [= <- <-]. split; [done|]. intros; lia. Qed.
Lemma stops_modify (b : nat) (f : Coordinator -> Coordinator) :
  (forall c, network (f c) = network c) -> stops b 0 (modify f).
Proof.
  intros Hf c c' r _ [= <- <-]. split; [done|]. intros _ _. unfold budget. rewrite Hf. lia.
Qed.

Lemma poll_attempts_budget (k : nat) (i : Z) (n n' : N) (r : option Message) :
  poll_attempts k i n = (n', r) ->
  (net_budget n' + (if r is Some _ then 1 else 0) <= net_budget n)%nat.
Proof.
  revert n; induction k as [|k IH]; intros n; simpl.
  { intros [= <- <-]. lia. }
  destruct (net_next_message _) as [n1 [m|]] eqn:Hn; apply net_budget_next in Hn.
  - intros [= <- <-]. done.
  - intros Hk%IH. lia.
Qed.

Lemma stops_wait (b : nat) : stops b 1 wait_for_next_message.
Proof.
  intros c c' r _. unfold wait_for_next_message.
  destruct (poll_attempts _ _ _) as [n [m|]] eqn:Hp; intros [= <- <-]; [|done].
  apply poll_attempts_budget in Hp. split; [done|]. intros _ _. unfold budget. by destruct c.
Qed.

Lemma stops_send `{Signable T} (b : nat) (m : T) (wrap : T -> MessageTypes) :
  (exists p, preimage m = Ok p) -> stops b 0 (sign_and_send m wrap).
Proof.
  intros [p Hp]. unfold sign_and_send. apply stops_bind0; [apply stops_get|intros c0].
  apply stops_bind0.
  { apply stops_lift. unfold sign. rewrite Hp. simpl. by destruct (ecdsa_sign _ _). }
  intros s c c' r _. unfold on_network, zoom, with_err.
  destruct (net_send_message _ _) as [n x] eqn:Hn. intros [= <- <-].
  apply net_budget_send in Hn as [Hb Hd]. split; [by destruct x|].
  intros _ _. unfold budget. destruct c; simpl in *. lia.
Qed.

Lemma stops_send_appends `{Signable T} (b : nat) (m : T) (wrap : T -> MessageTypes) (p : bytes) :
  appends (hash m) p -> stops b 0 (sign_and_send m wrap).
Proof. intros Hp%appends_preimage. apply stops_send. by eexists. Qed.

Create HintDb stops.
#[local] Hint Resolve stops_ret stops_get stops_throw stops_bind0 stops_wait : stops.

Lemma stops_wait_loop {A : Type} (b : nat) (f : Message -> M Coordinator CoordinatorError A) :
  (forall m, b <> O -> stops (b - 1) 0 (f m)) -> stops b 0 (wait_for_next_message ≫= f).
Proof.
  intros Hf. destruct b as [|b].
  - intros c c' r Hb. rewrite M_bind_eq. destruct (wait_for_next_message c) as [c1 r1] eqn:Hw.
    destruct (stops_wait 0 c c1 r1 Hb Hw) as [H1 H2].
    destruct r1 as [m|e| |]; try (intros [= <- <-]; done). specialize (H2 m eq_refl). lia.
  - eapply (stops_weaken _ _ (1 + 0)); [lia|]. apply stops_bind; [apply stops_wait|].
    intros m. by apply Hf.
Qed.

Lemma stops_handle_public (b : nat) (ids : gset Z) (m : MessageTypes) :
  stops b 0 (handle_public_message ids m).
Proof.
  destruct m; simpl; auto with stops. apply stops_bind0; [|auto with stops].
  apply stops_modify. by intros [].
Qed.

Lemma stops_start_public_shares (b : nat) : stops b 0 start_public_shares.
Proof.
  apply stops_bind0; [apply stops_modify; by intros []|intros _].
  apply stops_bind0; [auto with stops|intros c]. eapply stops_send_appends, DkgBegin_appends.
Qed.

Lemma stops_start_private_shares (b : nat) : stops b 0 start_private_shares.
Proof. apply stops_bind0; [auto with stops|intros c]. eapply stops_send_appends, DkgBegin_appends. Qed.

Lemma foldM_add_share_stops {E : Type} (s : Point) (l : list DkgPublicShare) :
  foldM (add_share (E := E)) s l <> Diverge.
Proof.
  revert s; induction l as [|d l IH]; intros s; simpl; [done|].
  destruct (add_share s d) eqn:Ha; simpl; [apply IH|done|done|].
  unfold add_share in Ha. by destruct (_ !! _).
Qed.

Lemma stops_calculate (b : nat) : stops b 0 calculate_aggregate_public_key.
Proof.
  apply stops_bind0; [auto with stops|intros c].
  apply stops_bind0; [apply stops_lift, foldM_add_share_stops|intros key].
  apply stops_bind0; [apply stops_modify; by intros []|auto with stops].
Qed.

Lemma stops_public_loop (fuel b : nat) (ids : gset Z) :
  (b < fuel)%nat -> stops b 0 (wait_for_public_shares_loop fuel ids).
Proof.
  revert b ids; induction fuel as [|fuel IH]; intros b ids Hb; [lia|]. simpl.
  assert (forall ids, stops b 0
    (m ← wait_for_next_message; ids' ← handle_public_message ids (msg m);
     wait_for_public_shares_loop fuel ids')) as Hnext.
  { intros ids1. apply stops_wait_loop. intros m Hb0.
    apply stops_bind0; [apply stops_handle_public|intros ids']. apply IH. lia. }
  case_bool_decide; [|apply Hnext].
  apply stops_bind0; [apply stops_calculate|intros key].
  destruct (point_has_even_y key).
  - apply stops_bind0; [apply stops_modify; by intros []|auto with stops].
  - apply stops_bind0; [auto with stops|intros c].
    apply stops_bind0; [apply stops_start_public_shares|intros _]. apply Hnext.
Qed.

Lemma stops_end_loop (fuel b : nat) (ids : gset Z) :
  (b < fuel)%nat -> stops b 0 (wait_for_dkg_end_loop fuel ids).
Proof.
  revert b ids; induction fuel as [|fuel IH]; intros b ids Hb; [lia|]. simpl.
  case_bool_decide; [auto with stops|].
  apply stops_wait_loop. intros m Hb0. destruct (msg m); apply IH; lia.
Qed.

Lemma stops_dkg (fuel b : nat) : (b < fuel)%nat -> stops b 0 (run_distributed_key_generation fuel).
Proof.
  intros Hb. unfold run_distributed_key_generation.
  apply stops_bind0; [apply stops_modify; by intros []|intros _].
  apply stops_bind0; [apply stops_start_public_shares|intros _].
  apply stops_bind0; [apply stops_bind0; [auto with stops|intros c; by apply stops_public_loop]|intros key].
  apply stops_bind0; [apply stops_start_private_shares|intros _].
  apply stops_bind0; [apply stops_bind0; [auto with stops|intros c; by apply stops_end_loop]|].
  auto with stops.
Qed.

Lemma stops_nonces_loop (fuel b : nat) : (b < fuel)%nat -> stops b 0 (collect_nonces_loop fuel).
Proof.
  revert b; induction fuel as [|fuel IH]; intros b Hb; [lia|]. simpl.
  apply stops_wait_loop. intros m Hb0. apply stops_bind0.
  - destruct (msg m); simpl; auto with stops. apply stops_modify. by intros [].
  - intros _. apply stops_bind0; [auto with stops|intros c].
    case_match; [auto with stops|]. apply IH. lia.
Qed.

(** The first message is needed whatever happens. *)
Lemma collect_nonces_loop_uses (fuel b : nat) :
  (b < fuel)%nat -> stops b 1 (collect_nonces_loop fuel).
Proof.
  destruct fuel as [|fuel]; intros Hb; [lia|]. simpl.
  destruct b as [|b].
  - intros c c' r Hc. rewrite M_bind_eq. destruct (wait_for_next_message c) as [c1 r1] eqn:Hw.
    destruct (stops_wait 0 c c1 r1 Hc Hw) as [H1 H2].
    destruct r1 as [m|e| |]; try (intros [= <- <-]; done). specialize (H2 m eq_refl). lia.
  - apply (stops_bind (S b) 1 0); [apply stops_wait|intros m]. apply stops_bind0.
    + destruct (msg m); simpl; auto with stops. apply stops_modify. by intros [].
    + intros _. apply stops_bind0; [auto with stops|intros c].
      case_match; [auto with stops|]. apply stops_nonces_loop. lia.
Qed.

Lemma stops_aggregate_nonce (fuel b : nat) (m : bytes) :
  (b < fuel)%nat -> stops b 1 (compute_aggregate_nonce fuel m).
Proof.
  intros Hb. unfold compute_aggregate_nonce.
  apply (stops_bind b 1 0).
  - apply (stops_bind b 0 1); [apply stops_modify; by intros []|intros _].
    rewrite Nat.sub_0_r.
    apply (stops_bind b 0 1); [auto with stops|intros c]. rewrite Nat.sub_0_r.
    apply (stops_bind b 0 1); [eapply stops_send_appends, NonceRequest_appends|intros _].
    rewrite Nat.sub_0_r. by apply collect_nonces_loop_uses.
  - intros _. apply stops_bind0; [auto with stops|]. intros c. apply stops_lift. by destruct (compute_intermediate _ _ _).
Qed.

Lemma stops_even_nonce_loop (fuel b : nat) (m : bytes) :
  (b < fuel)%nat -> stops b 0 (even_nonce_loop fuel m).
Proof.
  revert b; induction fuel as [|fuel IH]; intros b Hb; [lia|]. cbn [even_nonce_loop].
  destruct b as [|b].
  - apply (stops_weaken _ _ (1 + 0)); [lia|].
    intros c c' r Hc. rewrite M_bind_eq. destruct (compute_aggregate_nonce _ m c) as [c1 r1] eqn:Hw.
    destruct (stops_aggregate_nonce (S fuel) 0 m Hb c c1 r1 Hc Hw) as [H1 H2].
    destruct r1 as [x|e| |]; try (intros [= <- <-]; done). specialize (H2 x eq_refl). lia.
  - apply (stops_weaken _ _ (1 + 0)); [lia|]. apply stops_bind; [by apply stops_aggregate_nonce|].
    intros R. case_match; [auto with stops|]. apply IH. lia.
Qed.

Lemma stops_shares_loop (fuel b : nat) (signers : gset Z) :
  (b < fuel)%nat -> stops b 0 (collect_signature_shares_loop fuel signers).
Proof.
  revert b signers; induction fuel as [|fuel IH]; intros b signers Hb; [lia|]. simpl.
  case_bool_decide; [auto with stops|].
  apply stops_wait_loop. intros m Hb0. apply stops_bind0; [|intros; apply IH; lia].
  destruct (msg m); simpl; auto with stops. case_bool_decide; auto with stops.
  apply stops_bind0; [apply stops_modify; by intros []|auto with stops].
Qed.

Lemma mapR_stops {E A B : Type} (f : A -> res E B) (l : list A) :
  (forall a, f a <> Diverge) -> mapR f l <> Diverge.
Proof.
  intros Hf. induction l as [|a l IH]; simpl; [done|]. specialize (Hf a).
  destruct (f a); simpl; try done. by destruct (mapR f l).
Qed.

Lemma stops_of_sum {A F : Type} (b : nat) (g : F -> CoordinatorError) (x : A + F) :
  stops b 0 (lift (map_err g (of_sum x))).
Proof. apply stops_lift. by destruct x. Qed.

Lemma stops_of_call {A F : Type} (b : nat) (g : F -> CoordinatorError) (x : option (A + F)) :
  stops b 0 (lift (map_err g (of_call x))).
Proof. apply stops_lift. by destruct x as [[]|]. Qed.

Lemma stops_sign (fuel b : nat) (m : bytes) : (b < fuel)%nat -> stops b 0 (sign_message fuel m).
Proof.
  intros Hb. unfold sign_message. apply stops_bind0; [auto with stops|intros c].
  case_bool_decide; [auto with stops|].
  apply stops_bind0; [by apply stops_even_nonce_loop|intros _].
  apply stops_bind0; [auto with stops|intros c1].
  apply stops_bind0; [apply stops_of_call|intros agg].
  apply stops_bind0.
  { apply stops_bind0; [auto with stops|intros c2].
    eapply stops_send_appends, SignatureShareRequest_appends. }
  intros _. apply stops_bind0.
  { apply stops_bind0; [auto with stops|intros c2]. by apply stops_shares_loop. }
  intros _. apply stops_bind0; [auto with stops|intros c2].
  apply stops_bind0.
  { apply stops_lift. unfold gather_shares.
    pose proof (mapR_stops (E := CoordinatorError)
      (fun i => unwrap (signature_shares c2 !! i)) (btree_keys (public_nonces c2))) as Hm.
    destruct (mapR _ _); simpl; try done. exfalso. apply Hm; [|done].
    intros i. by destruct (_ !! i). }
  intros shares. apply stops_bind0; [apply stops_of_call|intros sg].
  apply stops_bind0; [apply stops_of_sum|intros proof]. case_match; auto with stops.
Qed.

(** C28: every command comes to an end on a network that has finitely many
    messages left to deliver: it succeeds, fails or panics, with one more unit of
    fuel than there are messages. *)
Theorem run_terminates (fuel : nat) (command : Command) c
    (Hfuel : (budget c < fuel)%nat) :
  (run fuel command c).2 <> Diverge.
Proof.
  enough (stops (budget c) 0 (run fuel command)) as Hs.
  { destruct (run fuel command c) as [c' r] eqn:Hr. by apply (Hs c c' r). }
  destruct command; simpl.
  - apply stops_bind0; [by apply stops_dkg|auto with stops].
  - apply stops_bind0; [by apply stops_sign|auto with stops].
  - apply stops_bind0; [by apply stops_dkg|intros _].
    apply stops_bind0; [by apply stops_sign|auto with stops].
  - apply stops_bind0; [auto with stops|intros c1]. apply stops_bind0; [|auto with stops].
    apply stops_lift. unfold get_aggregate_public_key. by case_bool_decide.
Qed.
End Termination.

(** ** Absence of panics while signing *)
Section NoPanic.
Context {CP : P256k1} {WP : Wsts} {WA : WstsAggregator} {N : Type} {NL : NetListen N}
  {BO : Backoff}.
Implicit Types (c : Coordinator (N := N)).
Context (sk : Scalar) (can_sign : forall h, is_Some (ecdsa_sign h sk))
  (send_returns : forall m n, (net_send_message m n).2 <> Panic).

(** [calm P m]: with the private key [sk], [m] only panics if [P] holds, and keeps the key. *)
Definition calm (P : Prop) {A : Type} (m : M (Coordinator (N := N)) CoordinatorError A) : Prop :=
  forall c c' r, co_network_private_key c = sk -> m c = (c', r) ->
    (r = Panic -> P) /\ (forall a, r = Ok a -> co_network_private_key c' = sk).

Lemma calm_bind (P : Prop) {A B : Type} (m : M Coordinator CoordinatorError A)
    (f : A -> M Coordinator CoordinatorError B) :
  calm P m -> (forall a, calm P (f a)) -> calm P (m ≫= f).
Proof.
  intros Hm Hf c c' r Hk. rewrite M_bind_eq. destruct (m c) as [c1 r1] eqn:H1.
  destruct (Hm c c1 r1 Hk H1) as [Hp Hok].
  destruct r1 as [a|e| |]; intros Hr;
    try (injection Hr as <- <-; split; [intros Hq; (discriminate Hq || by apply Hp)|done]).
  exact (Hf a c1 c' r (Hok a eq_refl) Hr).
Qed.
Lemma calm_ret (P : Prop) {A : Type} (a : A) : calm P (mret a).
Proof. intros c c' r Hk [= <- <-]. by split. Qed.
Lemma calm_get (P : Prop) : calm P get_st.
Proof. intros c c' r Hk [= <- <-]. by split. Qed.
Lemma calm_modify (P : Prop) (f : Coordinator -> Coordinator) :
  (forall c, co_network_private_key (f c) = co_network_private_key c) -> calm P (modify f).
Proof. intros Hf c c' r Hk [= <- <-]. split; [done|]. intros. by rewrite Hf. Qed.
Lemma calm_lift (P : Prop) {A : Type} (x : res CoordinatorError A) : (x = Panic -> P) -> calm P (lift x).
Proof. by intros Hx c c' r Hk [= <- <-]. Qed.

Lemma calm_wait (P : Prop) : calm P wait_for_next_message.
Proof.
  intros c c' r Hk. unfold wait_for_next_message.
  destruct (poll_attempts _ _ _) as [n [m|]]; intros [= <- <-]; split; try done.
  intros _ _. by destruct c.
Qed.

Lemma calm_send (P : Prop) `{Signable T} (m : T) (wrap : T -> MessageTypes) (p : bytes) :
  appends (hash m) p -> calm P (sign_and_send m wrap).
Proof.
  intros Hp%appends_preimage c c' r Hk. unfold sign_and_send.
  rewrite M_bind_eq. simpl. rewrite M_bind_eq. unfold lift, sign. rewrite Hp. simpl.
  destruct (can_sign (sha256 p)) as [s Hs]. rewrite <-Hk in Hs. rewrite Hs. simpl. unfold on_network, zoom, with_err.
  pose proof (send_returns {| msg := wrap m; sig := s |} (network c)) as Hn.
  destruct (net_send_message _ _) as [n x]. simpl in Hn. intros [= <- <-].
  split; [by destruct x|]. intros _ _. by destruct c.
Qed.

Create HintDb calm.
#[local] Hint Resolve calm_bind calm_ret calm_get calm_wait : calm.

Lemma calm_diverge (P : Prop) {A : Type} : calm P (A := A) (lift Diverge).
Proof. by apply calm_lift. Qed.
#[local] Hint Resolve calm_diverge : calm.

Lemma calm_nonces_loop (P : Prop) (fuel : nat) : calm P (collect_nonces_loop fuel).
Proof.
  induction fuel as [|fuel IH]; simpl; [auto with calm|].
  apply calm_bind; [auto with calm|intros m]. apply calm_bind.
  - destruct (msg m); simpl; auto with calm. apply calm_modify. by intros [].
  - intros _. apply calm_bind; [auto with calm|intros c]. by case_match; auto with calm.
Qed.

(** The call into [wsts] that sums the nonces. *)
Definition nonces_panic (m : bytes) : Prop := exists ids nonces, compute_intermediate m ids nonces = None.

Lemma calm_even_nonce_loop (fuel : nat) (m : bytes) : calm (nonces_panic m) (even_nonce_loop fuel m).
Proof.
  induction fuel as [|fuel IH]; [apply calm_diverge|]. cbn [even_nonce_loop].
  apply calm_bind; [|intros R; by case_match; auto with calm].
  apply calm_bind.
  2: { intros _. apply calm_bind; [auto with calm|]. intros c. apply calm_lift.
       destruct (compute_intermediate _ _ _) eqn:Hi; [done|]. intros _. by eexists _, _. }
  apply calm_bind; [apply calm_modify; by intros []|intros _].
  apply calm_bind; [auto with calm|intros c].
  apply calm_bind; [eapply calm_send, NonceRequest_appends|intros _; apply calm_nonces_loop].
Qed.

Lemma calm_shares_loop (P : Prop) (fuel : nat) (signers : gset Z) :
  calm P (collect_signature_shares_loop fuel signers).
Proof.
  revert signers; induction fuel as [|fuel IH]; intros signers; simpl; [auto with calm|].
  case_bool_decide; [auto with calm|].
  apply calm_bind; [auto with calm|intros m]. apply calm_bind; [|done].
  destruct (msg m); simpl; auto with calm. case_bool_decide; auto with calm.
  apply calm_bind; [apply calm_modify; by intros []|auto with calm].
Qed.

(** C29: if ECDSA signing with the coordinator's key and the transport do not
    panic, signing panics only inside [wsts]: when it sums the nonces, when it
    makes an aggregator of the stored commitments, which the coordinator has not
    checked, or when this aggregator signs.  The coordinator's own code does not:
    the share of every signer that contributed a nonce is there when the shares
    are looked up. *)
Theorem sign_message_no_panic (fuel : nat) (m : bytes) c
    (Hk : co_network_private_key c = sk) :
  (sign_message fuel m c).2 = Panic ->
  nonces_panic m \/
  aggregator_new (total_keys c) (threshold c) (polys c) = None \/
  exists aggregator nonces shares,
    aggregator_new (total_keys c) (threshold c) (polys c) = Some (inl aggregator) /\
    aggregator_sign aggregator m nonces shares = None.
Proof.
  unfold sign_message. rewrite M_bind_eq. simpl. case_bool_decide; [done|].
  rewrite M_bind_eq. pose proof (calm_even_nonce_loop fuel m) as He.
  destruct (even_nonce_loop fuel m c) as [c1 r1] eqn:H1. destruct (He c c1 r1 Hk H1) as [Hp Hk1].
  destruct r1 as [[]|e| |]; try done; [|by intros _; left; apply Hp]. specialize (Hk1 tt eq_refl).
  apply even_nonce_loop_Ok in H1 as (_ & Hst & _). unfold signing_static in Hst.
  rewrite M_bind_eq. simpl. rewrite M_bind_eq. unfold polys in *.
  replace (total_keys c1) with (total_keys c) by congruence. replace (threshold c1) with (threshold c) by congruence.
  replace (dkg_public_shares c1) with (dkg_public_shares c) by congruence.
  destruct (aggregator_new _ _ _) as [[agg|e]|] eqn:Hagg; [|done|by right; left].
  simpl. rewrite M_bind_eq.
  destruct (request_signature_shares _ m c1) as [c2 r2] eqn:H2.
  assert (r2 <> Panic /\ (forall a, r2 = Ok a -> co_network_private_key c2 = sk)) as [Hp2 Hk2].
  { revert H2. apply (calm_bind False); [auto with calm| |done].
    intros c0. eapply calm_send, SignatureShareRequest_appends. }
  destruct r2 as [[]|e| |]; try done. specialize (Hk2 tt eq_refl). rewrite M_bind_eq.
  destruct (collect_signature_shares fuel c2) as [c3 r3] eqn:H3.
  unfold collect_signature_shares in H3. rewrite M_bind_eq in H3. simpl in H3.
  destruct (calm_shares_loop False fuel _ _ _ _ Hk2 H3) as [Hp3 _].
  destruct r3 as [[]|e| |]; try done. rewrite M_bind_eq. simpl.
  apply collect_signature_shares_loop_Ok in H3 as (Hall & Hn & _).
  rewrite M_bind_eq. destruct (gather_shares_total (E := CoordinatorError) c3) as [shares Hg].
  { intros i Hi. rewrite Hn in Hi. apply Hall. by left. }
  unfold lift at 1. rewrite Hg. rewrite M_bind_eq. simpl.
  destruct (aggregator_sign _ _ _ _) as [[sg|]|] eqn:Hsg; [|done|by intros _; right; right; eauto 6]. simpl.
  rewrite M_bind_eq. simpl. destruct (schnorr_new sg) as [pr|]; [|done]. simpl. by case_match.
Qed.
End NoPanic.

(** ** What the end of key generation checks *)
Section DkgEnd.
Context {CP : P256k1} {WP : Wsts} {WA : WstsAggregator} {BO : Backoff}.
Import ScriptNet.
Implicit Types (c : Coordinator (N := Script)).

Definition end_sender (m : Message) : option Z :=
  match msg m with MDkgEnd e => Some (de_signer_id e) | _ => None end.

Definition delivering (l : list Message) (sent : list Message) : Script :=
  {| to_deliver := Some <$> l; queue := []; outbox := sent |}.

Lemma wait_script (m : Message) (l sent : list Message) c :
  backoff_attempts <> O -> network c = delivering (m :: l) sent ->
  wait_for_next_message c = (set_network (delivering l sent) c, Ok m).
Proof.
  intros Hb Hn. unfold wait_for_next_message. rewrite Hn.
  destruct backoff_attempts as [|k]; [done|]. by destruct c.
Qed.

(** the coordinator takes the key generation as finished once every signer
    has sent some [DkgEnd]: neither the reported status, nor the round it belongs
    to, nor the signature of the message plays a role. *)
Theorem dkg_end_ignores_status (l sent : list Message) c
    (Hb : backoff_attempts <> O) (Hn : network c = delivering l sent)
    (Hall : forall i, 1 <= i <= total_signers c -> i ∈ omap end_sender l) :
  exists c', wait_for_dkg_end (S (length l)) c = (c', Ok tt).
Proof.
  unfold wait_for_dkg_end. rewrite M_bind_eq. simpl fst. unfold get_st at 1.
  assert (forall i, i ∈ range_set (total_signers c) -> i ∈ omap end_sender l) as Hids
    by (intros i Hi%elem_of_range_set; by apply Hall).
  generalize dependent (range_set (total_signers c)). clear Hall.
  revert c Hn; induction l as [|m l IH]; intros c Hn ids Hids; rewrite wait_for_dkg_end_loop_S.
  - case_bool_decide as He; [by eexists|]. apply set_choose_L in He as [i Hi].
    apply Hids in Hi. by apply not_elem_of_nil in Hi.
  - case_bool_decide as He; [by eexists|]. rewrite M_bind_eq, (wait_script m l sent c Hb Hn).
    assert (network (set_network (delivering l sent) c) = delivering l sent) as Hn' by by destruct c.
    simpl in Hids. unfold end_sender at 1 in Hids.
    destruct (msg m); apply (IH _ Hn'); intros i Hi; try by apply Hids.
    apply elem_of_difference in Hi as [Hi Hne]. apply Hids in Hi.
    apply elem_of_cons in Hi as [->|Hi]; [set_solver|done].
Qed.
End DkgEnd.

Module FrostCoordinatorWitness.
Import ToyCrypto.
Import ScriptNet.
#[local] Instance three_attempts : Backoff := 3%nat.

Definition unsigned (m : MessageTypes) : option Message := Some {| msg := m; sig := [] |}.
Definition share (k : Z) : DkgPublicShare :=
  {| dps_dkg_id := 1; dps_dkg_public_id := 0; dps_party_id := k; dps_public_share := (k, [2 * k]) |}.
Definition ending (i : Z) (status : DkgStatus) : DkgEnd :=
  {| de_dkg_id := 1; de_signer_id := i; de_status := status |}.
Definition dkg_script : list (option Message) :=
  [unsigned (MDkgPublicShare (share 3)); None; unsigned (MDkgPublicShare (share 1));
   unsigned (MDkgPublicEnd (ending 1 Success)); unsigned (MDkgPublicShare (share 2));
   unsigned (MDkgPublicEnd (ending 2 Success));
   unsigned (MDkgEnd (ending 2 (Failure "no"))); unsigned (MDkgEnd (ending 1 Success))].
Definition nonces (i : Z) (ks : list Z) : NonceResponse :=
  {| nresp_dkg_id := 1; nresp_sign_id := 1; nresp_sign_nonce_id := 1; nresp_signer_id := i;
     nresp_key_ids := ks; nresp_nonces := (fun k => (k, 2)) <$> ks |}.
Definition sig_shares (i : Z) (ks : list Z) : SignatureShareResponse :=
  {| ssresp_dkg_id := 1; ssresp_sign_id := 1; ssresp_correlation_id := 0; ssresp_signer_id := i;
     ssresp_signature_shares := (fun k => (k, k)) <$> ks |}.
Definition sign_script : list (option Message) :=
  [unsigned (MNonceResponse (nonces 2 [2])); unsigned (MNonceResponse (nonces 1 [0; 1]));
   unsigned (MSignShareResponse (sig_shares 1 [0; 1]));
   unsigned (MSignShareResponse (sig_shares 2 [2]))].

Definition coordinator (l : list (option Message)) (shares : gmap Z DkgPublicShare) (key : Z) :
    Coordinator (CP := toy_p256k1) (N := Script) :=
  {| id := 9; current_dkg_id := 2 ^ 64 - 1; current_dkg_public_id := 0; current_sign_id := 1;
     current_sign_nonce_id := 1; total_signers := 2; total_keys := 3; threshold := 2;
     network := script l; dkg_public_shares := shares; public_nonces := ∅;
     signature_shares := ∅; aggregate_public_key := key; co_network_private_key := 30;
     public_key := 30 |}.
Definition c_dkg := coordinator dkg_script ∅ 0.
Definition c_sign := coordinator sign_script {[1 := share 1; 2 := share 2; 3 := share 3]} 12.

Lemma sign_message_valid_witness :
  exists c', sign_message 9 [1; 2] c_sign = (c', Ok (6, 6)) /\
    schnorr_verify (WstsAggregator := toy_aggregator) 6 12 [1; 2] = true.
Proof.
  exists (sign_message 9 [1; 2] c_sign).1. split; [run|].
  refine (proj1 (proj2 (proj2 (sign_message_valid 9 [1; 2] c_sign
            (sign_message 9 [1; 2] c_sign).1 6 6 _)))).
  run.
Defined.

Lemma dkg_key_witness :
  key_of_shares (dkg_public_shares (run_distributed_key_generation 9 c_dkg).1) = Ok 12 /\
  current_dkg_id (run_distributed_key_generation 9 c_dkg).1 = 0.
Proof.
  split; [|run].
  refine (proj1 (dkg_key 9 c_dkg (run_distributed_key_generation 9 c_dkg).1 12 _)). run.
Defined.

Lemma run_terminates_witness :
  (run 13 (DkgSign [1]) (coordinator (dkg_script ++ sign_script) ∅ 0)).2 <> Diverge.
Proof. apply (run_terminates 13 (DkgSign [1])). apply Nat.ltb_lt. run. Defined.

Definition empty_share (id : Z) : DkgPublicShare :=
  {| dps_dkg_id := 1; dps_dkg_public_id := 0; dps_party_id := id;
     dps_public_share := (id, []) : PolyCommitment (Wsts := toy_wsts) |}.

(** [wsts] panics on an empty commitment; on the others signing does not. *)
Lemma sign_message_no_panic_witness : (sign_message 9 [1; 2] c_sign).2 <> Panic /\
  let c := set_dkg_public_shares {[1 := share 1; 2 := empty_share 2; 3 := share 3]} c_sign in
  (sign_message 9 [1; 2] c).2 = Panic /\ aggregator_new (total_keys c) (threshold c) (polys c) = None.
Proof.
  split.
  - intros Hp. destruct (sign_message_no_panic (CP := toy_p256k1) 30) with (3 := eq_refl (30 : Z)) (4 := Hp)
      as [(ids & nonces & Hn)|[Hn|(agg & nonces & sh & _ & Hn)]]; [by eexists|done|discriminate..].
  - split; run.
Defined.

Definition failures : list Message :=
  [{| msg := MDkgEnd (ending 2 (Failure "bad shares")); sig := [] |};
   {| msg := MDkgEnd (ending 1 (Failure "bad shares")); sig := [] |}].

Lemma dkg_end_ignores_status_witness :
  exists c', wait_for_dkg_end 3 (coordinator (Some <$> failures) ∅ 0) = (c', Ok tt).
Proof.
  apply (dkg_end_ignores_status failures [] (coordinator (Some <$> failures) ∅ 0)); [done|done|].
  intros i Hi. simpl in Hi. assert (i = 1 \/ i = 2) as [-> | ->] by lia.
  - right. left.
  - left.
Defined.
End FrostCoordinatorWitness.
