(* ===== verification/CoordinatorRound.v ===== *)
(** * The coordinator's side of a key generation round

    [FrostCoordinator.run_distributed_key_generation] on a network that delivers
    the log of a round: the shares of the public phase, the ends of the public
    phase, the messages of the private phase, the ends of the round.  Any number of
    public phases whose key has an odd y may come before. *)
From S2P Require Import Prelude Crypto FrostConfig Messages Net FrostCoordinator.

(** The last message of a segment is one of those the phase waits for. *)
Definition closed_by `{Wsts} {A : Type} (get : Message -> option A) (seg : list Message) : Prop :=
  exists pre m, seg = pre ++ [m] /\ is_Some (get m).

Lemma closed_by_app `{Wsts} {A : Type} (get : Message -> option A) (pre x : list Message) :
  x <> [] -> Forall (fun m => is_Some (get m)) x -> closed_by get (pre ++ x).
Proof.
  intros Hne Hx. destruct x as [|y x _] using rev_ind; [done|]. apply Forall_app in Hx as [_ [Hy _]%Forall_cons].
  exists (pre ++ x), y. by rewrite app_assoc.
Qed.

Lemma closed_by_tail `{Wsts} {A : Type} (get : Message -> option A) (x : Message) (l : list Message) :
  get x = None -> closed_by get (x :: l) -> closed_by get l.
Proof.
  intros Hx ([|y pre] & z & Heq & [a Hz]); injection Heq as -> ->; [congruence|]. by exists pre, z.
Qed.

Section CoordinatorRound.
Context {CP : P256k1} {WP : Wsts} {WA : WstsAggregator} {N : Type} {NL : NetListen N}
  {BO : Backoff} {DN : DeliveringNet (N := N)}.
Context (Hretry : backoff_attempts <> O).
Implicit Types (c : Coordinator (N := N)).

(** ** One step *)
Lemma wait_pending c (m : Message) (l sent : list Message) : net_pending (network c) (m :: l) sent ->
  exists n, wait_for_next_message c = (set_network n c, Ok m) /\ net_pending n l sent.
Proof.
  intros Hp. destruct (net_pending_next (id c) _ _ _ _ Hp) as (n & Hn & Hl). exists n. split; [|done].
  unfold wait_for_next_message. destruct backoff_attempts as [|k]; [done|]. simpl. by rewrite Hn.
Qed.

Lemma send_pending `{Signable T} (x : T) (wrap : T -> MessageTypes) (h : bytes) c (l sent : list Message) :
  preimage x = Ok h -> is_Some (ecdsa_sign (sha256 h) (co_network_private_key c)) ->
  net_pending (network c) l sent ->
  exists n s, sign_and_send x wrap c = (set_network n c, Ok tt) /\
    net_pending n l (sent ++ [{| msg := wrap x; sig := s |}]).
Proof.
  intros Hh [s Hs] Hp. unfold sign_and_send. rewrite M_bind_eq. simpl. rewrite M_bind_eq. simpl.
  unfold sign. rewrite Hh. simpl. rewrite Hs. simpl.
  destruct (net_pending_send {| msg := wrap x; sig := s |} _ _ _ Hp) as (n & Hn & Hl).
  exists n, s. split; [|done]. unfold on_network, zoom, with_err. by rewrite Hn.
Qed.

Lemma network_set (n : N) c : network (set_network n c) = n.
Proof. by destruct c. Qed.
Lemma set_network_twice (n n' : N) c : set_network n (set_network n' c) = set_network n c.
Proof. by destruct c. Qed.

(** ** The public phase *)
Definition share_of (m : Message) : option DkgPublicShare :=
  match msg m with MDkgPublicShare s => Some s | _ => None end.
Definition public_ender (m : Message) : option Z :=
  match msg m with MDkgPublicEnd e => Some (de_signer_id e) | _ => None end.
Definition store_shares (shares : gmap Z DkgPublicShare) (l : list DkgPublicShare) :
    gmap Z DkgPublicShare :=
  foldl (fun shares s => <[dps_party_id s := s]> shares) shares l.

Lemma foldM_no_err {E A B : Type} (f : forall E : Type, B -> A -> res E B) (b b' : B) (l : list A) :
  (forall b a b', f Empty_set b a = Ok b' -> f E b a = Ok b') ->
  foldM (f Empty_set) b l = Ok b' -> foldM (f E) b l = Ok b'.
Proof. apply foldM_err. Qed.

Lemma calculate_key c key : key_of_shares (dkg_public_shares c) = Ok key ->
  calculate_aggregate_public_key c = (set_aggregate_public_key key c, Ok key).
Proof.
  intros Hk. unfold calculate_aggregate_public_key. rewrite M_bind_eq. simpl. rewrite M_bind_eq.
  unfold lift. rewrite (foldM_no_err (fun E => add_share (E := E)) _ key); [done| |exact Hk].
  intros b a b'. unfold add_share. destruct (_ !! _); simpl; [by intros [= ->]|done].
Qed.

(** Where the last awaited end is processed, the key is computed from the shares
    that were stored until then. *)
Lemma public_done (fuel : nat) c key :
  key_of_shares (dkg_public_shares c) = Ok key -> point_has_even_y key = true -> (0 < fuel)%nat ->
  wait_for_public_shares_loop fuel ∅ c = (set_aggregate_public_key key c, Ok key).
Proof.
  intros Hk He Hf. destruct fuel as [|fuel]; [lia|]. simpl.
  rewrite bool_decide_true by done. rewrite M_bind_eq, (calculate_key _ _ Hk), He. by destruct c.
Qed.

(** The ends of all awaited signers. *)
Lemma public_ends (ends rest sent : list Message) (ids : gset Z) (fuel : nat) c :
  Forall (fun m => is_Some (public_ender m)) ends ->
  ids = list_to_set (omap public_ender ends) -> NoDup (omap public_ender ends) ->
  net_pending (network c) (ends ++ rest) sent ->
  exists n, wait_for_public_shares_loop (length ends + fuel) ids c =
      wait_for_public_shares_loop fuel ∅ (set_network n c) /\ net_pending n rest sent.
Proof.
  revert ids c. induction ends as [|m ends IH]; intros ids c Hends -> Hnd Hp.
  - exists (network c). split; [|done]. simpl. by destruct c.
  - apply Forall_cons in Hends as [[i Hi] Hends]. simpl in Hnd |- *. rewrite Hi in Hnd |- *.
    apply NoDup_cons in Hnd as [Hni Hnd]. rewrite bool_decide_false by set_solver.
    destruct (wait_pending _ _ _ _ Hp) as (n & Hw & Hp').
    rewrite M_bind_eq, Hw. unfold public_ender in Hi. destruct m as [[] sg]; try done.
    injection Hi as Hi. cbn [msg]. rewrite M_bind_eq. simpl. rewrite Hi.
    destruct (IH (list_to_set (omap public_ender ends)) (set_network n c)) as (n' & Hl & Hp''); try done.
    + by rewrite network_set.
    + exists n'. split; [|done].
      change (list_omap Message Z public_ender ends) with (omap public_ender ends).
      replace (({[i]} ∪ list_to_set (omap public_ender ends)) ∖ {[i]})
        with (list_to_set (omap public_ender ends) : gset Z) by set_solver.
      rewrite Hl. by rewrite set_network_twice.
Qed.

(** The phase until the last awaited end: every share is stored. *)
Lemma public_gathered (shares ends rest sent : list Message) (ids : gset Z) (fuel : nat) c :
  Forall (fun m => public_ender m = None) shares ->
  Forall (fun m => is_Some (public_ender m)) ends ->
  ids = list_to_set (omap public_ender ends) -> NoDup (omap public_ender ends) -> ends <> [] ->
  net_pending (network c) (shares ++ ends ++ rest) sent ->
  exists n, wait_for_public_shares_loop (length shares + (length ends + fuel)) ids c =
      wait_for_public_shares_loop fuel ∅ (set_network n
        (set_dkg_public_shares (store_shares (dkg_public_shares c) (omap share_of shares)) c)) /\
    net_pending n rest sent.
Proof.
  revert c. induction shares as [|m shares IH]; intros c Hsh Hends Hids Hnd Hne Hp.
  - destruct (public_ends ends rest sent ids fuel c) as (n & Hl & Hp'); try done.
    exists n. simpl. rewrite Hl. by destruct c.
  - apply Forall_cons in Hsh as [Hm Hsh]. simpl. rewrite bool_decide_false.
    2: { subst ids. destruct ends as [|e ends]; [done|]. apply Forall_cons in Hends as [[i Hi] _].
         simpl. rewrite Hi. set_solver. }
    destruct (wait_pending _ _ _ _ Hp) as (n & Hw & Hp'). rewrite M_bind_eq, Hw, M_bind_eq.
    set (t := store_shares (dkg_public_shares c) (omap share_of [m])).
    assert (handle_public_message ids (msg m) (set_network n c) =
      (set_network n (set_dkg_public_shares t c), Ok ids)) as ->.
    { unfold t. destruct m as [mt sg]. unfold public_ender in Hm. simpl in Hm.
      destruct mt; try done; simpl; by destruct c. }
    destruct (IH (set_network n (set_dkg_public_shares t c))) as (n' & Hl & Hp''); try done; [by destruct c|].
    exists n'. split; [|done]. rewrite Hl. f_equal.
    change (omap share_of (m :: shares)) with
      (match share_of m with Some s => s :: omap share_of shares | None => omap share_of shares end).
    unfold t. simpl. by destruct (share_of m), c.
Qed.

(** ** Starting a phase *)
Lemma dkg_begin_preimage (d : Z) : exists h, preimage {| db_dkg_id := d |} = Ok h.
Proof. by eexists. Qed.

Lemma start_public_pending c (l sent : list Message) :
  (forall h, is_Some (ecdsa_sign h (co_network_private_key c))) -> net_pending (network c) l sent ->
  exists n s, start_public_shares c = (set_network n (set_dkg_public_shares ∅ c), Ok tt) /\
    net_pending n l (sent ++ [{| msg := MDkgBegin {| db_dkg_id := current_dkg_id c |}; sig := s |}]).
Proof.
  intros Hsign Hp. destruct (dkg_begin_preimage (current_dkg_id (set_dkg_public_shares ∅ c))) as [h Hh].
  destruct (send_pending _ MDkgBegin h (set_dkg_public_shares ∅ c) l sent Hh) as (n & s & Hs & Hn);
    [by destruct c; apply Hsign|by destruct c|].
  exists n, s. split; [|by destruct c]. unfold start_public_shares. rewrite M_bind_eq. simpl. rewrite M_bind_eq. exact Hs.
Qed.

Lemma start_private_pending c (l sent : list Message) :
  (forall h, is_Some (ecdsa_sign h (co_network_private_key c))) -> net_pending (network c) l sent ->
  exists n s, start_private_shares c = (set_network n c, Ok tt) /\
    net_pending n l (sent ++ [{| msg := MDkgPrivateBegin {| db_dkg_id := current_dkg_id c |}; sig := s |}]).
Proof.
  intros Hsign Hp. destruct (dkg_begin_preimage (current_dkg_id c)) as [h Hh].
  destruct (send_pending _ MDkgPrivateBegin h c l sent Hh (Hsign _) Hp) as (n & s & Hs & Hn).
  exists n, s. split; [|done]. unfold start_private_shares. rewrite M_bind_eq. exact Hs.
Qed.

(** ** Attempts

    Where the shares sum up to a point with an odd y, the coordinator starts again
    and waits from the message behind the last awaited end. *)
Section Attempts.
Context (total : Z) (Htot : 0 < total).
Abbreviation attempt := (list Message * list Message)%type.
Implicit Types (att : attempt).

Record phase_log att (key : Point) : Prop := {
  ph_shares : Forall (fun m => public_ender m = None) att.1;
  ph_ends : Forall (fun m => is_Some (public_ender m)) att.2;
  ph_ids : omap public_ender att.2 ≡ₚ seqZ 1 total;
  ph_key : key_of_shares (store_shares ∅ (omap share_of att.1)) = Ok key
}.
Definition odd_attempt att : Prop := exists key, phase_log att key /\ point_has_even_y key = false.
Definition attempt_log att : list Message := att.1 ++ att.2.

Lemma phase_gathered att key (rest sent : list Message) (fuel : nat) c :
  phase_log att key -> dkg_public_shares c = ∅ -> net_pending (network c) (attempt_log att ++ rest) sent ->
  (length (attempt_log att) <= fuel)%nat ->
  exists n, wait_for_public_shares_loop fuel (range_set total) c =
      wait_for_public_shares_loop (fuel - length (attempt_log att)) ∅ (set_network n
        (set_dkg_public_shares (store_shares ∅ (omap share_of att.1)) c)) /\
    net_pending n rest sent.
Proof.
  destruct att as [shares ends]. unfold attempt_log. cbn [fst snd]. intros [Hsh Hends Hids _] Hc Hp Hf. cbn [fst snd] in *.
  rewrite length_app in *. rewrite <-app_assoc in Hp.
  destruct (public_gathered shares ends rest sent (range_set total) (fuel - (length shares + length ends)) c)
    as (n & Hl & Hp'); try done.
  - apply leibniz_equiv. unfold range_set. by rewrite Hids.
  - rewrite Hids. apply NoDup_seqZ.
  - intros ->. simpl in Hids. apply Permutation_length in Hids. rewrite length_seqZ in Hids. simpl in Hids. lia.
  - exists n. split; [|done]. rewrite Hc in Hl. rewrite <-Hl. f_equal. lia.
Qed.

Lemma range_set_nonempty : range_set total <> ∅.
Proof.
  intros H. assert (1 ∈ range_set total) as H1 by (apply elem_of_list_to_set, elem_of_seqZ; lia).
  rewrite H in H1. by apply not_elem_of_empty in H1.
Qed.

Lemma public_again att (rest sent : list Message) (fuel : nat) c :
  (forall h, is_Some (ecdsa_sign h (co_network_private_key c))) -> total_signers c = total ->
  odd_attempt att -> dkg_public_shares c = ∅ -> net_pending (network c) (attempt_log att ++ rest) sent ->
  (length (attempt_log att) < fuel)%nat ->
  exists n s key, wait_for_public_shares_loop fuel (range_set total) c =
      wait_for_public_shares_loop (fuel - length (attempt_log att)) (range_set total)
        (set_network n (set_dkg_public_shares ∅ (set_aggregate_public_key key c))) /\
    net_pending n rest (sent ++ [{| msg := MDkgBegin {| db_dkg_id := current_dkg_id c |}; sig := s |}]).
Proof.
  intros Hsign Hts (key & Hph & Hodd) Hc Hp Hf.
  destruct (phase_gathered att key rest sent fuel c) as (n & -> & Hp1); [done..|lia|].
  set (t := store_shares ∅ _). destruct (fuel - length (attempt_log att))%nat as [|f] eqn:Hfu; [lia|].
  set (c1 := set_aggregate_public_key key (set_network n (set_dkg_public_shares t c))).
  destruct (start_public_pending c1 rest sent) as (n2 & s & H2 & Hp2); [by destruct c|by destruct c|].
  exists n2, s, key. split; [|by destruct c].
  cbn [wait_for_public_shares_loop]. rewrite bool_decide_true by done. rewrite (bool_decide_false (range_set total = ∅)) by apply range_set_nonempty.
  rewrite M_bind_eq, (calculate_key _ key). 2: { destruct c. apply (ph_key _ _ Hph). }
  rewrite Hodd. fold c1. rewrite M_bind_eq. simpl. rewrite M_bind_eq, H2.
  assert (total_signers c1 = total) as -> by by destruct c.
  by replace (set_network n2 (set_dkg_public_shares ∅ c1))
    with (set_network n2 (set_dkg_public_shares ∅ (set_aggregate_public_key key c))) by by destruct c.
Qed.

(** Any number of attempts, and a phase with an even key. *)
Lemma public_phases (atts : list attempt) att key (rest sent : list Message) (fuel : nat) c :
  (forall h, is_Some (ecdsa_sign h (co_network_private_key c))) -> total_signers c = total ->
  Forall odd_attempt atts -> phase_log att key -> point_has_even_y key = true -> dkg_public_shares c = ∅ ->
  net_pending (network c) ((atts ≫= attempt_log) ++ attempt_log att ++ rest) sent ->
  (length ((atts ≫= attempt_log) ++ attempt_log att) < fuel)%nat ->
  exists n out, wait_for_public_shares_loop fuel (range_set total) c =
      (set_network n (set_aggregate_public_key key
        (set_dkg_public_shares (store_shares ∅ (omap share_of att.1)) c)), Ok key) /\
    net_pending n rest (sent ++ out) /\ msg <$> out = replicate (length atts) (MDkgBegin {| db_dkg_id := current_dkg_id c |}).
Proof.
  intros Hsign Hts Hatts Hph Heven. revert sent fuel c Hsign Hts. induction Hatts as [|a atts Ha _ IH];
    intros sent fuel c Hsign Hts Hc Hp Hf.
  - destruct (phase_gathered att key rest sent fuel c) as (n & -> & Hp1); [done..|simpl in Hf; lia|].
    exists n, []. rewrite app_nil_r. split; [|done].
    rewrite (public_done _ _ key); [by destruct c|destruct c; apply (ph_key _ _ Hph)|done|simpl in Hf; lia].
  - rewrite bind_cons, <-app_assoc in Hp. rewrite bind_cons, <-app_assoc, length_app in Hf.
    destruct (public_again a _ sent fuel c Hsign Hts Ha Hc Hp) as (n & s & k & -> & Hp1); [lia|].
    destruct (IH (sent ++ [{| msg := MDkgBegin {| db_dkg_id := current_dkg_id c |}; sig := s |}])
      (fuel - length (attempt_log a))%nat (set_network n (set_dkg_public_shares ∅ (set_aggregate_public_key k c))))
      as (n2 & out & -> & Hp2 & Hout); [by destruct c..| |].
    { lia. }
    exists n2, ({| msg := MDkgBegin {| db_dkg_id := current_dkg_id c |}; sig := s |} :: out).
    split; [by destruct c|]. rewrite <-app_assoc in Hp2. split; [exact Hp2|].
    rewrite fmap_cons, Hout. by destruct c.
Qed.
End Attempts.

(** ** The private phase *)
Lemma private_phase (pre rest sent : list Message) (m : Message) (i : Z) (ids : gset Z) (fuel : nat) c :
  end_sender m = Some i -> i ∉ omap end_sender pre -> ids = list_to_set (omap end_sender pre ++ [i]) ->
  NoDup (omap end_sender pre) ->
  net_pending (network c) (pre ++ m :: rest) sent -> (S (length pre) < fuel)%nat ->
  exists n, wait_for_dkg_end_loop fuel ids c = (set_network n c, Ok tt) /\ net_pending n rest sent.
Proof.
  intros Hm. revert ids fuel c. induction pre as [|m0 pre IH]; intros ids fuel c Hi Hids Hnd Hp Hf;
    (destruct fuel as [|fuel]; [lia|]); rewrite wait_for_dkg_end_loop_S;
    destruct (wait_pending _ _ _ _ Hp) as (n & Hw & Hp'); simpl in Hf.
  - simpl in Hids. rewrite bool_decide_false by set_solver. rewrite M_bind_eq, Hw.
    unfold end_sender in Hm. destruct m as [[] sg]; try done. injection Hm as Hm. cbn [msg].
    destruct fuel as [|fuel]; [lia|]. rewrite wait_for_dkg_end_loop_S, bool_decide_true by set_solver.
    by exists n.
  - assert (ids <> ∅) as Hne by (subst ids; rewrite list_to_set_app_L; set_solver).
    rewrite bool_decide_false by done. rewrite M_bind_eq, Hw. simpl in Hi, Hids, Hnd.
    assert (forall ids', i ∉ omap end_sender pre -> ids' = list_to_set (omap end_sender pre ++ [i]) ->
      NoDup (omap end_sender pre) ->
      exists n', wait_for_dkg_end_loop fuel ids' (set_network n c) = (set_network n' c, Ok tt) /\
        net_pending n' rest sent) as Hgo.
    { intros ids' H1 H2 H3. destruct (IH ids' fuel (set_network n c)) as (n' & Hl & Hp'');
        [done|done|done|by rewrite network_set|lia|]. exists n'. by rewrite Hl, set_network_twice. }
    destruct m0 as [mt sg]. unfold end_sender in Hi, Hids, Hnd. destruct mt; cbn [msg] in *; try by apply Hgo.
    apply not_elem_of_cons in Hi as [Hne' Hi]. apply NoDup_cons in Hnd as [Hni Hnd].
    apply Hgo; [done| |done]. fold end_sender in *. subst ids. set_solver.
Qed.

(** ** The round *)
(** The coordinator after the round. *)
Definition with_key (key : Point) (shares : gmap Z DkgPublicShare) c : Coordinator (N := N) :=
  set_aggregate_public_key key (set_dkg_public_shares shares
    (set_current_dkg_id (wrapping_add 64 (current_dkg_id c) 1) c)).

Lemma dkg_completes (atts : list (list Message * list Message)) att key (l rest sent : list Message) (fuel : nat) c :
  (forall h, is_Some (ecdsa_sign h (co_network_private_key c))) -> 0 < total_signers c ->
  Forall (odd_attempt (total_signers c)) atts -> phase_log (total_signers c) att key -> point_has_even_y key = true ->
  omap end_sender l ≡ₚ seqZ 1 (total_signers c) -> closed_by end_sender l ->
  net_pending (network c) ((atts ≫= attempt_log) ++ attempt_log att ++ l ++ rest) sent ->
  (length ((atts ≫= attempt_log) ++ attempt_log att ++ l) < fuel)%nat ->
  let b := {| db_dkg_id := wrapping_add 64 (current_dkg_id c) 1 |} in
  exists n out, run_distributed_key_generation fuel c =
      (set_network n (with_key key (store_shares ∅ (omap share_of att.1)) c), Ok key) /\
    net_pending n rest (sent ++ out) /\
    msg <$> out = replicate (S (length atts)) (MDkgBegin b) ++ [MDkgPrivateBegin b].
Proof.
  intros Hsign Htot Hatts Hph Heven Hall (pre & x & Hl & [i Hx]) Hp Hf b.
  set (c0 := set_current_dkg_id (wrapping_add 64 (current_dkg_id c) 1) c).
  destruct (start_public_pending c0 ((atts ≫= attempt_log) ++ attempt_log att ++ l ++ rest) sent) as (n1 & s1 & H1 & Hp1);
    [by destruct c..|].
  set (c1 := set_network n1 (set_dkg_public_shares ∅ c0)). remember (sent ++ [_]) as sent1 eqn:Hs1 in Hp1.
  destruct (public_phases _ Htot atts att key (l ++ rest) sent1 fuel c1) as (n2 & out & H2 & Hp2 & Hout); try done;
    [by destruct c..|rewrite !length_app in *; lia|].
  set (c2 := set_network n2 (with_key key (store_shares ∅ (omap share_of att.1)) c)).
  replace (set_network n2 _) with c2 in H2 by by destruct c.
  destruct (start_private_pending c2 (l ++ rest) (sent1 ++ out)) as (n3 & s2 & H3 & Hp3);
    [by destruct c|unfold c2; rewrite network_set; exact Hp2|].
  remember ((sent1 ++ out) ++ [_]) as sent2 eqn:Hs2 in Hp3.
  assert (omap end_sender l = omap end_sender pre ++ [i]) as Hli.
  { rewrite Hl, omap_app. simpl. by rewrite Hx. }
  assert (NoDup (omap end_sender pre ++ [i])) as Hnd by (rewrite <-Hli, Hall; apply NoDup_seqZ).
  apply NoDup_app in Hnd as (Hnd & Hni & _).
  destruct (private_phase pre rest sent2 x i (range_set (total_signers c)) fuel (set_network n3 c2))
    as (n4 & H4 & Hp4); try done.
  - intros Hin. apply (Hni i Hin). by left.
  - apply leibniz_equiv. unfold range_set. by rewrite <-Hall, Hli.
  - rewrite network_set, Hl, <-app_assoc in *. exact Hp3.
  - rewrite Hl, !length_app in Hf. simpl in Hf. lia.
  - eexists n4, ({| msg := MDkgBegin b; sig := s1 |} :: out ++ [{| msg := MDkgPrivateBegin b; sig := s2 |}]). split_and!.
    + unfold run_distributed_key_generation. rewrite M_bind_eq. simpl. fold c0.
      rewrite M_bind_eq, H1. unfold wait_for_public_shares. rewrite M_bind_eq, M_bind_eq. simpl. fold c1.
      replace (total_signers c1) with (total_signers c) by by destruct c.
      rewrite H2, M_bind_eq, H3. unfold wait_for_dkg_end. rewrite M_bind_eq, M_bind_eq. simpl.
      replace (total_signers (set_network n3 c2)) with (total_signers c) by by destruct c.
      rewrite H4. unfold c2. by destruct c.
    + rewrite Hs2, Hs1, <-!app_assoc in Hp4. unfold c0, c2, with_key in Hp4. by destruct c.
    + rewrite fmap_cons, fmap_app, Hout. by destruct c.
Qed.
End CoordinatorRound.
