(* ===== verification/CoordinatorSign.v ===== *)
(** * The coordinator's side of a signing round

    [FrostCoordinator.sign_message] on a network that delivers the log of the
    round: for every nonce request a segment of messages that ends with the last
    nonce response, then a segment that ends with the last signature share
    response.  Other messages may come in between. *)
From S2P Require Import Prelude Crypto FrostConfig Messages Net FrostCoordinator CoordinatorRound.

Section CoordinatorSign.
Context {CP : P256k1} {WP : Wsts} {WA : WstsAggregator} {N : Type} {NL : NetListen N}
  {BO : Backoff} {DN : DeliveringNet (N := N)}.
Context (Hretry : backoff_attempts <> O).
Implicit Types (c : Coordinator (N := N)).

Definition nonce_of (m : Message) : option NonceResponse :=
  match msg m with MNonceResponse r => Some r | _ => None end.
Definition sigs_of (m : Message) : option SignatureShareResponse :=
  match msg m with MSignShareResponse r => Some r | _ => None end.
Definition store_nonces (t : gmap Z NonceResponse) (l : list NonceResponse) : gmap Z NonceResponse :=
  foldl (fun t r => <[nresp_signer_id r := r]> t) t l.
Definition store_sigs (t : gmap Z (list SignatureShare)) (l : list SignatureShareResponse) :
    gmap Z (list SignatureShare) :=
  foldl (fun t r => <[ssresp_signer_id r := ssresp_signature_shares r]> t) t l.

(** ** Nonces *)
Lemma nonces_phase (pre rest sent : list Message) (m : Message) (r : NonceResponse) (fuel : nat) c :
  nonce_of m = Some r ->
  let l := omap nonce_of pre ++ [r] in
  NoDup (nresp_signer_id <$> l) -> (forall r', r' ∈ l -> public_nonces c !! nresp_signer_id r' = None) ->
  Z.of_nat (size (public_nonces c) + length l) = total_signers c ->
  net_pending (network c) (pre ++ m :: rest) sent -> (length pre < fuel)%nat ->
  exists n, collect_nonces_loop fuel c =
    (set_network n (set_public_nonces (store_nonces (public_nonces c) l) c), Ok tt) /\
    net_pending n rest sent.
Proof.
  intros Hm. revert fuel c. induction pre as [|m0 pre IH]; intros fuel c l Hnd Hfresh Hsize Hp Hf;
    (destruct fuel as [|fuel]; [lia|]); simpl collect_nonces_loop;
    destruct (wait_pending Hretry _ _ _ _ Hp) as (n & Hw & Hp'); rewrite M_bind_eq, Hw.
  - unfold nonce_of in Hm. destruct m as [[] sg]; try done. injection Hm as ->. cbn [msg handle_nonce_message].
    rewrite M_bind_eq. simpl. rewrite M_bind_eq. simpl.
    assert (public_nonces c !! nresp_signer_id r = None) as Hn by (apply Hfresh; by left).
    rewrite (proj2 (Z.eqb_eq _ _)).
    + exists n. by destruct c.
    + destruct c. simpl in *. rewrite map_size_insert_None by done. lia.
  - simpl in l, Hf. destruct (nonce_of m0) as [r0|] eqn:H0.
    + assert (l = r0 :: omap nonce_of pre ++ [r]) as Hl by done. clearbody l. subst l.
      rewrite fmap_cons in Hnd. apply NoDup_cons in Hnd as [Hni Hnd].
      assert (public_nonces c !! nresp_signer_id r0 = None) as Hn by (apply Hfresh; by left).
      unfold nonce_of in H0. destruct m0 as [[] sg]; try done. injection H0 as ->.
      cbn [msg handle_nonce_message]. rewrite M_bind_eq. simpl. rewrite M_bind_eq. simpl.
      set (c1 := set_public_nonces (<[nresp_signer_id r0 := r0]> (public_nonces (set_network n c))) (set_network n c)).
      assert (public_nonces c1 = <[nresp_signer_id r0 := r0]> (public_nonces c) /\ network c1 = n /\
        total_signers c1 = total_signers c) as (Hpn & Hnet & Ht) by by destruct c.
      assert (size (public_nonces c1) = S (size (public_nonces c))) as Hsz
        by by rewrite Hpn, map_size_insert_None.
      simpl in Hsize. rewrite length_app in Hsize. simpl in Hsize.
      rewrite (proj2 (Z.eqb_neq _ _)) by (rewrite Hsz, Ht; lia).
      destruct (IH fuel c1) as (n' & Hr & Hp''); [done| | | |lia|].
      * intros r' Hr'. rewrite Hpn, lookup_insert_ne; [apply Hfresh; by right|].
        intros Heq. apply Hni. rewrite Heq. by apply list_elem_of_fmap_2.
      * rewrite Hsz, Ht, length_app. simpl. lia.
      * by rewrite Hnet.
      * exists n'. rewrite Hr, Hpn. split; [by destruct c|done].
    + assert (l = omap nonce_of pre ++ [r]) as Hl by done. clearbody l. subst l.
      assert (handle_nonce_message (msg m0) (set_network n c) = (set_network n c, Ok tt)) as Hh.
      { unfold nonce_of in H0. by destruct m0 as [[] sg]. }
      rewrite M_bind_eq, Hh, M_bind_eq. simpl.
      replace (public_nonces (set_network n c)) with (public_nonces c) by by destruct c.
      replace (total_signers (set_network n c)) with (total_signers c) by by destruct c.
      rewrite length_app in Hsize. simpl in Hsize. rewrite (proj2 (Z.eqb_neq _ _)) by lia.
      destruct (IH fuel (set_network n c)) as (n' & Hr & Hp''); [done|by destruct c| | |lia|].
      * rewrite length_app. destruct c. simpl in *. lia.
      * by rewrite network_set.
      * exists n'. rewrite Hr. split; [by destruct c|done].
Qed.

(** A segment with one nonce response of each of [total] signers. *)
Definition nonce_segment (total : Z) (seg : list Message) : Prop :=
  closed_by nonce_of seg /\ NoDup (nresp_signer_id <$> omap nonce_of seg) /\
  Z.of_nat (length (omap nonce_of seg)) = total.
Definition nonce_table (seg : list Message) : gmap Z NonceResponse := store_nonces ∅ (omap nonce_of seg).
Definition table_nonce (m : bytes) (t : gmap Z NonceResponse) : option Point :=
  compute_intermediate m (btree_values t ≫= nresp_key_ids) (btree_values t ≫= nresp_nonces).
(** Whether the sum of the nonces has an even y. *)
Definition nonce_parity (m : bytes) (t : gmap Z NonceResponse) : option bool := point_has_even_y <$> table_nonce m t.

Lemma nonce_parity_inv (m : bytes) (t : gmap Z NonceResponse) (b : bool) :
  nonce_parity m t = Some b -> exists R, table_nonce m t = Some R /\ point_has_even_y R = b.
Proof. unfold nonce_parity. destruct (table_nonce m t) as [R|]; [|done]. intros [= <-]. by exists R. Qed.
Definition request_of c : NonceRequest :=
  {| nr_dkg_id := current_dkg_id c; nr_sign_id := current_sign_id c;
     nr_sign_nonce_id := current_sign_nonce_id c |}.

Lemma collect_nonces_pending (seg rest sent : list Message) (fuel : nat) c :
  (forall h, is_Some (ecdsa_sign h (co_network_private_key c))) ->
  nonce_segment (total_signers c) seg ->
  net_pending (network c) (seg ++ rest) sent -> (length seg <= fuel)%nat ->
  exists n g, collect_nonces fuel c = (set_network n (set_public_nonces (nonce_table seg) c), Ok tt) /\
    net_pending n rest (sent ++ [{| msg := MNonceRequest (request_of c); sig := g |}]).
Proof.
  intros Hsign ((pre & m & -> & [r Hm]) & Hnd & Hlen) Hp Hf. unfold collect_nonces.
  rewrite M_bind_eq. simpl. rewrite M_bind_eq. simpl. rewrite M_bind_eq.
  set (c0 := set_public_nonces ∅ c).
  destruct (send_pending (request_of c0) MNonceRequest _ c0 ((pre ++ [m]) ++ rest) sent
    (appends_preimage _ _ (NonceRequest_appends _))) as (n & g & Hs & Hn);
    [by destruct c; apply Hsign|by destruct c|].
  change {| nr_dkg_id := current_dkg_id c0; nr_sign_id := current_sign_id c0;
            nr_sign_nonce_id := current_sign_nonce_id c0 |} with (request_of c0).
  rewrite Hs. rewrite <-app_assoc in Hn.
  assert (omap nonce_of (pre ++ [m]) = omap nonce_of pre ++ [r]) as Hl.
  { rewrite omap_app. simpl. by rewrite Hm. }
  assert (public_nonces (set_network n c0) = ∅ /\ total_signers (set_network n c0) = total_signers c)
    as (He & Ht) by by destruct c.
  destruct (nonces_phase pre rest (sent ++ [{| msg := MNonceRequest (request_of c); sig := g |}]) m r fuel
    (set_network n c0) Hm) as (n' & Hr & Hp').
  - by rewrite <-Hl.
  - intros r' _. by rewrite He.
  - rewrite He, Ht, <-Hl. simpl. exact Hlen.
  - rewrite network_set. replace (request_of c) with (request_of c0) by by destruct c. exact Hn.
  - rewrite length_app in Hf. simpl in Hf. lia.
  - exists n', g. split; [|done]. rewrite Hr, He. unfold nonce_table. rewrite Hl. by destruct c.
Qed.

(** The nonces are requested again as long as their sum has an odd y. *)
Lemma even_rounds (m : bytes) (segs : list (list Message)) (final rest sent : list Message)
    (fuel : nat) c :
  (forall h, is_Some (ecdsa_sign h (co_network_private_key c))) ->
  Forall (fun seg => nonce_segment (total_signers c) seg /\
                     nonce_parity m (nonce_table seg) = Some false) segs ->
  nonce_segment (total_signers c) final ->
  nonce_parity m (nonce_table final) = Some true ->
  net_pending (network c) (concat segs ++ final ++ rest) sent ->
  (length (concat segs ++ final) < fuel)%nat ->
  exists n out, even_nonce_loop fuel m c =
      (set_network n (set_public_nonces (nonce_table final) c), Ok tt) /\
    net_pending n rest (sent ++ out) /\
    msg <$> out = replicate (S (length segs)) (MNonceRequest (request_of c)).
Proof.
  intros Hsign Hsegs Hfin Heven. revert fuel sent c Hsign Hsegs Hfin.
  induction segs as [|seg segs IH]; intros fuel sent c Hsign Hsegs Hfin Hp Hf;
    (destruct fuel as [|fuel]; [lia|]); cbn [even_nonce_loop]; rewrite M_bind_eq;
    unfold compute_aggregate_nonce; rewrite M_bind_eq.
  - simpl in Hp, Hf. destruct (collect_nonces_pending final rest sent (S fuel) c) as (n & g & Hc & Hp');
      [done|done|done|lia|]. rewrite Hc, M_bind_eq. simpl.
    replace (public_nonces (set_network n (set_public_nonces (nonce_table final) c)))
      with (nonce_table final) by by destruct c.
    fold (table_nonce m (nonce_table final)). apply nonce_parity_inv in Heven as (R & -> & HR). cbn [unwrap lift]. rewrite HR.
    eexists n, [_]. split; [done|]. by split.
  - apply Forall_cons in Hsegs as [[Hseg Hodd] Hsegs]. simpl in Hp, Hf. rewrite <-app_assoc in Hp.
    rewrite !length_app in Hf.
    assert (length seg <> O) as Hne.
    { destruct Hseg as [(pre & x & -> & _) _]. rewrite length_app. simpl. lia. }
    destruct (collect_nonces_pending seg (concat segs ++ final ++ rest) sent (S fuel) c) as (n & g & Hc & Hp');
      [done|done|done|lia|]. rewrite Hc, M_bind_eq. simpl.
    set (c1 := set_network n (set_public_nonces (nonce_table seg) c)).
    replace (public_nonces c1) with (nonce_table seg) by by destruct c.
    fold (table_nonce m (nonce_table seg)). apply nonce_parity_inv in Hodd as (R & -> & HR). cbn [unwrap lift]. rewrite HR.
    destruct (IH fuel (sent ++ [{| msg := MNonceRequest (request_of c); sig := g |}]) c1) as (n' & out & Hr & Hp'' & Hout).
    + by destruct c.
    + by destruct c.
    + by destruct c.
    + unfold c1. by rewrite network_set.
    + rewrite length_app. lia.
    + eexists n', (_ :: out). split; [rewrite Hr; by destruct c|]. rewrite <-app_assoc in Hp''.
      split; [exact Hp''|]. rewrite fmap_cons, Hout. simpl. by destruct c.
Qed.

(** ** Signature shares *)
Lemma sigs_phase (pre rest sent : list Message) (m : Message) (r : SignatureShareResponse)
    (signers : gset Z) (fuel : nat) c :
  sigs_of m = Some r ->
  let l := omap sigs_of pre ++ [r] in
  NoDup (ssresp_signer_id <$> l) -> signers = list_to_set (ssresp_signer_id <$> l) ->
  net_pending (network c) (pre ++ m :: rest) sent -> (S (length pre) < fuel)%nat ->
  exists n, collect_signature_shares_loop fuel signers c =
    (set_network n (set_signature_shares (store_sigs (signature_shares c) l) c), Ok tt) /\
    net_pending n rest sent.
Proof.
  intros Hm. revert fuel signers c. induction pre as [|m0 pre IH]; intros fuel signers c l Hnd Hs Hp Hf;
    (destruct fuel as [|fuel]; [lia|]); simpl collect_signature_shares_loop;
    destruct (wait_pending Hretry _ _ _ _ Hp) as (n & Hw & Hp').
  - simpl in Hs. rewrite bool_decide_false by set_solver. rewrite M_bind_eq, Hw.
    unfold sigs_of in Hm. destruct m as [[] sg]; try done. injection Hm as ->. simpl.
    rewrite bool_decide_true by set_solver. rewrite M_bind_eq. simpl.
    destruct fuel as [|fuel]; [simpl in Hf; lia|]. simpl. rewrite bool_decide_true by set_solver.
    exists n. by destruct c.
  - assert (signers <> ∅) as Hne.
    { subst signers l. rewrite fmap_app, list_to_set_app_L. set_solver. }
    rewrite bool_decide_false by done. rewrite M_bind_eq, Hw. simpl in l, Hf.
    destruct (sigs_of m0) as [r0|] eqn:H0.
    + assert (l = r0 :: omap sigs_of pre ++ [r]) as Hl by done. clearbody l. subst l.
      rewrite fmap_cons in Hnd, Hs. apply NoDup_cons in Hnd as [Hni Hnd].
      unfold sigs_of in H0. destruct m0 as [[] sg]; try done. injection H0 as ->. cbn [msg handle_share_message].
      rewrite bool_decide_true by (subst signers; set_solver). rewrite M_bind_eq. simpl.
      set (c1 := set_signature_shares (<[ssresp_signer_id r0 := ssresp_signature_shares r0]>
                   (signature_shares (set_network n c))) (set_network n c)).
      destruct (IH fuel (signers ∖ {[ssresp_signer_id r0]}) c1) as (n' & Hr & Hp''); [done| | |lia|].
      * subst signers. set_solver.
      * by destruct c.
      * exists n'. rewrite Hr. split; [by destruct c|done].
    + assert (l = omap sigs_of pre ++ [r]) as Hl by done. clearbody l. subst l.
      assert (handle_share_message signers (msg m0) (set_network n c) = (set_network n c, Ok signers)) as Hh.
      { unfold sigs_of in H0. by destruct m0 as [[] sg]. }
      rewrite M_bind_eq, Hh.
      destruct (IH fuel signers (set_network n c)) as (n' & Hr & Hp''); [done|done|by rewrite network_set|lia|].
      exists n'. rewrite Hr. split; [by destruct c|done].
Qed.

Definition sigs_segment (ids : gset Z) (seg : list Message) : Prop :=
  closed_by sigs_of seg /\ NoDup (ssresp_signer_id <$> omap sigs_of seg) /\
  ids = list_to_set (ssresp_signer_id <$> omap sigs_of seg).

(** The shares of the awaited signers, in the order of the nonces. *)
Definition shares_for (t : gmap Z NonceResponse) (sigs : gmap Z (list SignatureShare)) :
    list SignatureShare :=
  btree_keys t ≫= (fun i => default [] (sigs !! i)).

Lemma gather_shares_for {E : Type} c :
  (forall i, i ∈ dom (public_nonces c) -> is_Some (signature_shares c !! i)) ->
  gather_shares (E := E) c = Ok (shares_for (public_nonces c) (signature_shares c)).
Proof.
  intros Hall. unfold gather_shares, shares_for.
  assert (forall i, i ∈ btree_keys (public_nonces c) -> is_Some (signature_shares c !! i)) as Hk.
  { intros i Hi. apply Hall, elem_of_dom. unfold btree_keys in Hi.
    apply list_elem_of_fmap in Hi as ([i' r] & -> & Hr%elem_of_btree_entries). by eexists. }
  clear Hall. revert Hk. generalize (btree_keys (public_nonces c)). intros l Hk.
  induction l as [|i l IH]; [done|]. destruct (Hk i) as [x Hx]; [by left|].
  assert (@concat SignatureShare <$> mapR (fun i => unwrap (E := E) (signature_shares c !! i)) l =
    Ok (l ≫= (fun i => default [] (signature_shares c !! i)))) as Hl.
  { apply IH. intros j Hj. apply Hk. by right. }
  simpl. rewrite Hx. simpl. destruct (mapR _ l) as [ys| | |]; try done. injection Hl as Hl.
  simpl. by rewrite Hl.
Qed.

(** ** The round *)
Lemma store_sigs_lookup (t : gmap Z (list SignatureShare)) (l : list SignatureShareResponse) (i : Z) :
  i ∈ ssresp_signer_id <$> l -> is_Some (store_sigs t l !! i).
Proof.
  unfold store_sigs. revert t. induction l as [|r l IH]; intros t Hi; [by apply elem_of_nil in Hi|].
  simpl. destruct (decide (i ∈ ssresp_signer_id <$> l)) as [Hin|Hni]; [by apply IH|].
  rewrite fmap_cons in Hi. apply elem_of_cons in Hi as [->|]; [|done].
  assert (forall t : gmap Z (list SignatureShare), foldl (fun t r => <[ssresp_signer_id r := ssresp_signature_shares r]> t) t l
    !! ssresp_signer_id r = t !! ssresp_signer_id r) as ->; [|rewrite lookup_insert_eq; by eexists].
  clear IH t. induction l as [|r' l IH]; intros t; [done|]. rewrite fmap_cons, not_elem_of_cons in Hni.
  simpl. rewrite IH by apply Hni. apply lookup_insert_ne. intros Heq. by apply (proj1 Hni).
Qed.

Definition share_request (m : bytes) (t : gmap Z NonceResponse) c : SignatureShareRequest :=
  {| ssr_dkg_id := current_dkg_id c; ssr_sign_id := current_sign_id c; ssr_correlation_id := 0;
     ssr_nonce_responses := btree_values t; ssr_message := m |}.

Lemma sign_completes (m : bytes) (segs : list (list Message)) (final sh rest sent : list Message)
    (fuel : nat) c agg sig proof :
  let t := nonce_table final in
  let sigs := store_sigs (signature_shares c) (omap sigs_of sh) in
  (forall h, is_Some (ecdsa_sign h (co_network_private_key c))) ->
  aggregate_public_key c <> point_default ->
  Forall (fun seg => nonce_segment (total_signers c) seg /\
                     nonce_parity m (nonce_table seg) = Some false) segs ->
  nonce_segment (total_signers c) final -> nonce_parity m t = Some true ->
  sigs_segment (dom t) sh ->
  aggregator_new (total_keys c) (threshold c) (polys c) = Some (inl agg) ->
  aggregator_sign agg m (btree_values t ≫= nresp_nonces) (shares_for t sigs) = Some (inl sig) ->
  schnorr_new sig = inl proof ->
  schnorr_verify proof (point_x (aggregate_public_key c)) m = true ->
  net_pending (network c) (concat segs ++ final ++ sh ++ rest) sent ->
  (length (concat segs ++ final ++ sh) < fuel)%nat ->
  exists n out, sign_message fuel m c =
      (set_network n (set_signature_shares sigs (set_public_nonces t c)), Ok (sig, proof)) /\
    net_pending n rest (sent ++ out) /\
    msg <$> out = replicate (S (length segs)) (MNonceRequest (request_of c)) ++
                  [MSignShareRequest (share_request m t c)].
Proof.
  intros t sigs Hsign Hkey Hsegs Hfin Heven Hsh Hagg Hsig Hproof Hver Hp Hf. rewrite !length_app in Hf.
  destruct (even_rounds m segs final (sh ++ rest) sent fuel c) as (n & out & He & Hp1 & Hout); try done.
  { rewrite length_app. destruct Hsh as [(pre & x & -> & _) _]. rewrite length_app in Hf. simpl in Hf. lia. }
  set (c1 := set_network n (set_public_nonces t c)).
  assert (public_nonces c1 = t /\ network c1 = n /\ total_keys c1 = total_keys c /\
    threshold c1 = threshold c /\ polys c1 = polys c /\ signature_shares c1 = signature_shares c /\
    co_network_private_key c1 = co_network_private_key c) as (Ht & Hn & Htk & Hth & Hpo & Hss & Hpk)
    by by destruct c.
  destruct (send_pending (share_request m t c1) MSignShareRequest _ c1 (sh ++ rest) (sent ++ out)
    (appends_preimage _ _ (SignatureShareRequest_appends _))) as (n2 & g & Hsend & Hp2);
    [by rewrite Hpk|by rewrite Hn|].
  destruct Hsh as ((pre & x & -> & [r Hx]) & Hnd & Hids). rewrite <-app_assoc in Hp2. simpl in Hp2.
  assert (omap sigs_of (pre ++ [x]) = omap sigs_of pre ++ [r]) as Hl.
  { rewrite omap_app. simpl. by rewrite Hx. }
  set (c2 := set_network n2 c1).
  destruct (sigs_phase pre rest (sent ++ out ++ [{| msg := MSignShareRequest (share_request m t c1); sig := g |}])
    x r (dom t) fuel c2 Hx) as (n3 & Hc & Hp3).
  - by rewrite <-Hl.
  - by rewrite <-Hl.
  - unfold c2. rewrite network_set, app_assoc. exact Hp2.
  - rewrite length_app in Hf. simpl in Hf. destruct Hfin as [(pre' & y & -> & _) _].
    rewrite length_app in Hf. simpl in Hf. lia.
  - set (c3 := set_network n3 (set_signature_shares sigs (set_public_nonces t c))).
    assert (collect_signature_shares fuel c2 = (c3, Ok tt)) as Hcs.
    { unfold collect_signature_shares. rewrite M_bind_eq. simpl.
      replace (public_nonces c2) with t by by destruct c. rewrite Hc, <-Hl.
      unfold sigs, c3, c2, c1. by destruct c. }
    exists n3, (out ++ [{| msg := MSignShareRequest (share_request m t c1); sig := g |}]).
    split; [|split; [done|rewrite fmap_app, Hout; simpl; by destruct c]].
    unfold sign_message. rewrite M_bind_eq. simpl. rewrite bool_decide_false by done.
    rewrite M_bind_eq, He, M_bind_eq. simpl. fold t. fold c1. rewrite Htk, Hth, Hpo, Hagg. rewrite M_bind_eq. simpl.
    rewrite M_bind_eq. unfold request_signature_shares. rewrite M_bind_eq. simpl. rewrite Ht.
    change {| ssr_dkg_id := current_dkg_id c1; ssr_sign_id := current_sign_id c1; ssr_correlation_id := 0;
              ssr_nonce_responses := btree_values t; ssr_message := m |} with (share_request m t c1).
    rewrite Hsend. fold c2. rewrite M_bind_eq, Hcs, M_bind_eq. simpl. rewrite M_bind_eq. unfold lift.
    assert (public_nonces c3 = t /\ signature_shares c3 = sigs /\
      aggregate_public_key c3 = aggregate_public_key c) as (Hpn3 & Hss3 & Hk3) by by destruct c.
    rewrite gather_shares_for.
    + rewrite Hpn3, Hss3, M_bind_eq, Hsig. simpl. rewrite M_bind_eq, Hproof. simpl. by rewrite Hk3, Hver.
    + rewrite Hpn3, Hss3. intros i Hi. apply store_sigs_lookup. rewrite Hids in Hi. by apply elem_of_list_to_set in Hi.
Qed.
End CoordinatorSign.
