(* ===== verification/DkgSystem.v ===== *)
(** * Key generation by a coordinator and its signers

    [CoordinatorRound] and [DkgRound] on one log: the relay's log of a round, in
    which the signers' answers to [DkgBegin], the ends of the public phase and
    the signers' answers to [DkgPrivateBegin] with the ends of the round follow
    each other.  The answers within each part come in any order.  Attempts whose
    key has an odd y leave the signers ready for the next one
    ([attempted_nodes]). *)
From S2P Require Import Prelude Crypto FrostUtil FrostConfig Messages Net FrostCoordinator CoordinatorRound SigningRound DkgRound.

Section DkgSystem.
Context {CP : P256k1} {WP : Wsts} {WA : WstsAggregator} {BP : BuildProfile} {CL : P256k1Laws}
  {WL : WstsLaws} {N : Type} {NL : NetListen N} {BO : Backoff} {DN : DeliveringNet (N := N)}.
Abbreviation ST := (SigningRound * Rng)%type.
Implicit Types (c : Coordinator (N := N)) (s : ST).

(** The public shares of all signers by party id, and the key they sum up to. *)
Definition share_table (d : Z) (nodes : list ST) : gmap Z DkgPublicShare :=
  list_to_map ((fun p => (dps_party_id p, p)) <$> (nodes ≫= public_shares d)).
Definition constant_of (p : DkgPublicShare) : Point :=
  default point_default (poly_A (dps_public_share p) !! O).
Definition group_key (d : Z) (nodes : list ST) : Point :=
  foldl point_add point_default (constant_of <$> btree_values (share_table d nodes)).

Lemma share_table_commitments (d : Z) (nodes : list ST) :
  dps_public_share <$> share_table d nodes = commitment_table d nodes.
Proof. unfold share_table, commitment_table. by rewrite <-list_to_map_fmap, <-list_fmap_compose. Qed.

Lemma public_shares_constant (d : Z) s (p : DkgPublicShare) : p ∈ public_shares d s ->
  poly_A (dps_public_share p) !! O = Some (constant_of p).
Proof.
  unfold public_shares, polys_of, constant_of. destruct (signer_reset_polys _ _) as [w rng].
  intros (q & -> & Hq)%list_elem_of_fmap. simpl. by destruct (commitment_constant w rng q Hq) as [a ->].
Qed.

Lemma sum_constants (l : list DkgPublicShare) (x : Point) :
  (forall p, p ∈ l -> poly_A (dps_public_share p) !! O = Some (constant_of p)) ->
  foldM (add_share (E := Empty_set)) x l = Ok (foldl point_add x (constant_of <$> l)).
Proof.
  revert x. induction l as [|p l IH]; intros x Hl; [done|]. rewrite fmap_cons. cbn [foldM foldl fold_left].
  assert (add_share (E := Empty_set) x p = Ok (point_add x (constant_of p))) as ->.
  { unfold add_share. by rewrite (Hl p) by by left. }
  apply IH. intros q Hq. apply Hl. by right.
Qed.

Lemma key_of_table (d : Z) (nodes : list ST) :
  NoDup (dps_party_id <$> (nodes ≫= public_shares d)) ->
  key_of_shares (share_table d nodes) = Ok (group_key d nodes).
Proof.
  intros Hnd. apply sum_constants. intros p [k Hp]%elem_of_btree_values.
  apply (table_lookup dps_party_id (fun p => p)) in Hp as (q & Hq & _ & <-); [|done].
  apply list_elem_of_bind in Hq as (s & Hq & _). by eapply public_shares_constant.
Qed.

Lemma share_table_keys (d total : Z) (nodes : list ST) : cluster nodes total ->
  btree_keys (share_table d nodes) = seqZ 1 total.
Proof.
  intros Hc. apply btree_keys_interval. intros k.
  rewrite <-(table_interval nodes total Hc {| db_dkg_id := d |}). simpl.
  by rewrite <-share_table_commitments, lookup_fmap, fmap_is_Some.
Qed.

(** A round's log: what the coordinator receives and the signers process.  The
    part up to the ends of the public phase is also the log of an attempt after
    which the coordinator starts again. *)
Record public_log (nodes : list ST) (b : DkgBegin) (shares ends : list Message) : Prop := {
  pl_shares : msg <$> shares ≡ₚ nodes ≫= answers [MDkgBegin b];
  pl_ends : msg <$> ends ≡ₚ (fun s => public_end (db_dkg_id b) s.1) <$> nodes
}.
Record round_log (nodes : list ST) (b : DkgBegin) (shares ends l : list Message) : Prop := {
  rl_public : public_log nodes b shares ends;
  rl_private : msg <$> l ≡ₚ
    (nodes ≫= (fun s => answers [MDkgPrivateBegin b] (after (MDkgBegin b :: (msg <$> shares ++ ends)) s))) ++
    ((fun s => success (db_dkg_id b) s.1) <$> nodes);
  rl_closed : closed_by end_sender l
}.

Lemma omap_msg {A : Type} (get : MessageTypes -> option A) (l : list Message) :
  omap (fun m => get (msg m)) l = omap get (msg <$> l).
Proof.
  induction l as [|m l IH]; [done|]. rewrite fmap_cons. simpl.
  destruct (get (msg m)); [f_equal|]; exact IH.
Qed.

Section Log.
Context (nodes : list ST) (total : Z) (Hc : cluster nodes total).
Context (b : DkgBegin) (shares ends : list Message) (Hlog : public_log nodes b shares ends).

Lemma ends_quiet_log : Forall is_quiet (msg <$> ends).
Proof. rewrite (pl_ends _ _ _ _ Hlog). apply Forall_fmap, Forall_forall. done. Qed.

Lemma log_public : mixes (msg <$> shares ++ ends) (nodes ≫= answers [MDkgBegin b]).
Proof.
  exists (msg <$> ends). split; [apply ends_quiet_log|].
  by rewrite fmap_app, (pl_shares _ _ _ _ Hlog).
Qed.

Lemma log_shares : msg <$> shares ≡ₚ MDkgPublicShare <$> (nodes ≫= public_shares (db_dkg_id b)).
Proof.
  rewrite (pl_shares _ _ _ _ Hlog), <-bind_fmap.
  by rewrite (bind_ext_in _ _ _ (answers_begin nodes total Hc b)).
Qed.

(** What the coordinator reads off the log. *)
Lemma coordinator_shares : Forall (fun m => public_ender m = None) shares /\
  omap share_of shares ≡ₚ nodes ≫= public_shares (db_dkg_id b).
Proof.
  split.
  - apply Forall_forall. intros m Hm. apply (list_elem_of_fmap_2 msg) in Hm. rewrite log_shares in Hm.
    apply list_elem_of_fmap in Hm as (p & Hp & _). unfold public_ender. by rewrite Hp.
  - rewrite <-(omap_sent MDkgPublicShare public_of (fun _ => eq_refl)), <-log_shares.
    by rewrite <-(omap_msg public_of).
Qed.

Lemma coordinator_ends : Forall (fun m => is_Some (public_ender m)) ends /\
  omap public_ender ends ≡ₚ (fun s => signer_id (signer s.1)) <$> nodes.
Proof.
  split.
  - apply Forall_forall. intros m Hm. apply (list_elem_of_fmap_2 msg) in Hm.
    rewrite (pl_ends _ _ _ _ Hlog) in Hm. apply list_elem_of_fmap in Hm as (s & Hs & _).
    unfold public_ender. rewrite Hs. by eexists.
  - transitivity (omap (fun m => public_ender {| msg := m; sig := [] |}) (msg <$> ends)).
    { by rewrite <-omap_msg. }
    rewrite (pl_ends _ _ _ _ Hlog). clear. induction nodes as [|s l IH]; [done|].
    rewrite !fmap_cons. simpl. by f_equiv.
Qed.

Lemma log_private (l : list Message) : round_log nodes b shares ends l -> mixes (msg <$> l)
  (nodes ≫= (fun s => answers [MDkgPrivateBegin b] (after (MDkgBegin b :: (msg <$> shares ++ ends)) s))).
Proof.
  intros Hround. exists ((fun s => success (db_dkg_id b) s.1) <$> nodes). split; [|apply (rl_private _ _ _ _ _ Hround)].
  apply Forall_fmap, Forall_forall. done.
Qed.

Lemma coordinator_private (l : list Message) : round_log nodes b shares ends l ->
  omap end_sender l ≡ₚ (fun s => signer_id (signer s.1)) <$> nodes.
Proof.
  intros Hround.
  transitivity (omap (fun m => end_sender {| msg := m; sig := [] |}) (msg <$> l)).
  { by rewrite <-omap_msg. }
  rewrite (rl_private _ _ _ _ _ Hround), omap_app.
  rewrite (bind_ext_in _ _ _ (answers_private nodes total Hc b b _ log_public)), bind_fmap.
  assert (forall ps : list DkgPrivateShares,
    omap (fun m => end_sender {| msg := m; sig := [] |}) (MDkgPrivateShares <$> ps) = []) as ->.
  { intros ps. by induction ps. }
  clear. induction nodes as [|s l IH]; [done|]. rewrite !fmap_cons. simpl. by f_equiv.
Qed.

Lemma coordinator_table : store_shares ∅ (omap share_of shares) = share_table (db_dkg_id b) nodes.
Proof.
  apply (table_perm dps_party_id (fun p => p)); [by eapply party_ids_NoDup|apply coordinator_shares].
Qed.

(** What the coordinator makes of the public phase. *)
Lemma coordinator_phase (n : Z) : (fun s => signer_id (signer s.1)) <$> nodes ≡ₚ seqZ 1 n ->
  phase_log n (shares, ends) (group_key (db_dkg_id b) nodes).
Proof.
  intros Hids. destruct coordinator_shares as [Hnone _], coordinator_ends as [Henders Hsenders].
  split; [done..|by rewrite Hsenders|]. cbn [fst]. rewrite coordinator_table.
  apply key_of_table. by eapply party_ids_NoDup.
Qed.
End Log.

(** *** The signers after an attempt *)
Lemma static_ids (self start : SigningRound) : static self = static start ->
  signer_id (signer self) = signer_id (signer start).
Proof. by intros (_ & H & _)%static_fields. Qed.

Section After.
Context (nodes : list ST) (total : Z) (Hc : cluster nodes total).
Context (b : DkgBegin) (log1 : list MessageTypes) (H1 : mixes log1 (nodes ≫= answers [MDkgBegin b])).
Abbreviation attempted := (after (MDkgBegin b :: log1)).

Lemma public_node s : s ∈ nodes ->
  SigningRound.run (MDkgBegin b :: log1) s = (attempted s, Ok (answers (MDkgBegin b :: log1) s)) /\
  static (attempted s).1 = static s.1 /\ state (attempted s).1 = DkgPrivateDistribute /\
  frost_signer (signer (attempted s).1) = begun (frost_signer (signer s.1)) s.2 /\
  (attempted s).2 = rng_begun (frost_signer (signer s.1)) s.2.
Proof.
  intros Hs. destruct (node_public nodes total Hc b log1 H1 s Hs) as (self & Hr & [Hst Hw _ Hstate _ _]).
  unfold after, answers. by rewrite Hr.
Qed.

Lemma public_cluster : cluster (attempted <$> nodes) total.
Proof.
  assert (forall s, s ∈ nodes -> key_ids (attempted s) = key_ids s) as Hkeys.
  { intros s Hs. destruct (public_node s Hs) as (_ & _ & _ & Hw & _). unfold key_ids. rewrite Hw. apply signer_of_keys. }
  assert (forall s, s ∈ attempted <$> nodes -> exists s0, s0 ∈ nodes /\ s = attempted s0) as Hin.
  { intros s (s0 & -> & Hs0)%list_elem_of_fmap. eauto. }
  split.
  - apply (cl_total _ _ Hc).
  - rewrite <-(cl_keys _ _ Hc). rewrite fmap_bind. erewrite bind_ext_in; [done|]. exact Hkeys.
  - intros s (s0 & Hs0 & ->)%Hin. destruct (public_node s0 Hs0) as (_ & Hst & Hstate & Hw & _).
    destruct (cl_node _ _ Hc s0 Hs0) as (Ht & _). destruct (static_fields _ _ Hst) as (-> & _).
    split_and!; [done| |by rewrite Hstate]. rewrite Hw. exact (signer_of_num nodes total Hc s0 Hs0).
  - intros s s' k (s0 & Hs0 & ->)%Hin (s0' & Hs0' & ->)%Hin. rewrite (Hkeys s0' Hs0'). intros Hk.
    destruct (public_node s0 Hs0) as (_ & (_ & _ & _ & ->)%static_fields & _).
    destruct (public_node s0' Hs0') as (_ & (_ & _ & -> & _)%static_fields & _).
    by apply (cl_peers _ _ Hc).
Qed.

Lemma public_ids : (fun s => signer_id (signer s.1)) <$> (attempted <$> nodes) = (fun s => signer_id (signer s.1)) <$> nodes.
Proof.
  rewrite <-list_fmap_compose. apply list_fmap_ext. intros k s Hs%list_elem_of_lookup_2.
  by apply static_ids, public_node.
Qed.
End After.

(** Any number of attempts whose key has an odd y: their logs, and the signers
    after them. *)
Inductive attempted_with (b : DkgBegin) : list ST -> list (list Message * list Message) -> list ST -> Prop :=
  | no_attempts nodes : attempted_with b nodes [] nodes
  | odd_first nodes shares ends atts nodes' :
      public_log nodes b shares ends -> point_has_even_y (group_key (db_dkg_id b) nodes) = false ->
      attempted_with b (after (MDkgBegin b :: (msg <$> shares ++ ends)) <$> nodes) atts nodes' ->
      attempted_with b nodes ((shares, ends) :: atts) nodes'.

Lemma attempted_nodes (b : DkgBegin) (total n : Z) nodes atts nodes' : attempted_with b nodes atts nodes' ->
  cluster nodes total -> (fun s => signer_id (signer s.1)) <$> nodes ≡ₚ seqZ 1 n ->
  cluster nodes' total /\ (fun s => signer_id (signer s.1)) <$> nodes' ≡ₚ seqZ 1 n /\ Forall (odd_attempt n) atts.
Proof.
  induction 1 as [nodes|nodes shares ends atts nodes' Hlog Hodd _ IH]; intros Hc Hids; [by split_and!|].
  pose proof (log_public nodes b shares ends Hlog) as H1.
  destruct IH as (Hc' & Hids' & Ho); [by apply public_cluster|by rewrite (public_ids nodes total Hc b _ H1)|].
  split_and!; [done..|]. constructor; [|done]. eexists.
  split; [exact (coordinator_phase nodes total Hc b shares ends Hlog n Hids)|done].
Qed.

Lemma signers_positive (nodes : list ST) (total : Z) (f : ST -> Z) (n : Z) :
  cluster nodes total -> f <$> nodes ≡ₚ seqZ 1 n -> 0 < n.
Proof.
  intros Hc Hids. destruct (decide (0 < n)); [done|]. exfalso.
  rewrite seqZ_nil in Hids by lia. apply Permutation_nil_r, fmap_nil_inv in Hids.
  destruct (key_owner _ _ Hc 0) as (s & Hs & _); [apply elem_of_seqZ; pose proof (cl_total _ _ Hc); lia|].
  subst. by apply not_elem_of_nil in Hs.
Qed.

(** The coordinator's part, from the states the attempts leave the signers in. *)
Lemma coordinator_completes (nodes0 nodes : list ST) (total : Z) (atts : list (list Message * list Message))
    (shares ends l rest sent : list Message) (fuel : nat) c :
  let d := wrapping_add 64 (current_dkg_id c) 1 in
  let b := {| db_dkg_id := d |} in
  backoff_attempts <> O ->
  (forall h, is_Some (ecdsa_sign h (co_network_private_key c))) ->
  cluster nodes0 total ->
  (fun s => signer_id (signer s.1)) <$> nodes0 ≡ₚ seqZ 1 (FrostCoordinator.total_signers c) ->
  attempted_with b nodes0 atts nodes -> round_log nodes b shares ends l ->
  net_pending (network c) ((atts ≫= attempt_log) ++ shares ++ ends ++ l ++ rest) sent ->
  point_has_even_y (group_key d nodes) = true ->
  (length ((atts ≫= attempt_log) ++ shares ++ ends ++ l) < fuel)%nat ->
  exists n out, run_distributed_key_generation fuel c =
      (set_network n (with_key (group_key d nodes) (share_table d nodes) c), Ok (group_key d nodes)) /\
    net_pending n rest (sent ++ out) /\
    msg <$> out = replicate (S (length atts)) (MDkgBegin b) ++ [MDkgPrivateBegin b].
Proof.
  intros d b Hretry Hsign Hc0 Hids0 Hatts Hlog Hnet Heven Hfuel.
  destruct (attempted_nodes _ _ _ _ _ _ Hatts Hc0 Hids0) as (Hc & Hids & Hodd). pose proof (rl_public _ _ _ _ _ Hlog) as Hpub.
  pose proof (coordinator_table nodes total Hc b shares ends Hpub) as Htab.
  change (db_dkg_id b) with d in Htab. rewrite <-Htab.
  apply (dkg_completes Hretry atts (shares, ends) (group_key d nodes) l rest sent fuel c); try done.
  - by eapply signers_positive.
  - exact (coordinator_phase nodes total Hc b shares ends Hpub _ Hids).
  - by rewrite (coordinator_private nodes total Hc b shares ends Hpub l Hlog).
  - apply (rl_closed _ _ _ _ _ Hlog).
  - unfold attempt_log at 2. by rewrite <-app_assoc.
  - unfold attempt_log at 2. by rewrite <-app_assoc.
Qed.

(** a coordinator and honest signers complete a key generation.  The
    coordinator, behind a network that delivers the log of the round, sends its two
    messages, ends [Dkg] successfully and stores the sum of the constant terms of the signers'
    commitments as the key, if that point has an even y; each signer, given these
    messages and the same log, answers exactly what the log
    holds of it, reports success and is idle again; and what the signers store as
    commitments are those of the shares that the coordinator stored. *)
Theorem dkg_system_completes (nodes : list ST) (total : Z) (shares ends l rest sent : list Message)
    (fuel : nat) c
    (Hretry : backoff_attempts <> O)
    (Hsign : forall h, is_Some (ecdsa_sign h (co_network_private_key c)))
    (Hc : cluster nodes total)
    (Hids : (fun s => signer_id (signer s.1)) <$> nodes ≡ₚ seqZ 1 (FrostCoordinator.total_signers c))
    (Hlog : round_log nodes {| db_dkg_id := wrapping_add 64 (current_dkg_id c) 1 |} shares ends l)
    (Hnet : net_pending (network c) (shares ++ ends ++ l ++ rest) sent)
    (Heven : point_has_even_y (group_key (wrapping_add 64 (current_dkg_id c) 1) nodes) = true)
    (Hfuel : (length (shares ++ ends ++ l) < fuel)%nat) :
  let d := wrapping_add 64 (current_dkg_id c) 1 in
  let b := {| db_dkg_id := d |} in
  exists c' g1 g2, FrostCoordinator.run fuel Dkg c = (c', Ok tt) /\
    net_pending (network c') rest
      (sent ++ [{| msg := MDkgBegin b; sig := g1 |}; {| msg := MDkgPrivateBegin b; sig := g2 |}]) /\
    aggregate_public_key c' = group_key d nodes /\
    btree_keys (dkg_public_shares c') = seqZ 1 total /\
    forall s, s ∈ nodes ->
      exists self rng ps,
        SigningRound.run (MDkgBegin b :: (msg <$> shares ++ ends) ++ MDkgPrivateBegin b :: (msg <$> l)) s =
          ((self, rng), Ok ((MDkgPublicShare <$> public_shares d s) ++ [public_end d s.1] ++
                            (MDkgPrivateShares <$> ps) ++ [success d s.1])) /\
        dprs_key_id <$> ps ≡ₚ key_ids s /\ state self = Idle /\
        commitments self = dps_public_share <$> dkg_public_shares c'.
Proof.
  intros d b.
  destruct (coordinator_completes nodes nodes total [] shares ends l rest sent fuel c Hretry Hsign Hc Hids (no_attempts _ _)
    Hlog Hnet Heven Hfuel) as (n & out & Hr & Hsent & Hout).
  destruct out as [|[m1 g1] [|[m2 g2] [|? ?]]]; try done. injection Hout as -> ->.
  eexists _, g1, g2. unfold FrostCoordinator.run. rewrite M_bind_eq, Hr. split; [reflexivity|].
  split; [by rewrite network_set|]. split; [by destruct c|].
  replace (dkg_public_shares (set_network _ _)) with (share_table d nodes) by by destruct c.
  rewrite share_table_commitments. split; [by eapply share_table_keys|].
  intros s Hs. destruct (node_round nodes total Hc b b _ (log_public _ _ _ _ (rl_public _ _ _ _ _ Hlog)) _
    (log_private _ _ _ _ _ Hlog) s Hs) as (self & rng & Hrun & _ & Hidle & Hcs & _).
  eexists self, rng, _. split; [exact Hrun|]. split_and!; [|done|done].
  exact (private_ids nodes total Hc b b _ (log_public _ _ _ _ (rl_public _ _ _ _ _ Hlog)) s Hs).
Qed.
End DkgSystem.

Module DkgSystemWitness.
Import ToyCrypto.
Import ScriptNet.
Import Toy.
Import DkgToy.
Import DkgRoundWitness.
#[local] Instance three_attempts : Backoff := 3%nat.

(** The round after the last [u64] is round 0; the signers answer in an order of
    their own. *)
Definition zero : DkgBegin := {| db_dkg_id := 0 |}.
Definition posted (m : MessageTypes) : Message := {| msg := m; sig := [] |}.
Definition shares : list Message :=
  posted <$> (answers [MDkgBegin zero] node2 ++ answers [MDkgBegin zero] node1).
Definition ends : list Message := posted <$> [public_end 0 node2.1; public_end 0 node1.1].
Definition private_of_node (s : SigningRound * Rng) : list MessageTypes :=
  answers [MDkgPrivateBegin zero] (after (MDkgBegin zero :: (msg <$> shares ++ ends)) s).
Definition private_log : list Message :=
  posted <$> (private_of_node node1 ++ [success 0 node1.1] ++ private_of_node node2 ++ [success 0 node2.1]).
Definition toy_coordinator : Coordinator (N := Script) :=
  FrostCoordinatorWitness.coordinator (Some <$> (shares ++ ends ++ private_log)) ∅ 0.

Lemma msg_posted (l : list MessageTypes) : msg <$> (posted <$> l) = l.
Proof. rewrite <-list_fmap_compose. apply list_fmap_id. Qed.

Lemma toy_log : round_log [node1; node2] zero shares ends private_log.
Proof.
  split; [split| |].
  - unfold shares. rewrite msg_posted, !bind_cons. simpl. solve_Permutation.
  - unfold ends. rewrite msg_posted. simpl. solve_Permutation.
  - unfold private_log. rewrite msg_posted, !bind_cons. fold (private_of_node node1) (private_of_node node2).
    simpl. solve_Permutation.
  - exists (posted <$> (private_of_node node1 ++ [success 0 node1.1] ++ private_of_node node2)), (posted (success 0 node2.1)).
    split; [|by eexists]. unfold private_log. by rewrite !fmap_app, <-!app_assoc.
Qed.

Lemma dkg_system_completes_witness :
  exists c', FrostCoordinator.run 20 Dkg toy_coordinator = (c', Ok tt) /\
    msg <$> outbox (network c') = [MDkgBegin zero; MDkgPrivateBegin zero] /\
    aggregate_public_key c' = 12 /\
    forall s, s ∈ [node1; node2] -> exists self rng out,
      SigningRound.run (MDkgBegin zero :: (msg <$> shares ++ ends) ++ MDkgPrivateBegin zero :: (msg <$> private_log)) s
        = ((self, rng), Ok out) /\
      state self = Idle /\ commitments self = dps_public_share <$> dkg_public_shares c'.
Proof.
  destruct (dkg_system_completes [node1; node2] 3 shares ends private_log [] [] 20 toy_coordinator)
    as (c' & s1 & s2 & Hr & (_ & _ & Hsent) & Hk & _ & Hs).
  - done.
  - by eexists.
  - apply toy_cluster.
  - by compute_done.
  - apply toy_log.
  - by split.
  - run.
  - apply Nat.ltb_lt. run.
  - exists c'. split; [exact Hr|]. split; [by rewrite Hsent|]. split; [rewrite Hk; run|]. intros s Hin.
    destruct (Hs s Hin) as (self & rng & ps & Hrun & _ & Hi & Hcs). eauto 6.
Defined.
End DkgSystemWitness.
