(* ===== verification/Barrier.v ===== *)
(** * Processes on a shared log that wait for each other

    The relay of the signers is a log that every process reads from its own cursor
    ([Broadcast.broadcast_refines]).  Here a process is what it has sent after it
    has read a part of the log ([react]); processes read and send in any order,
    one message at a time.  When no process sends the messages of the next round
    before it has read all messages of this one, then every run takes the same
    rounds, and ends when a round has no messages ([rounds_end]). *)
From S2P Require Import Prelude.

(** Every run reaches [P], whichever steps are taken. *)
Inductive inevitable {S : Type} (step : S -> S -> Prop) (P : S -> Prop) (s : S) : Prop :=
  | reached : P s -> inevitable step P s
  | proceeds : (exists s', step s s') -> (forall s', step s s' -> inevitable step P s') ->
      inevitable step P s.

Lemma inevitable_weaken {S : Type} (step : S -> S -> Prop) (P Q : S -> Prop) (s : S) :
  inevitable step P s -> (forall s, P s -> Q s) -> inevitable step Q s.
Proof. intros H HPQ. induction H as [s H|s He _ IH]; [by apply reached, HPQ|by apply proceeds]. Qed.

(** An invariant under which a step is possible unless [P] holds, and a measure
    that every step decreases. *)
Lemma inevitable_measure {S : Type} (step : S -> S -> Prop) (I P : S -> Prop) (m : S -> nat) :
  (forall s s', I s -> step s s' -> I s' /\ (m s' < m s)%nat) ->
  (forall s, I s -> P s \/ exists s', step s s') ->
  forall s, I s -> inevitable step P s.
Proof.
  intros Hstep Hprog s. induction s as [s IH] using (induction_ltof1 _ m). intros Hs.
  destruct (Hprog s Hs) as [Hp|He]; [by apply reached|]. apply proceeds; [done|].
  intros s' Hs'. destruct (Hstep s s' Hs Hs') as [HI Hm]. by apply IH.
Qed.

(** ** The system *)
Section Shared.
Context {M I : Type} `{!EqDecision I}.
Context (procs : list I) (react : I -> list M -> list M).

(** The log, and for each process how much it has read of it and sent to it. *)
Record Shared := { log : list M; read : I -> nat; sent : I -> nat }.

Definition set_at (i : I) (n : nat) (f : I -> nat) : I -> nat := fun j => if decide (j = i) then n else f j.

Definition start : Shared := {| log := []; read := fun _ => O; sent := fun _ => O |}.

(** What process [i] has to send in all, from what it has read. *)
Definition produced (i : I) (s : Shared) : list M := react i (take (read s i) (log s)).

(** A process reads when it has sent what it had to. *)
Inductive step (s : Shared) : Shared -> Prop :=
  | step_read (i : I) : i ∈ procs -> (read s i < length (log s))%nat -> sent s i = length (produced i s) ->
      step s {| log := log s; read := set_at i (S (read s i)) (read s); sent := sent s |}
  | step_send (i : I) (m : M) : i ∈ procs -> produced i s !! sent s i = Some m ->
      step s {| log := log s ++ [m]; read := read s; sent := set_at i (S (sent s i)) (sent s) |}.

(** ** Rounds

    [plan hist i] is what process [i] sends in the round after the rounds [hist]. *)
Context (plan : list (list M) -> I -> list M).

Definition next_round (hist : list (list M)) : list M := procs ≫= plan hist.

Inductive rounds : list (list M) -> Prop :=
  | rounds_nil : rounds []
  | rounds_snoc hist seg : rounds hist -> seg <> [] -> seg ≡ₚ next_round hist -> rounds (hist ++ [seg]).

(** [q] is a part of the round after [hist], but not all of it. *)
Definition unfinished (hist : list (list M)) (q : list M) : Prop :=
  q = [] \/ exists q', q' <> [] /\ q ++ q' ≡ₚ next_round hist.

(** What [i] has sent when the rounds before [hist] are over, and when the round after [hist] is. *)
Fixpoint due_in (past hist : list (list M)) (i : I) : list M :=
  match hist with
  | [] => []
  | seg :: hist => plan past i ++ due_in (past ++ [seg]) hist i
  end.
Definition before (hist : list (list M)) (i : I) : list M := due_in [] hist i.
Definition due (hist : list (list M)) (i : I) : list M := before hist i ++ plan hist i.

(** A process is behind the barrier: after a part of a round it has sent what it
    had to send without it. *)
Definition waits (i : I) : Prop := forall hist q,
  rounds hist -> unfinished hist q -> react i (concat hist ++ q) = due hist i.

Lemma due_in_app (past h1 h2 : list (list M)) (i : I) :
  due_in past (h1 ++ h2) i = due_in past h1 i ++ due_in (past ++ h1) h2 i.
Proof.
  revert past. induction h1 as [|seg h1 IH]; intros past; simpl; [by rewrite app_nil_r|].
  by rewrite IH, <-!app_assoc.
Qed.

Lemma due_in_snoc (past hist : list (list M)) (seg : list M) (i : I) :
  due_in past (hist ++ [seg]) i = due_in past hist i ++ plan (past ++ hist) i.
Proof.
  rewrite due_in_app. simpl. by rewrite app_nil_r.
Qed.
Lemma before_snoc (hist : list (list M)) (seg : list M) (i : I) : before (hist ++ [seg]) i = due hist i.
Proof. apply due_in_snoc. Qed.

Lemma unfinished_prefix (hist : list (list M)) (q : list M) (n : nat) :
  unfinished hist q -> unfinished hist (take n q).
Proof.
  intros [->|(q' & Hne & Hp)]; [left; by destruct n|]. right. exists (drop n q ++ q').
  split; [by destruct (drop n q)|]. by rewrite app_assoc, take_drop.
Qed.

Lemma rounds_inv (hist : list (list M)) (seg : list M) : rounds (hist ++ [seg]) ->
  rounds hist /\ seg <> [] /\ seg ≡ₚ next_round hist.
Proof.
  inversion 1 as [Hn|h s ? ? ? Heq]; [by destruct hist|]. apply app_inj_tail in Heq as [-> ->]. done.
Qed.

(** A shorter log. *)
Lemma take_rounds (hist : list (list M)) (q : list M) (n : nat) :
  rounds hist -> unfinished hist q -> (n <= length (concat hist ++ q))%nat ->
  exists hist' more q', hist = hist' ++ more /\ rounds hist' /\ unfinished hist' q' /\
    take n (concat hist ++ q) = concat hist' ++ q' /\
    (n = length (concat hist ++ q) -> more = []).
Proof.
  intros Hr. revert q. induction Hr as [|hist seg Hr IH Hne Hp]; intros q Hq Hn.
  - exists [], [], (take n q). simpl. split_and!; try done; [constructor|by apply unfinished_prefix].
  - destruct (decide (length (concat (hist ++ [seg])) <= n)%nat) as [Hle|Hlt].
    + exists (hist ++ [seg]), [], (take (n - length (concat (hist ++ [seg]))) q).
      rewrite app_nil_r. split_and!; try done; [by apply rounds_snoc|by apply unfinished_prefix|].
      by rewrite take_app, (take_ge (concat _)) by lia.
    + assert (take n (concat (hist ++ [seg]) ++ q) = take n (concat hist ++ take (length seg - 1) seg)) as ->.
      { rewrite concat_app in Hlt |- *. simpl in *. rewrite app_nil_r in *. rewrite length_app in Hlt.
        rewrite <-app_assoc, !take_app, take_take. f_equal.
        rewrite (proj2 (Nat.sub_0_le (n - length (concat hist)) (length seg))) by lia.
        rewrite take_0, app_nil_r. f_equal. lia. }
      destruct (IH (take (length seg - 1) seg)) as (hist' & more & q' & -> & Hr' & Hq' & Ht & Hm).
      * right. exists (drop (length seg - 1) seg). rewrite take_drop. split; [|done].
        intros Hd%(f_equal length). rewrite length_drop in Hd. destruct seg; simpl in *; [done|lia].
      * rewrite concat_app in Hlt. simpl in Hlt. rewrite app_nil_r, length_app in Hlt.
        rewrite length_app, length_take. lia.
      * exists hist', (more ++ [seg]), q'. rewrite app_assoc. split_and!; try done.
        intros ->. rewrite length_app in Hlt. lia.
Qed.

Lemma due_app (hist more : list (list M)) (i : I) :
  exists rest, due (hist ++ more) i = due hist i ++ rest /\ (more = [] -> rest = []).
Proof.
  destruct more as [|seg more _] using rev_ind; [exists []; by rewrite !app_nil_r|].
  assert (exists rest, before (hist ++ more ++ [seg]) i = due hist i ++ rest) as [rest Hr].
  { revert seg. induction more as [|seg' more IH] using rev_ind; intros seg.
    - exists []. simpl. by rewrite before_snoc, app_nil_r.
    - destruct (IH seg') as [rest Hr]. rewrite app_assoc, before_snoc. unfold due at 1. rewrite Hr.
      eexists. by rewrite <-app_assoc. }
  exists (rest ++ plan (hist ++ more ++ [seg]) i). unfold due at 1. rewrite Hr, <-app_assoc.
  split; [done|]. by destruct more.
Qed.

(** ** Every run takes the rounds *)
Context (Hnd : NoDup procs) (Hwaits : forall i, i ∈ procs -> waits i).

(** What [i] has sent in the round after [hist]. *)
Definition part (hist : list (list M)) (s : Shared) (i : I) : list M :=
  take (sent s i - length (before hist i)) (plan hist i).

Record at_round (hist : list (list M)) (q : list M) (s : Shared) : Prop := {
  ar_rounds : rounds hist;
  ar_log : log s = concat hist ++ q;
  ar_open : unfinished hist q;
  ar_read : forall i, i ∈ procs -> (read s i <= length (log s))%nat;
  ar_sent : forall i, i ∈ procs -> (length (before hist i) <= sent s i <= length (due hist i))%nat;
  ar_produced : forall i, i ∈ procs -> (sent s i <= length (produced i s))%nat;
  ar_part : q ≡ₚ procs ≫= part hist s
}.

Lemma start_round : at_round [] [] start.
Proof.
  split; [constructor|done|by left|done|by split; simpl; lia|simpl; lia|].
  clear Hwaits Hnd. by induction procs as [|i l IH].
Qed.

Lemma react_take hist q n i : rounds hist -> unfinished hist q -> i ∈ procs ->
  (n <= length (concat hist ++ q))%nat ->
  exists rest, due hist i = react i (take n (concat hist ++ q)) ++ rest /\
    (n = length (concat hist ++ q) -> rest = []).
Proof.
  intros Hr Hq Hi Hn. destruct (take_rounds hist q n) as (hist' & more & q' & -> & Hr' & Hq' & -> & Hm); try done.
  rewrite (Hwaits i Hi hist' q' Hr' Hq'). destruct (due_app hist' more i) as (rest & -> & Hrest).
  exists rest. split; [done|]. intros Heq. by apply Hrest, Hm.
Qed.

Lemma produced_due hist q s i : at_round hist q s -> i ∈ procs ->
  exists rest, due hist i = produced i s ++ rest /\ (read s i = length (log s) -> rest = []).
Proof.
  intros Ha Hi. unfold produced. pose proof (ar_read _ _ _ Ha i Hi) as Hr. rewrite (ar_log _ _ _ Ha) in *.
  apply react_take; [apply Ha..|done|done].
Qed.

(** Reading on only adds to what has to be sent. *)
Lemma react_grows hist q s i n : at_round hist q s -> i ∈ procs -> (n < length (log s))%nat ->
  (length (react i (take n (log s))) <= length (react i (take (S n) (log s))))%nat.
Proof.
  intros Ha Hi Hn. pose proof (ar_log _ _ _ Ha) as Hl.
  destruct (take_rounds hist q (S n)) as (hist' & more & q' & _ & Hr' & Hq' & Ht & _); [apply Ha..|by rewrite <-Hl|].
  rewrite <-Hl in Ht. destruct (react_take hist' q' n i Hr' Hq' Hi) as (rest & Hd & _).
  { rewrite <-Ht, length_take. lia. }
  rewrite Ht, (Hwaits i Hi hist' q' Hr' Hq'), Hd, <-Ht, take_take, Nat.min_l, length_app by lia. lia.
Qed.

Lemma bind_extend {A B : Type} (f g : A -> list B) (l : list A) (a : A) (b : B) :
  NoDup l -> a ∈ l -> (forall x, x <> a -> g x = f x) -> g a = f a ++ [b] ->
  l ≫= g ≡ₚ (l ≫= f) ++ [b].
Proof.
  intros Hl Ha Hne Heq. apply list_elem_of_split in Ha as (l1 & l2 & ->).
  apply NoDup_app in Hl as (_ & Hl1 & Hl2). apply NoDup_cons in Hl2 as [Hl2 _].
  rewrite !bind_app, !bind_cons, Heq.
  rewrite (bind_ext_in g f l1), (bind_ext_in g f l2); [solve_Permutation|..].
  - intros x Hx. apply Hne. by intros ->.
  - intros x Hx. apply Hne. intros ->. by eapply Hl1, list_elem_of_here.
Qed.

Lemma parts_perm hist s : (procs ≫= part hist s) ++
  (procs ≫= (fun i => drop (sent s i - length (before hist i)) (plan hist i))) ≡ₚ next_round hist.
Proof.
  clear. unfold next_round, part. induction procs as [|i l IH]; [done|]. rewrite !bind_cons, <-IH.
  rewrite <-(take_drop (sent s i - length (before hist i)) (plan hist i)) at 3. solve_Permutation.
Qed.

(** A round of which everything has been sent is over. *)
Lemma round_closes hist q s : rounds hist -> log s = concat hist ++ q -> q <> [] ->
  (forall i, i ∈ procs -> (read s i <= length (log s))%nat) ->
  (forall i, i ∈ procs -> (length (before hist i) <= sent s i <= length (due hist i))%nat) ->
  (forall i, i ∈ procs -> (sent s i <= length (produced i s))%nat) ->
  q ≡ₚ procs ≫= part hist s -> exists hist q, at_round hist q s.
Proof.
  intros Hr Hl Hne Hread Hsent Hprod Hp. pose proof (parts_perm hist s) as Hall. rewrite <-Hp in Hall.
  destruct (procs ≫= (fun i => drop (sent s i - length (before hist i)) (plan hist i))) as [|m rest] eqn:Hd.
  - rewrite app_nil_r in Hall. exists (hist ++ [q]), [].
    assert (forall i, i ∈ procs -> sent s i = length (due hist i)) as Hfull.
    { intros i Hi. assert (drop (sent s i - length (before hist i)) (plan hist i) = []) as Hdi.
      { destruct (drop (sent s i - length (before hist i)) (plan hist i)) as [|x l] eqn:Hx; [done|].
        assert (x ∈ []) as []%not_elem_of_nil. rewrite <-Hd. apply list_elem_of_bind. exists i.
        split; [rewrite Hx; by left|done]. }
      apply (f_equal length) in Hdi. rewrite length_drop in Hdi. simpl in Hdi.
      specialize (Hsent i Hi). unfold due in *. rewrite length_app in *. lia. }
    split; try done.
    + by apply rounds_snoc.
    + rewrite concat_app. simpl. by rewrite Hl, !app_nil_r.
    + by left.
    + intros i Hi. rewrite before_snoc, (Hfull i Hi). unfold due at 4. rewrite length_app, before_snoc. lia.
    + rewrite (bind_ext_in _ (fun _ => [])); [clear; by induction procs|].
      intros i Hi. unfold part. by rewrite before_snoc, (Hfull i Hi), Nat.sub_diag.
  - exists hist, q. split; try done. right. by exists (m :: rest).
Qed.

Lemma step_round hist q s s' : at_round hist q s -> step s s' -> exists hist q, at_round hist q s'.
Proof.
  intros Ha Hs. destruct Hs as [i Hi Hlt Hsent|i m Hi Hm].
  - exists hist, q. pose proof (react_grows hist q s i _ Ha Hi Hlt) as Hg.
    destruct Ha as [Hr Hl Ho Hread Hse Hprod Hp]. split; try done; unfold produced; simpl.
    + intros j Hj. unfold set_at. case_decide; [lia|by apply Hread].
    + intros j Hj. unfold set_at. case_decide as Hji; [subst j|by apply Hprod].
      rewrite Hsent. exact Hg.
  - destruct (produced_due hist q s i Ha Hi) as (rest & Hdue & _).
    destruct Ha as [Hr Hl Ho Hread Hsent Hprod Hp]. pose proof (Hsent i Hi) as Hsi.
    assert (due hist i !! sent s i = Some m) as Hmd by (rewrite Hdue; by apply lookup_app_l_Some).
    unfold due in Hmd. rewrite lookup_app_r in Hmd by lia.
    apply (round_closes hist (q ++ [m])); simpl; try done.
    + by rewrite Hl, app_assoc.
    + by destruct q.
    + intros j Hj. rewrite length_app. specialize (Hread j Hj). lia.
    + intros j Hj. unfold set_at. case_decide as Hji; [subst j|by apply Hsent].
      apply lookup_lt_Some in Hmd. unfold due in *. rewrite length_app in *. lia.
    + intros j Hj. unfold produced. simpl. rewrite take_app_le by by apply Hread.
      unfold set_at. case_decide as Hji; [subst j|by apply Hprod]. by apply lookup_lt_Some in Hm.
    + rewrite (bind_extend (part hist s) _ procs i m); [by rewrite Hp|done|done| |].
      * intros j Hj. unfold part. simpl. unfold set_at. by rewrite decide_False.
      * unfold part. simpl. unfold set_at. rewrite decide_True by done.
        replace (S (sent s i) - length (before hist i))%nat with (S (sent s i - length (before hist i))) by lia.
        by rewrite (take_S_r _ _ m).
Qed.

(** Nobody has anything left to do: the round has no messages. *)
Lemma round_progress hist q s : at_round hist q s ->
  (q = [] /\ next_round hist = [] /\
   forall i, i ∈ procs -> read s i = length (log s) /\ sent s i = length (due hist i)) \/
  exists s', step s s'.
Proof.
  intros Ha. destruct (decide (Forall (fun i => read s i = length (log s) /\ sent s i = length (produced i s)) procs))
    as [Hall|Hex].
  - left. rewrite Forall_forall in Hall.
    assert (forall i, i ∈ procs -> read s i = length (log s) /\ sent s i = length (due hist i)) as Hdone.
    { intros i Hi. destruct (Hall i Hi) as [Hr Hs]. destruct (produced_due hist q s i Ha Hi) as (rest & Hd & Hrest).
      by rewrite Hs, Hd, (Hrest Hr), app_nil_r. }
    assert (next_round hist = procs ≫= part hist s) as Heq.
    { apply bind_ext_in. intros i Hi. unfold part. rewrite take_ge; [done|].
      destruct (Hdone i Hi) as [_ ->]. unfold due. rewrite length_app. lia. }
    pose proof (ar_part _ _ _ Ha) as Hp. rewrite <-Heq in Hp.
    destruct (ar_open _ _ _ Ha) as [->|(q' & Hne & Hq')].
    + apply Permutation_nil_l in Hp. by rewrite Hp.
    + apply Permutation_length in Hp, Hq'. rewrite length_app in Hq'. destruct q'; simpl in *; [done|lia].
  - right. apply not_Forall_Exists, Exists_exists in Hex as (i & Hi & Hn); [|apply _].
    destruct (produced_due hist q s i Ha Hi) as (rest & Hd & _).
    pose proof (ar_read _ _ _ Ha i Hi). pose proof (ar_produced _ _ _ Ha i Hi).
    destruct (decide (sent s i = length (produced i s))) as [Hs|Hs].
    + eexists. apply (step_read s i Hi); [|done].
      destruct (decide (read s i = length (log s))); [by exfalso; apply Hn|lia].
    + destruct (lookup_lt_is_Some_2 (produced i s) (sent s i)) as [m Hm]; [lia|].
      eexists. by apply (step_send s i m).
Qed.

(** Messages that remain to be sent and read, if at most [bound] are sent in all. *)
Definition remaining (bound : nat) (s : Shared) : nat :=
  (bound - length (log s)) + sum_list_with (fun i => bound - read s i)%nat procs.

Lemma sum_lower (f g : I -> nat) (l : list I) (i : I) : NoDup l -> i ∈ l ->
  (forall j, j <> i -> g j = f j) -> (g i < f i)%nat -> (sum_list_with g l < sum_list_with f l)%nat.
Proof.
  intros Hl Hi Hne Hlt. apply list_elem_of_split in Hi as (l1 & l2 & ->).
  apply NoDup_app in Hl as (_ & Hl1 & Hl2). apply NoDup_cons in Hl2 as [Hl2 _].
  assert (forall l, i ∉ l -> sum_list_with g l = sum_list_with f l) as Heq.
  { intros l Hn. induction l as [|j l IH]; [done|]. apply not_elem_of_cons in Hn as [Hj Hn].
    simpl. by rewrite IH, Hne by done. }
  rewrite !sum_list_with_app. simpl.
  rewrite (Heq l2 Hl2), (Heq l1) by (intros Hx; by eapply Hl1, list_elem_of_here). lia.
Qed.

(** If there is room for no more than [bound] messages in the rounds, every run
    ends, with a round in which nobody has to send anything and everything has
    been read. *)
Lemma rounds_end (bound : nat)
    (Hbound : forall hist, rounds hist -> (length (concat hist ++ next_round hist) <= bound)%nat) :
  inevitable step (fun s => exists hist, rounds hist /\ next_round hist = [] /\ log s = concat hist /\
    forall i, i ∈ procs -> read s i = length (log s) /\ sent s i = length (react i (log s))) start.
Proof.
  apply (inevitable_measure _ (fun s => exists hist q, at_round hist q s) _ (remaining bound));
    [| |exists [], []; apply start_round].
  - intros s s' (hist & q & Ha) Hs. pose proof (step_round _ _ _ _ Ha Hs) as Ha'. split; [done|].
    destruct Ha' as (hist' & q' & Ha'). unfold remaining.
    assert (length (log s') <= bound)%nat as Hb.
    { rewrite (ar_log _ _ _ Ha'). etrans; [|apply (Hbound hist'), Ha']. rewrite !length_app.
      destruct (ar_open _ _ _ Ha') as [->|(q'' & _ & Hp)]; simpl; [lia|].
      apply Permutation_length in Hp. rewrite length_app in Hp. lia. }
    destruct Hs as [i Hi Hlt Hsent|i m Hi Hm]; simpl in *.
    + apply Nat.add_lt_mono_l, (sum_lower _ _ procs i); [done|done|..]; unfold set_at.
      * intros j Hj. by rewrite decide_False.
      * rewrite decide_True by done. lia.
    + rewrite length_app in *. simpl in *. lia.
  - intros s (hist & q & Ha). destruct (round_progress hist q s Ha) as [(-> & Hn & Hd)|He]; [|by right].
    left. exists hist. pose proof (ar_log _ _ _ Ha) as Hl. rewrite app_nil_r in Hl.
    split_and!; [apply Ha|done|done|]. intros i Hi. destruct (Hd i Hi) as [Hr Hs]. split; [done|].
    rewrite Hs, Hl. pose proof (Hwaits i Hi hist [] ltac:(apply Ha) ltac:(by left)) as Hw.
    rewrite app_nil_r in Hw. by rewrite Hw.
Qed.
End Shared.

(** ** Plans in sequence

    After the [n] rounds of [P] come those of [Q], which may depend on them. *)
Section Sequence.
Context {M I : Type} (procs : list I) (P : list (list M) -> I -> list M) (Q : list M -> list (list M) -> I -> list M) (n : nat).

Definition in_sequence (hist : list (list M)) : I -> list M :=
  if decide (length hist < n)%nat then P hist else Q (concat (take n hist)) (drop n hist).

Lemma sequence_first (hist : list (list M)) : (length hist < n)%nat -> in_sequence hist = P hist.
Proof. intros Hn. unfold in_sequence. by rewrite decide_True. Qed.

Lemma sequence_then (h1 h2 : list (list M)) : length h1 = n -> in_sequence (h1 ++ h2) = Q (concat h1) h2.
Proof.
  intros Hn. unfold in_sequence. rewrite decide_False by (rewrite length_app; lia).
  by rewrite take_app_length', drop_app_length'.
Qed.

Lemma rounds_sequence (hist : list (list M)) : rounds procs in_sequence hist ->
  (length hist < n)%nat /\ rounds procs P hist \/
  exists h1 h2, hist = h1 ++ h2 /\ length h1 = n /\ rounds procs P h1 /\ rounds procs (Q (concat h1)) h2.
Proof.
  assert (forall h1, length h1 = n -> rounds procs P h1 -> exists h1' h2, h1 = h1' ++ h2 /\ length h1' = n /\
    rounds procs P h1' /\ rounds procs (Q (concat h1')) h2) as Hfull.
  { intros h1 Hl Hr. exists h1, []. rewrite app_nil_r. split_and!; try done. constructor. }
  induction 1 as [|hist seg _ IH Hne Hp].
  - destruct n; [right; apply Hfull; [done|constructor]|left; split; [simpl; lia|constructor]].
  - destruct IH as [[Hl Hr]|(h1 & h2 & -> & Hl & Hr1 & Hr2)].
    + assert (rounds procs P (hist ++ [seg])) as Hr'.
      { apply rounds_snoc; [done|done|]. unfold next_round in *. by rewrite sequence_first in Hp. }
      destruct (decide (length (hist ++ [seg]) < n)%nat) as [Hlt|Hge]; [by left|]. right. apply Hfull; [|done].
      rewrite length_app in *. simpl in *. lia.
    + right. exists h1, (h2 ++ [seg]). rewrite app_assoc. split_and!; try done.
      apply rounds_snoc; [done|done|]. unfold next_round in *. by rewrite sequence_then in Hp.
Qed.

Lemma due_first (hist : list (list M)) (i : I) : (length hist < n)%nat -> due in_sequence hist i = due P hist i.
Proof.
  intros Hl. unfold due, before. rewrite sequence_first by done. f_equal.
  assert (forall h past, (length (past ++ h) < n)%nat -> due_in in_sequence past h i = due_in P past h i) as Hin;
    [|by apply Hin].
  clear hist Hl. induction h as [|seg h IH]; intros past Hl; [done|]. simpl.
  rewrite sequence_first by (rewrite length_app in Hl; simpl in Hl; lia). rewrite IH; [done|]. by rewrite <-app_assoc.
Qed.

Lemma due_then (h1 h2 : list (list M)) (i : I) : length h1 = n ->
  due in_sequence (h1 ++ h2) i = before P h1 i ++ due (Q (concat h1)) h2 i.
Proof.
  intros Hl. unfold due, before. rewrite sequence_then, due_in_app, <-app_assoc by done. f_equal; [|f_equal].
  - assert (forall h past, (length (past ++ h) <= n)%nat -> due_in in_sequence past h i = due_in P past h i) as Hin;
      [|apply Hin; simpl; lia].
    clear h1 h2 Hl. induction h as [|seg h IH]; intros past Hl; [done|]. simpl. rewrite length_app in Hl. simpl in Hl.
    rewrite sequence_first by lia. rewrite IH; [done|]. rewrite !length_app. simpl. lia.
  - assert (forall h past, due_in in_sequence (h1 ++ past) h i = due_in (Q (concat h1)) past h i) as Hin.
    { induction h as [|seg h IH]; intros past; [done|]. simpl. by rewrite sequence_then, <-IH, app_assoc. }
    rewrite <-(Hin h2 []). by rewrite app_nil_r.
Qed.
End Sequence.
