(* ===== verification/AsyncDkg.v ===== *)
(** * Key generation without a schedule

    [DkgSystem] on the system of [Barrier]: a coordinator and its signers read the
    relay's log from their own cursors and send to it one message at a time, in
    any order.  What a signer sends is what its [SigningRound] answers to the part
    of the log it has read; what the coordinator sends is what its run of [Dkg]
    has sent when its network has delivered that part.  Every run of an attempt ends
    with the log of a complete round; [AsyncRestart] goes on from there, as the
    coordinator does, when the key is odd. *)
From S2P Require Import Prelude Crypto FrostUtil FrostConfig Messages Net FrostCoordinator CoordinatorRound SigningRound DkgRound DkgSystem Barrier.
Import ScriptNet.

Section AsyncDkg.
Context {CP : P256k1} {WP : Wsts} {WA : WstsAggregator} {BP : BuildProfile} {CL : P256k1Laws}
  {WL : WstsLaws} {BO : Backoff}.
Abbreviation ST := (SigningRound * Rng)%type.

(** ** The coordinator on a part of the log *)
Section Coordinator.
Context (stamp : MessageTypes -> bytes) (fuel : nat).
Implicit Types (c : Coordinator (N := Script)).

Definition stamped (m : MessageTypes) : Message := {| msg := m; sig := stamp m |}.
Definition coordinator_on c (l : list MessageTypes) : Coordinator (N := Script) :=
  set_network (script (Some <$> (stamped <$> l))) c.
Definition coordinator_sends c (l : list MessageTypes) : list MessageTypes :=
  msg <$> outbox (network (FrostCoordinator.run fuel Dkg (coordinator_on c l)).1).

(** Waiting sends nothing. *)
Lemma poll_attempts_outbox (k : nat) (id : Z) (n : Script) :
  outbox (poll_attempts k id n).1 = outbox n.
Proof.
  revert n. induction k as [|k IH]; intros n; [done|]. simpl.
  unfold script_next, script_poll. destruct n as [[|[m|] d] q o]; simpl; destruct (last _); simpl; try done;
    by rewrite IH.
Qed.

Lemma wait_outbox (o : list Message) : keeps (fun c => outbox (network c) = o) wait_for_next_message.
Proof.
  intros c Hc. unfold wait_for_next_message. pose proof (poll_attempts_outbox backoff_attempts (id c) (network c)) as Hp.
  destruct (poll_attempts _ _ _) as [n [m|]]; destruct c; simpl in *; congruence.
Qed.

Context (Hretry : backoff_attempts <> O).

Lemma wait_nothing c (sent : list Message) : net_pending (network c) [] sent ->
  exists n, wait_for_next_message c = (set_network n c, Err CTimeout) /\ outbox n = sent.
Proof.
  intros (Hd & Hq & Ho). unfold wait_for_next_message.
  assert (forall k, poll_attempts k (id c) (network c) = (network c, None)) as ->.
  { destruct (network c) as [d q o]. simpl in *. subst. intros k. by induction k as [|k IH]. }
  by exists (network c).
Qed.

(** A phase without the end that [i] has to send is not left, and nothing is sent. *)
Lemma public_waits (k : nat) (ids : gset Z) (l sent : list Message) (i : Z) c :
  net_pending (network c) l sent -> i ∈ ids -> i ∉ omap public_ender l ->
  outbox (network (wait_for_public_shares_loop k ids c).1) = sent /\
  forall key, (wait_for_public_shares_loop k ids c).2 <> Ok key.
Proof.
  revert ids l c. induction k as [|k IH]; intros ids l c Hp Hi Hn; [by split; [apply Hp|]|].
  simpl. rewrite bool_decide_false by set_solver. destruct l as [|m l].
  - destruct (wait_nothing c sent Hp) as (n & Hw & Ho). rewrite M_bind_eq, Hw. by destruct c.
  - destruct (wait_pending Hretry c m l sent Hp) as (n & Hw & Hp'). rewrite M_bind_eq, Hw.
    assert (exists c' ids', handle_public_message ids (msg m) (set_network n c) = (c', Ok ids') /\
      network c' = n /\ i ∈ ids') as (c' & ids' & Hh & Hc' & Hi').
    { destruct m as [[] sg]; simpl; eexists _, _; (split; [reflexivity|]);
        (split; [by destruct c|]); try done.
      apply elem_of_difference. split; [done|]. intros ->%elem_of_singleton. apply Hn. by left. }
    rewrite M_bind_eq, Hh. apply (IH ids' l); [by rewrite Hc'|done|].
    intros Hin. apply Hn. simpl. destruct (public_ender m); [by right|done].
Qed.

Lemma end_loop_outbox (k : nat) (ids : gset Z) (o : list Message) :
  keeps (fun c => outbox (network c) = o) (wait_for_dkg_end_loop k ids).
Proof.
  revert ids. induction k as [|k IH]; intros ids; [by apply keeps_lift|].
  cbn [wait_for_dkg_end_loop]. case_bool_decide; [apply keeps_ret|].
  apply keeps_bind; [apply wait_outbox|]. intros m. destruct (msg m); apply IH.
Qed.

(** Without the end that [i] has to send the last phase is not left. *)
Lemma end_waits (k : nat) (ids : gset Z) (l sent : list Message) (i : Z) c :
  net_pending (network c) l sent -> i ∈ ids -> i ∉ omap end_sender l ->
  (wait_for_dkg_end_loop k ids c).2 <> Ok tt.
Proof.
  revert ids l c. induction k as [|k IH]; intros ids l c Hp Hi Hn; [done|].
  cbn [wait_for_dkg_end_loop]. rewrite bool_decide_false by set_solver. destruct l as [|m l].
  - destruct (wait_nothing c sent Hp) as (n & Hw & _). by rewrite M_bind_eq, Hw.
  - destruct (wait_pending Hretry c m l sent Hp) as (n & Hw & Hp'). rewrite M_bind_eq, Hw.
    assert (i ∉ omap end_sender l) as Hn'.
    { intros Hin. apply Hn. simpl. destruct (end_sender m); [by right|done]. }
    assert (net_pending (network (set_network n c)) l sent) as Hp'' by by destruct c.
    destruct m as [[] sg]; cbn [msg]; apply (IH _ l); try done.
    apply elem_of_difference. split; [done|]. intros ->%elem_of_singleton. apply Hn. by left.
Qed.

(** The coordinator [c] before a key generation, behind a network that still has
    to deliver [l].  What an earlier attempt has left in it does not matter. *)
Definition at_start c (l : list MessageTypes) (sent : list Message) (cc : Coordinator (N := Script)) : Prop :=
  (exists key shares,
     cc = set_network (network cc) (set_aggregate_public_key key (set_dkg_public_shares shares c))) /\
  net_pending (network cc) (stamped <$> l) sent.

Lemma coordinator_on_start c (l : list MessageTypes) : at_start c l [] (coordinator_on c l).
Proof. split; [|split_and!; by destruct c]. exists (aggregate_public_key c), (dkg_public_shares c). by destruct c. Qed.

Lemma at_start_fields c (l : list MessageTypes) (sent : list Message) cc : at_start c l sent cc ->
  FrostCoordinator.total_signers cc = FrostCoordinator.total_signers c /\
  current_dkg_id cc = current_dkg_id c /\ co_network_private_key cc = co_network_private_key c /\
  forall key shares, with_key key shares cc = set_network (network cc) (with_key key shares c).
Proof. intros [(key & shares & ->) _]. by destruct c. Qed.

Lemma at_start_again c (l l' : list MessageTypes) (sent sent' : list Message) cc n key shares :
  at_start c l sent cc -> net_pending n (stamped <$> l') sent' ->
  at_start c l' sent' (set_network n (set_aggregate_public_key key (set_dkg_public_shares shares cc))).
Proof.
  intros [(k & t & ->) _] Hp. split; [|by rewrite network_set]. exists key, shares. by destruct c.
Qed.

Context (c : Coordinator (N := Script)).
Context (Hsign : forall h, is_Some (ecdsa_sign h (co_network_private_key c))) (Hpos : 0 < FrostCoordinator.total_signers c).
Abbreviation round := {| db_dkg_id := wrapping_add 64 (current_dkg_id c) 1 |}.

Lemma omap_stamped {A : Type} (get : Message -> option A) (l : list MessageTypes) :
  omap get (stamped <$> l) = omap (fun m => get (stamped m)) l.
Proof. induction l as [|m l IH]; [done|]. rewrite fmap_cons. simpl. destruct (get _); [f_equal|]; exact IH. Qed.

(** The coordinator after its first message. *)
Definition begun_coordinator (n : Script) (cc : Coordinator (N := Script)) : Coordinator (N := Script) :=
  set_network n (set_dkg_public_shares ∅ (set_current_dkg_id (wrapping_add 64 (current_dkg_id cc) 1) cc)).

Lemma begun_fields n cc : network (begun_coordinator n cc) = n /\
  FrostCoordinator.total_signers (begun_coordinator n cc) = FrostCoordinator.total_signers cc /\
  co_network_private_key (begun_coordinator n cc) = co_network_private_key cc /\
  dkg_public_shares (begun_coordinator n cc) = ∅.
Proof. by destruct cc. Qed.

Lemma coordinator_begins (l : list MessageTypes) (sent : list Message) cc : at_start c l sent cc ->
  exists n s, net_pending n (stamped <$> l) (sent ++ [{| msg := MDkgBegin round; sig := s |}]) /\
    run_distributed_key_generation fuel cc =
      (public_key ← wait_for_public_shares_loop fuel (range_set (FrostCoordinator.total_signers c));
       start_private_shares ;; wait_for_dkg_end fuel ;; mret public_key) (begun_coordinator n cc).
Proof.
  intros Hcc. destruct (at_start_fields _ _ _ _ Hcc) as (Ht & Hd & Hk & _). destruct Hcc as [_ Hp].
  set (c0 := set_current_dkg_id (wrapping_add 64 (current_dkg_id cc) 1) cc).
  destruct (start_public_pending c0 (stamped <$> l) sent) as (n & s & H1 & Hn);
    [intros h; replace (co_network_private_key c0) with (co_network_private_key cc) by (by destruct cc); by rewrite Hk|by destruct cc|].
  exists n, s. split.
  - replace (current_dkg_id c0) with (wrapping_add 64 (current_dkg_id cc) 1) in Hn by by destruct cc. by rewrite Hd in Hn.
  - change (set_network n (set_dkg_public_shares ∅ c0)) with (begun_coordinator n cc) in H1.
    unfold run_distributed_key_generation. rewrite M_bind_eq. cbn [modify]. fold c0. rewrite M_bind_eq, H1, M_bind_eq.
    unfold wait_for_public_shares. rewrite M_bind_eq. cbn [get_st].
    destruct (begun_fields n cc) as (_ & -> & _). by rewrite Ht, M_bind_eq.
Qed.

Lemma dkg_first (l : list MessageTypes) (sent : list Message) cc (i : Z) : at_start c l sent cc ->
  1 <= i <= FrostCoordinator.total_signers c -> i ∉ omap (fun m => public_ender (stamped m)) l ->
  let r := run_distributed_key_generation fuel cc in
  msg <$> outbox (network r.1) = (msg <$> sent) ++ [MDkgBegin round] /\ forall key, r.2 <> Ok key.
Proof.
  intros Hcc Hi Hn. cbv zeta. destruct (coordinator_begins l sent cc Hcc) as (n & s & Hp & ->).
  rewrite <-omap_stamped in Hn. destruct (begun_fields n cc) as (Hnet & _).
  destruct (public_waits fuel (range_set (FrostCoordinator.total_signers c)) (stamped <$> l)
    (sent ++ [{| msg := MDkgBegin round; sig := s |}]) i (begun_coordinator n cc)) as [Ho Hr];
    [by rewrite Hnet|by apply elem_of_range_set|done|].
  rewrite M_bind_eq. destruct (wait_for_public_shares_loop _ _ _) as [c2 [key| | |]]; simpl in *;
    [by destruct (Hr key)|..]; by rewrite Ho, fmap_app.
Qed.

Section Public.
Context (shares ends : list MessageTypes).
Context (Hs : Forall (fun m => public_ender (stamped m) = None) shares)
  (He : Forall (fun m => is_Some (public_ender (stamped m))) ends)
  (Hids : omap (fun m => public_ender (stamped m)) ends ≡ₚ seqZ 1 (FrostCoordinator.total_signers c)).

(** The public phase, up to the key. *)
Lemma public_on (rest : list MessageTypes) (sent : list Message) (f : nat) cc :
  net_pending (network cc) (stamped <$> shares ++ ends ++ rest) sent ->
  exists n, wait_for_public_shares_loop (length shares + (length ends + f))
        (range_set (FrostCoordinator.total_signers c)) cc =
      wait_for_public_shares_loop f ∅ (set_network n (set_dkg_public_shares
        (store_shares (dkg_public_shares cc) (omap (fun m => share_of (stamped m)) shares)) cc)) /\
    net_pending n (stamped <$> rest) sent.
Proof.
  intros Hp. rewrite !fmap_app in Hp.
  destruct (public_gathered Hretry (stamped <$> shares) (stamped <$> ends) (stamped <$> rest) sent
    (range_set (FrostCoordinator.total_signers c)) f cc) as (n & Hl & Hn);
    rewrite ?omap_stamped; try done.
  - by apply Forall_fmap.
  - by apply Forall_fmap.
  - apply leibniz_equiv. unfold range_set. by rewrite Hids.
  - rewrite Hids. apply NoDup_seqZ.
  - intros Hnil%fmap_nil_inv. rewrite Hnil in Hids. apply Permutation_length in Hids.
    rewrite length_seqZ in Hids. simpl in Hids. lia.
  - exists n. rewrite !length_fmap, omap_stamped in Hl. by split.
Qed.

Context (key : Point).
Context (Hk : key_of_shares (store_shares ∅ (omap (fun m => share_of (stamped m)) shares)) = Ok key).

(** With the ends of the public phase and an even key the coordinator sends its
    second message, and nothing more whatever follows; without an end of the
    private phase it is not done. *)
Lemma dkg_second (rest : list MessageTypes) (sent : list Message) cc :
  point_has_even_y key = true -> (length shares + length ends < fuel)%nat ->
  at_start c (shares ++ ends ++ rest) sent cc ->
  let r := run_distributed_key_generation fuel cc in
  msg <$> outbox (network r.1) = (msg <$> sent) ++ [MDkgBegin round; MDkgPrivateBegin round] /\
  forall i, 1 <= i <= FrostCoordinator.total_signers c -> i ∉ omap (fun m => end_sender (stamped m)) rest ->
    forall key, r.2 <> Ok key.
Proof.
  intros Heven Hf Hcc. cbv zeta. destruct (coordinator_begins _ sent cc Hcc) as (n & s & Hp & ->).
  destruct (at_start_fields _ _ _ _ Hcc) as (Ht & Hd & Hpk & _).
  destruct (begun_fields n cc) as (Hnet & Ht1 & Hpk1 & Hsh1). set (c1 := begun_coordinator n cc) in *.
  destruct (public_on rest (sent ++ [{| msg := MDkgBegin round; sig := s |}]) (fuel - length shares - length ends) c1)
    as (n2 & H2 & Hp2); [by rewrite Hnet|].
  replace (length shares + (length ends + (fuel - length shares - length ends)))%nat with fuel in H2 by lia.
  rewrite Hsh1 in H2. set (t := store_shares ∅ _) in *. rewrite M_bind_eq, H2.
  rewrite (public_done Hretry _ _ key); [|by destruct cc|done|lia].
  set (c2 := set_aggregate_public_key key _).
  assert (network c2 = n2 /\ current_dkg_id c2 = wrapping_add 64 (current_dkg_id c) 1 /\
    co_network_private_key c2 = co_network_private_key c /\
    FrostCoordinator.total_signers c2 = FrostCoordinator.total_signers c) as (Hn2 & Hd2 & Hpk2 & Ht2).
  { rewrite <-Hd, <-Hpk, <-Ht. by destruct cc. }
  destruct (start_private_pending c2 (stamped <$> rest) (sent ++ [{| msg := MDkgBegin round; sig := s |}]))
    as (n3 & s2 & H3 & Hp3); [by rewrite Hpk2|by rewrite Hn2|].
  rewrite Hd2 in Hp3. rewrite M_bind_eq, H3, M_bind_eq. set (c3 := set_network n3 c2) in *.
  assert (network c3 = n3 /\ FrostCoordinator.total_signers c3 = FrostCoordinator.total_signers c) as [Hn3 Ht3]
    by (rewrite <-Ht2; by destruct c2).
  pose proof (end_loop_outbox fuel (range_set (FrostCoordinator.total_signers c)) (outbox n3) c3 (f_equal outbox Hn3)) as H4.
  assert (forall i, 1 <= i <= FrostCoordinator.total_signers c -> i ∉ omap (fun m => end_sender (stamped m)) rest ->
    (wait_for_dkg_end_loop fuel (range_set (FrostCoordinator.total_signers c)) c3).2 <> Ok tt) as H5.
  { intros i Hi Hn. rewrite <-omap_stamped in Hn. rewrite <-Hn3 in Hp3.
    eapply end_waits; [exact Hp3|by apply elem_of_range_set|done]. }
  unfold wait_for_dkg_end. rewrite M_bind_eq. cbn [get_st]. rewrite Ht3.
  assert (msg <$> outbox n3 = (msg <$> sent) ++ [MDkgBegin round; MDkgPrivateBegin round]) as Ho.
  { destruct Hp3 as (_ & _ & ->). by rewrite !fmap_app, <-app_assoc. }
  destruct (wait_for_dkg_end_loop _ _ _) as [c4 [[]| | |]]; simpl in *; rewrite H4; (split; [exact Ho|]); try done.
  intros i Hi Hn. by destruct (H5 i Hi Hn).
Qed.

(** *** An odd key

    Units of fuel beyond the messages of the network make no difference. *)
Definition public_next (fuel : nat) (ids : gset Z) : M (Coordinator (N := Script)) CoordinatorError Point :=
  m ← wait_for_next_message;
  ids ← handle_public_message ids (msg m);
  wait_for_public_shares_loop fuel ids.

Lemma public_step (f g : nat) (ids : gset Z) (l sent : list Message) cc :
  (forall ids sent cc, net_pending (network cc) l sent -> co_network_private_key cc = co_network_private_key c ->
     public_next f ids cc = public_next g ids cc) ->
  net_pending (network cc) l sent -> co_network_private_key cc = co_network_private_key c ->
  wait_for_public_shares_loop (S f) ids cc = wait_for_public_shares_loop (S g) ids cc.
Proof.
  intros Hnext Hp Hpk. cbn [wait_for_public_shares_loop]. fold (public_next f ids) (public_next g ids).
  case_bool_decide; [|by eapply Hnext]. rewrite !M_bind_eq.
  destruct (calculate_aggregate_public_key cc) as [c1 r] eqn:Hcalc.
  assert (network c1 = network cc /\ co_network_private_key c1 = co_network_private_key cc) as [Hn1 Hpk1].
  { unfold calculate_aggregate_public_key in Hcalc. rewrite M_bind_eq in Hcalc. cbn [get_st] in Hcalc.
    rewrite M_bind_eq in Hcalc. unfold lift in Hcalc.
    destruct (foldM _ _ _); injection Hcalc as <- _; by destruct cc. }
  destruct r as [k| | |]; [|done..]. destruct (point_has_even_y k); [done|]. rewrite !M_bind_eq. cbn [get_st].
  rewrite !M_bind_eq. destruct (start_public_pending c1 l sent) as (n & s & -> & Hn);
    [by rewrite Hpk1, Hpk|by rewrite Hn1|].
  eapply Hnext; [by rewrite network_set|]. rewrite <-Hpk, <-Hpk1. by destruct c1.
Qed.

Lemma public_fuel (f g : nat) (ids : gset Z) (l sent : list Message) cc :
  net_pending (network cc) l sent -> co_network_private_key cc = co_network_private_key c ->
  (length l < f)%nat -> (length l < g)%nat ->
  wait_for_public_shares_loop f ids cc = wait_for_public_shares_loop g ids cc.
Proof.
  revert f g ids sent cc. induction l as [|x l IH]; intros f g ids sent cc Hp Hpk Hf Hg;
    (destruct f as [|f]; [simpl in Hf; lia|]); (destruct g as [|g]; [simpl in Hg; lia|]); simpl in Hf, Hg;
    (eapply public_step; [|done..]); clear ids sent cc Hp Hpk; intros ids sent cc Hp Hpk; unfold public_next.
  - destruct (wait_nothing cc sent Hp) as (n & Hw & _). by rewrite !M_bind_eq, Hw.
  - destruct (wait_pending Hretry cc x l sent Hp) as (n & Hw & Hn). rewrite !M_bind_eq, Hw, !M_bind_eq.
    assert (exists c2 ids2, handle_public_message ids (msg x) (set_network n cc) = (c2, Ok ids2) /\
      network c2 = n /\ co_network_private_key c2 = co_network_private_key cc) as (c2 & ids2 & -> & Hn2 & Hk2).
    { destruct x as [[] sg]; simpl; eexists _, _; (split; [reflexivity|]); by destruct cc. }
    apply (IH f g ids2 sent); [by rewrite Hn2|congruence|lia|lia].
Qed.

(** With an odd key the coordinator goes on as if it started the key generation
    where it is. *)
Lemma dkg_again (rest : list MessageTypes) (sent : list Message) cc :
  point_has_even_y key = false -> (length (shares ++ ends ++ rest) < fuel)%nat ->
  at_start c (shares ++ ends ++ rest) sent cc ->
  exists cc' s, run_distributed_key_generation fuel cc = run_distributed_key_generation fuel cc' /\
    at_start c rest (sent ++ [{| msg := MDkgBegin round; sig := s |}]) cc'.
Proof.
  intros Hodd Hf Hcc. rewrite !length_app in Hf. destruct (coordinator_begins _ sent cc Hcc) as (n & s & Hp & ->).
  destruct (at_start_fields _ _ _ _ Hcc) as (Ht & Hd & Hpk & _).
  destruct (begun_fields n cc) as (Hnet & Ht1 & Hpk1 & Hsh1). set (c1 := begun_coordinator n cc) in *.
  set (f := (fuel - length shares - length ends - 1)%nat).
  destruct (public_on rest (sent ++ [{| msg := MDkgBegin round; sig := s |}]) (S f) c1) as (n2 & H2 & Hp2); [by rewrite Hnet|].
  replace (length shares + (length ends + S f))%nat with fuel in H2 by lia.
  rewrite Hsh1 in H2. set (t := store_shares ∅ _) in *.
  set (cc' := set_network n2 (set_aggregate_public_key key (set_dkg_public_shares t cc))).
  assert (at_start c rest (sent ++ [{| msg := MDkgBegin round; sig := s |}]) cc') as Hcc'
    by by eapply at_start_again.
  exists cc', s. split; [|exact Hcc'].
  assert (co_network_private_key cc' = co_network_private_key c /\ network cc' = n2 /\
    FrostCoordinator.total_signers cc' = FrostCoordinator.total_signers c) as (Hpk' & Hn' & Ht')
    by (rewrite <-Hpk, <-Ht; by destruct cc).
  set (c2 := set_current_dkg_id (wrapping_add 64 (current_dkg_id cc') 1) cc').
  assert (network c2 = n2 /\ co_network_private_key c2 = co_network_private_key c /\
    FrostCoordinator.total_signers c2 = FrostCoordinator.total_signers c) as (Hn2 & Hpk2 & Ht2)
    by (unfold c2; rewrite <-Hn', <-Hpk', <-Ht'; by destruct cc').
  set (c2' := set_network n2 (set_dkg_public_shares t c1)) in *.
  assert (set_aggregate_public_key key c2' = c2) as Hc2 by (unfold c2', c2, cc', c1; by destruct cc).
  assert (calculate_aggregate_public_key c2' = (c2, Ok key)) as Hcalc.
  { rewrite <-Hc2. apply calculate_key. unfold c2'. by destruct cc. }
  destruct (start_public_pending c2 (stamped <$> rest) (sent ++ [{| msg := MDkgBegin round; sig := s |}]))
    as (n3 & s3 & H3 & Hp3); [by rewrite Hpk2|by rewrite Hn2|].
  set (c3 := set_network n3 (set_dkg_public_shares ∅ c2)) in *.
  assert (FrostCoordinator.total_signers c3 = FrostCoordinator.total_signers c) as Ht3 by (rewrite <-Ht2; by destruct c2).
  unfold run_distributed_key_generation. rewrite M_bind_eq, H2, M_bind_eq. cbn [modify]. fold c2.
  rewrite M_bind_eq, H3, M_bind_eq. unfold wait_for_public_shares. rewrite M_bind_eq. cbn [get_st]. rewrite Ht3.
  assert (wait_for_public_shares_loop (S f) ∅ c2' =
    wait_for_public_shares_loop fuel (range_set (FrostCoordinator.total_signers c)) c3) as ->; [|done].
  transitivity (public_next f (range_set (FrostCoordinator.total_signers c)) c3).
  - cbn [wait_for_public_shares_loop]. rewrite bool_decide_true by done. rewrite M_bind_eq, Hcalc, Hodd, M_bind_eq.
    cbn [get_st]. by rewrite M_bind_eq, H3, Ht2.
  - transitivity (wait_for_public_shares_loop (S f) (range_set (FrostCoordinator.total_signers c)) c3).
    + cbn [wait_for_public_shares_loop]. rewrite bool_decide_false; [done|]. intros Hr.
      assert (1 ∈ (∅ : gset Z)) by (rewrite <-Hr; apply elem_of_range_set; lia). set_solver.
    + eapply (public_fuel _ _ _ (stamped <$> rest)); rewrite ?length_fmap; [|by rewrite <-Hpk2; destruct c2|lia..].
      unfold c3. rewrite network_set. exact Hp3.
Qed.
End Public.
End Coordinator.


(** ** The processes *)
Inductive Party := TheCoordinator | TheSigner (k : nat).
#[export] Instance Party_eq_dec : EqDecision Party.
Proof. solve_decision. Defined.

Section System.
Context (stamp : MessageTypes -> bytes) (fuel : nat) (c : Coordinator (N := Script)) (nodes : list ST).

Definition parties : list Party := TheCoordinator :: (TheSigner <$> seq 0 (length nodes)).

Definition sends_after (p : Party) (l : list MessageTypes) : list MessageTypes :=
  match p with
  | TheCoordinator => coordinator_sends stamp fuel c l
  | TheSigner k => match nodes !! k with Some s => answers l s | None => [] end
  end.

Lemma parties_NoDup : NoDup parties.
Proof.
  apply NoDup_cons. split; [by intros (k & ? & _)%list_elem_of_fmap|].
  apply NoDup_fmap_2; [by intros ?? [=]|apply NoDup_seq].
Qed.

Lemma seq_lookup_bind {A B : Type} (f : A -> list B) (l : list A) :
  seq 0 (length l) ≫= (fun k => match l !! k with Some a => f a | None => [] end) = l ≫= f.
Proof.
  induction l as [|a l IH]; [done|]. rewrite bind_cons. simpl length. cbn [seq]. rewrite bind_cons, <-fmap_S_seq, fmap_bind.
  rewrite <-IH. done.
Qed.

Lemma parties_bind (f : list MessageTypes) (g : ST -> list MessageTypes) :
  parties ≫= (fun p => match p with
                       | TheCoordinator => f
                       | TheSigner k => match nodes !! k with Some s => g s | None => [] end
                       end) = f ++ (nodes ≫= g).
Proof. unfold parties. by rewrite bind_cons, fmap_bind, seq_lookup_bind. Qed.

(** ** The rounds *)
Abbreviation b := {| db_dkg_id := wrapping_add 64 (current_dkg_id c) 1 |}.
Abbreviation d := (wrapping_add 64 (current_dkg_id c) 1).

Definition coordinator_plan (hist : list (list MessageTypes)) : list MessageTypes :=
  match hist with
  | [] => [MDkgBegin b]
  | [_; _; _] => [MDkgPrivateBegin b]
  | _ => []
  end.

Definition signer_plan (hist : list (list MessageTypes)) (s : ST) : list MessageTypes :=
  match hist with
  | [_] => answers [MDkgBegin b] s
  | [_; _] => [public_end d s.1]
  | [_; shares; ends; _] => answers [MDkgPrivateBegin b] (after (MDkgBegin b :: shares ++ ends) s)
  | [_; _; _; _; _] => [success d s.1]
  | _ => []
  end.

Definition plan (hist : list (list MessageTypes)) (p : Party) : list MessageTypes :=
  match p with
  | TheCoordinator => coordinator_plan hist
  | TheSigner k => match nodes !! k with Some s => signer_plan hist s | None => [] end
  end.

Lemma next_round_eq (hist : list (list MessageTypes)) :
  next_round parties plan hist = coordinator_plan hist ++ (nodes ≫= signer_plan hist).
Proof. apply parties_bind. Qed.

(** A history in full. *)
Definition dkg_hist (hist : list (list MessageTypes)) : Prop :=
  match hist with
  | [] => True
  | b0 :: hist => b0 = [MDkgBegin b] /\
    match hist with
    | [] => True
    | shares :: hist => shares ≡ₚ nodes ≫= answers [MDkgBegin b] /\
      match hist with
      | [] => True
      | ends :: hist => ends ≡ₚ (fun s => public_end d s.1) <$> nodes /\
        match hist with
        | [] => True
        | b1 :: hist => b1 = [MDkgPrivateBegin b] /\
          match hist with
          | [] => True
          | privates :: hist =>
            privates ≡ₚ nodes ≫= (fun s => answers [MDkgPrivateBegin b] (after (MDkgBegin b :: shares ++ ends) s)) /\
            match hist with
            | [] => True
            | [finals] => finals ≡ₚ (fun s => success d s.1) <$> nodes
            | _ => False
            end
          end
        end
      end
    end
  end.

Lemma bind_singleton {A B : Type} (f : A -> B) (l : list A) : l ≫= (fun a => [f a]) = f <$> l.
Proof. induction l as [|a l IH]; [done|]. by rewrite bind_cons, IH. Qed.

Lemma bind_nil {A B : Type} (l : list A) : l ≫= (fun _ => []) = ([] : list B).
Proof. by induction l. Qed.

Lemma rounds_dkg (hist : list (list MessageTypes)) : rounds parties plan hist -> dkg_hist hist.
Proof.
  induction 1 as [|hist seg _ IH Hne Hp]; [done|]. rewrite next_round_eq in Hp. unfold coordinator_plan, signer_plan in Hp.
  destruct hist as [|h0 [|h1 [|h2 [|h3 [|h4 [|h5 hist]]]]]]; simpl in *;
    rewrite ?bind_singleton, ?bind_nil, ?app_nil_r in Hp.
  - by apply Permutation_singleton_r in Hp.
  - tauto.
  - tauto.
  - apply Permutation_singleton_r in Hp. tauto.
  - tauto.
  - tauto.
  - exfalso. apply Hne. by apply Permutation_nil_r.
Qed.

(** ** Everyone waits *)
Context (total : Z) (Hc : cluster nodes total).
Context (Hids : (fun s => signer_id (signer s.1)) <$> nodes ≡ₚ seqZ 1 (FrostCoordinator.total_signers c)).
Context (Hretry : backoff_attempts <> O).
Context (Hsign : forall h, is_Some (ecdsa_sign h (co_network_private_key c))).
Context (Hfuel : (2 * Z.to_nat total + 2 * length nodes + 2 < fuel)%nat).

Lemma partial_nil (q : list MessageTypes) : ~ partial q [].
Proof. intros (more & Hne & Hp). apply Permutation_nil_r, app_eq_nil in Hp as [_ ->]. done. Qed.

Lemma partial_one (q : list MessageTypes) (m : MessageTypes) : partial q [m] -> q = [].
Proof.
  intros (more & Hne & Hp). apply Permutation_length in Hp. rewrite length_app in Hp.
  destruct q, more; simpl in *; (done || lia).
Qed.

Lemma unfinished_partial hist q : unfinished parties plan hist q ->
  next_round parties plan hist <> [] -> partial q (next_round parties plan hist).
Proof.
  intros [->|(more & Hne & Hp)] Hn; [by exists (next_round parties plan hist)|]. by exists more.
Qed.

Lemma cluster_not_nil : nodes <> [].
Proof.
  intros Hnil. pose proof (cl_keys _ _ Hc) as Hk. pose proof (cl_total _ _ Hc). rewrite Hnil in Hk.
  apply Permutation_length in Hk. rewrite length_seqZ in Hk. simpl in Hk. lia.
Qed.

Lemma shares_length : length (nodes ≫= answers [MDkgBegin b]) = Z.to_nat total.
Proof.
  rewrite (bind_ext_in _ _ _ (answers_begin nodes total Hc b)), bind_fmap, length_fmap.
  by rewrite <-(length_fmap dps_party_id), (party_ids_perm nodes total Hc d), length_seqZ.
Qed.

Lemma log_mixes (shares q out : list MessageTypes) : shares ≡ₚ out -> Forall is_quiet q -> mixes (shares ++ q) out.
Proof. intros Hs Hq. exists q. by rewrite Hs. Qed.

Lemma quiet_ends (g : ST -> MessageTypes) (q : list MessageTypes) :
  (forall s, is_quiet (g s)) -> q ≡ₚ g <$> nodes -> Forall is_quiet q.
Proof. intros Hg Hq. rewrite Hq. apply Forall_fmap, Forall_forall. intros. apply Hg. Qed.

Lemma quiet_partial (g : ST -> MessageTypes) (q : list MessageTypes) :
  (forall s, is_quiet (g s)) -> partial q (g <$> nodes) -> Forall is_quiet q.
Proof. intros Hg (more & _ & Hp). apply (quiet_ends g) in Hp; [|done]. by apply Forall_app in Hp as [Hq _]. Qed.

Lemma privates_length (log1 : list MessageTypes) : mixes log1 (nodes ≫= answers [MDkgBegin b]) ->
  length (nodes ≫= (fun s => answers [MDkgPrivateBegin b] (after (MDkgBegin b :: log1) s))) = Z.to_nat total.
Proof.
  intros H1. rewrite (bind_ext_in _ _ _ (answers_private nodes total Hc b b log1 H1)), bind_fmap, length_fmap.
  by rewrite <-(length_fmap dprs_key_id), (private_ids_perm nodes total Hc b b log1 H1), length_seqZ.
Qed.

(** What is partly sent, round by round. *)
Lemma unfinished_cases hist q : dkg_hist hist -> unfinished parties plan hist q ->
  match hist with
  | [] | [_; _; _] => q = []
  | [_] => partial q (nodes ≫= answers [MDkgBegin b])
  | [_; _] => partial q ((fun s => public_end d s.1) <$> nodes)
  | [_; shares; ends; _] =>
      partial q (nodes ≫= (fun s => answers [MDkgPrivateBegin b] (after (MDkgBegin b :: shares ++ ends) s)))
  | [_; _; _; _; _] => partial q ((fun s => success d s.1) <$> nodes)
  | _ => q = []
  end.
Proof.
  intros Hh Hq. pose proof (unfinished_partial hist q Hq) as Hp. rewrite next_round_eq in Hp.
  unfold coordinator_plan, signer_plan in Hp. pose proof cluster_not_nil as Hne.
  destruct hist as [|h0 [|h1 [|h2 [|h3 [|h4 [|h5 hist]]]]]]; simpl in *;
    rewrite ?bind_singleton, ?bind_nil, ?app_nil_r in Hp.
  - by eapply partial_one, Hp.
  - apply Hp. intros Hn. pose proof shares_length as Hl. apply (f_equal length) in Hn. unfold answers in *. rewrite Hn in Hl. pose proof (cl_total _ _ Hc). simpl in Hl. lia.
  - apply Hp. by intros ?%fmap_nil_inv.
  - by eapply partial_one, Hp.
  - apply Hp. intros Hn. destruct Hh as (_ & Hs & He & _). apply (f_equal length) in Hn. pose proof (cl_total _ _ Hc).
    pose proof (privates_length (h1 ++ h2)) as Hl. rewrite Hl in Hn; [simpl in Hn; lia|].
    apply log_mixes; [done|]. by apply (quiet_ends (fun s => public_end d s.1)).
  - apply Hp. by intros ?%fmap_nil_inv.
  - destruct Hq as [->|(more & Hmore & Hqm)]; [done|]. rewrite next_round_eq in Hqm.
    unfold coordinator_plan, signer_plan in Hqm. simpl in Hqm. rewrite bind_nil in Hqm.
    by exfalso; eapply (partial_nil q); exists more.
Qed.

(** A signer, after a part of a history. *)
Lemma run_public (log1 : list MessageTypes) (s : ST) : s ∈ nodes ->
  mixes log1 (nodes ≫= answers [MDkgBegin b]) ->
  (SigningRound.run (MDkgBegin b :: log1) s).2 = Ok (answers [MDkgBegin b] s ++ [public_end d s.1]).
Proof.
  intros Hs H1. destruct (node_public nodes total Hc b log1 H1 s Hs) as (self & Hr & _).
  by rewrite (answers_begin nodes total Hc b s Hs), Hr.
Qed.

Lemma run_round (log1 log2 : list MessageTypes) (s : ST) : s ∈ nodes ->
  mixes log1 (nodes ≫= answers [MDkgBegin b]) ->
  mixes log2 (nodes ≫= (fun s => answers [MDkgPrivateBegin b] (after (MDkgBegin b :: log1) s))) ->
  (SigningRound.run (MDkgBegin b :: log1 ++ MDkgPrivateBegin b :: log2) s).2 =
    Ok (answers [MDkgBegin b] s ++ [public_end d s.1] ++
        answers [MDkgPrivateBegin b] (after (MDkgBegin b :: log1) s) ++ [success d s.1]).
Proof.
  intros Hs H1 H2. destruct (node_round nodes total Hc b b log1 H1 log2 H2 s Hs) as (self & rng & Hr & _).
  rewrite (answers_begin nodes total Hc b s Hs), (answers_private nodes total Hc b b log1 H1 s Hs). by rewrite Hr.
Qed.

Lemma run_private_part (log1 q : list MessageTypes) (s : ST) : s ∈ nodes ->
  mixes log1 (nodes ≫= answers [MDkgBegin b]) ->
  partial q (nodes ≫= (fun s => answers [MDkgPrivateBegin b] (after (MDkgBegin b :: log1) s))) ->
  (SigningRound.run (MDkgBegin b :: log1 ++ MDkgPrivateBegin b :: q) s).2 =
    Ok (answers [MDkgBegin b] s ++ [public_end d s.1] ++
        answers [MDkgPrivateBegin b] (after (MDkgBegin b :: log1) s)).
Proof.
  intros Hs H1 Hq. rewrite (node_private_part nodes total Hc b b log1 H1 q s Hs Hq).
  by rewrite (answers_begin nodes total Hc b s Hs), (answers_private nodes total Hc b b log1 H1 s Hs).
Qed.

Lemma dkg_signer hist q (k : nat) (s : ST) : rounds parties plan hist -> unfinished parties plan hist q ->
  nodes !! k = Some s -> (SigningRound.run (concat hist ++ q) s).2 = Ok (due plan hist (TheSigner k)).
Proof.
  intros Hr Hq Hs. apply rounds_dkg in Hr as Hh. apply unfinished_cases in Hq; [|done].
  unfold due, before. apply list_elem_of_lookup_2 in Hs as Hin.
  assert (forall h, plan h (TheSigner k) = signer_plan h s) as Hplan by (intros h; simpl; by rewrite Hs).
  destruct hist as [|h0 [|h1 [|h2 [|h3 [|h4 [|h5 [|h6 hist]]]]]]]; cbn [due_in app]; rewrite !Hplan;
    cbn [signer_plan dkg_hist concat app] in *; rewrite ?app_nil_r, ?app_nil_l.
  - by subst.
  - destruct Hh as [-> _]. by apply (node_begin_part nodes total Hc b q s).
  - destruct Hh as (-> & H1 & _). apply run_public; [done|]. apply log_mixes; [done|].
    by apply (quiet_partial (fun s => public_end d s.1)).
  - destruct Hh as (-> & H1 & H2 & _). subst q. rewrite app_nil_r. apply run_public; [done|].
    apply log_mixes; [done|]. by apply (quiet_ends (fun s => public_end d s.1)).
  - destruct Hh as (-> & H1 & H2 & -> & _). rewrite <-!app_assoc. simpl. rewrite app_assoc.
    rewrite run_private_part; [simpl; by rewrite <-?app_assoc|done| |done].
    apply log_mixes; [done|]. by apply (quiet_ends (fun s => public_end d s.1)).
  - destruct Hh as (-> & H1 & H2 & -> & H3 & _). rewrite <-!app_assoc. simpl. rewrite (app_assoc h1).
    rewrite run_round; [simpl; by rewrite <-?app_assoc|done| |].
    + apply log_mixes; [done|]. by apply (quiet_ends (fun s => public_end d s.1)).
    + apply log_mixes; [done|]. by apply (quiet_partial (fun s => success d s.1)).
  - destruct Hh as (-> & H1 & H2 & -> & H3 & H4). subst q. rewrite <-!app_assoc. simpl. rewrite (app_assoc h1), app_nil_r.
    rewrite run_round; [simpl; by rewrite <-?app_assoc|done| |].
    + apply log_mixes; [done|]. by apply (quiet_ends (fun s => public_end d s.1)).
    + apply log_mixes; [done|]. by apply (quiet_ends (fun s => success d s.1)).
  - by destruct Hh as (_ & _ & _ & _ & _ & []).
Qed.

(** What the coordinator reads off the messages of the signers. *)
Abbreviation ender := (fun m => public_ender (stamped stamp m)).

Lemma shares_perm (shares : list MessageTypes) : shares ≡ₚ nodes ≫= answers [MDkgBegin b] ->
  shares ≡ₚ MDkgPublicShare <$> (nodes ≫= public_shares d).
Proof. intros ->. by rewrite (bind_ext_in _ _ _ (answers_begin nodes total Hc b)), bind_fmap. Qed.

Lemma shares_no_end (shares : list MessageTypes) : shares ≡ₚ nodes ≫= answers [MDkgBegin b] ->
  Forall (fun m => ender m = None) shares.
Proof.
  intros Hs%shares_perm. rewrite Hs. by apply Forall_fmap, Forall_forall.
Qed.

Lemma shares_key (shares : list MessageTypes) : shares ≡ₚ nodes ≫= answers [MDkgBegin b] ->
  key_of_shares (store_shares ∅ (omap (fun m => share_of (stamped stamp m)) shares)) = Ok (group_key d nodes).
Proof.
  intros Hs%shares_perm. unfold store_shares.
  rewrite (table_perm dps_party_id (fun p => p) _ (nodes ≫= public_shares d)).
  - apply key_of_table. by eapply party_ids_NoDup.
  - by eapply party_ids_NoDup.
  - rewrite Hs. by rewrite (omap_sent MDkgPublicShare (fun m => share_of (stamped stamp m))).
Qed.

Lemma senders_perm (get : Message -> option Z) (g : ST -> MessageTypes) (q : list MessageTypes) :
  (forall s, get (stamped stamp (g s)) = Some (signer_id (signer s.1))) -> q ≡ₚ g <$> nodes ->
  Forall (fun m => is_Some (get (stamped stamp m))) q /\
  omap (fun m => get (stamped stamp m)) q ≡ₚ seqZ 1 (FrostCoordinator.total_signers c).
Proof.
  intros Hg Hq. rewrite Hq, <-Hids. split.
  - apply Forall_fmap, Forall_forall. intros s _. simpl. rewrite Hg. by eexists.
  - clear -Hg. induction nodes as [|s l IH]; [done|]. rewrite !fmap_cons. simpl. rewrite Hg. by f_equiv.
Qed.

Lemma ends_perm (ends : list MessageTypes) : ends ≡ₚ (fun s => public_end d s.1) <$> nodes ->
  Forall (fun m => is_Some (ender m)) ends /\ omap ender ends ≡ₚ seqZ 1 (FrostCoordinator.total_signers c).
Proof. by apply senders_perm. Qed.

(** As long as an end is missing. *)
Lemma senders_missing (get : Message -> option Z) (g : ST -> MessageTypes) (q : list MessageTypes) :
  (forall s, get (stamped stamp (g s)) = Some (signer_id (signer s.1))) -> partial q (g <$> nodes) ->
  exists i, 1 <= i <= FrostCoordinator.total_signers c /\ i ∉ omap (fun m => get (stamped stamp m)) q.
Proof.
  intros Hg (more & Hne & Hp). destruct (senders_perm get g (q ++ more) Hg Hp) as [Hall Hi].
  destruct more as [|m more]; [done|]. apply Forall_app in Hall as [_ [[i Hm] _]%Forall_cons].
  exists i. rewrite omap_app in Hi. simpl in Hi. rewrite Hm in Hi. split.
  - assert (i ∈ seqZ 1 (FrostCoordinator.total_signers c)) as ?%elem_of_seqZ; [|lia].
    rewrite <-Hi. apply elem_of_app. right. by left.
  - assert (NoDup (omap (fun m => get (stamped stamp m)) q ++ i :: omap (fun m => get (stamped stamp m)) more)) as Hnd
      by (rewrite Hi; apply NoDup_seqZ).
    apply NoDup_app in Hnd as (_ & Hn & _). intros Hin. apply (Hn i Hin). by left.
Qed.

Lemma signers_pos : 0 < FrostCoordinator.total_signers c.
Proof. by eapply signers_positive. Qed.

Lemma shares_part_no_end (q : list MessageTypes) : partial q (nodes ≫= answers [MDkgBegin b]) ->
  omap ender q = [].
Proof.
  intros (more & _ & Hp). apply shares_no_end, Forall_app in Hp as [Hq _].
  by apply omap_none.
Qed.

Abbreviation dkg_from cc := (run_distributed_key_generation fuel cc).
Definition undone (cc : Coordinator (N := Script)) : Prop := forall key, (dkg_from cc).2 <> Ok key.

(** Privates are not ends. *)
Lemma privates_no_end (shares ends privates more : list MessageTypes) :
  shares ≡ₚ nodes ≫= answers [MDkgBegin b] -> ends ≡ₚ (fun s => public_end d s.1) <$> nodes ->
  privates ++ more ≡ₚ nodes ≫= (fun s => answers [MDkgPrivateBegin b] (after (MDkgBegin b :: shares ++ ends) s)) ->
  omap (fun m => end_sender (stamped stamp m)) privates = [].
Proof.
  intros H1 H2 H3. assert (mixes (shares ++ ends) (nodes ≫= answers [MDkgBegin b])) as Hm.
  { apply log_mixes; [done|]. by apply (quiet_ends (fun s => public_end d s.1)). }
  rewrite (bind_ext_in _ _ _ (answers_private nodes total Hc b b _ Hm)), bind_fmap in H3.
  apply omap_none. assert (Forall (fun m => end_sender (stamped stamp m) = None) (privates ++ more)) as Hall.
  { rewrite H3. by apply Forall_fmap, Forall_forall. }
  by apply Forall_app in Hall as [Hall _].
Qed.

(** The coordinator in the public phase. *)
Lemma coordinator_first l (sent : list Message) cc (i : Z) : at_start stamp c l sent cc ->
  1 <= i <= FrostCoordinator.total_signers c -> i ∉ omap ender l ->
  msg <$> outbox (network (dkg_from cc).1) = (msg <$> sent) ++ [MDkgBegin b] /\ undone cc.
Proof. intros Hcc Hi Hn. exact (dkg_first stamp fuel Hretry c Hsign l sent cc i Hcc Hi Hn). Qed.

Lemma coordinator_public hist q (sent : list Message) cc : rounds parties plan hist -> unfinished parties plan hist q ->
  (length hist < 3)%nat -> at_start stamp c (concat hist ++ q) sent cc ->
  msg <$> outbox (network (dkg_from cc).1) = (msg <$> sent) ++ due plan hist TheCoordinator /\ undone cc.
Proof.
  intros Hr Hq Hl Hcc. apply rounds_dkg in Hr as Hh. apply unfinished_cases in Hq; [|done].
  unfold due, before. pose proof signers_pos as Hpos.
  destruct hist as [|h0 [|h1 [|h2 hist]]]; [..|simpl in Hl; lia]; cbn [due_in app];
    cbn [plan coordinator_plan dkg_hist concat app] in *; rewrite ?app_nil_r, ?app_nil_l in *.
  - subst. apply (coordinator_first [] sent cc 1); [done|lia|apply not_elem_of_nil].
  - destruct Hh as [-> _]. apply (coordinator_first _ sent cc 1 Hcc); [lia|].
    change (1 ∉ omap ender q). rewrite (shares_part_no_end q Hq). apply not_elem_of_nil.
  - destruct Hh as (-> & Hs & _). destruct (senders_missing public_ender (fun s => public_end d s.1) q (fun s => eq_refl) Hq) as (i & Hi & Hn).
    apply (coordinator_first _ sent cc i Hcc); [done|].
    change (i ∉ omap ender (h1 ++ q)). by rewrite omap_app, (omap_none ender h1 (shares_no_end h1 Hs)).
Qed.

(** The public phase as a segment of the log. *)
Lemma public_segment shares ends : shares ≡ₚ nodes ≫= answers [MDkgBegin b] ->
  ends ≡ₚ (fun s => public_end d s.1) <$> nodes ->
  Forall (fun m => ender m = None) (MDkgBegin b :: shares) /\
  key_of_shares (store_shares ∅ (omap (fun m => share_of (stamped stamp m)) (MDkgBegin b :: shares))) = Ok (group_key d nodes) /\
  (length (MDkgBegin b :: shares) + length ends = S (Z.to_nat total + length nodes))%nat.
Proof.
  intros Hs He. split_and!.
  - constructor; [done|]. by apply shares_no_end.
  - exact (shares_key shares Hs).
  - simpl. by rewrite Hs, He, shares_length, length_fmap.
Qed.

(** With an odd key the coordinator starts again behind the public phase. *)
Lemma coordinator_again hist rest (sent : list Message) cc : dkg_hist hist -> length hist = 3%nat ->
  point_has_even_y (group_key d nodes) = false -> (length (concat hist ++ rest) < fuel)%nat ->
  at_start stamp c (concat hist ++ rest) sent cc ->
  exists cc' s, dkg_from cc = dkg_from cc' /\
    at_start stamp c rest (sent ++ [{| msg := MDkgBegin b; sig := s |}]) cc'.
Proof.
  intros Hh Hl Hodd Hf Hcc. destruct hist as [|h0 [|shares [|ends [|h3 hist]]]]; try done.
  destruct Hh as (-> & Hs & He & _). destruct (ends_perm ends He) as [Hall Hi].
  destruct (public_segment shares ends Hs He) as (Hnone & Hk & _). cbn [concat] in *. rewrite app_nil_r, <-!app_assoc in *.
  exact (dkg_again stamp fuel Hretry c Hsign signers_pos (MDkgBegin b :: shares) ends Hnone Hall Hi _ Hk rest sent cc Hodd Hf Hcc).
Qed.

(** With an even one it goes on. *)
Context (Heven : point_has_even_y (group_key d nodes) = true).

Lemma coordinator_second shares ends rest (sent : list Message) cc : shares ≡ₚ nodes ≫= answers [MDkgBegin b] ->
  ends ≡ₚ (fun s => public_end d s.1) <$> nodes ->
  at_start stamp c (MDkgBegin b :: shares ++ ends ++ rest) sent cc ->
  msg <$> outbox (network (dkg_from cc).1) = (msg <$> sent) ++ [MDkgBegin b; MDkgPrivateBegin b] /\
  forall i, 1 <= i <= FrostCoordinator.total_signers c -> i ∉ omap (fun m => end_sender (stamped stamp m)) rest -> undone cc.
Proof.
  intros Hs He Hcc. destruct (ends_perm ends He) as [Hall Hi]. destruct (public_segment shares ends Hs He) as (Hnone & Hk & Hl).
  rewrite app_comm_cons in Hcc.
  exact (dkg_second stamp fuel Hretry c Hsign signers_pos _ _ Hnone Hall Hi _ Hk rest sent cc Heven ltac:(lia) Hcc).
Qed.

Lemma last_phase_sends hist q (sent : list Message) cc : rounds parties plan hist -> unfinished parties plan hist q ->
  (3 <= length hist)%nat -> at_start stamp c (concat hist ++ q) sent cc ->
  msg <$> outbox (network (dkg_from cc).1) = (msg <$> sent) ++ due plan hist TheCoordinator /\
  ((length hist < 6)%nat -> undone cc).
Proof.
  intros Hr Hq Hl Hcc. apply rounds_dkg in Hr as Hh. apply unfinished_cases in Hq; [|done].
  unfold due, before. pose proof signers_pos as Hpos.
  destruct hist as [|h0 [|h1 [|h2 [|h3 [|h4 [|h5 [|h6 hist]]]]]]]; try (simpl in Hl; lia); cbn [due_in app];
    cbn [plan coordinator_plan dkg_hist concat app] in *; rewrite ?app_nil_r, ?app_nil_l in *.
  - destruct Hh as (-> & Hs & He & _). subst q. rewrite app_nil_r in Hcc.
    destruct (coordinator_second h1 h2 [] sent cc Hs He) as [H1 H2]; [by rewrite app_nil_r|].
    split; [exact H1|]. intros _. apply (H2 1); [lia|apply not_elem_of_nil].
  - destruct Hh as (-> & Hs & He & -> & _). rewrite <-!app_assoc in Hcc.
    destruct (coordinator_second h1 h2 ([MDkgPrivateBegin b] ++ q) sent cc Hs He Hcc) as [H1 H2]. split; [exact H1|]. intros _.
    apply (H2 1); [lia|]. destruct Hq as (more & _ & Hq).
    change (1 ∉ omap (fun m => end_sender (stamped stamp m)) q). rewrite (privates_no_end h1 h2 q more Hs He Hq). apply not_elem_of_nil.
  - destruct Hh as (-> & Hs & He & -> & Hp & _). rewrite <-!app_assoc in Hcc.
    destruct (coordinator_second h1 h2 ([MDkgPrivateBegin b] ++ h4 ++ q) sent cc Hs He Hcc) as [H1 H2]. split; [exact H1|]. intros _.
    destruct (senders_missing end_sender (fun s => success d s.1) q (fun s => eq_refl) Hq) as (i & Hi & Hn).
    apply (H2 i Hi). change (i ∉ omap (fun m => end_sender (stamped stamp m)) (h4 ++ q)).
    rewrite omap_app, (privates_no_end h1 h2 h4 [] Hs He) by by rewrite app_nil_r. done.
  - destruct Hh as (-> & Hs & He & -> & _). rewrite <-!app_assoc in Hcc.
    destruct (coordinator_second h1 h2 ([MDkgPrivateBegin b] ++ h4 ++ h5 ++ q) sent cc Hs He Hcc) as [H1 _]. split; [exact H1|].
    simpl. lia.
  - by destruct Hh as (_ & _ & _ & _ & _ & []).
Qed.

Lemma coordinator_part hist q (sent : list Message) cc : rounds parties plan hist -> unfinished parties plan hist q ->
  at_start stamp c (concat hist ++ q) sent cc ->
  msg <$> outbox (network (dkg_from cc).1) = (msg <$> sent) ++ due plan hist TheCoordinator /\
  ((length hist < 6)%nat -> undone cc).
Proof.
  intros Hr Hq Hcc. destruct (decide (length hist < 3)%nat); [|by apply (last_phase_sends hist q); [..|lia|]].
  by destruct (coordinator_public hist q sent cc).
Qed.

(** ** The end *)
Lemma last_hist hist : rounds parties plan hist -> next_round parties plan hist = [] ->
  exists shares ends privates finals,
    hist = [[MDkgBegin b]; shares; ends; [MDkgPrivateBegin b]; privates; finals] /\ dkg_hist hist.
Proof.
  intros Hr Hn. apply rounds_dkg in Hr as Hh.
  pose proof (unfinished_cases hist [] Hh (or_introl eq_refl)) as Hq. rewrite next_round_eq in Hn.
  unfold coordinator_plan, signer_plan in Hn.
  destruct hist as [|h0 [|h1 [|h2 [|h3 [|h4 [|h5 [|h6 hist]]]]]]]; simpl in Hn; try done;
    rewrite ?bind_singleton in Hn;
    try (rewrite Hn in Hq; by apply partial_nil in Hq).
  - apply (f_equal length) in Hn. pose proof shares_length as Hl. pose proof (cl_total _ _ Hc).
    change (length (nodes ≫= answers [MDkgBegin b]) = O) in Hn. lia.
  - pose proof Hh as (-> & _ & _ & -> & _). by exists h1, h2, h4, h5.
  - by destruct Hh as (_ & _ & _ & _ & _ & []).
Qed.

Lemma hist_bound hist : rounds parties plan hist ->
  (length (concat hist ++ next_round parties plan hist) <= 2 * Z.to_nat total + 2 * length nodes + 2)%nat.
Proof.
  intros Hr. apply rounds_dkg in Hr as Hh. rewrite next_round_eq. unfold coordinator_plan, signer_plan.
  assert (length (nodes ≫= (fun s => answers [MDkgBegin b] s)) = Z.to_nat total) as Hl by exact shares_length.
  assert (forall shares, shares ≡ₚ nodes ≫= answers [MDkgBegin b] -> length shares = Z.to_nat total) as Hl1.
  { intros shares Hs. by rewrite Hs, shares_length. }
  assert (forall (g : ST -> MessageTypes) q, q ≡ₚ g <$> nodes -> length q = length nodes) as Hl2.
  { intros g q Hq. by rewrite Hq, length_fmap. }
  destruct hist as [|h0 [|h1 [|h2 [|h3 [|h4 [|h5 [|h6 hist]]]]]]]; simpl in *;
    rewrite ?bind_singleton, ?bind_nil, ?app_nil_r, ?length_app, ?length_fmap; simpl;
    [lia|destruct Hh as (-> & Hh); simpl..].
  - lia.
  - destruct Hh as (H1%Hl1 & _). lia.
  - destruct Hh as (H1%Hl1 & H2%Hl2 & _). lia.
  - destruct Hh as (H1 & H2 & -> & _). rewrite privates_length.
    + apply Hl1 in H1. apply Hl2 in H2. simpl. lia.
    + apply log_mixes; [done|]. by apply (quiet_ends (fun s => public_end d s.1)).
  - destruct Hh as (H1 & H2 & -> & H3 & _). apply Permutation_length in H3. rewrite privates_length in H3.
    + apply Hl1 in H1. apply Hl2 in H2. simpl. lia.
    + apply log_mixes; [done|]. by apply (quiet_ends (fun s => public_end d s.1)).
  - destruct Hh as (H1 & H2 & -> & H3 & H4%Hl2). apply Permutation_length in H3. rewrite privates_length in H3.
    + apply Hl1 in H1. apply Hl2 in H2. simpl. lia.
    + apply log_mixes; [done|]. by apply (quiet_ends (fun s => public_end d s.1)).
  - by destruct Hh as (_ & _ & _ & _ & []).
Qed.

(** What the coordinator waits for at the end. *)
Lemma final_senders shares ends privates finals :
  dkg_hist [[MDkgBegin b]; shares; ends; [MDkgPrivateBegin b]; privates; finals] ->
  let l := stamped stamp <$> MDkgPrivateBegin b :: privates ++ finals in
  omap end_sender l ≡ₚ seqZ 1 (FrostCoordinator.total_signers c) /\ closed_by end_sender l.
Proof.
  intros (_ & H1 & H2 & _ & H3 & H4) l.
  destruct (senders_perm end_sender (fun s => success d s.1) finals (fun s => eq_refl) H4) as [Hsome Hperm].
  assert (omap (fun m => end_sender (stamped stamp m)) privates = []) as Hnone.
  { apply (privates_no_end shares ends privates []); by rewrite ?app_nil_r. }
  split.
  - unfold l. rewrite omap_stamped.
    change (omap (fun m => end_sender (stamped stamp m)) (privates ++ finals) ≡ₚ seqZ 1 (FrostCoordinator.total_signers c)).
    by rewrite omap_app, Hnone.
  - unfold l. rewrite app_comm_cons, fmap_app. apply closed_by_app; [|by apply Forall_fmap].
    intros ->%fmap_nil_inv. apply Permutation_nil_l in H4. symmetry in H4. apply fmap_nil_inv in H4.
    by destruct cluster_not_nil.
Qed.

(** The table of the coordinator. *)
Lemma shares_table (shares : list MessageTypes) : shares ≡ₚ nodes ≫= answers [MDkgBegin b] ->
  store_shares ∅ (omap (fun m => share_of (stamped stamp m)) shares) = share_table d nodes.
Proof.
  intros H1. apply (table_perm dps_party_id (fun p => p)); [by eapply party_ids_NoDup|]. apply shares_perm in H1.
  rewrite H1. by rewrite (omap_sent MDkgPublicShare (fun m => share_of (stamped stamp m))).
Qed.

(** The coordinator on the whole log, and on more. *)
Lemma coordinator_finishes shares ends privates finals rest (sent : list Message) cc :
  let hist := [[MDkgBegin b]; shares; ends; [MDkgPrivateBegin b]; privates; finals] in
  rounds parties plan hist -> at_start stamp c (concat hist ++ rest) sent cc ->
  exists n sent', dkg_from cc =
      (set_network n (with_key (group_key d nodes) (share_table d nodes) c), Ok (group_key d nodes)) /\
    net_pending n (stamped stamp <$> rest) sent' /\
    msg <$> sent' = (msg <$> sent) ++ [MDkgBegin b; MDkgPrivateBegin b].
Proof.
  intros hist Hr Hcc. apply rounds_dkg in Hr as Hh. pose proof (hist_bound _ Hr) as Hlen.
  destruct (final_senders _ _ _ _ Hh) as [Hfinal Hclosed]. destruct Hh as (_ & H1 & H2 & _).
  destruct (ends_perm ends H2) as [Hends Hi]. destruct (public_segment shares ends H1 H2) as (Hnone & Hk & _).
  set (l := stamped stamp <$> MDkgPrivateBegin b :: privates ++ finals) in *.
  destruct (at_start_fields stamp c _ _ _ Hcc) as (Hts & Hd & Hpk & Hw). destruct Hcc as [_ Hp].
  assert (stamped stamp <$> concat hist = (stamped stamp <$> MDkgBegin b :: shares) ++ (stamped stamp <$> ends) ++ l) as Hlog.
  { unfold hist, l. cbn [concat]. rewrite !app_nil_r, <-!fmap_app. done. }
  destruct (dkg_completes Hretry [] (stamped stamp <$> MDkgBegin b :: shares, stamped stamp <$> ends) (group_key d nodes)
    l (stamped stamp <$> rest) sent fuel cc) as (n & out & Hrun & Hp' & Hout);
    unfold attempt_log; cbn [mbind list_bind app fst snd]; rewrite ?Hts, ?Hpk, ?omap_stamped; try done.
  - apply signers_pos.
  - split; cbn [fst snd]; rewrite ?omap_stamped; [by apply Forall_fmap..|done|done].
  - rewrite fmap_app, Hlog, <-!app_assoc in Hp. by rewrite <-app_assoc.
  - rewrite length_app in Hlen. apply (f_equal length) in Hlog. rewrite length_fmap, length_app in Hlog.
    rewrite <-app_assoc, length_app. lia.
  - exists n. eexists. rewrite Hd in Hout. split; [|split; [exact Hp'|by rewrite fmap_app, Hout]]. cbn [fst] in Hrun.
    rewrite omap_stamped in Hrun.
    change (omap (fun m => share_of (stamped stamp m)) (MDkgBegin b :: shares))
      with (omap (fun m => share_of (stamped stamp m)) shares) in Hrun.
    by rewrite (shares_table shares H1), Hw, set_network_twice in Hrun.
Qed.

(** A signer on the whole log. *)
Lemma signer_finishes shares ends privates finals node : node ∈ nodes ->
  let hist := [[MDkgBegin b]; shares; ends; [MDkgPrivateBegin b]; privates; finals] in
  rounds parties plan hist ->
  exists self rng out, SigningRound.run (concat hist) node = ((self, rng), Ok out) /\
    success d node.1 ∈ out /\ state self = Idle /\ commitments self = dps_public_share <$> share_table d nodes.
Proof.
  intros Hin hist (_ & H1 & H2 & _ & H3 & H4)%rounds_dkg.
  destruct (node_round nodes total Hc b b (shares ++ ends)) with (log2 := privates ++ finals) (s := node)
    as (self & rng & Hnode & _ & Hidle & Hcs & _); [| |done|].
  - apply log_mixes; [done|]. by apply (quiet_ends (fun s => public_end d s.1)).
  - apply log_mixes; [done|]. by apply (quiet_ends (fun s => success d s.1)).
  - eexists self, rng, _. split_and!; [| |done|].
    + rewrite <-Hnode. f_equal. simpl. by rewrite app_nil_r, <-!app_assoc.
    + apply elem_of_app. right. apply elem_of_app. right. apply elem_of_app. right. by left.
    + by rewrite share_table_commitments.
Qed.
End System.
End AsyncDkg.

(** A relay that puts no signatures on the messages. *)
Module AsyncToy.
Import ToyCrypto.
Definition no_stamp (m : MessageTypes) : bytes := [].
End AsyncToy.
