(* ===== verification/SignRound.v ===== *)
(** * A signing round of honest signers

    The signers' side of [FrostCoordinator.sign_message]: every signer answers
    each nonce request and the signature share request of the round's log.
    [WstsSignLaws] states what the round relies on of [wsts]: signers that hold
    the secrets of a group of commitments produce, from the nonces they announced,
    shares that add up to a signature under the group's key. *)
From S2P Require Import Prelude Crypto FrostUtil FrostConfig Messages Net FrostCoordinator CoordinatorRound CoordinatorSign SigningRound DkgRound.

(** The sum of the constant terms. *)
Definition constant_term `{Wsts} (p : PolyCommitment) : Point := default point_default (poly_A p !! O).
Definition poly_sum `{Wsts} (polys : list PolyCommitment) : Point :=
  foldl point_add point_default (constant_term <$> polys).

(** A participant: its id, its [wsts] signer and its random numbers. *)
Definition part `{Wsts} : Type := Z * WstsSigner * Rng.
Definition part_key_ids `{Wsts} (e : part) : list Z := signer_get_key_ids e.1.2.
Definition part_nonces `{Wsts} (e : part) : list PublicNonce := (signer_gen_nonces e.1.2 e.2).1.2.
Definition part_shares `{Wsts} (m : bytes) (ws : list part) (e : part) : list SignatureShare :=
  signer_sign (signer_gen_nonces e.1.2 e.2).1.1 m ((fun e => e.1.1) <$> ws) (ws ≫= part_key_ids)
    (ws ≫= part_nonces).

(** [signer_ready w polys]: [w] holds the shares of its keys of the secret that
    [polys] commit to. *)
Class WstsSignLaws `{WL : WstsLaws, WA : !WstsAggregator} := {
  signer_ready : WstsSigner -> list PolyCommitment -> Prop;
  nonces_ready : forall w rng polys, signer_ready w polys -> signer_ready (signer_gen_nonces w rng).1.1 polys;
  nonces_key_ids : forall w rng,
    signer_get_key_ids (signer_gen_nonces w rng).1.1 = signer_get_key_ids w;
  secrets_key_ids : forall w shares polys,
    signer_get_key_ids (signer_compute_secrets w shares polys).1 = signer_get_key_ids w;
  secrets_ready : forall w shares polys,
    (forall p, p ∈ polys -> poly_valid p) -> (signer_compute_secrets w shares polys).2 = None ->
    signer_ready (signer_compute_secrets w shares polys).1 polys;
  signing_correct : forall (total threshold : Z) (polys : list PolyCommitment) (ws : list part) (m : bytes),
    0 < total -> 0 < threshold -> poly_id <$> polys = seqZ 1 total ->
    Forall (fun e => signer_ready e.1.2 polys) ws ->
    NoDup (ws ≫= part_key_ids) -> threshold <= Z.of_nat (length (ws ≫= part_key_ids)) ->
    point_has_even_y (poly_sum polys) = true ->
    point_has_even_y <$> compute_intermediate m (ws ≫= part_key_ids) (ws ≫= part_nonces) = Some true ->
    exists agg sig proof, aggregator_new total threshold polys = Some (inl agg) /\
      aggregator_sign agg m (ws ≫= part_nonces) (ws ≫= part_shares m ws) = Some (inl sig) /\
      schnorr_new sig = inl proof /\ schnorr_verify proof (point_x (poly_sum polys)) m = true
}.

Section SignRound.
Context {CP : P256k1} {WP : Wsts} {WA : WstsAggregator} {BP : BuildProfile}.
Abbreviation ST := (SigningRound * Rng)%type.
Implicit Types (self : SigningRound) (rng : Rng) (s : ST).

(** ** One signer *)
Definition node_id s : Z := signer_id (signer s.1).
Definition as_part s : part := (node_id s, frost_signer (signer s.1), s.2).

Definition nonce_answer (nr : NonceRequest) s : NonceResponse :=
  {| nresp_dkg_id := nr_dkg_id nr; nresp_sign_id := nr_sign_id nr;
     nresp_sign_nonce_id := nr_sign_nonce_id nr; nresp_signer_id := node_id s;
     nresp_key_ids := key_ids s; nresp_nonces := part_nonces (as_part s) |}.
Definition after_nonces s : ST :=
  let '(w, _, rng) := signer_gen_nonces (frost_signer (signer s.1)) s.2 in (set_frost_signer w s.1, rng).
Fixpoint after_rounds (k : nat) s : ST :=
  match k with O => s | S k => after_rounds k (after_nonces s) end.
Fixpoint nonce_answers (nr : NonceRequest) (k : nat) s : list NonceResponse :=
  match k with O => [] | S k => nonce_answer nr s :: nonce_answers nr k (after_nonces s) end.

Definition share_answer (m : bytes) (req : SignatureShareRequest) s : SignatureShareResponse :=
  {| ssresp_dkg_id := ssr_dkg_id req; ssresp_sign_id := ssr_sign_id req;
     ssresp_correlation_id := ssr_correlation_id req; ssresp_signer_id := node_id s;
     ssresp_signature_shares :=
       signer_sign (frost_signer (signer s.1)) m (nresp_signer_id <$> ssr_nonce_responses req)
         (ssr_nonce_responses req ≫= nresp_key_ids) (ssr_nonce_responses req ≫= nresp_nonces) |}.

Lemma after_nonces_id s : node_id (after_nonces s) = node_id s.
Proof. unfold after_nonces, node_id. destruct (signer_gen_nonces _ _) as [[w l] r]. by destruct s as [[] ?]. Qed.
Lemma after_nonces_state s : state (after_nonces s).1 = state s.1.
Proof. unfold after_nonces. destruct (signer_gen_nonces _ _) as [[w l] r]. by destruct s as [[] ?]. Qed.
Lemma after_nonces_signer s : frost_signer (signer (after_nonces s).1)
  = (signer_gen_nonces (frost_signer (signer s.1)) s.2).1.1.
Proof. unfold after_nonces. destruct (signer_gen_nonces _ _) as [[w l] r]. by destruct s as [[] ?]. Qed.

Lemma after_rounds_id (k : nat) s : node_id (after_rounds k s) = node_id s.
Proof. revert s. induction k as [|k IH]; intros s; [done|]. simpl. by rewrite IH, after_nonces_id. Qed.
Lemma after_rounds_state (k : nat) s : state (after_rounds k s).1 = state s.1.
Proof. revert s. induction k as [|k IH]; intros s; [done|]. simpl. by rewrite IH, after_nonces_state. Qed.

Lemma idle_quiet self : state self = Idle -> public_shares_done self = false /\ can_dkg_end self = false.
Proof. intros Hs. split; [apply not_public|apply not_private]; by rewrite Hs. Qed.

Lemma process_nonce (nr : NonceRequest) s : state s.1 = Idle ->
  process (MNonceRequest nr) s = (after_nonces s, Ok [MNonceResponse (nonce_answer nr s)]).
Proof.
  intros Hs. destruct s as [self rng]. unfold process. rewrite M_bind_eq. cbn [dispatch].
  unfold nonce_request, after_nonces, nonce_answer, key_ids, part_nonces, as_part, node_id. simpl.
  destruct (signer_gen_nonces _ _) as [[w l] r]. simpl. unfold end_phase. rewrite M_bind_eq. simpl.
  destruct (idle_quiet (set_frost_signer w self)) as [-> ->]; [by destruct self|done].
Qed.

Lemma run_nonces (nr : NonceRequest) (logs : list (list MessageTypes)) s :
  state s.1 = Idle -> Forall (Forall is_quiet) logs ->
  run (concat ((fun l => MNonceRequest nr :: l) <$> logs)) s =
    (after_rounds (length logs) s, Ok (MNonceResponse <$> nonce_answers nr (length logs) s)).
Proof.
  revert s. induction logs as [|l logs IH]; intros s Hs Hq; [done|]. apply Forall_cons in Hq as [Hl Hq].
  rewrite fmap_cons. simpl. rewrite run_cons, M_bind_eq, process_nonce, M_bind_eq, run_app, M_bind_eq by done.
  pose proof (after_nonces_state s) as Hst. rewrite Hs in Hst.
  destruct (after_nonces s) as [self1 rng1] eqn:Ha. simpl in Hst.
  rewrite ends_quiet by (done || by apply idle_quiet). rewrite M_bind_eq, IH; [|done|done].
  done.
Qed.

(** Being named once in a request is being answered once. *)
Lemma named_once (ids : list Z) (i : Z) : NoDup ids -> i ∈ ids ->
  length (filter (fun j => j = i) ids) = 1%nat.
Proof.
  induction ids as [|j ids IH]; intros Hnd Hi; [by apply elem_of_nil in Hi|].
  apply NoDup_cons in Hnd as [Hni Hnd]. rewrite filter_cons. destruct (decide (j = i)) as [->|Hne].
  - simpl. f_equal. assert (filter (fun j => j = i) ids = []) as ->; [|done].
    clear -Hni. induction ids as [|k ids IH]; [done|]. apply not_elem_of_cons in Hni as [? ?].
    rewrite filter_cons, decide_False by congruence. by apply IH.
  - apply IH; [done|]. apply elem_of_cons in Hi as [->|]; [done|done].
Qed.

Lemma run_shares (req : SignatureShareRequest) (l : list MessageTypes) s :
  state s.1 = Idle -> Forall is_quiet l ->
  NoDup (nresp_signer_id <$> ssr_nonce_responses req) -> node_id s ∈ nresp_signer_id <$> ssr_nonce_responses req ->
  run (MSignShareRequest req :: l) s = (s, Ok [MSignShareResponse (share_answer (ssr_message req) req s)]).
Proof.
  intros Hs Hq Hnd Hin. destruct s as [self rng]. destruct (idle_quiet self Hs) as [H1 H2].
  rewrite run_cons, M_bind_eq, sign_share_answer by done.
  assert (length (filter (fun nr => nresp_signer_id nr = signer_id (signer self)) (ssr_nonce_responses req))
    = 1%nat) as ->.
  { rewrite <-(named_once _ _ Hnd Hin). unfold node_id. cbn [fst]. symmetry.
    exact (length_filter_fmap (fun j => j = signer_id (signer self)) nresp_signer_id _). }
  by rewrite M_bind_eq, ends_quiet.
Qed.
End SignRound.
