(* ===== verification/SignSystem.v ===== *)
(** * Signing by a coordinator and its signers

    [CoordinatorSign] and [SignRound] on one log: for every nonce request the
    answers of all signers, then the signers' answers to the request for signature
    shares.  Nonces are requested again while the aggregate nonce has an odd y. *)
From S2P Require Import Prelude Crypto FrostUtil FrostConfig Messages Net FrostCoordinator CoordinatorRound CoordinatorSign SigningRound DkgRound DkgSystem SignRound.

Section SignSystem.
Context {CP : P256k1} {WP : Wsts} {BP : BuildProfile} {CL : P256k1Laws} {WL : WstsLaws}
  {WA : WstsAggregator} {WS : WstsSignLaws} {N : Type} {NL : NetListen N} {BO : Backoff}
  {DN : DeliveringNet (N := N)}.
Abbreviation ST := (SigningRound * Rng)%type.
Implicit Types (c : Coordinator (N := N)) (s : ST).

(** Idle signers that hold the secret of [polys], with enough keys. *)
Record signing_group (nodes : list ST) (polys : list PolyCommitment) (total threshold signers : Z) : Prop := {
  sg_ids : NoDup (node_id <$> nodes);
  sg_count : Z.of_nat (length nodes) = signers;
  sg_idle : forall s, s ∈ nodes -> state s.1 = Idle;
  sg_ready : forall s, s ∈ nodes -> signer_ready (frost_signer (signer s.1)) polys;
  sg_polys : poly_id <$> polys = seqZ 1 total;
  sg_keys : NoDup (nodes ≫= key_ids);
  sg_total : 0 < total;
  sg_threshold : 0 < threshold <= Z.of_nat (length (nodes ≫= key_ids))
}.

Lemma after_nonces_keys s : key_ids (after_nonces s) = key_ids s.
Proof. unfold key_ids. rewrite after_nonces_signer. apply nonces_key_ids. Qed.

Lemma after_nonces_ids (nodes : list ST) : node_id <$> (after_nonces <$> nodes) = node_id <$> nodes.
Proof. rewrite <-list_fmap_compose. apply list_fmap_ext. intros. apply after_nonces_id. Qed.

Lemma after_nonces_group (nodes : list ST) (polys : list PolyCommitment) (total threshold signers : Z) :
  signing_group nodes polys total threshold signers ->
  signing_group (after_nonces <$> nodes) polys total threshold signers.
Proof.
  intros [Hids Hn Hidle Hready Hp Hk Htot Hth].
  assert ((after_nonces <$> nodes) ≫= key_ids = nodes ≫= key_ids) as Hkeys.
  { rewrite fmap_bind. apply bind_ext_in. intros s _. apply after_nonces_keys. }
  split; try done.
  - by rewrite after_nonces_ids.
  - by rewrite length_fmap.
  - intros s (s' & -> & Hs)%list_elem_of_fmap. rewrite after_nonces_state. by apply Hidle.
  - intros s (s' & -> & Hs)%list_elem_of_fmap. rewrite after_nonces_signer. by apply nonces_ready, Hready.
  - by rewrite Hkeys.
  - by rewrite Hkeys.
Qed.

Lemma after_rounds_0 (nodes : list ST) : after_rounds 0 <$> nodes = nodes.
Proof. exact (list_fmap_id nodes). Qed.
Lemma after_rounds_S (k : nat) (nodes : list ST) :
  after_rounds (S k) <$> nodes = after_rounds k <$> (after_nonces <$> nodes).
Proof. by rewrite <-list_fmap_compose. Qed.

Lemma after_rounds_last (k : nat) s : after_rounds (S k) s = after_nonces (after_rounds k s).
Proof. revert s. induction k as [|k IH]; intros s; [done|]. exact (IH (after_nonces s)). Qed.

Lemma after_rounds_group (k : nat) (nodes : list ST) (polys : list PolyCommitment) (total threshold signers : Z) :
  signing_group nodes polys total threshold signers ->
  signing_group (after_rounds k <$> nodes) polys total threshold signers.
Proof.
  revert nodes. induction k as [|k IH]; intros nodes Hg.
  - by rewrite after_rounds_0.
  - rewrite after_rounds_S. by apply IH, after_nonces_group.
Qed.

(** ** The log *)
Definition nonce_round (nr : NonceRequest) (nodes : list ST) (seg : list Message) : Prop :=
  closed_by nonce_of seg /\ Forall (fun m => is_quiet (msg m)) seg /\
  omap nonce_of seg ≡ₚ nonce_answer nr <$> nodes.

Fixpoint nonce_log (nr : NonceRequest) (m : bytes) (nodes : list ST) (segs : list (list Message))
    (final : list Message) : Prop :=
  match segs with
  | [] => nonce_round nr nodes final /\ nonce_parity m (nonce_table final) = Some true
  | seg :: segs =>
      nonce_round nr nodes seg /\ nonce_parity m (nonce_table seg) = Some false /\
      nonce_log nr m (after_nonces <$> nodes) segs final
  end.

Definition share_round (m : bytes) (req : SignatureShareRequest) (nodes : list ST) (sh : list Message) : Prop :=
  closed_by sigs_of sh /\ Forall (fun m => is_quiet (msg m)) sh /\
  omap sigs_of sh ≡ₚ share_answer m req <$> nodes.

Lemma nonce_round_segment (nr : NonceRequest) (nodes : list ST) (seg : list Message) (signers : Z) :
  NoDup (node_id <$> nodes) -> Z.of_nat (length nodes) = signers -> nonce_round nr nodes seg ->
  nonce_segment signers seg.
Proof.
  intros Hnd Hn (Hc & _ & Hp). split; [done|]. rewrite Hp. split.
  - by rewrite <-list_fmap_compose.
  - by rewrite length_fmap.
Qed.

Lemma nonce_log_segments (nr : NonceRequest) (m : bytes) (segs : list (list Message)) (final : list Message)
    (nodes : list ST) (signers : Z) :
  NoDup (node_id <$> nodes) -> Z.of_nat (length nodes) = signers -> nonce_log nr m nodes segs final ->
  Forall (fun seg => nonce_segment signers seg /\
                     nonce_parity m (nonce_table seg) = Some false) segs /\
  nonce_segment signers final /\ nonce_parity m (nonce_table final) = Some true /\
  Forall (fun m => is_quiet (msg m)) (concat segs ++ final) /\
  omap nonce_of final ≡ₚ nonce_answer nr <$> (after_rounds (length segs) <$> nodes).
Proof.
  revert nodes. induction segs as [|seg segs IH]; intros nodes Hnd Hn Hl.
  - destruct Hl as [Hr He]. pose proof Hr as (_ & Hq & Hp). split_and!; try done.
    + by eapply nonce_round_segment.
    + by rewrite after_rounds_0.
  - destruct Hl as (Hr & Ho & Hl).
    destruct (IH (after_nonces <$> nodes)) as (H1 & H2 & H3 & H4 & H5); [by rewrite after_nonces_ids|by rewrite length_fmap|done|].
    pose proof Hr as (_ & Hq & _). split_and!; try done.
    + constructor; [|done]. split; [by eapply nonce_round_segment|done].
    + simpl. rewrite <-app_assoc. by apply Forall_app.
    + simpl length. by rewrite after_rounds_S.
Qed.

(** ** The tables of the round *)
Lemma nonce_table_nodes (nr : NonceRequest) (nodes : list ST) (seg : list Message) :
  NoDup (node_id <$> nodes) -> omap nonce_of seg ≡ₚ nonce_answer nr <$> nodes ->
  nonce_table seg = list_to_map ((fun s => (node_id s, nonce_answer nr s)) <$> nodes).
Proof.
  intros Hnd Hp. unfold nonce_table, store_nonces.
  rewrite (table_perm nresp_signer_id (fun r => r) _ _) with (2 := Hp); [|by rewrite <-list_fmap_compose].
  by rewrite <-list_fmap_compose.
Qed.

Lemma sigs_table_nodes (m : bytes) (req : SignatureShareRequest) (nodes : list ST) (sh : list Message)
    (t : gmap Z (list SignatureShare)) s :
  NoDup (node_id <$> nodes) -> omap sigs_of sh ≡ₚ share_answer m req <$> nodes -> s ∈ nodes ->
  store_sigs t (omap sigs_of sh) !! node_id s = Some (ssresp_signature_shares (share_answer m req s)).
Proof.
  intros Hnd Hp Hs. unfold store_sigs.
  assert (NoDup (ssresp_signer_id <$> omap sigs_of sh)) as Hnd'.
  { rewrite Hp, <-list_fmap_compose. exact Hnd. }
  rewrite (foldl_insert_table ssresp_signer_id ssresp_signature_shares) by done.
  apply lookup_union_Some_l, table_lookup; [done|]. exists (share_answer m req s). split; [|done].
  rewrite Hp. by apply list_elem_of_fmap_2.
Qed.

(** The signature of the nodes in the order of their ids. *)
Lemma shares_add_up (nr : NonceRequest) (m : bytes) (nodes : list ST) (polys : list PolyCommitment)
    (total threshold signers : Z) (final sh : list Message) (sigs0 : gmap Z (list SignatureShare))
    (req : SignatureShareRequest) :
  let t := nonce_table final in
  signing_group nodes polys total threshold signers ->
  omap nonce_of final ≡ₚ nonce_answer nr <$> nodes ->
  ssr_nonce_responses req = btree_values t ->
  omap sigs_of sh ≡ₚ share_answer m req <$> (after_nonces <$> nodes) ->
  point_has_even_y (poly_sum polys) = true -> nonce_parity m t = Some true ->
  exists agg sig proof, aggregator_new total threshold polys = Some (inl agg) /\
    aggregator_sign agg m (btree_values t ≫= nresp_nonces)
      (shares_for t (store_sigs sigs0 (omap sigs_of sh))) = Some (inl sig) /\
    schnorr_new sig = inl proof /\ schnorr_verify proof (point_x (poly_sum polys)) m = true.
Proof.
  intros t [Hids Hn Hidle Hready Hpolys Hkeys Htot [Hpos Hth]] Hp Hreq Hsh Heven HR.
  pose proof (nonce_table_nodes nr nodes final Hids Hp) as Ht. fold t in Ht.
  destruct (btree_entries_table node_id (nonce_answer nr) nodes Hids) as (nodes' & Hperm & Hent).
  rewrite <-Ht in Hent.
  assert (btree_values t = nonce_answer nr <$> nodes') as Hvals.
  { unfold btree_values. by rewrite Hent, <-list_fmap_compose. }
  assert (btree_keys t = node_id <$> nodes') as Htk.
  { unfold btree_keys. by rewrite Hent, <-list_fmap_compose. }
  assert ((as_part <$> nodes') ≫= part_key_ids = btree_values t ≫= nresp_key_ids) as Hk
    by by rewrite Hvals, !fmap_bind.
  assert ((as_part <$> nodes') ≫= part_nonces = btree_values t ≫= nresp_nonces) as Hno
    by by rewrite Hvals, !fmap_bind.
  destruct (signing_correct total threshold polys (as_part <$> nodes') m)
    as (agg & sig & proof & Hagg & Hsig & Hproof & Hv); try done.
  - apply Forall_fmap, Forall_forall. intros s Hs. apply Hready. by rewrite <-Hperm.
  - rewrite fmap_bind. change (fun a => part_key_ids (as_part a)) with key_ids. by rewrite Hperm.
  - rewrite fmap_bind. change (fun a => part_key_ids (as_part a)) with key_ids. by rewrite Hperm.
  - rewrite Hk, Hno. exact HR.
  - exists agg, sig, proof. split_and!; try done. rewrite <-Hno, <-Hsig. f_equal.
    unfold shares_for. rewrite Htk, !fmap_bind. apply bind_ext_in. intros s Hs.
    rewrite <-(after_nonces_id s), (sigs_table_nodes m req (after_nonces <$> nodes) sh); [|by rewrite after_nonces_ids|done|].
    2: { apply list_elem_of_fmap_2. by rewrite <-Hperm. }
    simpl. unfold part_shares. rewrite after_nonces_signer, Hreq, <-Hk, <-Hno. f_equal.
    by rewrite Hvals, <-!list_fmap_compose.
Qed.

(** What the signers process: each request followed by the answers to it. *)
Definition signers_log (nr : NonceRequest) (req : SignatureShareRequest) (segs : list (list Message))
    (sh : list Message) : list MessageTypes :=
  concat ((fun l => MNonceRequest nr :: l) <$> (fmap msg <$> segs)) ++ MSignShareRequest req :: (msg <$> sh).

Lemma node_signs (nr : NonceRequest) (m : bytes) (nodes : list ST) (segs : list (list Message))
    (final sh : list Message) (req : SignatureShareRequest) s :
  let k := S (length segs) in
  NoDup (node_id <$> nodes) -> (forall s, s ∈ nodes -> state s.1 = Idle) ->
  Forall (fun m => is_quiet (msg m)) (concat segs ++ final) -> Forall (fun m => is_quiet (msg m)) sh ->
  omap nonce_of final ≡ₚ nonce_answer nr <$> (after_rounds (length segs) <$> nodes) ->
  ssr_nonce_responses req = btree_values (nonce_table final) -> ssr_message req = m ->
  s ∈ nodes ->
  run (signers_log nr req (segs ++ [final]) sh) s =
    (after_rounds k s, Ok ((MNonceResponse <$> nonce_answers nr k s) ++
                           [MSignShareResponse (share_answer m req (after_rounds k s))])).
Proof.
  intros k Hnd Hidle Hq Hqs Hp Hreq Hm Hs. unfold signers_log. rewrite run_app, M_bind_eq, run_nonces.
  - rewrite !length_fmap, length_app. simpl length. rewrite Nat.add_1_r. fold k.
    assert (node_id <$> (after_rounds (length segs) <$> nodes) = node_id <$> nodes) as Hids.
    { rewrite <-list_fmap_compose. apply list_fmap_ext. intros. apply after_rounds_id. }
    assert (nresp_signer_id <$> ssr_nonce_responses req ≡ₚ node_id <$> nodes) as Hnamed.
    { rewrite Hreq, (nonce_table_nodes nr (after_rounds (length segs) <$> nodes) final); [|by rewrite Hids|done].
      destruct (btree_entries_table node_id (nonce_answer nr) (after_rounds (length segs) <$> nodes))
        as (nodes' & Hperm & Hent); [by rewrite Hids|].
      unfold btree_values. rewrite Hent, <-!list_fmap_compose, <-Hids, <-Hperm. done. }
    rewrite M_bind_eq, run_shares; [by rewrite Hm| | | |].
    + rewrite after_rounds_state. by apply Hidle.
    + by apply Forall_fmap.
    + by rewrite Hnamed.
    + rewrite after_rounds_id, Hnamed. by apply list_elem_of_fmap_2.
  - by apply Hidle.
  - apply Forall_fmap, Forall_forall. intros seg Hseg. apply Forall_fmap. simpl.
    rewrite Forall_forall in Hq |- *. intros x Hx. apply Hq. rewrite elem_of_app.
    apply elem_of_app in Hseg as [Hseg|Hseg%list_elem_of_singleton].
    + left. apply list_elem_of_In, in_concat. exists seg. by rewrite <-!list_elem_of_In.
    + right. by subst.
Qed.

Lemma signing_round (m : bytes) (nodes : list ST) (segs : list (list Message)) (final sh rest sent : list Message)
    (fuel : nat) c :
  let nr := request_of c in
  let req := share_request m (nonce_table final) c in
  let k := S (length segs) in
  backoff_attempts <> O ->
  (forall h, is_Some (ecdsa_sign h (co_network_private_key c))) ->
  signing_group nodes (polys c) (FrostCoordinator.total_keys c) (FrostCoordinator.threshold c)
    (FrostCoordinator.total_signers c) ->
  aggregate_public_key c = poly_sum (polys c) -> aggregate_public_key c <> point_default ->
  point_has_even_y (aggregate_public_key c) = true ->
  nonce_log nr m nodes segs final ->
  share_round m req (after_rounds k <$> nodes) sh ->
  net_pending (network c) (concat segs ++ final ++ sh ++ rest) sent ->
  (length (concat segs ++ final ++ sh) < fuel)%nat ->
  exists c' out sig proof, sign_message fuel m c = (c', Ok (sig, proof)) /\
    schnorr_verify proof (point_x (aggregate_public_key c)) m = true /\
    net_pending (network c') rest (sent ++ out) /\
    msg <$> out = replicate k (MNonceRequest nr) ++ [MSignShareRequest req] /\
    signing_static c' = signing_static c /\
    forall s, s ∈ nodes ->
      SigningRound.run (signers_log nr req (segs ++ [final]) sh) s =
        (after_rounds k s, Ok ((MNonceResponse <$> nonce_answers nr k s) ++
                               [MSignShareResponse (share_answer m req (after_rounds k s))])).
Proof.
  intros nr req k Hretry Hsign Hg Hkey Hdef Heven Hnl (Hcl & Hqs & Hsh) Hp Hf.
  destruct (nonce_log_segments nr m segs final nodes (FrostCoordinator.total_signers c))
    as (Hsegs & Hfin & HR & Hq & Hresp); [apply Hg|apply Hg|done|].
  set (nodesF := after_rounds (length segs) <$> nodes) in *.
  assert (after_rounds k <$> nodes = after_nonces <$> nodesF) as Hlast.
  { unfold nodesF. rewrite <-list_fmap_compose. apply list_fmap_ext. intros i s _. apply after_rounds_last. }
  pose proof (after_rounds_group (length segs) _ _ _ _ _ Hg) as HgF. fold nodesF in HgF.
  rewrite Hlast in Hsh.
  destruct (shares_add_up nr m nodesF (polys c) _ _ _ final sh (signature_shares c) req HgF Hresp eq_refl Hsh)
    as (agg & sig & proof & Hagg & Hsig & Hproof & Hv); [by rewrite <-Hkey|done|].
  destruct (sign_completes Hretry m segs final sh rest sent fuel c agg sig proof)
    as (n & out & Hr & Hp' & Hout); try done.
  - assert (ssresp_signer_id <$> (share_answer m req <$> (after_nonces <$> nodesF)) = node_id <$> nodesF) as Hids.
    { rewrite <-(after_nonces_ids nodesF). by rewrite <-list_fmap_compose. }
    split; [done|]. rewrite Hsh, Hids. split; [apply HgF|].
    rewrite (nonce_table_nodes nr nodesF final) by (done || apply HgF).
    rewrite dom_list_to_map_L. f_equal. by rewrite <-list_fmap_compose.
  - by rewrite Hkey.
  - eexists _, out, sig, proof. split; [exact Hr|]. split; [by rewrite Hkey|].
    split; [by rewrite network_set|]. split; [exact Hout|]. split; [by destruct c|].
    intros s Hs. apply (node_signs nr m nodes segs final sh req s); try done; apply Hg.
Qed.

(** ** Key generation and signing *)
Definition dkg_log (b : DkgBegin) (shares ends l : list Message) : list MessageTypes :=
  MDkgBegin b :: (msg <$> shares ++ ends) ++ MDkgPrivateBegin b :: (msg <$> l).

Section Dkg.
Context (nodes : list ST) (total : Z) (Hc : cluster nodes total) (b : DkgBegin)
  (shares ends l : list Message) (Hlog : round_log nodes b shares ends l).
Abbreviation d := (db_dkg_id b).
Abbreviation ready_node := (after (dkg_log b shares ends l)).

Lemma dkg_node s : s ∈ nodes ->
  exists self rng ps, run (dkg_log b shares ends l) s =
      ((self, rng), Ok ((MDkgPublicShare <$> public_shares d s) ++ [public_end d s.1] ++
                        (MDkgPrivateShares <$> ps) ++ [success d s.1])) /\
    ready_node s = (self, rng) /\ node_id (self, rng) = node_id s /\ state self = Idle /\
    key_ids (self, rng) = key_ids s /\
    signer_ready (frost_signer (signer self)) (btree_values (commitment_table d nodes)).
Proof.
  intros Hs. destruct (node_round nodes total Hc b b _ (log_public _ _ _ _ (rl_public _ _ _ _ _ Hlog)) _
    (log_private _ _ _ _ _ Hlog) s Hs) as (self & rng & Hrun & Hst & Hidle & _ & sh & Hw & Hnone).
  eexists self, rng, _. split; [exact Hrun|].
  split; [unfold after, dkg_log; by rewrite Hrun|]. split_and!; [by apply static_fields|done| |].
  - unfold key_ids at 1. simpl. rewrite Hw, secrets_key_ids. apply signer_of_keys.
  - rewrite Hw. apply secrets_ready; [|done]. by eapply table_valid.
Qed.

Lemma ready_keys : (ready_node <$> nodes) ≫= key_ids = nodes ≫= key_ids.
Proof.
  rewrite fmap_bind. apply bind_ext_in. intros s Hs.
  by destruct (dkg_node s Hs) as (self & rng & ps & _ & -> & _ & _ & -> & _).
Qed.
Lemma ready_ids : node_id <$> (ready_node <$> nodes) = node_id <$> nodes.
Proof.
  rewrite <-list_fmap_compose. apply list_fmap_ext. intros i s Hs%list_elem_of_lookup_2.
  simpl. by destruct (dkg_node s Hs) as (self & rng & ps & _ & -> & -> & _).
Qed.

Lemma table_polys : dps_public_share <$> btree_values (share_table d nodes)
  = btree_values (commitment_table d nodes).
Proof.
  rewrite <-share_table_commitments, btree_values_fmap_keys; [done|].
  rewrite share_table_commitments, (share_table_keys _ total) by done. by apply table_keys.
Qed.

Lemma dkg_group (threshold signers : Z) :
  NoDup (node_id <$> nodes) -> Z.of_nat (length nodes) = signers -> 0 < threshold <= total ->
  signing_group (ready_node <$> nodes) (btree_values (commitment_table d nodes)) total threshold signers.
Proof.
  intros Hids Hn Hth. pose proof (cl_total _ _ Hc) as Ht. split.
  - by rewrite ready_ids.
  - by rewrite length_fmap.
  - intros s (s' & -> & Hs)%list_elem_of_fmap. by destruct (dkg_node s' Hs) as (self & rng & ps & _ & -> & _ & ? & _).
  - intros s (s' & -> & Hs)%list_elem_of_fmap. by destruct (dkg_node s' Hs) as (self & rng & ps & _ & -> & _ & _ & _ & ?).
  - by apply table_poly_ids.
  - rewrite ready_keys, (cl_keys _ _ Hc). apply NoDup_seqZ.
  - lia.
  - rewrite ready_keys, (cl_keys _ _ Hc), length_seqZ. lia.
Qed.
End Dkg.

(** The key is the sum of the constant terms of the commitments. *)
Lemma group_key_sum (b : DkgBegin) (nodes : list ST) :
  poly_sum (dps_public_share <$> btree_values (share_table (db_dkg_id b) nodes)) = group_key (db_dkg_id b) nodes.
Proof. unfold poly_sum, group_key. by rewrite <-list_fmap_compose. Qed.

(** Signing by a coordinator that has the key and the shares of a key generation. *)
Lemma keyed_round (nodes : list ST) (total : Z) (b : DkgBegin) (shares ends l : list Message)
    (segs : list (list Message)) (final sh rest sent : list Message) (fuel : nat) (m : bytes) c :
  let key := group_key (db_dkg_id b) nodes in
  let k := S (length segs) in
  let nr := request_of c in
  let req := share_request m (nonce_table final) c in
  let ready := after (dkg_log b shares ends l) <$> nodes in
  backoff_attempts <> O -> (forall h, is_Some (ecdsa_sign h (co_network_private_key c))) ->
  cluster nodes total -> node_id <$> nodes ≡ₚ seqZ 1 (FrostCoordinator.total_signers c) ->
  FrostCoordinator.total_keys c = total -> 0 < FrostCoordinator.threshold c <= total ->
  round_log nodes b shares ends l -> point_has_even_y key = true -> key <> point_default ->
  aggregate_public_key c = key -> dkg_public_shares c = share_table (db_dkg_id b) nodes ->
  nonce_log nr m ready segs final -> share_round m req (after_rounds k <$> ready) sh ->
  net_pending (network c) (concat segs ++ final ++ sh ++ rest) sent ->
  (length (concat segs ++ final ++ sh) < fuel)%nat ->
  exists c' out sig proof, sign_message fuel m c = (c', Ok (sig, proof)) /\
    schnorr_verify proof (point_x key) m = true /\
    net_pending (network c') rest (sent ++ out) /\
    msg <$> out = replicate k (MNonceRequest nr) ++ [MSignShareRequest req] /\
    forall s, s ∈ ready ->
      SigningRound.run (signers_log nr req (segs ++ [final]) sh) s =
        (after_rounds k s, Ok ((MNonceResponse <$> nonce_answers nr k s) ++
                               [MSignShareResponse (share_answer m req (after_rounds k s))])).
Proof.
  intros key k nr req ready Hretry Hsign Hc Hids Htk Hth Hlog Heven Hdef Hkey Hshares Hnl Hsh Hn Hf.
  assert (polys c = dps_public_share <$> btree_values (share_table (db_dkg_id b) nodes)) as Hpolys
    by (unfold polys; by rewrite Hshares).
  destruct (signing_round m ready segs final sh rest sent fuel c)
    as (c' & out & sg & proof & Hr & Hv & Hp & Hout & _ & Hnodes); rewrite ?Hkey; try done.
  - rewrite Hpolys, (table_polys nodes total Hc b), Htk. apply (dkg_group nodes total Hc b _ _ _ Hlog); [| |done].
    + rewrite Hids. apply NoDup_seqZ.
    + rewrite <-(length_fmap node_id), Hids, length_seqZ.
      pose proof (signers_positive nodes total node_id _ Hc Hids). lia.
  - by rewrite Hpolys, group_key_sum.
  - rewrite Hkey in Hv. by exists c', out, sg, proof.
Qed.

(** A coordinator behind a network that delivers the logs of a key generation and
    of a signing round among honest signers. *)
Section Session.
Context (nodes : list ST) (total : Z) (shares ends l : list Message)
  (segs : list (list Message)) (final sh rest sent : list Message) (fuel : nat) (m : bytes) (c : Coordinator (N := N)).
Let b := {| db_dkg_id := wrapping_add 64 (current_dkg_id c) 1 |}.
Let key := group_key (db_dkg_id b) nodes.
Let k := S (length segs).
Let nr := {| nr_dkg_id := db_dkg_id b; nr_sign_id := current_sign_id c;
             nr_sign_nonce_id := current_sign_nonce_id c |}.
Let req := {| ssr_dkg_id := db_dkg_id b; ssr_sign_id := current_sign_id c; ssr_correlation_id := 0;
              ssr_nonce_responses := btree_values (nonce_table final); ssr_message := m |}.
Let ready := after (dkg_log b shares ends l) <$> nodes.
Let start := [MDkgBegin b; MDkgPrivateBegin b].
Let requests := replicate k (MNonceRequest nr) ++ [MSignShareRequest req].
Context (Hretry : backoff_attempts <> O)
  (Hsign : forall h, is_Some (ecdsa_sign h (co_network_private_key c)))
  (Hc : cluster nodes total)
  (Hids : node_id <$> nodes ≡ₚ seqZ 1 (FrostCoordinator.total_signers c))
  (Hkeys : FrostCoordinator.total_keys c = total) (Hth : 0 < FrostCoordinator.threshold c <= total)
  (Hlog : round_log nodes b shares ends l)
  (Heven : point_has_even_y key = true) (Hdef : key <> point_default)
  (Hnl : nonce_log nr m ready segs final)
  (Hsh : share_round m req (after_rounds k <$> ready) sh)
  (Hnet : net_pending (network c) (shares ++ ends ++ l ++ concat segs ++ final ++ sh ++ rest) sent)
  (Hfuel : (length (shares ++ ends ++ l ++ concat segs ++ final ++ sh) < fuel)%nat).

(** The key generation, then signing by a coordinator that holds its key and
    shares and is behind what is left of the network. *)
Lemma session_dkg : exists n out,
  run_distributed_key_generation fuel c =
    (set_network n (with_key key (share_table (db_dkg_id b) nodes) c), Ok key) /\
  net_pending n (concat segs ++ final ++ sh ++ rest) (sent ++ out) /\ msg <$> out = start.
Proof.
  apply (coordinator_completes nodes nodes total [] shares ends l (concat segs ++ final ++ sh ++ rest) sent fuel c
    Hretry Hsign Hc Hids (no_attempts _ _) Hlog Hnet Heven).
  rewrite !length_app in Hfuel. simpl. rewrite !length_app. lia.
Qed.

Lemma session_sign n sent1 c1 :
  c1 = set_network n (with_key key (share_table (db_dkg_id b) nodes) c) ->
  net_pending n (concat segs ++ final ++ sh ++ rest) sent1 ->
  exists c' out sig proof,
    sign_message fuel m c1 = (c', Ok (sig, proof)) /\ schnorr_verify proof (point_x key) m = true /\
    net_pending (network c') rest (sent1 ++ out) /\ msg <$> out = requests /\
    forall s, s ∈ ready ->
      SigningRound.run (signers_log nr req (segs ++ [final]) sh) s =
        (after_rounds k s, Ok ((MNonceResponse <$> nonce_answers nr k s) ++
                               [MSignShareResponse (share_answer m req (after_rounds k s))])).
Proof.
  intros Hc1 Hn.
  assert (request_of c1 = nr /\ share_request m (nonce_table final) c1 = req) as [Hnr Hreq]
    by (subst c1; unfold nr, req; by destruct c).
  pose proof (keyed_round nodes total b shares ends l segs final sh rest sent1 fuel m c1) as Hround.
  cbv zeta in Hround. rewrite Hnr, Hreq in Hround. clear Hnr Hreq.
  apply Hround; try (subst c1; by destruct c).
  rewrite !length_app in Hfuel. rewrite !length_app. lia.
Qed.

(** A coordinator and honest signers sign from scratch.  The coordinator,
    behind a network that delivers the log of a key generation and of a signing
    round, runs [DkgSign] successfully: it sends the two messages of the key
    generation, one nonce request for every sum of nonces with an odd y and one
    more, and one request for signature shares, and obtains a proof that verifies
    under the sum of the constant terms of the signers' commitments.  Every signer,
    given these messages and the same log, answers exactly what the log holds of
    it: its key generation messages with success, one response to each nonce
    request and one to the request for shares.  The answers of different signers
    come in any order and with other messages in between. *)
Theorem dkg_sign_completes :
  exists c' out c1 sig proof,
    FrostCoordinator.run fuel (DkgSign m) c = (c', Ok tt) /\
    run_distributed_key_generation fuel c = (c1, Ok key) /\
    sign_message fuel m c1 = (c', Ok (sig, proof)) /\
    schnorr_verify proof (point_x key) m = true /\
    net_pending (network c') rest (sent ++ out) /\
    msg <$> out = start ++ requests /\
    forall s, s ∈ nodes ->
      let s' := after_rounds k (after (dkg_log b shares ends l) s) in
      exists ps, SigningRound.run (dkg_log b shares ends l ++ signers_log nr req (segs ++ [final]) sh) s =
        (s', Ok (((MDkgPublicShare <$> public_shares (db_dkg_id b) s) ++ [public_end (db_dkg_id b) s.1] ++
                  (MDkgPrivateShares <$> ps) ++ [success (db_dkg_id b) s.1]) ++
                 (MNonceResponse <$> nonce_answers nr k (after (dkg_log b shares ends l) s)) ++
                 [MSignShareResponse (share_answer m req s')])).
Proof.
  destruct session_dkg as (n & out1 & Hdkg & Hp1 & Hout1).
  destruct (session_sign n _ _ eq_refl Hp1) as (c' & out & sg & proof & Hr & Hv & Hp2 & Hout & Hnodes).
  eexists c', (out1 ++ out), _, sg, proof. split.
  { unfold FrostCoordinator.run. by rewrite M_bind_eq, Hdkg, M_bind_eq, Hr. }
  split; [exact Hdkg|]. split; [exact Hr|]. split; [exact Hv|].
  split; [by rewrite app_assoc|]. split; [by rewrite fmap_app, Hout1, Hout|].
  intros s Hs s'. destruct (dkg_node nodes total Hc b shares ends l Hlog s Hs)
    as (self & rng & ps & Hrun & Haft & _). exists ps.
  rewrite run_app, M_bind_eq, Hrun, M_bind_eq, <-Haft, Hnodes; [done|].
  by apply list_elem_of_fmap_2.
Qed.
End Session.
End SignSystem.

(** The toy signature under the key [x] is [x / 2]. *)
Module SignToy.
Import ToyCrypto.
Import DkgToy.

Lemma toy_poly_sum (polys : list (Z * list Z)) (x : Z) :
  (forall p, p ∈ polys -> p.2 = [2 * p.1]) ->
  foldl Z.add x ((fun p : Z * list Z => default 0 (p.2 !! O)) <$> polys) = x + 2 * foldr Z.add 0 (fst <$> polys).
Proof.
  revert x. induction polys as [|p l IH]; intros x Hp; [simpl; lia|]. rewrite !fmap_cons. cbn [foldl fold_left foldr].
  rewrite IH by (intros q Hq; apply Hp; by right). rewrite (Hp p) by by left. simpl. lia.
Qed.

#[export] Program Instance toy_sign_laws : WstsSignLaws :=
  {| signer_ready w polys := forall p, p ∈ polys -> p.2 = [2 * p.1] |}.
Next Obligation. done. Qed.
Next Obligation. done. Qed.
Next Obligation. done. Qed.
Next Obligation. intros w shares polys Hv _. exact Hv. Qed.
Next Obligation.
  intros total threshold polys ws m Htot Hth Hids Hready _ Hkeys _ _.
  destruct ws as [|e ws]; [simpl in Hkeys; lia|]. apply Forall_cons in Hready as [Hready _].
  apply (f_equal length) in Hids. rewrite length_fmap, length_seqZ in Hids.
  eexists _, _, _. split; [|split; [reflexivity|split; [reflexivity|]]]; simpl.
  - rewrite bool_decide_true.
    + assert (forallb (fun p : Z * bytes => negb (bool_decide (p.2 = []))) polys = true) as ->; [|reflexivity].
      apply forallb_forall. intros p Hp%list_elem_of_In. by rewrite (Hready p Hp).
    + transitivity (Z.of_nat (Z.to_nat total)); [f_equal; exact Hids|lia].
  - apply bool_decide_true. symmetry. exact (toy_poly_sum polys 0 Hready).
Qed.
End SignToy.

Module SignSystemWitness.
Import ToyCrypto.
Import ScriptNet.
Import Toy.
Import DkgToy.
Import SignToy.
Import DkgRoundWitness.
Import DkgSystemWitness.
#[local] Instance three_attempts : Backoff := 3%nat.

Definition after_dkg (s : SigningRound * Rng) : SigningRound * Rng :=
  after (dkg_log zero shares ends private_log) s.
Definition toy_nr : NonceRequest := {| nr_dkg_id := 0; nr_sign_id := 1; nr_sign_nonce_id := 1 |}.
Definition round_nonces (k : nat) : list Message :=
  posted <$> [MNonceResponse (nonce_answer toy_nr (after_rounds k (after_dkg node2)));
              MNonceResponse (nonce_answer toy_nr (after_rounds k (after_dkg node1)))].
(** The first sum of nonces is odd, the second one even. *)
Definition toy_req : SignatureShareRequest :=
  {| ssr_dkg_id := 0; ssr_sign_id := 1; ssr_correlation_id := 0;
     ssr_nonce_responses := btree_values (nonce_table (round_nonces 1)); ssr_message := [1; 2] |}.
Definition round_shares : list Message :=
  posted <$> [MSignShareResponse (share_answer [1; 2] toy_req (after_rounds 2 (after_dkg node1)));
              MSignShareResponse (share_answer [1; 2] toy_req (after_rounds 2 (after_dkg node2)))].
Definition signing_coordinator : Coordinator (N := Script) :=
  FrostCoordinatorWitness.coordinator
    (Some <$> (shares ++ ends ++ private_log ++ concat [round_nonces 0] ++ round_nonces 1 ++ round_shares ++ [])) ∅ 0.

Lemma toy_nonce_round (k : nat) (ready : list (SigningRound * Rng)) :
  ready = after_rounds k <$> (after_dkg <$> [node1; node2]) -> nonce_round toy_nr ready (round_nonces k).
Proof.
  intros ->. split_and!.
  - exists [posted (MNonceResponse (nonce_answer toy_nr (after_rounds k (after_dkg node2))))].
    eexists. split; [reflexivity|by eexists].
  - by repeat constructor.
  - simpl. solve_Permutation.
Qed.

Lemma dkg_sign_completes_witness :
  exists c' c1 sig proof,
    FrostCoordinator.run 30 (DkgSign [1; 2]) signing_coordinator = (c', Ok tt) /\
    sign_message 30 [1; 2] c1 = (c', Ok (sig, proof)) /\
    schnorr_verify (WstsAggregator := toy_aggregator) proof 12 [1; 2] = true /\
    msg <$> outbox (network c') =
      [MDkgBegin zero; MDkgPrivateBegin zero; MNonceRequest toy_nr; MNonceRequest toy_nr; MSignShareRequest toy_req].
Proof.
  destruct (dkg_sign_completes [node1; node2] 3 shares ends private_log [round_nonces 0] (round_nonces 1)
    round_shares [] [] 30 [1; 2] signing_coordinator)
    as (c' & out & c1 & sig & proof & Hr & _ & Hs & Hv & (_ & _ & Hsent) & Hout & _).
  - done.
  - by eexists.
  - apply toy_cluster.
  - by compute_done.
  - reflexivity.
  - done.
  - apply toy_log.
  - run.
  - by vm_compute.
  - split; [|split; [run|split; [|run]]].
    + by apply (toy_nonce_round 0).
    + by apply (toy_nonce_round 1).
  - split_and!.
    + exists [posted (MSignShareResponse (share_answer [1; 2] toy_req (after_rounds 2 (after_dkg node1))))].
      eexists. split; [reflexivity|by eexists].
    + by repeat constructor.
    + simpl. solve_Permutation.
  - by split.
  - apply Nat.ltb_lt. run.
  - exists c', c1, sig, proof. split; [exact Hr|]. split; [exact Hs|]. split; [exact Hv|].
    rewrite Hsent. exact Hout.
Defined.
End SignSystemWitness.
