(* ===== verification/AsyncSign.v ===== *)
(** * Signing without a schedule

    [SignSystem] on the system of [Barrier]: a coordinator and signers that share
    a key read the relay's log from their own cursors and send to it one message
    at a time, in any order.  The coordinator's requests are in the log that it
    reads itself.  The rounds are exchanges of a request and the signers' answers:
    nonces until their sum has an even y, then the signature shares. *)
From S2P Require Import Prelude Crypto FrostUtil FrostConfig Messages Net FrostCoordinator CoordinatorRound CoordinatorSign SigningRound DkgRound DkgSystem SignRound SignSystem Barrier AsyncDkg.
Import ScriptNet.

Section AsyncSign.
Context {CP : P256k1} {WP : Wsts} {WA : WstsAggregator} {BP : BuildProfile} {CL : P256k1Laws}
  {WL : WstsLaws} {WS : WstsSignLaws} {BO : Backoff}.
Abbreviation ST := (SigningRound * Rng)%type.
Implicit Types (c : Coordinator (N := Script)) (s : ST).
Context (Hretry : backoff_attempts <> O).

(** ** The coordinator on a part of the log *)

(** Fewer nonces than signers: nothing is sent, and collecting does not end. *)
Lemma nonces_wait (k : nat) (l sent : list Message) c :
  net_pending (network c) l sent ->
  Z.of_nat (size (FrostCoordinator.public_nonces c) + length (omap nonce_of l)) < FrostCoordinator.total_signers c ->
  outbox (network (collect_nonces_loop k c).1) = sent /\ (collect_nonces_loop k c).2 <> Ok tt.
Proof.
  revert l c. induction k as [|k IH]; intros l c Hp Hlt; [by split; [apply Hp|]|]. cbn [collect_nonces_loop].
  destruct l as [|x l].
  - destruct (wait_nothing c sent Hp) as (n & Hw & Ho). rewrite M_bind_eq, Hw. by destruct c.
  - destruct (wait_pending Hretry c x l sent Hp) as (n & Hw & Hp'). rewrite M_bind_eq, Hw.
    assert (exists c', handle_nonce_message (msg x) (set_network n c) = (c', Ok tt) /\ network c' = n /\
      FrostCoordinator.total_signers c' = FrostCoordinator.total_signers c /\
      (size (FrostCoordinator.public_nonces c') + length (omap nonce_of l) <=
        size (FrostCoordinator.public_nonces c) + length (omap nonce_of (x :: l)))%nat) as (c' & Hh & Hn & Ht & Hs).
    { change (omap nonce_of (x :: l)) with (match nonce_of x with Some r => r :: omap nonce_of l | None => omap nonce_of l end).
      generalize (omap nonce_of l). intros r. destruct x as [[] sg]; simpl; eexists; (split; [reflexivity|]); destruct c; simpl; try (split_and!; done).
      split_and!; [done..|]. rewrite map_size_insert. case_match; unfold Datatypes.id; lia. }
    rewrite M_bind_eq, Hh, M_bind_eq. cbn [get_st].
    rewrite (proj2 (Z.eqb_neq _ _)) by (rewrite Ht; lia).
    apply (IH l); [by rewrite Hn|]. rewrite Ht. lia.
Qed.

(** One more request, and no end. *)
Lemma collect_nonces_wait (k : nat) (l sent : list Message) c :
  (forall h, is_Some (ecdsa_sign h (co_network_private_key c))) ->
  net_pending (network c) l sent -> Z.of_nat (length (omap nonce_of l)) < FrostCoordinator.total_signers c ->
  msg <$> outbox (network (collect_nonces k c).1) = (msg <$> sent) ++ [MNonceRequest (request_of c)] /\
  (collect_nonces k c).2 <> Ok tt.
Proof.
  intros Hsign Hp Hlt. unfold collect_nonces. rewrite M_bind_eq. simpl. rewrite M_bind_eq. simpl. rewrite M_bind_eq.
  set (c0 := set_public_nonces ∅ c).
  destruct (send_pending (request_of c0) MNonceRequest _ c0 l sent
    (appends_preimage _ _ (NonceRequest_appends _))) as (n & g & Hs & Hn);
    [by destruct c; apply Hsign|by destruct c|].
  change {| nr_dkg_id := current_dkg_id c0; nr_sign_id := current_sign_id c0;
            nr_sign_nonce_id := current_sign_nonce_id c0 |} with (request_of c0).
  rewrite Hs. set (c1 := set_network n c0).
  assert (FrostCoordinator.public_nonces c1 = ∅ /\ FrostCoordinator.total_signers c1 = FrostCoordinator.total_signers c)
    as [He Ht] by by destruct c.
  destruct (nonces_wait k l (sent ++ [{| msg := MNonceRequest (request_of c0); sig := g |}]) c1)
    as [Ho Hr]; [by destruct c|by rewrite He, Ht|].
  rewrite Ho, fmap_app. split; [|done]. unfold c0. by destruct c.
Qed.

Section Nonces.
Context (m : bytes) (rest : list Message).

(** The nonces of some rounds with an odd sum, and a part of those of the next:
    one more request than rounds is sent. *)
Lemma even_rounds_wait (segs : list (list Message)) (sent : list Message) (fuel : nat) c :
  (forall h, is_Some (ecdsa_sign h (co_network_private_key c))) ->
  Forall (fun seg => nonce_segment (FrostCoordinator.total_signers c) seg /\
                     nonce_parity m (nonce_table seg) = Some false) segs ->
  Z.of_nat (length (omap nonce_of rest)) < FrostCoordinator.total_signers c ->
  net_pending (network c) (concat segs ++ rest) sent -> (length (concat segs ++ rest) < fuel)%nat ->
  msg <$> outbox (network (even_nonce_loop fuel m c).1) =
    (msg <$> sent) ++ replicate (S (length segs)) (MNonceRequest (request_of c)) /\
  (even_nonce_loop fuel m c).2 <> Ok tt.
Proof.
  revert sent fuel c. induction segs as [|seg segs IH]; intros sent fuel c Hsign Hsegs Hrest Hp Hf;
    (destruct fuel as [|fuel]; [lia|]); cbn [even_nonce_loop]; rewrite M_bind_eq;
    unfold compute_aggregate_nonce; rewrite M_bind_eq.
  - destruct (collect_nonces_wait (S fuel) rest sent c) as [Ho Hr]; [done..|].
    destruct (collect_nonces (S fuel) c) as [c1 [[]| | |]]; simpl in *; done.
  - apply Forall_cons in Hsegs as [[Hseg Hodd] Hsegs]. simpl in Hp, Hf. rewrite <-app_assoc in Hp, Hf.
    rewrite length_app in Hf.
    assert (length seg <> O) as Hne.
    { destruct Hseg as [(pre & x & -> & _) _]. rewrite length_app. simpl. lia. }
    destruct (collect_nonces_pending Hretry seg (concat segs ++ rest) sent (S fuel) c) as (n & g & Hc & Hp');
      [done|done|done|lia|]. rewrite Hc, M_bind_eq. simpl.
    set (c1 := set_network n (set_public_nonces (nonce_table seg) c)).
    replace (FrostCoordinator.public_nonces c1) with (nonce_table seg) by by destruct c.
    fold (table_nonce m (nonce_table seg)). apply nonce_parity_inv in Hodd as (R & -> & HR). cbn [unwrap lift]. rewrite HR.
    destruct (IH (sent ++ [{| msg := MNonceRequest (request_of c); sig := g |}]) fuel c1) as [Ho Hr];
      [by destruct c|by destruct c|by destruct c|by unfold c1; rewrite network_set|lia|].
    split; [|exact Hr]. rewrite Ho, fmap_app, <-app_assoc. simpl. by destruct c.
Qed.
End Nonces.

Lemma shares_loop_outbox (k : nat) (ids : gset Z) (o : list Message) :
  keeps (fun c => outbox (network c) = o) (collect_signature_shares_loop k ids).
Proof.
  revert ids. induction k as [|k IH]; intros ids; [by apply keeps_lift|].
  cbn [collect_signature_shares_loop]. case_bool_decide; [apply keeps_ret|].
  apply keeps_bind; [apply wait_outbox|]. intros x. apply keeps_bind; [|intros; apply IH].
  destruct (msg x); simpl; try apply keeps_ret. case_bool_decide; [|apply keeps_ret].
  apply keeps_bind; [|intros; apply keeps_ret]. apply keeps_modify. by intros [].
Qed.

(** After the nonces the request for shares is sent, and nothing more. *)
Lemma sign_message_sends (fuel : nat) (m : bytes) c c1 agg (l sent : list Message) :
  aggregate_public_key c <> point_default -> even_nonce_loop fuel m c = (c1, Ok tt) ->
  aggregator_new (FrostCoordinator.total_keys c1) (FrostCoordinator.threshold c1) (polys c1) = Some (inl agg) ->
  (forall h, is_Some (ecdsa_sign h (co_network_private_key c1))) -> net_pending (network c1) l sent ->
  msg <$> outbox (network (sign_message fuel m c).1) =
    (msg <$> sent) ++ [MSignShareRequest (share_request m (FrostCoordinator.public_nonces c1) c1)].
Proof.
  intros Hkey He Hagg Hsign Hp. unfold sign_message. rewrite M_bind_eq. cbn [get_st].
  rewrite bool_decide_false, M_bind_eq, He, M_bind_eq by done. cbn [get_st]. rewrite Hagg, M_bind_eq.
  cbn [of_call of_sum map_err lift]. rewrite M_bind_eq. unfold request_signature_shares. rewrite M_bind_eq. cbn [get_st].
  destruct (send_pending (share_request m (FrostCoordinator.public_nonces c1) c1) MSignShareRequest _ c1 l sent
    (appends_preimage _ _ (SignatureShareRequest_appends _))) as (n & g & Hs & _ & _ & Ho); [done..|].
  unfold share_request in Hs |- *. rewrite Hs.
  match goal with |- context [(?f (set_network n c1)).1] => set (k := f) end.
  assert (keeps (fun c => outbox (network c) = outbox n) k) as Hk.
  { unfold k. apply keeps_bind.
    { unfold collect_signature_shares. apply keeps_bind; [apply keeps_get|]. intros c2. apply shares_loop_outbox. }
    intros _. apply keeps_bind; [apply keeps_get|].
    intros c2. apply keeps_bind; [apply keeps_lift|]. intros sh. apply keeps_bind; [apply keeps_lift|].
    intros sg. apply keeps_bind; [apply keeps_lift|]. intros proof. case_match; [apply keeps_ret|apply keeps_throw]. }
  rewrite (Hk (set_network n c1)) by by rewrite network_set. by rewrite Ho, fmap_app.
Qed.

(** ** The exchanges *)
Section System.
Context (stamp : MessageTypes -> bytes) (fuel : nat) (m : bytes) (c : Coordinator (N := Script)) (nodes : list ST).
(** The number of the exchange of nonces with an even sum. *)
Context (last : nat).
Abbreviation nr := (request_of c).

Definition signing_sends (l : list MessageTypes) : list MessageTypes :=
  msg <$> outbox (network (sign_message fuel m (coordinator_on stamp c l)).1).
Definition signing_after (p : Party) (l : list MessageTypes) : list MessageTypes :=
  match p with
  | TheCoordinator => signing_sends l
  | TheSigner k => match nodes !! k with Some s => answers l s | None => [] end
  end.

(** The coordinator [c] behind a network that still has to deliver [l]. *)
Definition behind (l : list MessageTypes) (sent : list Message) (cc : Coordinator (N := Script)) : Prop :=
  cc = set_network (network cc) c /\ net_pending (network cc) (stamped stamp <$> l) sent.

Lemma coordinator_on_behind (l : list MessageTypes) : behind l [] (coordinator_on stamp c l).
Proof. split; [by destruct c|exact (proj2 (coordinator_on_start stamp c l))]. Qed.

Lemma behind_fields l sent cc : behind l sent cc ->
  aggregate_public_key cc = aggregate_public_key c /\ request_of cc = request_of c /\
  FrostCoordinator.total_signers cc = FrostCoordinator.total_signers c /\
  co_network_private_key cc = co_network_private_key c.
Proof. intros [-> _]. by destruct c. Qed.

(** The nonces of exchange [j]. *)
Definition answer_table (j : nat) : gmap Z NonceResponse :=
  list_to_map ((fun s => (node_id s, nonce_answer nr s)) <$> (after_rounds j <$> nodes)).
Definition parity (j : nat) : option bool := nonce_parity m (answer_table j).
Abbreviation req := (share_request m (answer_table last) c).

(** Exchange [j]. *)
Definition request (j : nat) : list MessageTypes :=
  if decide (j <= last)%nat then [MNonceRequest nr]
  else if decide (j = S last) then [MSignShareRequest req] else [].
Definition answer (j : nat) s : list MessageTypes :=
  if decide (j <= last)%nat then [MNonceResponse (nonce_answer nr (after_rounds j s))]
  else if decide (j = S last) then [MSignShareResponse (share_answer m req (after_rounds (S last) s))] else [].

(** Every exchange takes two rounds. *)
Definition sign_plan_at (n : nat) (p : Party) : list MessageTypes :=
  match p with
  | TheCoordinator => if Nat.even n then request (Nat.div2 n) else []
  | TheSigner k => match nodes !! k with Some s => if Nat.even n then [] else answer (Nat.div2 n) s | None => [] end
  end.
Definition sign_plan (hist : list (list MessageTypes)) : Party -> list MessageTypes := sign_plan_at (length hist).

Definition exchanges (segs : list (list MessageTypes)) : list MessageTypes :=
  concat (imap (fun j seg => request j ++ seg) segs).
Definition answered (segs : list (list MessageTypes)) : Prop :=
  forall j seg, segs !! j = Some seg -> seg ≡ₚ nodes ≫= answer j.

Lemma exchanges_snoc segs seg : exchanges (segs ++ [seg]) = exchanges segs ++ request (length segs) ++ seg.
Proof. unfold exchanges. rewrite imap_app, concat_app. simpl. by rewrite Nat.add_0_r, app_nil_r. Qed.

Lemma answered_snoc segs seg : answered segs -> seg ≡ₚ nodes ≫= answer (length segs) -> answered (segs ++ [seg]).
Proof.
  intros Hs Hseg j x [Hj|[Hj Hx]]%lookup_app_Some; [by apply Hs|].
  apply list_lookup_singleton_Some in Hx as [Hx <-]. by replace j with (length segs) by lia.
Qed.

Lemma even_double (j : nat) : Nat.even (2 * j) = true /\ Nat.even (S (2 * j)) = false /\
  Nat.div2 (2 * j) = j /\ Nat.div2 (S (2 * j)) = j.
Proof.
  pose proof (Nat.div2_double j). pose proof (Nat.div2_succ_double j).
  rewrite Nat.even_succ, <-Nat.negb_even, Nat.even_mul. done.
Qed.

Lemma plan_request (n j : nat) : n = (2 * j)%nat ->
  parties nodes ≫= sign_plan_at n = request j.
Proof.
  intros ->. pose proof (even_double j) as (He & _ & Hd & _).
  rewrite (bind_ext_in _ (fun p => match p with TheCoordinator => request j | TheSigner k =>
    match nodes !! k with Some s => [] | None => [] end end)).
  - by rewrite parties_bind, bind_nil, app_nil_r.
  - intros [|k] _; cbn [sign_plan_at]; rewrite He; [by rewrite Hd|done].
Qed.

Lemma plan_answer (n j : nat) : n = S (2 * j) -> parties nodes ≫= sign_plan_at n = nodes ≫= answer j.
Proof.
  intros ->. pose proof (even_double j) as (_ & He & _ & Hd).
  rewrite (bind_ext_in _ (fun p => match p with TheCoordinator => [] | TheSigner k =>
    match nodes !! k with Some s => answer j s | None => [] end end)).
  - exact (parties_bind nodes [] (answer j)).
  - intros [|k] _; cbn [sign_plan_at]; rewrite He; [done|by rewrite Hd].
Qed.

Lemma request_some (j : nat) : (j <= S last)%nat -> exists x, request j = [x].
Proof. intros Hj. unfold request. case_decide; [by eexists|]. rewrite decide_True by lia. by eexists. Qed.

(** Every history consists of exchanges. *)
Lemma rounds_exchanges hist : rounds (parties nodes) sign_plan hist ->
  exists segs, answered segs /\ (length segs <= S (S last))%nat /\
    (length hist = (2 * length segs)%nat /\ concat hist = exchanges segs \/
     length hist = S (2 * length segs) /\ (length segs <= S last)%nat /\
     concat hist = exchanges segs ++ request (length segs)).
Proof.
  induction 1 as [|hist seg _ (segs & Ha & Hl & IH) Hne Hp].
  - exists []. split; [intros j x Hx; by rewrite lookup_nil in Hx|]. split; [simpl; lia|by left].
  - rewrite concat_app. simpl. rewrite app_nil_r, length_app. simpl. unfold next_round, sign_plan in Hp.
    destruct IH as [[Hn ->]|(Hn & Hl' & ->)].
    + rewrite (plan_request _ _ Hn) in Hp. exists segs.
      assert (length segs <= S last)%nat as Hle.
      { unfold request in Hp. repeat case_decide; [lia..|]. by apply Permutation_nil_r in Hp. }
      split_and!; [done..|]. right. destruct (request_some _ Hle) as [x Hx]. rewrite Hx in *.
      apply Permutation_singleton_r in Hp as ->. split_and!; [lia|done|done].
    + rewrite (plan_answer _ _ Hn) in Hp. exists (segs ++ [seg]). rewrite exchanges_snoc, length_app. simpl.
      split; [by apply answered_snoc|]. split; [lia|]. left. split; [lia|by rewrite app_assoc].
Qed.

(** What a party has sent after a number of rounds. *)
Lemma before_sign hist p : before sign_plan hist p = seq 0 (length hist) ≫= (fun n => sign_plan_at n p).
Proof.
  induction hist as [|seg hist IH] using rev_ind; [done|]. rewrite before_snoc, length_app, seq_app, bind_app, <-IH.
  unfold due, sign_plan. simpl. by rewrite app_nil_r.
Qed.

Lemma due_sign (j : nat) hist p : length hist = (2 * j)%nat \/ length hist = S (2 * j) ->
  due sign_plan hist p =
    match p with
    | TheCoordinator => seq 0 (S j) ≫= request
    | TheSigner k => match nodes !! k with
                     | Some s => seq 0 (if decide (length hist = (2 * j)%nat) then j else S j) ≫= (fun i => answer i s)
                     | None => []
                     end
    end.
Proof.
  assert (forall j, seq 0 (2 * j) ≫= (fun n => sign_plan_at n p) =
    match p with
    | TheCoordinator => seq 0 j ≫= request
    | TheSigner k => match nodes !! k with Some s => seq 0 j ≫= (fun i => answer i s) | None => [] end
    end) as Heven.
  { clear j hist. intros j. induction j as [|j IH]; [by destruct p; simpl; [|case_match]|].
    replace (2 * S j)%nat with (2 * j + 2)%nat by lia. replace (S j) with (j + 1)%nat by lia.
    rewrite seq_app, bind_app, IH. simpl. pose proof (even_double j) as (E1 & E2 & E3 & E4). simpl in E1, E2, E3, E4.
    destruct p as [|k]; simpl; [by rewrite seq_app, bind_app, E1, E2, E3|].
    destruct (nodes !! k) as [s|]; simpl; [|done]. by rewrite seq_app, bind_app, E1, E2, E4. }
  unfold due. rewrite before_sign. unfold sign_plan. pose proof (Heven j) as Hj.
  destruct (even_double j) as (E1 & E2 & E3 & E4). clear Heven. revert Hj E1 E2 E3 E4.
  generalize (2 * j)%nat. intros n Hj E1 E2 E3 E4. rewrite (seq_S j), bind_app, bind_cons, Nat.add_0_l.
  intros [Hl|Hl]; rewrite Hl.
  - rewrite decide_True, Hj by done. destruct p as [|k]; cbn [sign_plan_at].
    + rewrite E1, E3. simpl. by rewrite app_nil_r.
    + rewrite E1. case_match; by rewrite ?app_nil_r.
  - rewrite decide_False, seq_S, bind_app, bind_cons, Nat.add_0_l, Hj by lia. destruct p as [|k]; cbn [sign_plan_at].
    + rewrite E1, E2, E3. simpl. by rewrite !app_nil_r.
    + rewrite E1, E2, E4. case_match; [|done]. rewrite seq_S, bind_app, bind_cons. simpl. by rewrite !app_nil_r.
Qed.

(** ** Everyone waits *)
Context (Hg : signing_group nodes (polys c) (FrostCoordinator.total_keys c) (FrostCoordinator.threshold c)
  (FrostCoordinator.total_signers c)).
Context (Hsign : forall h, is_Some (ecdsa_sign h (co_network_private_key c))).
Context (Hkey : aggregate_public_key c = poly_sum (polys c)) (Hdef : aggregate_public_key c <> point_default)
  (Heven : point_has_even_y (aggregate_public_key c) = true).
Context (Hodd : forall j, (j < last)%nat -> parity j = Some false) (Hlast : parity last = Some true).
Context (Hfuel : ((2 * last + 5) * S (length nodes) < fuel)%nat).

Abbreviation nodes_at j := (after_rounds j <$> nodes).

Lemma some_nodes : (0 < length nodes)%nat.
Proof.
  pose proof (sg_threshold _ _ _ _ _ Hg). destruct nodes; simpl in *; lia.
Qed.

Lemma nodes_at_ids (j : nat) : NoDup (node_id <$> nodes_at j).
Proof. apply (sg_ids _ _ _ _ _ (after_rounds_group j _ _ _ _ _ Hg)). Qed.

Lemma nodes_at_S (j : nat) : nodes_at (S j) = after_nonces <$> nodes_at j.
Proof. rewrite <-list_fmap_compose. apply list_fmap_ext. intros i s _. apply after_rounds_last. Qed.

Lemma answer_nonces (j : nat) : (j <= last)%nat ->
  nodes ≫= answer j = MNonceResponse <$> (nonce_answer nr <$> nodes_at j).
Proof.
  intros Hj. rewrite <-!list_fmap_compose, <-bind_singleton. apply bind_ext_in. intros s _. unfold answer.
  by rewrite decide_True.
Qed.

Lemma answer_shares : nodes ≫= answer (S last) = MSignShareResponse <$> (share_answer m req <$> nodes_at (S last)).
Proof.
  rewrite <-!list_fmap_compose, <-bind_singleton. apply bind_ext_in. intros s _. unfold answer.
  rewrite decide_False by lia. by rewrite decide_True.
Qed.

Lemma answer_quiet (j : nat) : Forall is_quiet (nodes ≫= answer j) /\ (length (nodes ≫= answer j) <= length nodes)%nat.
Proof.
  destruct (decide (j <= last)%nat) as [Hj|Hj]; [rewrite (answer_nonces j Hj)|
    destruct (decide (j = S last)) as [->|Hj']; [rewrite answer_shares|]].
  1,2: by rewrite !length_fmap; split; [apply Forall_fmap, Forall_forall|].
  rewrite (bind_ext_in _ (fun _ => [])), bind_nil; [by split; [|simpl; lia]|].
  intros s _. unfold answer. by rewrite !decide_False.
Qed.

Lemma segs_quiet segs : answered segs -> Forall (Forall is_quiet) segs.
Proof.
  intros Ha. apply Forall_lookup. intros j x Hx. rewrite (Ha j x Hx). apply answer_quiet.
Qed.

(** A part of a round. *)
Lemma unfinished_request hist q (j : nat) : length hist = (2 * j)%nat ->
  unfinished (parties nodes) sign_plan hist q -> q = [].
Proof.
  intros Hn [->|(q' & Hne & Hp)]; [done|]. unfold next_round, sign_plan in Hp. rewrite (plan_request _ _ Hn) in Hp.
  apply Permutation_length in Hp. rewrite length_app in Hp. unfold request in Hp.
  destruct q, q'; repeat case_decide; simpl in Hp; (done || lia).
Qed.

Lemma unfinished_answer hist q (j : nat) : length hist = S (2 * j) ->
  unfinished (parties nodes) sign_plan hist q -> Forall is_quiet q /\ (length q < length nodes)%nat.
Proof.
  pose proof some_nodes as Hpos.
  intros Hn [->|(q' & Hne & Hp)]; [done|]. unfold next_round, sign_plan in Hp. rewrite (plan_answer _ _ Hn) in Hp.
  destruct (answer_quiet j) as [Hq Hl]. rewrite <-Hp in Hq. apply Forall_app in Hq as [Hq _]. split; [done|].
  rewrite <-Hp, length_app in Hl. destruct q'; [done|]. simpl in Hl. lia.
Qed.

(** *** A signer *)
Lemma exchanges_nonces segs : (length segs <= S last)%nat ->
  exchanges segs = concat ((fun l => MNonceRequest nr :: l) <$> segs).
Proof.
  intros Hl. unfold exchanges. f_equal. rewrite <-(imap_const (fun l => MNonceRequest nr :: l)).
  apply imap_ext. intros j x Hx%lookup_lt_Some. unfold request, const. by rewrite decide_True by lia.
Qed.

Lemma nonce_answers_seq (k : nat) s : (k <= S last)%nat ->
  MNonceResponse <$> nonce_answers nr k s = seq 0 k ≫= (fun j => answer j s).
Proof.
  intros Hk. rewrite (bind_ext_in _ (fun j => [MNonceResponse (nonce_answer nr (after_rounds j s))])).
  - rewrite bind_singleton. clear Hk. revert s. induction k as [|k IH]; intros s; [done|].
    cbn [nonce_answers seq]. rewrite !fmap_cons, IH, <-fmap_S_seq, <-list_fmap_compose. done.
  - intros j Hj%elem_of_seq. unfold answer. by rewrite decide_True by lia.
Qed.

Lemma req_named : nresp_signer_id <$> ssr_nonce_responses req ≡ₚ node_id <$> nodes.
Proof.
  simpl. unfold answer_table.
  destruct (btree_entries_table node_id (nonce_answer nr) (nodes_at last) (nodes_at_ids last)) as (l & Hp & He).
  unfold btree_values. rewrite He, <-!list_fmap_compose.
  transitivity (node_id <$> nodes_at last); [by rewrite <-Hp|]. rewrite <-list_fmap_compose.
  by rewrite (list_fmap_ext _ node_id) by (intros; apply after_rounds_id).
Qed.

Lemma signer_exchanges segs s : s ∈ nodes -> Forall (Forall is_quiet) segs -> (length segs <= S (S last))%nat ->
  SigningRound.run (exchanges segs) s =
    (after_rounds (length segs `min` S last) s, Ok (seq 0 (length segs) ≫= (fun j => answer j s))).
Proof.
  intros Hs Hq Hl. pose proof (sg_idle _ _ _ _ _ Hg s Hs) as Hidle.
  destruct (decide (length segs <= S last)%nat) as [Hle|Hgt].
  - rewrite exchanges_nonces, run_nonces, nonce_answers_seq by done. by rewrite Nat.min_l.
  - destruct segs as [|x segs _] using rev_ind; [simpl in Hgt; lia|]. apply Forall_app in Hq as [Hq [Hx _]%Forall_cons].
    assert (length (segs ++ [x]) = S (S last)) as -> by lia.
    assert (length segs = S last) as Hn by (rewrite length_app in *; simpl in *; lia).
    rewrite exchanges_snoc, run_app, M_bind_eq, exchanges_nonces, run_nonces by (done || lia).
    rewrite M_bind_eq, nonce_answers_seq, Hn by lia.
    assert (request (S last) = [MSignShareRequest req] /\
      answer (S last) s = [MSignShareResponse (share_answer m req (after_rounds (S last) s))]) as [-> Hans].
    { unfold request, answer. by repeat case_decide; [lia|..]. }
    change ([MSignShareRequest req] ++ x) with (MSignShareRequest req :: x). rewrite run_shares.
    + rewrite Nat.min_r, (seq_S (S last)), bind_app, bind_cons, Nat.add_0_l, Hans by lia. done.
    + rewrite after_rounds_state. done.
    + done.
    + rewrite req_named. apply Hg.
    + rewrite req_named, after_rounds_id. by apply list_elem_of_fmap_2.
Qed.

(** *** The coordinator

    What it receives in an exchange of nonces. *)
Definition segment (x : list MessageTypes) : list Message := stamped stamp <$> MNonceRequest nr :: x.

Lemma omap_of {A B : Type} (wrap : A -> MessageTypes) (get : Message -> option B) (f : A -> B) (x : list MessageTypes)
    (l : list A) : (forall a g, get {| msg := wrap a; sig := g |} = Some (f a)) -> x ≡ₚ wrap <$> l ->
  omap get (stamped stamp <$> x) ≡ₚ f <$> l /\ Forall (fun m => is_Some (get m)) (stamped stamp <$> x).
Proof.
  intros Hget Hp. rewrite Hp. clear Hp. split.
  - assert (omap get (stamped stamp <$> (wrap <$> l)) = f <$> l) as ->; [|done].
    induction l as [|a l IH]; [done|]. rewrite !fmap_cons, <-IH. simpl. unfold stamped at 1. by rewrite Hget.
  - rewrite <-list_fmap_compose. apply Forall_fmap, Forall_forall. intros a _. simpl. unfold stamped. rewrite Hget. by eexists.
Qed.

Lemma segment_nonces (j : nat) x : (j <= last)%nat -> x ≡ₚ nodes ≫= answer j ->
  nonce_segment (FrostCoordinator.total_signers c) (segment x) /\ nonce_table (segment x) = answer_table j /\
  omap nonce_of (segment x) ≡ₚ nonce_answer nr <$> nodes_at j.
Proof.
  intros Hj Hx. rewrite answer_nonces in Hx by done.
  destruct (omap_of MNonceResponse nonce_of (fun r => r) x _ (fun _ _ => eq_refl) Hx) as [Ho Hsome].
  rewrite list_fmap_id in Ho.
  assert (omap nonce_of (segment x) = omap nonce_of (stamped stamp <$> x)) as Heq by done.
  rewrite <-Heq in Ho. pose proof (nodes_at_ids j) as Hnd.
  assert (nresp_signer_id <$> (nonce_answer nr <$> nodes_at j) = node_id <$> nodes_at j) as Hids
    by by rewrite <-list_fmap_compose.
  split; [|split; [by apply nonce_table_nodes|done]]. split.
  - apply (closed_by_app nonce_of [stamped stamp (MNonceRequest nr)]); [|done].
    intros ->%fmap_nil_inv. apply Permutation_length in Hx. rewrite !length_fmap in Hx. pose proof some_nodes. simpl in Hx. lia.
  - rewrite Ho, Hids, !length_fmap. split; [done|]. apply Hg.
Qed.

Lemma segments_odd segs : answered segs -> (length segs <= last)%nat ->
  Forall (fun seg => nonce_segment (FrostCoordinator.total_signers c) seg /\
                     nonce_parity m (nonce_table seg) = Some false) (segment <$> segs).
Proof.
  intros Ha Hl. apply Forall_fmap, Forall_lookup. intros j x Hx. pose proof (lookup_lt_Some _ _ _ Hx).
  destruct (segment_nonces j x) as (Hseg & Ht & _); [lia|by apply Ha|]. split; [exact Hseg|]. simpl. rewrite Ht.
  apply Hodd. lia.
Qed.

Lemma stamped_exchanges segs : (length segs <= S last)%nat ->
  stamped stamp <$> exchanges segs = concat (segment <$> segs).
Proof.
  intros Hl. rewrite exchanges_nonces by done. clear Hl. induction segs as [|x segs IH]; [done|].
  rewrite !fmap_cons. cbn [concat]. by rewrite fmap_app, IH.
Qed.

Lemma requests_nonce (k : nat) : (k <= S last)%nat -> seq 0 k ≫= request = replicate k (MNonceRequest nr).
Proof.
  intros Hk. rewrite (bind_ext_in _ (fun _ => [MNonceRequest nr])).
  - by rewrite bind_singleton, (const_fmap _ _ (MNonceRequest nr)), length_seq.
  - intros j Hj%elem_of_seq. unfold request. by rewrite decide_True by lia.
Qed.

Lemma coordinator_waits_nonces segs e sent cc : behind (exchanges segs ++ e) sent cc -> answered segs -> (length segs <= last)%nat ->
  e = [] \/ (exists q, e = request (length segs) ++ q /\ Forall is_quiet q /\ (length q < length nodes)%nat) ->
  (length (exchanges segs ++ e) < fuel)%nat ->
  msg <$> outbox (network (sign_message fuel m cc).1) = (msg <$> sent) ++ (seq 0 (S (length segs)) ≫= request).
Proof.
  intros Hb Ha Hl He Hf. rewrite requests_nonce by lia. unfold sign_message. rewrite M_bind_eq. cbn [get_st].
  destruct (behind_fields _ _ _ Hb) as (Hk & Hnr & Ht & Hpk). destruct Hb as [_ Hb].
  rewrite bool_decide_false, M_bind_eq by by rewrite Hk.
  destruct (even_rounds_wait m (stamped stamp <$> e) (segment <$> segs) sent fuel cc) as [Ho Hr].
  - by rewrite Hpk.
  - rewrite Ht. by apply segments_odd.
  - rewrite Ht, <-(sg_count _ _ _ _ _ Hg). destruct He as [->|(q & -> & _ & Hq)]; [pose proof some_nodes; simpl; lia|].
    assert (length (omap nonce_of (stamped stamp <$> request (length segs) ++ q)) <= length q)%nat; [|lia].
    unfold request. rewrite decide_True by lia. simpl. rewrite omap_length_le, length_fmap. lia.
  - rewrite <-stamped_exchanges, <-fmap_app by lia. exact Hb.
  - rewrite <-stamped_exchanges, <-fmap_app, length_fmap by lia. exact Hf.
  - destruct (even_nonce_loop fuel m cc) as [c1 [[]| | |]]; [done|..]; simpl in *; by rewrite Ho, Hnr, length_fmap.
Qed.

(** What the signers answer adds up to a signature. *)
Lemma answers_add_up x y : x ≡ₚ nodes ≫= answer last -> y ≡ₚ nodes ≫= answer (S last) ->
  exists agg sig proof,
    aggregator_new (FrostCoordinator.total_keys c) (FrostCoordinator.threshold c) (polys c) = Some (inl agg) /\
    aggregator_sign agg m (btree_values (answer_table last) ≫= nresp_nonces)
      (shares_for (answer_table last) (store_sigs (signature_shares c) (omap sigs_of (stamped stamp <$> y)))) = Some (inl sig) /\
    schnorr_new sig = inl proof /\ schnorr_verify proof (point_x (poly_sum (polys c))) m = true.
Proof.
  intros Hx Hy. destruct (segment_nonces last x) as (_ & Ht & Ho); [done..|]. rewrite answer_shares in Hy.
  destruct (omap_of MSignShareResponse sigs_of (fun r => r) y _ (fun _ _ => eq_refl) Hy) as [Hs _].
  rewrite list_fmap_id in Hs. rewrite <-Ht.
  apply (shares_add_up nr m (nodes_at last) (polys c) _ _ (FrostCoordinator.total_signers c) (segment x)
    (stamped stamp <$> y) (signature_shares c) req).
  - by apply after_rounds_group.
  - exact Ho.
  - by rewrite Ht.
  - by rewrite Hs, nodes_at_S.
  - by rewrite <-Hkey.
  - rewrite Ht. exact Hlast.
Qed.

Lemma coordinator_waits_shares first final rest sent cc : behind (exchanges (first ++ [final]) ++ rest) sent cc ->
  answered (first ++ [final]) -> length first = last ->
  (length (exchanges (first ++ [final]) ++ rest) < fuel)%nat ->
  msg <$> outbox (network (sign_message fuel m cc).1) = (msg <$> sent) ++ (seq 0 (S (S last)) ≫= request).
Proof.
  intros Hb Ha Hl Hf. assert (answered first) as Hfirst.
  { intros j x Hx. apply Ha. by apply lookup_app_l_Some. }
  assert (final ≡ₚ nodes ≫= answer last) as Hfin.
  { apply Ha. rewrite lookup_app_r, Hl, Nat.sub_diag by lia. done. }
  destruct (segment_nonces last final) as (Hseg & Ht & _); [done..|].
  destruct (answers_add_up final (nodes ≫= answer (S last))) as (agg & _ & _ & Hagg & _); [done..|].
  assert (stamped stamp <$> (exchanges (first ++ [final]) ++ rest) =
    concat (segment <$> first) ++ segment final ++ (stamped stamp <$> rest)) as Hlog.
  { rewrite fmap_app, stamped_exchanges by (rewrite length_app; simpl; lia).
    rewrite fmap_app, concat_app. simpl. by rewrite app_nil_r, <-app_assoc. }
  destruct (behind_fields _ _ _ Hb) as (Hk & Hnr & Hts & Hpk). destruct Hb as [Hcc Hb].
  destruct (even_rounds Hretry m (segment <$> first) (segment final) (stamped stamp <$> rest) sent fuel cc)
    as (n & out & He & Hp & Hout).
  - by rewrite Hpk.
  - rewrite Hts. apply segments_odd; [done|lia].
  - by rewrite Hts.
  - rewrite Ht. exact Hlast.
  - rewrite <-Hlog. exact Hb.
  - apply (f_equal length) in Hlog. rewrite length_fmap in Hlog. rewrite !length_app in *. lia.
  - rewrite (sign_message_sends fuel m cc _ agg (stamped stamp <$> rest) (sent ++ out) ltac:(by rewrite Hk) He).
    + rewrite seq_S, bind_app, requests_nonce, bind_cons, Nat.add_0_l, fmap_app, <-app_assoc by lia.
      rewrite Hout, length_fmap, Hl, Hnr. do 2 f_equal. unfold request. rewrite decide_False, decide_True by lia.
      rewrite Ht, Hcc. by destruct c.
    + rewrite <-Hagg, Hcc. by destruct c.
    + rewrite <-Hpk in Hsign. by destruct cc.
    + by rewrite network_set.
Qed.

Lemma exchanges_more segs1 segs2 : exists rest, exchanges (segs1 ++ segs2) = exchanges segs1 ++ rest.
Proof. unfold exchanges. rewrite imap_app, concat_app. by eexists. Qed.

Lemma coordinator_waits_signing segs e sent cc : behind (exchanges segs ++ e) sent cc -> answered segs -> (length segs <= S (S last))%nat ->
  e = [] \/ (exists q, e = request (length segs) ++ q /\ Forall is_quiet q /\ (length q < length nodes)%nat) ->
  (length (exchanges segs ++ e) < fuel)%nat ->
  msg <$> outbox (network (sign_message fuel m cc).1) = (msg <$> sent) ++ (seq 0 (S (length segs)) ≫= request).
Proof.
  intros Hb Ha Hl He Hf. destruct (decide (length segs <= last)%nat) as [Hle|Hgt]; [by eapply coordinator_waits_nonces|].
  destruct (lookup_lt_is_Some_2 segs last) as [final Hfinal]; [lia|].
  clear He. assert (length segs = S last \/ length segs = S (S last)) as Hn by lia.
  assert (seq 0 (S (length segs)) ≫= request = seq 0 (S (S last)) ≫= request) as ->.
  { destruct Hn as [->| ->]; [done|]. rewrite (seq_S (S (S last))), bind_app, bind_cons.
    assert (request (S (S last)) = []) as Hr by (unfold request; by rewrite !decide_False by lia).
    rewrite Nat.add_0_l, Hr. by rewrite app_nil_r. }
  rewrite <-(take_drop_middle segs last final Hfinal) in Ha, Hf, Hb.
  rewrite (cons_middle final), app_assoc in Ha, Hf, Hb.
  destruct (exchanges_more (take last segs ++ [final]) (drop (S last) segs)) as [rest Hrest].
  rewrite Hrest, <-app_assoc in Hf, Hb.
  eapply coordinator_waits_shares; [exact Hb|intros j x Hx; apply Ha; by apply lookup_app_l_Some|rewrite length_take; lia|done].
Qed.

(** *** All of them *)
Abbreviation room := ((2 * last + 5) * S (length nodes))%nat.

Lemma round_length hist : (length (next_round (parties nodes) sign_plan hist) <= S (length nodes))%nat.
Proof.
  unfold next_round, sign_plan. destruct (Nat.Even_or_Odd (length hist)) as [[j Hj]|[j Hj]].
  - rewrite (plan_request _ _ Hj). unfold request. repeat case_decide; simpl; lia.
  - rewrite (plan_answer _ j) by lia. destruct (answer_quiet j) as [_ Hl]. lia.
Qed.

Lemma hist_length hist : rounds (parties nodes) sign_plan hist ->
  (length (concat hist) <= length hist * S (length nodes))%nat.
Proof.
  induction 1 as [|hist seg _ IH _ Hp]; [done|]. apply Permutation_length in Hp. pose proof (round_length hist).
  rewrite concat_app, !length_app. simpl. rewrite app_nil_r. lia.
Qed.

Lemma log_bound hist q : rounds (parties nodes) sign_plan hist ->
  (length q <= length (next_round (parties nodes) sign_plan hist))%nat ->
  (length (concat hist ++ q) <= room)%nat.
Proof.
  intros Hr Hq. pose proof (round_length hist). pose proof (hist_length hist Hr).
  destruct (rounds_exchanges hist Hr) as (segs & _ & Hl & Hn). rewrite length_app.
  assert (length hist <= 2 * last + 4)%nat as Hh by lia.
  pose proof (Nat.mul_le_mono_r _ _ (S (length nodes)) Hh). lia.
Qed.

Lemma unfinished_length hist q : unfinished (parties nodes) sign_plan hist q ->
  (length q <= length (next_round (parties nodes) sign_plan hist))%nat.
Proof.
  intros [->|(q' & _ & Hp)]; [simpl; lia|]. apply Permutation_length in Hp. rewrite length_app in Hp. lia.
Qed.

(** A part of the log, as exchanges of which the last one may be in progress. *)
Lemma log_shape hist q : rounds (parties nodes) sign_plan hist -> unfinished (parties nodes) sign_plan hist q ->
  exists segs, answered segs /\ (length segs <= S (S last))%nat /\
    (length hist = (2 * length segs)%nat /\ concat hist ++ q = exchanges segs \/
     length hist = S (2 * length segs) /\ (length segs <= S last)%nat /\ Forall is_quiet q /\ (length q < length nodes)%nat /\
     concat hist ++ q = exchanges segs ++ request (length segs) ++ q).
Proof.
  intros Hr Hq. destruct (rounds_exchanges hist Hr) as (segs & Ha & Hl & [[Hn Hc]|(Hn & Hl' & Hc)]);
    exists segs; (split; [done|]); (split; [done|]).
  - left. rewrite (unfinished_request hist q _ Hn Hq), app_nil_r. done.
  - right. destruct (unfinished_answer hist q _ Hn Hq). rewrite Hc, <-app_assoc. done.
Qed.

Lemma coordinator_behind hist q sent cc : rounds (parties nodes) sign_plan hist ->
  unfinished (parties nodes) sign_plan hist q -> behind (concat hist ++ q) sent cc ->
  msg <$> outbox (network (sign_message fuel m cc).1) = (msg <$> sent) ++ due sign_plan hist TheCoordinator.
Proof.
  intros Hr Hq Hb. pose proof (log_bound hist q Hr (unfinished_length _ _ Hq)) as Hroom.
  destruct (log_shape hist q Hr Hq) as (segs & Ha & Hl & Hshape). rewrite (due_sign (length segs)) by tauto.
  destruct Hshape as [[Hn Hc]|(Hn & Hl' & Hquiet & Hlen & Hc)]; rewrite Hc in *.
  - apply (coordinator_waits_signing segs []); rewrite ?app_nil_r; [done..|by left|lia].
  - apply (coordinator_waits_signing segs (request (length segs) ++ q)); [done..| |lia]. right. by exists q.
Qed.

Lemma signer_part hist q k s : rounds (parties nodes) sign_plan hist -> unfinished (parties nodes) sign_plan hist q ->
  nodes !! k = Some s -> (SigningRound.run (concat hist ++ q) s).2 = Ok (due sign_plan hist (TheSigner k)).
Proof.
  intros Hr Hq Hk. apply list_elem_of_lookup_2 in Hk as Hs.
  destruct (log_shape hist q Hr Hq) as (segs & Ha & Hl & Hshape). rewrite (due_sign (length segs)), Hk by tauto.
  destruct Hshape as [[Hn ->]|(Hn & Hl' & Hquiet & Hlen & ->)].
  - rewrite decide_True by done. by rewrite (signer_exchanges segs s Hs (segs_quiet segs Ha) Hl).
  - rewrite decide_False by lia. rewrite <-exchanges_snoc, signer_exchanges; [|done| |].
    + by rewrite length_app, Nat.add_1_r.
    + apply Forall_app. split; [by apply segs_quiet|by constructor].
    + rewrite length_app. simpl. lia.
Qed.

Lemma signing_waits p : waits (parties nodes) signing_after sign_plan p.
Proof.
  intros hist q Hr Hq. destruct p as [|k]; cbn [signing_after].
  - exact (coordinator_behind hist q [] _ Hr Hq (coordinator_on_behind _)).
  - destruct (nodes !! k) as [s|] eqn:Hs; [unfold answers; by rewrite (signer_part hist q k s)|].
    destruct (log_shape hist q Hr Hq) as (segs & _ & _ & Hshape). rewrite (due_sign (length segs)), Hs by tauto. done.
Qed.

(** ** The end *)
Lemma last_exchanges hist : rounds (parties nodes) sign_plan hist -> next_round (parties nodes) sign_plan hist = [] ->
  exists first x y, length first = last /\ answered (first ++ [x; y]) /\ concat hist = exchanges (first ++ [x; y]).
Proof.
  intros Hr Hnil. destruct (rounds_exchanges hist Hr) as (segs & Ha & Hl & [[Hn Hc]|(Hn & Hl' & Hc)]).
  - unfold next_round, sign_plan in Hnil. rewrite (plan_request _ _ Hn) in Hnil.
    assert (length segs = S (S last)) as Hlen.
    { unfold request in Hnil. repeat case_decide; [done|done|lia]. }
    exists (take last segs). destruct (drop last segs) as [|x [|y [|z l]]] eqn:Hd;
      apply (f_equal length) in Hd as Hd'; rewrite length_drop in Hd'; simpl in Hd'; try lia.
    exists x, y. rewrite <-Hd, take_drop. rewrite length_take. split_and!; [lia|done|done].
  - exfalso. unfold next_round, sign_plan in Hnil. rewrite (plan_answer _ _ Hn) in Hnil. pose proof some_nodes.
    destruct nodes as [|s l]; [simpl in *; lia|]. rewrite bind_cons in Hnil. unfold answer in Hnil at 1.
    repeat case_decide; [done|done|lia].
Qed.

Lemma shares_segment x y : x ≡ₚ nodes ≫= answer last -> y ≡ₚ nodes ≫= answer (S last) ->
  sigs_segment (dom (answer_table last)) (stamped stamp <$> MSignShareRequest req :: y).
Proof.
  intros Hx Hy. rewrite answer_shares in Hy.
  destruct (omap_of MSignShareResponse sigs_of (fun r => r) y _ (fun _ _ => eq_refl) Hy) as [Ho Hsome].
  rewrite list_fmap_id in Ho.
  unfold sigs_segment. change (omap sigs_of (stamped stamp <$> MSignShareRequest req :: y)) with (omap sigs_of (stamped stamp <$> y)).
  assert (ssresp_signer_id <$> (share_answer m req <$> nodes_at (S last)) = node_id <$> nodes_at last) as Hids.
  { rewrite nodes_at_S, <-(after_nonces_ids (nodes_at last)). by rewrite <-list_fmap_compose. }
  split; [|split].
  - apply (closed_by_app sigs_of [stamped stamp (MSignShareRequest req)]); [|done].
    intros ->%fmap_nil_inv. apply Permutation_length in Hy. rewrite !length_fmap in Hy. pose proof some_nodes. simpl in Hy. lia.
  - rewrite Ho, Hids. apply nodes_at_ids.
  - rewrite Ho, Hids. unfold answer_table. rewrite dom_list_to_map_L. f_equal. by rewrite <-list_fmap_compose.
Qed.

Lemma coordinator_signs first x y sent cc : behind (exchanges (first ++ [x; y])) sent cc ->
  length first = last -> answered (first ++ [x; y]) -> (length (exchanges (first ++ [x; y])) < fuel)%nat ->
  exists c' sig proof, sign_message fuel m cc = (c', Ok (sig, proof)) /\
    schnorr_verify proof (point_x (aggregate_public_key c)) m = true.
Proof.
  intros Hbehind Hl Ha Hf. destruct (behind_fields _ _ _ Hbehind) as (_ & _ & Hts & _). destruct Hbehind as [Hcc Hb]. assert (answered first) as Hfirst.
  { intros j z Hz. apply Ha. by apply lookup_app_l_Some. }
  assert (x ≡ₚ nodes ≫= answer last /\ y ≡ₚ nodes ≫= answer (S last)) as [Hx Hy].
  { split; apply Ha; rewrite lookup_app_r by lia; [by replace (last - length first)%nat with 0%nat by lia|].
    by replace (S last - length first)%nat with 1%nat by lia. }
  destruct (segment_nonces last x) as (Hseg & Ht & _); [done..|].
  destruct (answers_add_up x y Hx Hy) as (agg & sig & proof & Hagg & Hsig & Hproof & Hv).
  assert (stamped stamp <$> exchanges (first ++ [x; y]) =
    concat (segment <$> first) ++ segment x ++ (stamped stamp <$> MSignShareRequest req :: y) ++ []) as Hlog.
  { rewrite (cons_middle x first [y]), app_assoc, exchanges_snoc, !fmap_app, stamped_exchanges by (rewrite length_app; simpl; lia).
    rewrite fmap_app, concat_app. simpl concat. rewrite !app_nil_r, <-app_assoc. do 2 f_equal.
    rewrite <-fmap_app. f_equal. rewrite length_app, Hl, Nat.add_1_r. unfold request.
    rewrite decide_False by lia. by rewrite decide_True. }
  destruct (sign_completes Hretry m (segment <$> first) (segment x) (stamped stamp <$> MSignShareRequest req :: y) [] sent
    fuel cc agg sig proof) as (n & out & Hr & _); rewrite ?Ht.
  - rewrite Hcc. by destruct c.
  - rewrite Hcc. by destruct c.
  - rewrite Hts. apply segments_odd; [done|lia].
  - by rewrite Hts.
  - exact Hlast.
  - by apply (shares_segment x).
  - rewrite <-Hagg, Hcc. by destruct c.
  - rewrite <-Hsig, Hcc. by destruct c.
  - exact Hproof.
  - rewrite <-Hkey in Hv. rewrite <-Hv, Hcc. by destruct c.
  - rewrite <-Hlog. exact Hb.
  - apply (f_equal length) in Hlog. rewrite length_fmap, app_nil_r in Hlog. lia.
  - eexists _, sig, proof. split; [exact Hr|]. by rewrite Hkey.
Qed.

(** What everyone has done after the last round. *)
Lemma signing_ends hist : rounds (parties nodes) sign_plan hist -> next_round (parties nodes) sign_plan hist = [] ->
  (forall sent cc, behind (concat hist) sent cc -> exists c' sig proof, sign_message fuel m cc = (c', Ok (sig, proof)) /\
     schnorr_verify proof (point_x (aggregate_public_key c)) m = true) /\
  forall node, node ∈ nodes -> SigningRound.run (concat hist) node =
    (after_rounds (S last) node,
     Ok ((MNonceResponse <$> nonce_answers nr (S last) node) ++
         [MSignShareResponse (share_answer m req (after_rounds (S last) node))])).
Proof.
  intros Hr Hn. pose proof (log_bound hist [] Hr ltac:(simpl; lia)) as Hroom. rewrite app_nil_r in Hroom.
  destruct (last_exchanges hist Hr Hn) as (first & x & y & Hlen & Ha & Hc). rewrite Hc in *. split.
  - intros sent cc Hb. eapply coordinator_signs; [exact Hb|done|done|lia].
  - intros node Hnode. assert (length (first ++ [x; y]) = S (S last)) as Hsegs by (rewrite length_app; simpl; lia).
    rewrite (signer_exchanges _ _ Hnode (segs_quiet _ Ha)), Hsegs, Nat.min_r by lia.
    rewrite nonce_answers_seq, (seq_S (S last)), bind_app, bind_cons, Nat.add_0_l by lia.
    unfold answer at 2. rewrite decide_False by lia. by rewrite decide_True.
Qed.

(** Everyone has read everything and has nothing to send, and a signature that
    verifies is there. *)
Definition signed (s : Shared (M := MessageTypes) (I := Party)) : Prop :=
  (forall p, p ∈ parties nodes -> read s p = length (log s) /\ sent s p = length (signing_after p (log s))) /\
  (exists c' sig proof, sign_message fuel m (coordinator_on stamp c (log s)) = (c', Ok (sig, proof)) /\
     schnorr_verify proof (point_x (aggregate_public_key c)) m = true) /\
  forall node, node ∈ nodes ->
    SigningRound.run (log s) node =
      (after_rounds (S last) node,
       Ok ((MNonceResponse <$> nonce_answers nr (S last) node) ++
           [MSignShareResponse (share_answer m req (after_rounds (S last) node))])).

(** C3: whatever order the relay's clients are scheduled in, a signing round ends,
    and it ends well.  A coordinator and signers that share its key read the log
    and send to it one message at a time.  When the sums of the nonces that the
    signers draw get an even y after [last] odd ones, then in every run there
    comes a moment when everyone has read the whole log and has nothing left to
    send; then the coordinator has returned a proof that verifies under its key,
    and every signer has answered each of the [last + 1] requests for nonces and
    the one for signature shares. *)
Theorem sign_inevitable : inevitable (step (parties nodes) signing_after) signed start.
Proof.
  eapply inevitable_weaken.
  - apply (rounds_end (parties nodes) signing_after sign_plan (parties_NoDup nodes)) with (bound := room).
    + intros p _. apply signing_waits.
    + intros hist Hr. by apply log_bound.
  - intros s (hist & Hr & Hn & Hl & Hall). split; [exact Hall|]. destruct (signing_ends hist Hr Hn) as [Hc Hs].
    rewrite Hl. split; [|exact Hs]. exact (Hc [] _ (coordinator_on_behind _)).
Qed.
End System.
End AsyncSign.

Module AsyncSignWitness.
Import ToyCrypto.
Import ScriptNet.
Import Toy.
Import DkgToy.
Import SignToy.
Import DkgRoundWitness.
Import DkgSystemWitness.
Import SignSystemWitness.
#[local] Instance four_attempts : Backoff := 4%nat.

Definition ready : list (SigningRound * Rng) := after_dkg <$> [node1; node2].
Definition keyed : Coordinator (N := Script) := with_key 12 (share_table 0 [node1; node2]) toy_coordinator.

Lemma ready_group : signing_group ready (polys keyed) (FrostCoordinator.total_keys keyed)
  (FrostCoordinator.threshold keyed) (FrostCoordinator.total_signers keyed).
Proof.
  replace (polys keyed) with (btree_values (commitment_table 0 [node1; node2])).
  2: { symmetry. exact (table_polys [node1; node2] 3 toy_cluster zero). }
  apply (dkg_group [node1; node2] 3 toy_cluster zero shares ends private_log toy_log); [by_compute|run|by_compute].
Qed.

Lemma sign_inevitable_witness :
  inevitable (step (parties ready) (signing_after AsyncToy.no_stamp 30 [1; 2] keyed ready))
    (fun s => exists c' sig proof,
       sign_message 30 [1; 2] (coordinator_on AsyncToy.no_stamp keyed (log s)) = (c', Ok (sig, proof)) /\
       schnorr_verify (WstsAggregator := toy_aggregator) proof 12 [1; 2] = true)
    start.
Proof.
  eapply inevitable_weaken.
  - refine (sign_inevitable _ AsyncToy.no_stamp 30 [1; 2] keyed ready 1 ready_group _ _ _ _ _ _ _).
    + done.
    + by eexists.
    + run.
    + by vm_compute.
    + run.
    + intros [|j] Hj; [run|lia].
    + run.
    + apply Nat.ltb_lt. run.
  - intros s (_ & (c' & sg & proof & Hr & Hv) & _). by exists c', sg, proof.
Defined.
End AsyncSignWitness.
