(* ===== verification/AsyncRestart.v ===== *)
(** * Key generations that start again

    The coordinator starts a key generation again when the sum of the signers'
    commitments has an odd y.  The signers have then ended the public phase, and
    reset their polynomials; the next attempt is a key generation from the state
    they are in.  This file puts any number of odd attempts in front of the rounds
    of [AsyncDkg] (and of [AsyncSession]): every run ends, with the key of the
    first even attempt. *)
From S2P Require Import Prelude Crypto FrostUtil FrostConfig Messages Net FrostCoordinator CoordinatorRound SigningRound DkgRound DkgSystem Barrier AsyncDkg.
Import ScriptNet.

Section AsyncRestart.
Context {CP : P256k1} {WP : Wsts} {WA : WstsAggregator} {BP : BuildProfile} {CL : P256k1Laws}
  {WL : WstsLaws} {BO : Backoff}.
Abbreviation ST := (SigningRound * Rng)%type.
Implicit Types (s : ST) (l : list MessageTypes) (hist : list (list MessageTypes)) (nodes : list ST).

(** ** The signers after an attempt

    What the next commitments of a signer depend on, and what an attempt makes of it. *)
Definition source s : WstsSigner * Rng := (frost_signer (signer s.1), s.2).
Definition next_source (w : WstsSigner * Rng) : WstsSigner * Rng := (begun w.1 w.2, rng_begun w.1 w.2).
(** A signer whose polynomials have been reset [i] times. *)
Definition later (i : nat) s : ST :=
  let '(w, rng) := Nat.iter i next_source (source s) in (set_frost_signer w s.1, rng).

Lemma source_later (i : nat) s : source (later i s) = Nat.iter i next_source (source s).
Proof. unfold later. destruct (Nat.iter _ _ _) as [w rng]. destruct s as [self r]. unfold source. simpl. by destruct self. Qed.

Lemma share_table_source (d : Z) (f g : ST -> ST) nodes :
  (forall s, s ∈ nodes -> source (f s) = source (g s)) ->
  share_table d (f <$> nodes) = share_table d (g <$> nodes).
Proof.
  intros Hfg. unfold share_table. do 2 f_equal. rewrite !fmap_bind. apply bind_ext_in. intros s Hs.
  specialize (Hfg s Hs). unfold source in Hfg. injection Hfg as Hw Hr.
  unfold public_shares, polys_of. simpl. by rewrite Hw, Hr.
Qed.

Lemma group_key_source (d : Z) (f g : ST -> ST) nodes :
  (forall s, s ∈ nodes -> source (f s) = source (g s)) ->
  group_key d (f <$> nodes) = group_key d (g <$> nodes).
Proof. intros Hfg. unfold group_key. by rewrite (share_table_source d f g nodes Hfg). Qed.

Section Attempt.
Context (c : Coordinator (N := Script)).
Abbreviation d := (wrapping_add 64 (current_dkg_id c) 1).
Abbreviation b := {| db_dkg_id := d |}.

(** The log of an attempt: the first three rounds of a key generation. *)
Definition attempt nodes l : Prop := exists hist, dkg_hist c nodes hist /\ length hist = 3%nat /\ l = concat hist.

Lemma attempt_public nodes l : attempt nodes l -> exists log1,
  l = MDkgBegin b :: log1 /\ mixes log1 (nodes ≫= answers [MDkgBegin b]).
Proof.
  intros (hist & Hh & Hl & ->). destruct hist as [|h0 [|shares [|ends [|h3 hist]]]]; try done.
  destruct Hh as (-> & Hs & He & _). exists (shares ++ ends). split; [simpl; by rewrite app_nil_r|].
  apply log_mixes; [done|]. by apply (quiet_ends nodes (fun s => public_end d s.1)).
Qed.

(** A signer after an attempt. *)
Lemma attempt_node nodes (total : Z) l s : cluster nodes total -> attempt nodes l -> s ∈ nodes ->
  SigningRound.run l s = (after l s, Ok (answers l s)) /\
  static (after l s).1 = static s.1 /\ state (after l s).1 = DkgPrivateDistribute /\
  source (after l s) = next_source (source s).
Proof.
  intros Hc Ha Hs. destruct (attempt_public nodes l Ha) as (log1 & -> & H1).
  destruct (public_node nodes total Hc b log1 H1 s Hs) as (Hr & Hst & Hstate & Hw & Hrng).
  split_and!; [done..|]. unfold source, next_source. cbn [fst snd]. by rewrite Hw, Hrng.
Qed.

Lemma attempt_cluster nodes (total : Z) l : cluster nodes total -> attempt nodes l -> cluster (after l <$> nodes) total.
Proof. intros Hc (log1 & -> & H1)%attempt_public. by apply public_cluster. Qed.

(** ** Odd attempts in a row *)
Inductive attempts nodes : nat -> list MessageTypes -> Prop :=
  | no_attempt : attempts nodes 0 []
  | next_attempt i pre l : attempts nodes i pre -> attempt (after pre <$> nodes) l -> attempts nodes (S i) (pre ++ l).

Lemma run_after pre l s : SigningRound.run pre s = (after pre s, Ok (answers pre s)) ->
  SigningRound.run (pre ++ l) s =
    (out ← SigningRound.run l; mret (answers pre s ++ out)) (after pre s).
Proof. intros Hr. by rewrite run_app, M_bind_eq, Hr. Qed.

Lemma attempts_nodes nodes (total : Z) (i : nat) pre : cluster nodes total -> attempts nodes i pre ->
  cluster (after pre <$> nodes) total /\
  forall s, s ∈ nodes -> SigningRound.run pre s = (after pre s, Ok (answers pre s)) /\
    static (after pre s).1 = static s.1 /\ source (after pre s) = source (later i s).
Proof.
  intros Hc Ha. induction Ha as [|i pre l Ha [IHc IH] Hl].
  - rewrite (list_fmap_id nodes : after [] <$> nodes = nodes). split; [done|]. intros s Hs. by rewrite source_later.
  - assert (forall s, s ∈ nodes -> SigningRound.run (pre ++ l) s =
      (after l (after pre s), Ok (answers pre s ++ answers l (after pre s)))) as Hrun.
    { intros s Hs. destruct (IH s Hs) as (Hr & _). rewrite (run_after pre l s Hr), M_bind_eq.
      destruct (attempt_node _ total l (after pre s) IHc Hl) as (Hr' & _); [by apply list_elem_of_fmap_2|]. by rewrite Hr'. }
    assert (forall s, s ∈ nodes -> after (pre ++ l) s = after l (after pre s)) as Hafter.
    { intros s Hs. unfold after at 1. by rewrite Hrun. }
    split.
    + assert (after (pre ++ l) <$> nodes = after l <$> (after pre <$> nodes)) as ->; [|by apply attempt_cluster].
      rewrite <-list_fmap_compose. apply list_fmap_ext. intros k s Hs. by eapply Hafter, list_elem_of_lookup_2.
    + intros s Hs. rewrite Hafter by done. unfold answers at 1. rewrite Hrun by done.
      destruct (attempt_node _ total l (after pre s) IHc Hl) as (_ & Hst & _ & Hsrc); [by apply list_elem_of_fmap_2|].
      destruct (IH s Hs) as (_ & Hst0 & Hsrc0). split; [done|]. split; [congruence|].
      rewrite Hsrc, Hsrc0, !source_later. done.
Qed.

Lemma after_answers pre l s : SigningRound.run pre s = (after pre s, Ok (answers pre s)) -> answers l (after pre s) <> [] ->
  after (pre ++ l) s = after l (after pre s) /\ answers (pre ++ l) s = answers pre s ++ answers l (after pre s).
Proof.
  intros Hr Hne. pose proof (run_after pre l s Hr) as Hrun. rewrite M_bind_eq in Hrun.
  change (after (pre ++ l) s) with (SigningRound.run (pre ++ l) s).1.
  unfold answers at 1. rewrite Hrun. revert Hne. generalize (after pre s) as s1. intros s1. unfold after, answers.
  by destruct (SigningRound.run l s1) as [st [out| | |]].
Qed.

Lemma after_app pre l nodes : (forall s, s ∈ nodes -> SigningRound.run pre s = (after pre s, Ok (answers pre s))) ->
  after (pre ++ l) <$> nodes = after l <$> (after pre <$> nodes).
Proof.
  intros Hr. rewrite <-list_fmap_compose. apply list_fmap_ext. intros k s Hs%list_elem_of_lookup_2.
  unfold after at 1. simpl. rewrite (run_after pre l s (Hr s Hs)), M_bind_eq. unfold after at 2.
  by destruct (SigningRound.run l (after pre s)) as [? [| | |]].
Qed.

Lemma ids_after nodes (total : Z) (i : nat) pre : cluster nodes total -> attempts nodes i pre ->
  (fun s => signer_id (signer s.1)) <$> (after pre <$> nodes) = (fun s => signer_id (signer s.1)) <$> nodes.
Proof.
  intros Hc Ha. rewrite <-list_fmap_compose. apply list_fmap_ext. intros k s Hs%list_elem_of_lookup_2. simpl.
  destruct (attempts_nodes nodes total i pre Hc Ha) as [_ Hn]. by apply static_ids, Hn.
Qed.
End Attempt.

(** ** A coordinator's program on the log

    A session of a coordinator that generates a key and goes on with [K], with
    signers that are in the given states: the rounds [P] are what everyone sends,
    they have room in [room] messages, at the end [E] holds of the log and [G] of
    the coordinator's key generation. *)
Section Sessions.
Context (stamp : MessageTypes -> bytes) (fuel : nat) (c : Coordinator (N := Script)).
Context (K : M (Coordinator (N := Script)) CoordinatorError unit).
Context (G : Coordinator (N := Script) * res CoordinatorError Point -> Prop).
Abbreviation d := (wrapping_add 64 (current_dkg_id c) 1).

Definition program : M (Coordinator (N := Script)) CoordinatorError unit := run_distributed_key_generation fuel ;; K.

Definition reacts nodes (p : Party) l : list MessageTypes :=
  match p with
  | TheCoordinator => msg <$> outbox (network (program (coordinator_on stamp c l)).1)
  | TheSigner k => match nodes !! k with Some s => answers l s | None => [] end
  end.

Record session nodes (P : list (list MessageTypes) -> Party -> list MessageTypes) (room : nat)
    (E : list MessageTypes -> Prop) : Prop := {
  ss_coordinator : forall hist q sent cc, rounds (parties nodes) P hist -> unfinished (parties nodes) P hist q ->
    at_start stamp c (concat hist ++ q) sent cc ->
    msg <$> outbox (network (program cc).1) = (msg <$> sent) ++ due P hist TheCoordinator;
  ss_signer : forall hist q k s, rounds (parties nodes) P hist -> unfinished (parties nodes) P hist q ->
    nodes !! k = Some s -> (SigningRound.run (concat hist ++ q) s).2 = Ok (due P hist (TheSigner k));
  ss_room : forall hist, rounds (parties nodes) P hist ->
    (length (concat hist ++ next_round (parties nodes) P hist) <= room)%nat;
  ss_log : forall hist, rounds (parties nodes) P hist -> next_round (parties nodes) P hist = [] -> E (concat hist);
  ss_key : forall hist sent cc, rounds (parties nodes) P hist -> next_round (parties nodes) P hist = [] ->
    at_start stamp c (concat hist) sent cc -> G (run_distributed_key_generation fuel cc)
}.

Lemma session_inevitable_of nodes P room E : session nodes P room E ->
  inevitable (step (parties nodes) (reacts nodes))
    (fun x => (forall p, p ∈ parties nodes -> read x p = length (log x) /\ sent x p = length (reacts nodes p (log x))) /\
       E (log x) /\ G (run_distributed_key_generation fuel (coordinator_on stamp c (log x)))) start.
Proof.
  intros Hs. eapply inevitable_weaken.
  - apply (rounds_end (parties nodes) (reacts nodes) P (parties_NoDup nodes)) with (bound := room); [|apply Hs].
    intros [|k] Hk hist q Hr Hq; cbn [reacts].
    + exact (ss_coordinator _ _ _ _ Hs hist q [] _ Hr Hq (coordinator_on_start stamp c _)).
    + destruct (nodes !! k) as [s|] eqn:Hn.
      * unfold answers. by rewrite (ss_signer _ _ _ _ Hs hist q k s).
      * exfalso. unfold parties in Hk. apply elem_of_cons in Hk as [[=]|(k' & [= <-] & Hk)%list_elem_of_fmap].
        apply elem_of_seq in Hk. apply lookup_ge_None in Hn. lia.
  - intros x (hist & Hr & Hn & -> & Hall). split; [exact Hall|]. split; [by apply Hs|].
    exact (ss_key _ _ _ _ Hs hist [] _ Hr Hn (coordinator_on_start stamp c _)).
Qed.

Lemma session_weaken nodes P room (E E' : list MessageTypes -> Prop) : session nodes P room E ->
  (forall l, E l -> E' l) -> session nodes P room E'.
Proof. intros [H1 H2 H3 H4 H5] HE. split; try done. intros hist Hr Hn. by apply HE, H4. Qed.

Lemma parties_after nodes l : parties (after l <$> nodes) = parties nodes.
Proof. unfold parties. by rewrite length_fmap. Qed.

Lemma unfinished_room nodes P room E hist q : session nodes P room E -> rounds (parties nodes) P hist ->
  unfinished (parties nodes) P hist q -> (length (concat hist ++ q) <= room)%nat.
Proof.
  intros Hs Hr Hq. etrans; [|exact (ss_room _ _ _ _ Hs hist Hr)]. rewrite !length_app.
  destruct Hq as [->|(more & _ & Hp)]; [simpl; lia|]. apply Permutation_length in Hp. rewrite length_app in Hp. lia.
Qed.

(** *** Another attempt in front *)
Section Again.
Context (nodes : list ST) (total : Z) (Hc : cluster nodes total).
Context (Hids : (fun s => signer_id (signer s.1)) <$> nodes ≡ₚ seqZ 1 (FrostCoordinator.total_signers c)).
Context (Hretry : backoff_attempts <> O).
Context (Hsign : forall h, is_Some (ecdsa_sign h (co_network_private_key c))).
Context (Hodd : point_has_even_y (group_key d nodes) = false).
Context (Q : list MessageTypes -> list (list MessageTypes) -> Party -> list MessageTypes) (room : nat)
  (E : list MessageTypes -> Prop).
Context (HQ : forall l, attempt c nodes l -> session (after l <$> nodes) (Q l) room (fun l' => E (l ++ l'))).
Abbreviation dkg_room := (2 * Z.to_nat total + 2 * length nodes + 2)%nat.
Context (Hfuel : (dkg_room + room < fuel)%nat).
Abbreviation P := (in_sequence (plan c nodes) Q 3).

Lemma again_next h1 h2 : length h1 = 3%nat ->
  next_round (parties nodes) P (h1 ++ h2) = next_round (parties nodes) (Q (concat h1)) h2.
Proof. intros Hl. unfold next_round. by rewrite sequence_then. Qed.

Lemma again_first hist : (length hist < 3)%nat ->
  next_round (parties nodes) P hist = next_round (parties nodes) (plan c nodes) hist.
Proof. intros Hl. unfold next_round. by rewrite sequence_first. Qed.

(** The attempt is over, and the next session under way. *)
Lemma again_rounds hist : rounds (parties nodes) P hist ->
  (length hist < 3)%nat /\ rounds (parties nodes) (plan c nodes) hist \/
  exists h1 h2, hist = h1 ++ h2 /\ length h1 = 3%nat /\ rounds (parties nodes) (plan c nodes) h1 /\
    attempt c nodes (concat h1) /\ rounds (parties (after (concat h1) <$> nodes)) (Q (concat h1)) h2 /\
    (length (concat h1) <= dkg_room)%nat.
Proof.
  intros [?|(h1 & h2 & -> & Hl & Hr1 & Hr2)]%rounds_sequence; [by left|right]. exists h1, h2. rewrite parties_after.
  split_and!; try done.
  - exists h1. split_and!; [by apply rounds_dkg|done..].
  - pose proof (hist_bound fuel c nodes total Hc Hretry ltac:(lia) h1 Hr1) as Hb. rewrite length_app in Hb. lia.
Qed.

Lemma again_before h1 p : length h1 = 3%nat -> rounds (parties nodes) (plan c nodes) h1 ->
  match p with
  | TheCoordinator => before (plan c nodes) h1 p = [MDkgBegin {| db_dkg_id := d |}]
  | TheSigner k => before (plan c nodes) h1 p = due (plan c nodes) h1 p
  end.
Proof.
  intros Hl Hr. destruct h1 as [|x0 [|x1 [|x2 [|x3 h1]]]]; try done. destruct p as [|k]; [done|].
  unfold due. simpl. by case_match; rewrite ?app_nil_r.
Qed.

Lemma again_program cc cc' : run_distributed_key_generation fuel cc = run_distributed_key_generation fuel cc' ->
  program cc = program cc'.
Proof. intros Heq. unfold program. by rewrite !M_bind_eq, Heq. Qed.

Lemma again_end hist : rounds (parties nodes) P hist -> next_round (parties nodes) P hist = [] ->
  exists h1 h2, hist = h1 ++ h2 /\ attempt c nodes (concat h1) /\
    rounds (parties (after (concat h1) <$> nodes)) (Q (concat h1)) h2 /\
    next_round (parties (after (concat h1) <$> nodes)) (Q (concat h1)) h2 = [] /\
    length h1 = 3%nat /\ rounds (parties nodes) (plan c nodes) h1.
Proof.
  intros Hr Hn. destruct (again_rounds hist Hr) as [[Hl Hr1]|(h1 & h2 & -> & Hl & Hr1 & Ha & Hr2 & _)].
  - rewrite again_first in Hn by done.
    destruct (last_hist fuel c nodes total Hc Hretry ltac:(lia) hist Hr1 Hn) as (? & ? & ? & ? & -> & _). simpl in Hl. lia.
  - rewrite again_next in Hn by done. exists h1, h2. by rewrite parties_after in *.
Qed.

Lemma session_again : session nodes P (dkg_room + room) E.
Proof.
  split.
  - intros hist q sent cc Hr Hq Hcc. destruct (again_rounds hist Hr) as [[Hl Hr1]|(h1 & h2 & -> & Hl & Hr1 & Ha & Hr2 & Hb)].
    + rewrite due_first by done. unfold unfinished in Hq. rewrite again_first in Hq by done.
      destruct (coordinator_public stamp fuel c nodes total Hc Hids Hretry Hsign ltac:(lia) hist q sent cc Hr1 Hq Hl Hcc) as [<- Hu].
      unfold program. rewrite M_bind_eq. unfold undone in Hu.
      by destruct (run_distributed_key_generation _ _) as [c1 [key| | |]]; [destruct (Hu key)|..].
    + rewrite due_then, (again_before h1 TheCoordinator) by done. unfold unfinished in Hq. rewrite again_next in Hq by done.
      rewrite concat_app, <-app_assoc in Hcc. rewrite <-(parties_after nodes (concat h1)) in Hq.
      destruct (coordinator_again stamp fuel c nodes total Hc Hids Hretry Hsign h1 (concat h2 ++ q) sent cc)
        as (cc' & sg & Heq & Hcc'); [by apply rounds_dkg|done|done| |done|].
      { pose proof (unfinished_room _ _ _ _ h2 q (HQ _ Ha) Hr2 Hq). rewrite length_app. lia. }
      rewrite (again_program _ _ Heq), (ss_coordinator _ _ _ _ (HQ _ Ha) h2 q _ cc' Hr2 Hq Hcc').
      by rewrite fmap_app, <-app_assoc.
  - intros hist q k s Hr Hq Hk. destruct (again_rounds hist Hr) as [[Hl Hr1]|(h1 & h2 & -> & Hl & Hr1 & Ha & Hr2 & Hb)].
    + rewrite due_first by done. unfold unfinished in Hq. rewrite again_first in Hq by done.
      exact (dkg_signer fuel c nodes total Hc Hretry ltac:(lia) hist q k s Hr1 Hq Hk).
    + rewrite due_then, (again_before h1 (TheSigner k)) by done. unfold unfinished in Hq. rewrite again_next in Hq by done.
      rewrite <-(parties_after nodes (concat h1)) in Hq.
      pose proof (dkg_signer fuel c nodes total Hc Hretry ltac:(lia) h1 [] k s Hr1 (or_introl eq_refl) Hk) as Hrun.
      rewrite app_nil_r in Hrun. apply list_elem_of_lookup_2 in Hk as Hs.
      destruct (attempt_node c nodes total _ s Hc Ha Hs) as (Hr' & _). rewrite Hr' in Hrun. injection Hrun as <-.
      rewrite concat_app, <-app_assoc, (run_after _ _ _ Hr'), M_bind_eq.
      pose proof (ss_signer _ _ _ _ (HQ _ Ha) h2 q k (after (concat h1) s) Hr2 Hq) as Hrest.
      rewrite list_lookup_fmap, Hk in Hrest. specialize (Hrest eq_refl).
      destruct (SigningRound.run (concat h2 ++ q) (after (concat h1) s)) as [st r]. simpl in Hrest. by subst r.
  - intros hist Hr. destruct (again_rounds hist Hr) as [[Hl Hr1]|(h1 & h2 & -> & Hl & Hr1 & Ha & Hr2 & Hb)].
    + rewrite again_first by done. pose proof (hist_bound fuel c nodes total Hc Hretry ltac:(lia) hist Hr1). lia.
    + rewrite again_next, concat_app, <-app_assoc, length_app by done.
      pose proof (ss_room _ _ _ _ (HQ _ Ha) h2 Hr2) as Hroom. rewrite parties_after in Hroom. lia.
  - intros hist Hr Hn. destruct (again_end hist Hr Hn) as (h1 & h2 & -> & Ha & Hr2 & Hn2 & _).
    rewrite concat_app. exact (ss_log _ _ _ _ (HQ _ Ha) h2 Hr2 Hn2).
  - intros hist sent cc Hr Hn Hcc. destruct (again_end hist Hr Hn) as (h1 & h2 & -> & Ha & Hr2 & Hn2 & Hl & Hr1).
    rewrite concat_app in Hcc.
    destruct (coordinator_again stamp fuel c nodes total Hc Hids Hretry Hsign h1 (concat h2) sent cc)
      as (cc' & sg & -> & Hcc'); [by apply rounds_dkg|done|done| |done|].
    { pose proof (hist_bound fuel c nodes total Hc Hretry ltac:(lia) h1 Hr1) as Hb. rewrite length_app in Hb.
      pose proof (ss_room _ _ _ _ (HQ _ Ha) h2 Hr2) as Hroom. rewrite length_app in *. lia. }
    exact (ss_key _ _ _ _ (HQ _ Ha) h2 _ cc' Hr2 Hn2 Hcc').
Qed.
End Again.

(** *** Any number of odd attempts *)
Section Restarts.
Context (nodes : list ST) (total : Z) (Hc : cluster nodes total).
Context (Hids : (fun s => signer_id (signer s.1)) <$> nodes ≡ₚ seqZ 1 (FrostCoordinator.total_signers c)).
Context (Hretry : backoff_attempts <> O).
Context (Hsign : forall h, is_Some (ecdsa_sign h (co_network_private_key c))).
Context (a : nat) (Hodd : forall i, (i < a)%nat -> point_has_even_y (group_key d (later i <$> nodes)) = false).
Context (base : list MessageTypes -> list (list MessageTypes) -> Party -> list MessageTypes) (room : nat)
  (E : list MessageTypes -> Prop).
Context (Hbase : forall pre, attempts c nodes a pre -> session (after pre <$> nodes) (base pre) room (fun l => E (pre ++ l))).
Abbreviation dkg_room := (2 * Z.to_nat total + 2 * length nodes + 2)%nat.

(** The rounds when [j] attempts are still to come after the log [pre]. *)
Fixpoint restarting (j : nat) (pre : list MessageTypes) : list (list MessageTypes) -> Party -> list MessageTypes :=
  match j with
  | O => base pre
  | S j => in_sequence (plan c (after pre <$> nodes)) (fun l => restarting j (pre ++ l)) 3
  end.

Lemma restarting_session (j i : nat) pre : (i + j)%nat = a -> attempts c nodes i pre ->
  (j * dkg_room + room < fuel)%nat ->
  session (after pre <$> nodes) (restarting j pre) (j * dkg_room + room) (fun l => E (pre ++ l)).
Proof.
  revert i pre. induction j as [|j IH]; intros i pre Hij Ha Hfuel.
  - rewrite Nat.add_0_r in Hij. subst i. by apply Hbase.
  - destruct (attempts_nodes c nodes total i pre Hc Ha) as [Hc' Hn].
    assert (2 * Z.to_nat total + 2 * length (after pre <$> nodes) + 2 = dkg_room)%nat as HR by by rewrite length_fmap.
    replace (S j * dkg_room + room)%nat with (dkg_room + (j * dkg_room + room))%nat in * by lia. rewrite <-HR at 1.
    apply (session_again _ total Hc'); try done.
    + by rewrite (ids_after c nodes total i pre Hc Ha).
    + rewrite <-(Hodd i) by lia. f_equal. apply group_key_source. intros s Hs. by apply Hn.
    + intros l Hl. rewrite <-after_app by (intros s Hs; by apply Hn).
      eapply session_weaken; [apply (IH (S i) (pre ++ l)); [lia|by apply next_attempt|lia]|].
      intros l'. simpl. by rewrite app_assoc.
    + by rewrite HR.
Qed.

Lemma restarts_session : (a * dkg_room + room < fuel)%nat ->
  session nodes (restarting a []) (a * dkg_room + room) E.
Proof.
  intros Hfuel. pose proof (restarting_session a O [] eq_refl (no_attempt c nodes) Hfuel) as Hs.
  by rewrite (list_fmap_id nodes : after [] <$> nodes = nodes) in Hs.
Qed.
End Restarts.
End Sessions.

(** ** Key generation *)
Section Dkg.
Context (stamp : MessageTypes -> bytes) (fuel : nat) (c : Coordinator (N := Script)).
Context (nodes : list ST) (total : Z) (Hc : cluster nodes total).
Context (Hids : (fun s => signer_id (signer s.1)) <$> nodes ≡ₚ seqZ 1 (FrostCoordinator.total_signers c)).
Context (Hretry : backoff_attempts <> O).
Context (Hsign : forall h, is_Some (ecdsa_sign h (co_network_private_key c))).
Abbreviation d := (wrapping_add 64 (current_dkg_id c) 1).
Context (a : nat) (Hodd : forall i, (i < a)%nat -> point_has_even_y (group_key d (later i <$> nodes)) = false)
  (Heven : point_has_even_y (group_key d (later a <$> nodes)) = true).
Abbreviation dkg_room := (2 * Z.to_nat total + 2 * length nodes + 2)%nat.
Context (Hfuel : (S a * dkg_room < fuel)%nat).
Abbreviation final := (later a <$> nodes).

(** The coordinator's result, and what a signer has made of a log. *)
Definition key_found (r : Coordinator (N := Script) * res CoordinatorError Point) : Prop :=
  (exists n, r = (set_network n (with_key (group_key d final) (share_table d final) c), Ok (group_key d final))) /\
  btree_keys (share_table d final) = seqZ 1 total.
Definition holds_shares l s : Prop :=
  exists self rng out, SigningRound.run l s = ((self, rng), Ok out) /\
    success d s.1 ∈ out /\ state self = Idle /\ commitments self = dps_public_share <$> share_table d final.

Lemma dkg_session pre : attempts c nodes a pre ->
  session stamp fuel c (mret tt) key_found (after pre <$> nodes) (plan c (after pre <$> nodes)) dkg_room
    (fun l => forall s, s ∈ nodes -> holds_shares (pre ++ l) s).
Proof.
  intros Ha. destruct (attempts_nodes c nodes total a pre Hc Ha) as [Hc' Hn].
  assert ((fun s => signer_id (signer s.1)) <$> (after pre <$> nodes) ≡ₚ seqZ 1 (FrostCoordinator.total_signers c)) as Hids'
    by by rewrite (ids_after c nodes total a pre Hc Ha).
  assert (forall s, s ∈ nodes -> source (after pre s) = source (later a s)) as Hsrc by (intros s Hs; by apply Hn).
  pose proof (group_key_source d (after pre) (later a) nodes Hsrc) as Hkey.
  pose proof (share_table_source d (after pre) (later a) nodes Hsrc) as Htable.
  assert (point_has_even_y (group_key d (after pre <$> nodes)) = true) as Heven' by by rewrite Hkey.
  assert (2 * Z.to_nat total + 2 * length (after pre <$> nodes) + 2 < fuel)%nat as Hf by (rewrite length_fmap; lia).
  split.
  - intros hist q sent cc Hr Hq Hcc.
    destruct (coordinator_part stamp fuel c _ total Hc' Hids' Hretry Hsign Hf Heven' hist q sent cc Hr Hq Hcc) as [<- _].
    unfold program. rewrite M_bind_eq. by destruct (run_distributed_key_generation _ _) as [c1 [key| | |]].
  - intros hist q k s. apply (dkg_signer fuel c _ total Hc' Hretry Hf).
  - intros hist Hr. pose proof (hist_bound fuel c _ total Hc' Hretry Hf hist Hr) as Hb. by rewrite length_fmap in Hb.
  - intros hist Hr Hnext s Hs. destruct (last_hist fuel c _ total Hc' Hretry Hf hist Hr Hnext) as (h1 & h2 & h4 & h5 & -> & _).
    destruct (Hn s Hs) as (Hrun & Hst & _).
    destruct (signer_finishes c _ total Hc' h1 h2 h4 h5 (after pre s)) as (self & rng & out & Hrun' & Hout & Hidle & Hcs);
      [by apply list_elem_of_fmap_2|exact Hr|].
    exists self, rng, (answers pre s ++ out). rewrite (run_after _ _ _ Hrun), M_bind_eq, Hrun', Hcs, Htable. split_and!; try done.
    apply elem_of_app. right. unfold success in *. by rewrite (static_ids _ _ Hst) in Hout.
  - intros hist sent cc Hr Hnext Hcc. destruct (last_hist fuel c _ total Hc' Hretry Hf hist Hr Hnext) as (h1 & h2 & h4 & h5 & -> & _).
    destruct (coordinator_finishes stamp fuel c _ total Hc' Hids' Hretry Hsign Hf Heven' h1 h2 h4 h5 [] sent cc Hr)
      as (n & sent' & -> & _); [by rewrite app_nil_r|]. rewrite Hkey, Htable. split; [by exists n|].
    rewrite <-Htable. by eapply share_table_keys.
Qed.

Definition finished (x : Shared (M := MessageTypes) (I := Party)) : Prop :=
  (forall p, p ∈ parties nodes -> read x p = length (log x) /\ sent x p = length (sends_after stamp fuel c nodes p (log x))) /\
  exists c', FrostCoordinator.run fuel Dkg (coordinator_on stamp c (log x)) = (c', Ok tt) /\
    aggregate_public_key c' = group_key d final /\ btree_keys (dkg_public_shares c') = seqZ 1 total /\
    forall node, node ∈ nodes ->
      exists self rng out, SigningRound.run (log x) node = ((self, rng), Ok out) /\
        success d node.1 ∈ out /\ state self = Idle /\
        commitments self = dps_public_share <$> dkg_public_shares c'.

(** C2: whatever order the relay's clients are scheduled in, a key generation
    ends, and it ends well, provided that one of its attempts has a key with an
    even y.  A coordinator and honest signers read the log and send to it one
    message at a time.  When the sums of the constant terms of the commitments that
    the signers draw in attempts 0 to [a - 1] have an odd y, and that of attempt
    [a] an even one, then in every run there comes a moment when everyone has read
    the whole log and has nothing left to send.  The coordinator, which has started
    [a] times again, has then succeeded with the sum of attempt [a] as the key;
    every signer has reported success, is idle, and holds the commitments of the
    shares the coordinator stored. *)
Theorem dkg_inevitable : inevitable (step (parties nodes) (sends_after stamp fuel c nodes)) finished start.
Proof.
  eapply inevitable_weaken.
  - apply (session_inevitable_of stamp fuel c (mret tt) key_found nodes (restarting c nodes (fun pre => plan c (after pre <$> nodes)) a [])
      (a * dkg_room + dkg_room) (fun l => forall s, s ∈ nodes -> holds_shares l s)).
    apply (restarts_session stamp fuel c (mret tt) key_found nodes total Hc Hids Hretry Hsign a Hodd); [|lia].
    exact dkg_session.
  - intros x (Hall & Hnodes & (n & Hrun) & Hkeys). split; [exact Hall|]. eexists. split_and!.
    + unfold FrostCoordinator.run. by rewrite M_bind_eq, Hrun.
    + by destruct c.
    + transitivity (btree_keys (share_table d final)); [by destruct c|exact Hkeys].
    + intros node Hin. destruct (Hnodes node Hin) as (self & rng & out & Hnode & Hout & Hidle & Hcs).
      exists self, rng, out. split_and!; [exact Hnode|exact Hout|exact Hidle|]. rewrite Hcs. by destruct c.
Qed.
End Dkg.
End AsyncRestart.

(** Signers whose commitments depend on their random numbers: those of the first
    attempt have an odd sum, those of the second an even one. *)
Module Drifting.
Import ToyCrypto.
Import ScriptNet.
Import Toy.
Import DkgToy.
Import AsyncToy.

#[export] Instance drifting_wsts : Wsts := {|
  PolyCommitment := Z * list Z;
  PublicNonce := Z * Z;
  SignatureShare := Z * Z;
  WstsSigner := ToySigner;
  poly_id := fst;
  poly_A := snd;
  nonce_D := fst;
  nonce_E := snd;
  share_id := fst;
  share_z_i := snd;
  signer_new := signer_new (Wsts := toy_wsts);
  signer_get_id := toy_id;
  signer_get_key_ids := toy_key_ids;
  signer_reset_polys := signer_reset_polys (Wsts := toy_wsts);
  signer_get_poly_commitments w rng := ((fun k => (k + 1, [k + 1 + rng / 2])) <$> toy_key_ids w, rng + 1);
  signer_get_shares := signer_get_shares (Wsts := toy_wsts);
  signer_compute_secrets := signer_compute_secrets (Wsts := toy_wsts);
  signer_gen_nonces := signer_gen_nonces (Wsts := toy_wsts);
  signer_sign := signer_sign (Wsts := toy_wsts)
|}.

#[export] Instance drifting_aggregator : WstsAggregator := {|
  Aggregator := Z * Z * list (Z * list Z);
  AggregatorError := string;
  Signature := Z;
  SchnorrProof := Z;
  TaprootError := unit;
  Element := Z;
  point_x p := p;
  compute_intermediate := compute_intermediate (WstsAggregator := toy_aggregator);
  aggregator_new := aggregator_new (WstsAggregator := toy_aggregator);
  aggregator_sign agg msg nonces shares :=
    Some (inl (foldr Z.add 0 ((fun p : Z * list Z => default 0 (p.2 !! O)) <$> agg.2)));
  schnorr_new sig := inl sig;
  schnorr_verify proof x msg := bool_decide (proof = x)
|}.

#[export] Program Instance drifting_laws : WstsLaws := {|
  num_keys := toy_total;
  poly_valid p := p.2 <> [];
  share_valid p dst x := x = 100 * (p.1 - 1) + dst
|}.
Next Obligation. done. Qed.
Next Obligation. done. Qed.
Next Obligation. intros w rng. simpl. rewrite <-list_fmap_compose. apply list_fmap_ext. intros i k _. simpl. lia. Qed.
Next Obligation. by intros w rng p (k & -> & _)%list_elem_of_fmap. Qed.
Next Obligation. intros w rng p (k & -> & _)%list_elem_of_fmap. simpl. eauto. Qed.
Next Obligation. intros w. exact (shares_keys (WstsLaws := toy_wsts_laws) w). Qed.
Next Obligation. intros w. exact (shares_dsts (WstsLaws := toy_wsts_laws) w). Qed.
Next Obligation.
  intros w rng p src m dst x _ Hid Hm Hx. simpl in *.
  apply elem_of_list_to_map_2, list_elem_of_fmap in Hm as (k & [= -> ->] & _).
  rewrite (toy_share_lookup (fun dst => 100 * k + dst) _ _ _ Hx), Hid. lia.
Qed.
Next Obligation.
  intros w shares polys Hpos Hids _ _. simpl in *. apply (f_equal length) in Hids.
  rewrite length_fmap, length_seqZ in Hids. by rewrite bool_decide_true by lia.
Qed.

Definition node (i private_key : Z) (key_ids : list Z) (rng : Z) : SigningRound * Rng :=
  ({| dkg_id := 1; dkg_public_id := 1; sign_id := 1; sign_nonce_id := 1; SigningRound.threshold := 2;
      total_keys := 3; total_signers := 2;
      signer := {| frost_signer := {| toy_id := i; toy_key_ids := key_ids; toy_total := 3; toy_ready := false |};
                   signer_id := i |};
      state := Idle; commitments := ∅; shares := ∅; public_nonces := [];
      sr_network_private_key := private_key; sr_public_keys := public_keys |}, rng).
Definition drifters : list (SigningRound * Rng) := [node 1 10 [0; 1] 0; node 2 20 [2] 6].
Definition drift_coordinator : Coordinator (N := Script) :=
  {| id := 9; current_dkg_id := 2 ^ 64 - 1; current_dkg_public_id := 0; current_sign_id := 1;
     current_sign_nonce_id := 1; FrostCoordinator.total_signers := 2; FrostCoordinator.total_keys := 3;
     FrostCoordinator.threshold := 2; network := script []; dkg_public_shares := ∅;
     FrostCoordinator.public_nonces := ∅; signature_shares := ∅; aggregate_public_key := 0;
     co_network_private_key := 30; public_key := 30 |}.

Lemma drifting_cluster : cluster drifters 3.
Proof.
  assert (forall s, s ∈ drifters -> s = node 1 10 [0; 1] 0 \/ s = node 2 20 [2] 6) as Hall by set_solver.
  split.
  - done.
  - reflexivity.
  - intros s [-> | ->]%Hall; by vm_compute.
  - intros s s' k [-> | ->]%Hall [-> | ->]%Hall Hk; unfold key_ids in Hk; simpl in Hk;
      repeat (apply elem_of_cons in Hk as [-> | Hk]; [done|]); by apply elem_of_nil in Hk.
Qed.
End Drifting.

Module AsyncRestartWitness.
Import ToyCrypto.
Import ScriptNet.
Import Toy.
Import DkgToy.
Import AsyncToy.
Import Drifting.
#[local] Instance four_attempts : Backoff := 4%nat.
Definition stamp_none (m : MessageTypes) : bytes := [].

Lemma dkg_inevitable_witness :
  inevitable (step (parties drifters) (sends_after stamp_none 30 drift_coordinator drifters))
    (fun x => exists c', FrostCoordinator.run 30 Dkg (coordinator_on stamp_none drift_coordinator (log x)) = (c', Ok tt) /\
       aggregate_public_key c' = 12 /\
       forall node, node ∈ drifters -> exists self rng out,
         SigningRound.run (log x) node = ((self, rng), Ok out) /\ success 0 node.1 ∈ out /\ state self = Idle)
    start.
Proof.
  eapply inevitable_weaken.
  - refine (dkg_inevitable stamp_none 30 drift_coordinator drifters 3 drifting_cluster _ _ _ 1 _ _ _).
    + by compute_done.
    + done.
    + by eexists.
    + intros [|i] Hi; [run|lia].
    + run.
    + apply Nat.ltb_lt. run.
  - intros x (_ & c' & Hr & Hk & _ & Hs). exists c'. split; [exact Hr|]. split; [rewrite Hk; run|].
    intros nd Hin. destruct (Hs nd Hin) as (self & rng & out & Hrun & Hout & Hi & _). exists self, rng, out.
    split_and!; [exact Hrun|exact Hout|exact Hi].
Defined.
End AsyncRestartWitness.
