(* ===== verification/AsyncSession.v ===== *)
(** * Signing from scratch without a schedule

    [AsyncDkg] and [AsyncSign] in sequence: a coordinator that runs [DkgSign] and
    signers that hold no key yet read the relay's log and send to it one message
    at a time, in any order.  The rounds of the key generation, with the attempts of
    [AsyncRestart] that end with an odd key in front, are followed by the exchanges
    of the signing round, in which the signers answer from the state that their part
    of the log has left them in. *)
From S2P Require Import Prelude Crypto FrostUtil FrostConfig Messages Net FrostCoordinator CoordinatorRound CoordinatorSign SigningRound DkgRound DkgSystem SignRound SignSystem Barrier AsyncDkg AsyncSign AsyncRestart.
Import ScriptNet.

Section AsyncSession.
Context {CP : P256k1} {WP : Wsts} {WA : WstsAggregator} {BP : BuildProfile} {CL : P256k1Laws}
  {WL : WstsLaws} {WS : WstsSignLaws} {BO : Backoff}.
Abbreviation ST := (SigningRound * Rng)%type.
Implicit Types (s : ST) (hist : list (list MessageTypes)) (l : list MessageTypes).
Context (stamp : MessageTypes -> bytes) (fuel : nat) (m : bytes) (c : Coordinator (N := Script)).
Abbreviation b := {| db_dkg_id := wrapping_add 64 (current_dkg_id c) 1 |}.
Abbreviation d := (wrapping_add 64 (current_dkg_id c) 1).

(** What the coordinator does with the key, and what it then has: a proof under it. *)
Definition then_sign : M (Coordinator (N := Script)) CoordinatorError unit := sign_message fuel m ;; mret tt.
Definition signed_with (key : Point) (r : Coordinator (N := Script) * res CoordinatorError Point) : Prop :=
  exists c1 c' sig proof, r = (c1, Ok key) /\ sign_message fuel m c1 = (c', Ok (sig, proof)) /\
    schnorr_verify proof (point_x key) m = true.

(** ** A key generation with an even key, and signing *)
Section Even.
Context (nodes : list ST).

(** The parties after a key generation with the log [l]. *)
Definition keyed_coordinator : Coordinator (N := Script) := with_key (group_key d nodes) (share_table d nodes) c.
Definition ready_nodes (l : list MessageTypes) : list ST := after l <$> nodes.

Lemma keyed_sum : aggregate_public_key keyed_coordinator = poly_sum (polys keyed_coordinator).
Proof.
  transitivity (group_key d nodes); [by unfold keyed_coordinator; destruct c|].
  etransitivity; [symmetry; exact (group_key_sum b nodes)|]. unfold polys, keyed_coordinator. by destruct c.
Qed.

Lemma keyed_fields : aggregate_public_key keyed_coordinator = group_key d nodes /\
  co_network_private_key keyed_coordinator = co_network_private_key c.
Proof. unfold keyed_coordinator. by destruct c. Qed.

(** The log of a key generation. *)
Definition complete (l : list MessageTypes) : Prop :=
  exists hist, dkg_hist c nodes hist /\ length hist = 6%nat /\ l = concat hist.

(** After the key generation with log [l] the first even sum of nonces is number [last l]. *)
Context (last : list MessageTypes -> nat).
Abbreviation sign_plan_after l := (sign_plan m keyed_coordinator (ready_nodes l) (last l)).
Definition session_plan : list (list MessageTypes) -> Party -> list MessageTypes :=
  in_sequence (plan c nodes) (fun l => sign_plan_after l) 6.

(** What the signers have done: after the key generation [dkg] they have answered
    each request for nonces and the one for signature shares. *)
Definition signed_after (kc : Coordinator (N := Script)) (dkg l : list MessageTypes) s : Prop :=
  let k := S (last dkg) in
  let req := share_request m (answer_table kc (ready_nodes dkg) (last dkg)) kc in
  success d s.1 ∈ answers dkg s /\
  SigningRound.run l s =
    (after_rounds k (after dkg s),
     Ok (answers dkg s ++ (MNonceResponse <$> nonce_answers (request_of kc) k (after dkg s)) ++
         [MSignShareResponse (share_answer m req (after_rounds k (after dkg s)))])).
Definition signers_done (l : list MessageTypes) : Prop :=
  exists dkg rest, l = dkg ++ rest /\ complete dkg /\ forall s, s ∈ nodes -> signed_after keyed_coordinator dkg l s.

Context (total : Z) (Hc : cluster nodes total).
Context (Hids : (fun s => signer_id (signer s.1)) <$> nodes ≡ₚ seqZ 1 (FrostCoordinator.total_signers c)).
Context (Hretry : backoff_attempts <> O).
Context (Hsign : forall h, is_Some (ecdsa_sign h (co_network_private_key c))).
Context (Hkeys : FrostCoordinator.total_keys c = total) (Hth : 0 < FrostCoordinator.threshold c <= total).
Context (Heven : point_has_even_y (group_key d nodes) = true) (Hdef : group_key d nodes <> point_default).
Context (bound : nat) (Hbound : forall l, complete l -> (last l <= bound)%nat).
Context (Hodd : forall l j, complete l -> (j < last l)%nat -> parity m keyed_coordinator (ready_nodes l) j = Some false)
  (Hlast : forall l, complete l -> parity m keyed_coordinator (ready_nodes l) (last l) = Some true).
Abbreviation dkg_room := (2 * Z.to_nat total + 2 * length nodes + 2)%nat.
Abbreviation sign_room := ((2 * bound + 5) * S (length nodes))%nat.
Context (Hfuel : (dkg_room + sign_room < fuel)%nat).

Lemma ready_parties (l : list MessageTypes) : parties (ready_nodes l) = parties nodes.
Proof. unfold parties, ready_nodes. by rewrite length_fmap. Qed.

(** ** After the key generation *)
Lemma complete_hist hist : rounds (parties nodes) (plan c nodes) hist -> length hist = 6%nat ->
  exists shares ends privates finals,
    hist = [[MDkgBegin b]; shares; ends; [MDkgPrivateBegin b]; privates; finals] /\ dkg_hist c nodes hist.
Proof.
  intros Hr Hl. apply rounds_dkg in Hr as Hh.
  destruct hist as [|h0 [|h1 [|h2 [|h3 [|h4 [|h5 [|h6 hist]]]]]]]; try done.
  pose proof Hh as (-> & _ & _ & -> & _). by exists h1, h2, h4, h5.
Qed.

Lemma complete_nothing hist p : length hist = 6%nat -> plan c nodes hist p = [].
Proof.
  intros Hl. destruct hist as [|h0 [|h1 [|h2 [|h3 [|h4 [|h5 [|h6 hist]]]]]]]; try done.
  destruct p as [|k]; [done|]. simpl. by case_match.
Qed.

Lemma complete_before hist p : length hist = 6%nat -> before (plan c nodes) hist p = due (plan c nodes) hist p.
Proof. intros Hl. unfold due. by rewrite (complete_nothing hist p Hl), app_nil_r. Qed.

Lemma rounds_complete hist : rounds (parties nodes) (plan c nodes) hist -> length hist = 6%nat -> complete (concat hist).
Proof. intros Hr Hl. exists hist. split; [by apply rounds_dkg|done]. Qed.

(** The keys the signers hold. *)
Lemma complete_group hist : rounds (parties nodes) (plan c nodes) hist -> length hist = 6%nat ->
  signing_group (ready_nodes (concat hist)) (polys keyed_coordinator) (FrostCoordinator.total_keys keyed_coordinator)
    (FrostCoordinator.threshold keyed_coordinator) (FrostCoordinator.total_signers keyed_coordinator).
Proof.
  intros Hr Hl. destruct (complete_hist hist Hr Hl) as (shares & ends & privates & finals & -> & Hh).
  set (st := fun l => stamped stamp <$> l).
  assert (forall l, msg <$> st l = l) as Hst.
  { intros l. unfold st. rewrite <-list_fmap_compose. apply list_fmap_id. }
  assert (concat [[MDkgBegin b]; shares; ends; [MDkgPrivateBegin b]; privates; finals] =
    dkg_log b (st shares) (st ends) (st (privates ++ finals))) as ->.
  { unfold dkg_log. rewrite fmap_app, !Hst. simpl. by rewrite app_nil_r, <-!app_assoc. }
  assert (round_log nodes b (st shares) (st ends) (st (privates ++ finals))) as Hlog.
  { pose proof Hh as (_ & H1 & H2 & _ & H3 & H4). split; [split| |]; rewrite ?fmap_app, ?Hst; try done.
    - by rewrite H3, H4.
    - destruct (final_senders stamp fuel c nodes total Hc Hids Hretry ltac:(lia) _ _ _ _ Hh) as [_ Hcl].
      eapply (closed_by_tail end_sender (stamped stamp (MDkgPrivateBegin b))); [done|exact Hcl]. }
  assert (polys keyed_coordinator = btree_values (commitment_table d nodes)) as ->.
  { etransitivity; [|exact (table_polys nodes total Hc b)]. unfold polys, keyed_coordinator. by destruct c. }
  replace (FrostCoordinator.total_keys keyed_coordinator) with total by (rewrite <-Hkeys; by unfold keyed_coordinator; destruct c).
  apply (dkg_group nodes total Hc b _ _ _ Hlog).
  - change (NoDup ((fun s => signer_id (signer s.1)) <$> nodes)). rewrite Hids. apply NoDup_seqZ.
  - pose proof (Permutation_length Hids) as Hlen. rewrite length_fmap, length_seqZ in Hlen. rewrite Hlen.
    replace (FrostCoordinator.total_signers keyed_coordinator) with (FrostCoordinator.total_signers c) by (by unfold keyed_coordinator; destruct c).
    pose proof (signers_pos c nodes total Hc Hids). lia.
  - by unfold keyed_coordinator; destruct c.
Qed.

Section Complete.
Context (h1 : list (list MessageTypes)) (Hr1 : rounds (parties nodes) (plan c nodes) h1) (Hl1 : length h1 = 6%nat).
Abbreviation l1 := (concat h1).

(** The key generation of the coordinator, in front of the rest of the log. *)
Lemma session_key (l : list MessageTypes) (sent : list Message) cc : at_start stamp c (l1 ++ l) sent cc ->
  exists c1 sent', run_distributed_key_generation fuel cc = (c1, Ok (group_key d nodes)) /\
    behind stamp keyed_coordinator l sent' c1 /\
    msg <$> sent' = (msg <$> sent) ++ before (plan c nodes) h1 TheCoordinator.
Proof.
  intros Hcc. destruct (complete_hist h1 Hr1 Hl1) as (shares & ends & privates & finals & Heq & Hh). subst h1.
  destruct (coordinator_finishes stamp fuel c nodes total Hc Hids Hretry Hsign ltac:(lia) Heven _ _ _ _ l sent cc Hr1 Hcc)
    as (n & sent' & Hrun & Hp & Hout).
  eexists _, sent'. split; [exact Hrun|]. split; [|exact Hout]. split; [by unfold keyed_coordinator; destruct c|].
  by rewrite network_set.
Qed.

(** A signer has answered the key generation, and then answers from the state it is in. *)
Lemma session_signer (l : list MessageTypes) k s : nodes !! k = Some s ->
  SigningRound.run (l1 ++ l) s =
    (out ← SigningRound.run l; mret (before (plan c nodes) h1 (TheSigner k) ++ out)) (after l1 s).
Proof.
  intros Hk. pose proof (dkg_signer fuel c nodes total Hc Hretry ltac:(lia) h1 [] k s Hr1 (or_introl eq_refl) Hk) as Hw.
  rewrite app_nil_r, <-complete_before in Hw by done. unfold after.
  destruct (SigningRound.run l1 s) as [st r] eqn:Hrun. simpl in Hw. subst r. by rewrite run_app, M_bind_eq, Hrun.
Qed.

Lemma sign_fuel : ((2 * last l1 + 5) * S (length (ready_nodes l1)) < fuel)%nat.
Proof.
  pose proof (Hbound l1 (rounds_complete h1 Hr1 Hl1)) as Hb. unfold ready_nodes. rewrite length_fmap.
  assert (2 * last l1 + 5 <= 2 * bound + 5)%nat as Hle by lia.
  pose proof (Nat.mul_le_mono_r _ _ (S (length nodes)) Hle). lia.
Qed.

Lemma signing_coordinator (h2 : list (list MessageTypes)) (q : list MessageTypes) (sent : list Message) cc :
  rounds (parties nodes) (sign_plan_after l1) h2 -> unfinished (parties nodes) (sign_plan_after l1) h2 q ->
  at_start stamp c (l1 ++ concat h2 ++ q) sent cc ->
  msg <$> outbox (network (program fuel then_sign cc).1) =
    (msg <$> sent) ++ before (plan c nodes) h1 TheCoordinator ++ due (sign_plan_after l1) h2 TheCoordinator.
Proof.
  intros Hr Hq Hcc. rewrite <-(ready_parties l1) in Hr, Hq. pose proof (complete_group h1 Hr1 Hl1) as Hg.
  destruct keyed_fields as (Hk & Hpk). destruct (session_key (concat h2 ++ q) sent cc Hcc) as (c1 & sent' & Hrun & Hb & Hsent).
  rewrite app_assoc, <-Hsent.
  rewrite <-(coordinator_behind Hretry stamp fuel m keyed_coordinator (ready_nodes l1) (last l1)) with (q := q) (cc := c1);
    rewrite ?Hk, ?Hpk; try done.
  - unfold program, then_sign. rewrite M_bind_eq, Hrun, M_bind_eq. by destruct (sign_message fuel m c1) as [c2 [[]| | |]].
  - rewrite <-Hk. apply keyed_sum.
  - intros j. by apply Hodd, rounds_complete.
  - by apply Hlast, rounds_complete.
  - apply sign_fuel.
Qed.

Lemma signing_signer (h2 : list (list MessageTypes)) (q : list MessageTypes) k s :
  rounds (parties nodes) (sign_plan_after l1) h2 -> unfinished (parties nodes) (sign_plan_after l1) h2 q ->
  nodes !! k = Some s -> (SigningRound.run (l1 ++ concat h2 ++ q) s).2 =
    Ok (before (plan c nodes) h1 (TheSigner k) ++ due (sign_plan_after l1) h2 (TheSigner k)).
Proof.
  intros Hr Hq Hs. rewrite <-(ready_parties l1) in Hr, Hq. pose proof (complete_group h1 Hr1 Hl1) as Hg.
  rewrite (session_signer _ k s Hs), M_bind_eq.
  pose proof (signer_part Hretry fuel m keyed_coordinator (ready_nodes l1) (last l1) Hg sign_fuel h2 q k (after l1 s) Hr Hq) as Hp.
  unfold ready_nodes in Hp at 1. rewrite list_lookup_fmap, Hs in Hp. specialize (Hp eq_refl).
  destruct (SigningRound.run (concat h2 ++ q) (after l1 s)) as [st r]. simpl in Hp. by subst r.
Qed.
End Complete.

(** ** Every history *)
Lemma session_next (h1 h2 : list (list MessageTypes)) : length h1 = 6%nat ->
  next_round (parties nodes) session_plan (h1 ++ h2) = next_round (parties nodes) (sign_plan_after (concat h1)) h2.
Proof. intros Hl. unfold next_round, session_plan. by rewrite sequence_then. Qed.

Lemma session_first hist : (length hist < 6)%nat ->
  next_round (parties nodes) session_plan hist = next_round (parties nodes) (plan c nodes) hist.
Proof. intros Hl. unfold next_round, session_plan. by rewrite sequence_first. Qed.

Lemma session_bound hist : rounds (parties nodes) session_plan hist ->
  (length (concat hist ++ next_round (parties nodes) session_plan hist) <= dkg_room + sign_room)%nat.
Proof.
  intros Hr. destruct (rounds_sequence _ _ _ _ _ Hr) as [[Hl Hr1]|(h1 & h2 & -> & Hl & Hr1 & Hr2)].
  - rewrite session_first by done. pose proof (hist_bound fuel c nodes total Hc Hretry ltac:(lia) hist Hr1). lia.
  - rewrite session_next, concat_app, <-app_assoc, length_app by done.
    pose proof (hist_bound fuel c nodes total Hc Hretry ltac:(lia) h1 Hr1) as H1. rewrite length_app in H1.
    pose proof (Hbound _ (rounds_complete h1 Hr1 Hl)) as Hb. pose proof (sign_fuel h1 Hr1 Hl) as Hf.
    rewrite <-(ready_parties (concat h1)) in Hr2 |- *.
    pose proof (log_bound Hretry fuel m keyed_coordinator (ready_nodes (concat h1)) (last (concat h1)) Hf h2 _ Hr2 ltac:(reflexivity)) as H2.
    unfold ready_nodes in H2 at 3. rewrite length_fmap in H2.
    assert (2 * last (concat h1) + 5 <= 2 * bound + 5)%nat as Hle by lia.
    pose proof (Nat.mul_le_mono_r _ _ (S (length nodes)) Hle). unfold ready_nodes in *. lia.
Qed.

(** ** The end *)
Lemma complete_answers h1 node : rounds (parties nodes) (plan c nodes) h1 -> length h1 = 6%nat -> node ∈ nodes ->
  SigningRound.run (concat h1) node = (after (concat h1) node, Ok (answers (concat h1) node)) /\
  success d node.1 ∈ answers (concat h1) node.
Proof.
  intros Hr Hl Hn. destruct (complete_hist h1 Hr Hl) as (shares & ends & privates & finals & -> & Hh).
  destruct (signer_finishes c nodes total Hc _ _ _ _ node Hn Hr) as (self & rng & out & Hrun & Hin & _).
  unfold after, answers. by rewrite Hrun.
Qed.

Lemma session_end hist : rounds (parties nodes) session_plan hist -> next_round (parties nodes) session_plan hist = [] ->
  exists h1 h2, hist = h1 ++ h2 /\ length h1 = 6%nat /\ rounds (parties nodes) (plan c nodes) h1 /\
    rounds (parties (ready_nodes (concat h1))) (sign_plan_after (concat h1)) h2 /\
    next_round (parties (ready_nodes (concat h1))) (sign_plan_after (concat h1)) h2 = [].
Proof.
  intros Hr Hn. destruct (rounds_sequence _ _ _ _ _ Hr) as [[Hl Hr1]|(h1 & h2 & -> & Hl & Hr1 & Hr2)].
  - rewrite session_first in Hn by done.
    destruct (last_hist fuel c nodes total Hc Hretry ltac:(lia) hist Hr1 Hn) as (? & ? & ? & ? & -> & _). simpl in Hl. lia.
  - rewrite session_next in Hn by done. exists h1, h2. by rewrite ready_parties.
Qed.

Lemma session_signs hist : rounds (parties nodes) session_plan hist -> next_round (parties nodes) session_plan hist = [] ->
  signers_done (concat hist) /\
  forall sent cc, at_start stamp c (concat hist) sent cc -> signed_with (group_key d nodes) (run_distributed_key_generation fuel cc).
Proof.
  intros Hr Hn. destruct (session_end hist Hr Hn) as (h1 & h2 & -> & Hl1 & Hr1 & Hr2 & Hn2).
  pose proof (complete_group h1 Hr1 Hl1) as Hg. destruct keyed_fields as (Hk & Hpk). rewrite concat_app.
  destruct (signing_ends Hretry stamp fuel m keyed_coordinator (ready_nodes (concat h1)) (last (concat h1)) Hg)
    with (hist := h2) as [Hcoord Hnodes]; rewrite ?Hk, ?Hpk; try done.
  - rewrite <-Hk. apply keyed_sum.
  - intros j. by apply Hodd, rounds_complete.
  - by apply Hlast, rounds_complete.
  - by apply sign_fuel.
  - split.
    + exists (concat h1), (concat h2). split; [done|]. split; [by apply rounds_complete|].
      intros node Hin. destruct (complete_answers h1 node Hr1 Hl1 Hin) as [Hrun Hsucc]. split; [exact Hsucc|].
      rewrite run_app, M_bind_eq, Hrun, M_bind_eq, Hnodes; [done|]. by apply list_elem_of_fmap_2.
    + intros sent cc Hcc. destruct (session_key h1 Hr1 Hl1 (concat h2) sent cc Hcc) as (c1 & sent' & Hrun & Hb & _).
      destruct (Hcoord sent' c1 Hb) as (c' & sg & proof & Hsig & Hv). exists c1, c', sg, proof.
      split; [exact Hrun|]. split; [exact Hsig|]. by rewrite <-Hk.
Qed.

Lemma session_holds :
  session stamp fuel c then_sign (signed_with (group_key d nodes)) nodes session_plan (dkg_room + sign_room) signers_done.
Proof.
  split.
  - intros hist q sent cc Hr Hq Hcc. destruct (rounds_sequence _ _ _ _ _ Hr) as [[Hl Hr1]|(h1 & h2 & -> & Hl & Hr1 & Hr2)].
    + unfold session_plan. rewrite due_first by done. unfold unfinished in Hq. rewrite session_first in Hq by done.
      destruct (coordinator_part stamp fuel c nodes total Hc Hids Hretry Hsign ltac:(lia) Heven hist q sent cc Hr1 Hq Hcc) as [<- Hu].
      unfold program. rewrite M_bind_eq. specialize (Hu Hl). unfold undone in Hu.
      by destruct (run_distributed_key_generation _ _) as [c1 [key| | |]]; [destruct (Hu key)|..].
    + unfold session_plan. rewrite due_then by done. unfold unfinished in Hq. rewrite session_next in Hq by done.
      rewrite concat_app, <-app_assoc in Hcc. by apply (signing_coordinator h1 Hr1 Hl h2 q).
  - intros hist q k s Hr Hq Hk. destruct (rounds_sequence _ _ _ _ _ Hr) as [[Hl Hr1]|(h1 & h2 & -> & Hl & Hr1 & Hr2)].
    + unfold session_plan. rewrite due_first by done. unfold unfinished in Hq. rewrite session_first in Hq by done.
      exact (dkg_signer fuel c nodes total Hc Hretry ltac:(lia) hist q k s Hr1 Hq Hk).
    + unfold session_plan. rewrite due_then by done. unfold unfinished in Hq. rewrite session_next in Hq by done.
      rewrite concat_app, <-app_assoc. by apply (signing_signer h1 Hr1 Hl h2 q).
  - apply session_bound.
  - intros hist Hr Hn. by apply session_signs.
  - intros hist sent cc Hr Hn. by apply session_signs.
Qed.
End Even.

(** ** Any number of key generations with an odd key before it *)
Section Session.
Context (nodes : list ST) (total : Z) (Hc : cluster nodes total).
Context (Hids : (fun s => signer_id (signer s.1)) <$> nodes ≡ₚ seqZ 1 (FrostCoordinator.total_signers c)).
Context (Hretry : backoff_attempts <> O).
Context (Hsign : forall h, is_Some (ecdsa_sign h (co_network_private_key c))).
Context (Hkeys : FrostCoordinator.total_keys c = total) (Hth : 0 < FrostCoordinator.threshold c <= total).
Context (a : nat) (Hagain : forall i, (i < a)%nat -> point_has_even_y (group_key d (later i <$> nodes)) = false).
Abbreviation final := (later a <$> nodes).
Abbreviation keyed := (keyed_coordinator final).
Context (Heven : point_has_even_y (group_key d final) = true) (Hdef : group_key d final <> point_default).

(** The log of [a] odd attempts and a complete key generation. *)
Definition generated (l : list MessageTypes) : Prop :=
  exists pre l', l = pre ++ l' /\ attempts c nodes a pre /\ complete (after pre <$> nodes) l'.

(** After the log [l] the first even sum of nonces is number [last l]. *)
Context (last : list MessageTypes -> nat) (bound : nat) (Hbound : forall l, generated l -> (last l <= bound)%nat).
Context (Hodd : forall l j, generated l -> (j < last l)%nat -> parity m keyed (ready_nodes nodes l) j = Some false)
  (Hlast : forall l, generated l -> parity m keyed (ready_nodes nodes l) (last l) = Some true).
Abbreviation dkg_room := (2 * Z.to_nat total + 2 * length nodes + 2)%nat.
Abbreviation sign_room := ((2 * bound + 5) * S (length nodes))%nat.
Context (Hfuel : (S a * dkg_room + sign_room < fuel)%nat).

Definition session_sends (l : list MessageTypes) : list MessageTypes :=
  msg <$> outbox (network (FrostCoordinator.run fuel (DkgSign m) (coordinator_on stamp c l)).1).
Definition session_after (p : Party) (l : list MessageTypes) : list MessageTypes :=
  match p with
  | TheCoordinator => session_sends l
  | TheSigner k => match nodes !! k with Some s => answers l s | None => [] end
  end.

Definition all_signed (l : list MessageTypes) : Prop :=
  exists dkg rest, l = dkg ++ rest /\ generated dkg /\ forall s, s ∈ nodes -> signed_after nodes last keyed dkg l s.

Lemma final_session pre : attempts c nodes a pre ->
  session stamp fuel c then_sign (signed_with (group_key d final)) (after pre <$> nodes)
    (session_plan (after pre <$> nodes) (fun l => last (pre ++ l))) (dkg_room + sign_room) (fun l => all_signed (pre ++ l)).
Proof.
  intros Ha. destruct (attempts_nodes c nodes total a pre Hc Ha) as [Hc' Hn].
  assert (forall s, s ∈ nodes -> source (after pre s) = source (later a s)) as Hsrc by (intros s Hs; by apply Hn).
  pose proof (group_key_source d (after pre) (later a) nodes Hsrc) as Hkey.
  assert (keyed_coordinator (after pre <$> nodes) = keyed) as Hkc.
  { unfold keyed_coordinator. by rewrite Hkey, (share_table_source d (after pre) (later a) nodes Hsrc). }
  assert (forall l, ready_nodes (after pre <$> nodes) l = ready_nodes nodes (pre ++ l)) as Hready.
  { intros l. symmetry. apply after_app. intros s Hs. by apply Hn. }
  assert (forall l, complete (after pre <$> nodes) l -> generated (pre ++ l)) as Hgen.
  { intros l Hl. by exists pre, l. }
  rewrite <-Hkey. replace dkg_room with (2 * Z.to_nat total + 2 * length (after pre <$> nodes) + 2)%nat by by rewrite length_fmap.
  replace sign_room with ((2 * bound + 5) * S (length (after pre <$> nodes)))%nat by by rewrite length_fmap.
  eapply session_weaken; [apply (session_holds (after pre <$> nodes) (fun l => last (pre ++ l)) total Hc')|]; rewrite ?Hkey, ?Hkc; try done.
  - by rewrite (ids_after c nodes total a pre Hc Ha).
  - intros l Hl. by apply Hbound, Hgen.
  - intros l j Hl Hj. rewrite Hready. by apply Hodd; [apply Hgen|].
  - intros l Hl. rewrite Hready. by apply Hlast, Hgen.
  - rewrite length_fmap. lia.
  - intros l (dkg & rest & -> & Hd & Hs). exists (pre ++ dkg), rest. rewrite <-app_assoc. split; [done|]. split; [by apply Hgen|].
    intros s Hin. destruct (Hn s Hin) as (Hrun & Hst & _). specialize (Hs (after pre s) ltac:(by apply list_elem_of_fmap_2)).
    unfold signed_after in *. rewrite Hready, Hkc in Hs. destruct Hs as [Hsucc Hsig].
    destruct (after_answers pre dkg s Hrun) as [-> ->]; [by intros Hnil; rewrite Hnil in Hsucc; apply elem_of_nil in Hsucc|].
    rewrite (run_after _ _ _ Hrun), M_bind_eq, Hsig. split.
    + apply elem_of_app. right. unfold success in *. by rewrite (static_ids _ _ Hst) in Hsucc.
    + simpl. by rewrite <-!app_assoc.
Qed.

Definition session_done (x : Shared (M := MessageTypes) (I := Party)) : Prop :=
  (forall p, p ∈ parties nodes -> read x p = length (log x) /\ sent x p = length (session_after p (log x))) /\
  all_signed (log x) /\
  exists c1 c' sig proof,
    FrostCoordinator.run fuel (DkgSign m) (coordinator_on stamp c (log x)) = (c', Ok tt) /\
    run_distributed_key_generation fuel (coordinator_on stamp c (log x)) = (c1, Ok (group_key d final)) /\
    sign_message fuel m c1 = (c', Ok (sig, proof)) /\
    schnorr_verify proof (point_x (group_key d final)) m = true.

(** C1: whatever order the relay's clients are scheduled in, signing from scratch
    ends, and it ends well, provided that an attempt at a key has an even y, and
    then a sum of nonces.  A coordinator that runs [DkgSign] and honest signers
    that hold no key yet read the log and send to it one message at a time.  When
    the sums of the constant terms of the commitments that the signers draw in
    attempts 0 to [a - 1] have an odd y, that of attempt [a] has an even one and is
    not the default point, and, after every log those attempts can have, the sums
    of the nonces that the signers draw get an even y after at most [bound] odd
    ones, then in every run there comes a moment when everyone has read the whole
    log and has nothing left to send.  The log then starts with [a] attempts and a
    complete key generation; the coordinator's command has succeeded, with the sum
    of attempt [a] as the key, and with a proof that verifies under it; every
    signer has reported the success of the key generation and has answered each
    request for nonces and the one for signature shares. *)
Theorem session_inevitable : inevitable (step (parties nodes) session_after) session_done start.
Proof.
  eapply inevitable_weaken.
  - apply (session_inevitable_of stamp fuel c then_sign (signed_with (group_key d final)) nodes
      (restarting c nodes (fun pre => session_plan (after pre <$> nodes) (fun l => last (pre ++ l))) a [])
      (a * dkg_room + (dkg_room + sign_room)) all_signed).
    apply (restarts_session stamp fuel c then_sign _ nodes total Hc Hids Hretry Hsign a Hagain); [exact final_session|lia].
  - intros x (Hall & Hlog & c1 & c' & sg & proof & Hrun & Hsig & Hv). split; [exact Hall|]. split; [exact Hlog|].
    exists c1, c', sg, proof. split; [|done]. unfold FrostCoordinator.run. by rewrite M_bind_eq, Hrun, M_bind_eq, Hsig.
Qed.
End Session.
End AsyncSession.

(** The toy signature of [Drifting] is the sum of the constants itself. *)
Module DriftingSign.
Import ToyCrypto.
Import DkgToy.
Import Drifting.

Lemma sum_fold (l : list Z) (x : Z) : foldl Z.add x l = x + foldr Z.add 0 l.
Proof. revert x. induction l as [|y l IH]; intros x; simpl; [lia|]. rewrite IH. lia. Qed.

#[export] Program Instance drifting_sign_laws : WstsSignLaws :=
  {| signer_ready w polys := forall p : Z * list Z, p ∈ polys -> p.2 <> [] |}.
Next Obligation. done. Qed.
Next Obligation. done. Qed.
Next Obligation. done. Qed.
Next Obligation. intros w shares polys Hv _. exact Hv. Qed.
Next Obligation.
  intros total threshold polys ws m Htot Hth Hids Hready _ Hkeys _ _.
  destruct ws as [|e ws]; [simpl in Hkeys; lia|]. apply Forall_cons in Hready as [Hready _].
  apply (f_equal length) in Hids. rewrite length_fmap, length_seqZ in Hids.
  eexists _, _, _. split; [|split; [reflexivity|split; [reflexivity|]]]; simpl.
  - rewrite bool_decide_true.
    + assert (forallb (fun p : Z * bytes => negb (bool_decide (p.2 = []))) polys = true) as ->; [|reflexivity].
      apply forallb_forall. intros p Hp%list_elem_of_In. by rewrite bool_decide_false by by apply Hready.
    + transitivity (Z.of_nat (Z.to_nat total)); [f_equal; exact Hids|lia].
  - apply bool_decide_true. symmetry. exact (sum_fold _ 0).
Qed.
End DriftingSign.

Module AsyncSessionWitness.
Import ToyCrypto.
Import ScriptNet.
Import Toy.
Import Drifting.
Import DriftingSign.
Import AsyncRestartWitness.
#[local] Instance four_attempts : Backoff := 4%nat.

Definition zero : DkgBegin := {| db_dkg_id := 0 |}.

(** Every log that an attempt, and that a key generation of the signers [nodes] can have. *)
Definition attempt_logs (nodes : list (SigningRound * Rng)) : list (list MessageTypes) :=
  shares ← permutations (nodes ≫= answers [MDkgBegin zero]);
  ends ← permutations ((fun s : SigningRound * Rng => public_end 0 s.1) <$> nodes);
  [concat [[MDkgBegin zero]; shares; ends]].
Definition complete_logs (nodes : list (SigningRound * Rng)) : list (list MessageTypes) :=
  shares ← permutations (nodes ≫= answers [MDkgBegin zero]);
  ends ← permutations ((fun s : SigningRound * Rng => public_end 0 s.1) <$> nodes);
  privates ← permutations (nodes ≫= (fun s => answers [MDkgPrivateBegin zero] (after (MDkgBegin zero :: shares ++ ends) s)));
  finals ← permutations ((fun s : SigningRound * Rng => success 0 s.1) <$> nodes);
  [concat [[MDkgBegin zero]; shares; ends; [MDkgPrivateBegin zero]; privates; finals]].
Definition drift_logs : list (list MessageTypes) :=
  pre ← attempt_logs drifters; app pre <$> complete_logs (after pre <$> drifters).

Definition drift_parity (l : list MessageTypes) (j : nat) : option bool :=
  parity [1; 2] (keyed_coordinator drift_coordinator (later 1 <$> drifters)) (ready_nodes drifters l) j.

Lemma attempt_listed nodes l : attempt drift_coordinator nodes l -> l ∈ attempt_logs nodes.
Proof.
  intros (hist & Hh & Hl & ->). destruct hist as [|h0 [|h1 [|h2 [|h3 hist]]]]; try done.
  destruct Hh as (-> & H1 & H2 & _). unfold attempt_logs.
  apply list_elem_of_bind. exists h1. split; [|by apply permutations_Permutation].
  apply list_elem_of_bind. exists h2. split; [by left|by apply permutations_Permutation].
Qed.

Lemma complete_listed nodes l : complete drift_coordinator nodes l -> l ∈ complete_logs nodes.
Proof.
  intros (hist & Hh & Hl & ->).
  destruct hist as [|h0 [|h1 [|h2 [|h3 [|h4 [|h5 [|h6 hist]]]]]]]; try done.
  destruct Hh as (-> & H1 & H2 & -> & H3 & H4). unfold complete_logs.
  apply list_elem_of_bind. exists h1. split; [|by apply permutations_Permutation].
  apply list_elem_of_bind. exists h2. split; [|by apply permutations_Permutation].
  apply list_elem_of_bind. exists h4. split; [|by apply permutations_Permutation].
  apply list_elem_of_bind. exists h5. split; [by left|by apply permutations_Permutation].
Qed.

Lemma generated_listed l : generated drift_coordinator drifters 1 l -> l ∈ drift_logs.
Proof.
  intros (pre & l' & -> & Ha & Hl). inversion Ha as [|i pre0 x Ha0 Hx]. subst. inversion Ha0. subst.
  apply list_elem_of_bind. exists x. split.
  - apply list_elem_of_fmap_2. by apply complete_listed.
  - apply attempt_listed. rewrite (list_fmap_id drifters : after [] <$> drifters = drifters) in Hx. exact Hx.
Qed.

Lemma drift_parities :
  forallb (fun l => bool_decide (drift_parity l 0 = Some false /\ drift_parity l 1 = Some true)) drift_logs = true.
Proof. by vm_compute. Qed.

Lemma drift_parity_at (l : list MessageTypes) : generated drift_coordinator drifters 1 l ->
  drift_parity l 0 = Some false /\ drift_parity l 1 = Some true.
Proof.
  intros Hl%generated_listed. pose proof drift_parities as Ht. rewrite forallb_forall in Ht.
  apply list_elem_of_In in Hl. specialize (Ht l Hl). by apply bool_decide_eq_true in Ht.
Qed.

(** The first key has an odd y, and so have the first nonces under the second. *)
Lemma session_inevitable_witness :
  inevitable (step (parties drifters) (session_after stamp_none 50 [1; 2] drift_coordinator drifters))
    (fun x => exists c1 c' sig proof,
       FrostCoordinator.run 50 (DkgSign [1; 2]) (coordinator_on stamp_none drift_coordinator (log x)) = (c', Ok tt) /\
       sign_message 50 [1; 2] c1 = (c', Ok (sig, proof)) /\
       schnorr_verify (WstsAggregator := drifting_aggregator) proof 12 [1; 2] = true)
    start.
Proof.
  eapply inevitable_weaken.
  - refine (session_inevitable stamp_none 50 [1; 2] drift_coordinator drifters 3 drifting_cluster
      _ _ _ _ _ 1 _ _ _ (fun _ => 1%nat) 1 _ _ _ _).
    + by compute_done.
    + done.
    + by eexists.
    + reflexivity.
    + done.
    + intros [|i] Hi; [run|lia].
    + run.
    + by vm_compute.
    + intros l _. reflexivity.
    + intros l [|j] Hl Hj; [exact (proj1 (drift_parity_at l Hl))|lia].
    + intros l Hl. exact (proj2 (drift_parity_at l Hl)).
    + apply Nat.ltb_lt. run.
  - intros x (_ & _ & c1 & c' & sg & proof & Hr & _ & Hs & Hv).
    exists c1, c', sg, proof. split; [exact Hr|]. split; [exact Hs|]. exact Hv.
Defined.
End AsyncSessionWitness.
