(* ===== verification/Http.v ===== *)
(** * [yarpc]: the HTTP/1.1 subset spoken by the relay

    A Rust [String] is its list of Unicode scalar values.  Reading turns every
    byte into the character of the same number ([read_byte()? as char]), writing
    encodes in UTF-8.  An input stream is the list of bytes still to be read;
    the output is the list of bytes written. *)
From S2P Require Import Prelude.

Abbreviation rstring := (list Z).

(** [std::io::Error]: the two kinds that occur. *)
Inductive HttpIoError := UnexpectedEof | InvalidData (what : string).

Definition str (s : string) : rstring := as_bytes s.

(** ** Strings *)

(** UTF-8 encoding of one scalar value. *)
Definition utf8_char (c : Z) : bytes :=
  if c <? 128 then [c]
  else if c <? 2048 then [192 + c / 64; 128 + c mod 64]
  else if c <? 65536 then [224 + c / 4096; 128 + c / 64 mod 64; 128 + c mod 64]
  else [240 + c / 262144; 128 + c / 4096 mod 64; 128 + c / 64 mod 64; 128 + c mod 64].
Definition utf8 (s : rstring) : bytes := s ≫= utf8_char.

(** [str::split_once], [str::split] with a character. *)
Fixpoint split_once (sep : Z) (s : rstring) : option (rstring * rstring) :=
  match s with
  | [] => None
  | c :: s' =>
      if c =? sep then Some ([], s')
      else '(l, r) ← split_once sep s'; Some (c :: l, r)
  end.

Fixpoint split (sep : Z) (s : rstring) : list rstring :=
  match s with
  | [] => [[]]
  | c :: s' =>
      if c =? sep then [] :: split sep s'
      else match split sep s' with
           | w :: ws => (c :: w) :: ws
           | [] => [[c]]
           end
  end.

(** [[..].join(" ")] *)
Fixpoint join (sep : Z) (l : list rstring) : rstring :=
  match l with
  | [] => []
  | [w] => w
  | w :: l' => w ++ sep :: join sep l'
  end.

(** [to_lowercase] and [trim], on the characters a byte can stand for. *)
Definition lower_char (c : Z) : Z :=
  if ((65 <=? c) && (c <=? 90)) || ((192 <=? c) && (c <=? 222) && negb (c =? 215))
  then c + 32 else c.
Definition to_lowercase (s : rstring) : rstring := lower_char <$> s.

Definition is_whitespace (c : Z) : bool :=
  ((9 <=? c) && (c <=? 13)) || (c =? 32) || (c =? 133) || (c =? 160).
Fixpoint trim_start (s : rstring) : rstring :=
  match s with
  | c :: s' => if is_whitespace c then trim_start s' else s
  | [] => []
  end.
Definition trim (s : rstring) : rstring := reverse (trim_start (reverse (trim_start s))).

(** Unsigned decimal: [to_string] and [str::parse] (an optional plus sign, at
    least one digit, no overflow). *)
Fixpoint dec_digits (fuel : nat) (n : Z) : rstring :=
  match fuel with
  | O => []
  | S fuel' => (if n <? 10 then [] else dec_digits fuel' (n / 10)) ++ [48 + n mod 10]
  end.
(** Twenty digits are enough for a [u64]. *)
Definition to_string (n : Z) : rstring := dec_digits 20 n.

Definition parse_digit (w : Z) (acc : option Z) (c : Z) : option Z :=
  n ← acc;
  if (48 <=? c) && (c <=? 57) then
    let n' := n * 10 + (c - 48) in
    if n' <? 2 ^ w then Some n' else None
  else None.
Definition parse_digits (w : Z) (s : rstring) : option Z := foldl (parse_digit w) (Some 0) s.
Definition parse_uint (w : Z) (s : rstring) : option Z :=
  match s with
  | [] => None
  | c :: s' =>
      if c =? 43 then match s' with [] => None | _ => parse_digits w s' end
      else parse_digits w s
  end.

(** ** [to_io_result.rs]: a missing or invalid value becomes [InvalidData] *)
Definition to_io_result {A : Type} (o : option A) : res HttpIoError A := ok_or o (InvalidData "option").

(** ** [read_ex.rs] *)
Abbreviation Read := (M bytes HttpIoError).

Definition read_byte : Read Z := fun i =>
  match i with
  | b :: i' => (i', Ok b)
  | [] => ([], Err UnexpectedEof)
  end.

Fixpoint read_string_until (b : Z) (buf : rstring) (i : bytes) : bytes * res HttpIoError rstring :=
  match i with
  | [] => ([], Err UnexpectedEof)
  | c :: i' => if c =? b then (i', Ok buf) else read_string_until b (buf ++ [c]) i'
  end.

(** [vec![0; len]] panics on more than [isize::MAX] bytes; that the memory for
    fewer may be lacking is left out. *)
Definition isize_max : Z := 2 ^ 63 - 1.
Definition read_exact_vec (len : Z) : Read bytes := fun i =>
  if isize_max <? len then (i, Panic)
  else if Z.of_nat (length i) <? len then ([], Err UnexpectedEof)
  else (drop (Z.to_nat len) i, Ok (take (Z.to_nat len) i)).

(** ** [http/message.rs] *)
Abbreviation Headers := (gmap rstring rstring).

(** The order in which [HashMap::iter] visits the headers. *)
Class HeaderOrder := {
  header_entries : Headers -> list (rstring * rstring);
  header_entries_perm : forall h, header_entries h ≡ₚ map_to_list h
}.

Definition PROTOCOL : rstring := str "HTTP/1.1".
Definition CONTENT_LENGTH : rstring := str "content-length".
Definition CR : Z := 13.
Definition LF : Z := 10.
Definition EOL : bytes := [CR; LF].

(** [trait Message] *)
Class HttpMessage (T : Type) := {
  parse : list rstring -> Headers -> bytes -> res HttpIoError T;
  first_line : T -> list rstring;
  headers : T -> Headers;
  content : T -> bytes
}.

Definition read_line : Read rstring :=
  result ← read_string_until CR [];
  b ← read_byte;
  if b =? LF then mret result else throw (InvalidData "invalid HTTP line").

Definition parse_header (line : rstring) (acc : Z * Headers) : res HttpIoError (Z * Headers) :=
  let '(content_length, hs) := acc in
  '(name, value) ← to_io_result (split_once 58 line);
  let name := to_lowercase name in
  let value := trim value in
  if bool_decide (name = CONTENT_LENGTH) then
    len ← ok_or (parse_uint 64 value) (InvalidData "parse");
    mret (len, hs)
  else mret (content_length, <[name := value]> hs).

(** The header loop; each line takes at least two bytes, so the length of the
    input is enough fuel ([read_headers_completes]). *)
Fixpoint read_headers (fuel : nat) (acc : Z * Headers) : Read (Z * Headers) :=
  match fuel with
  | O => lift Diverge
  | S fuel' =>
      line ← read_line;
      match line with
      | [] => mret acc
      | _ => acc ← lift (parse_header line acc); read_headers fuel' acc
      end
  end.

Section Message.
Context {HO : HeaderOrder}.

Definition read `{HttpMessage T} : Read T :=
  l ← read_line;
  i ← get_st;
  '(content_length, hs) ← read_headers (S (length i)) (0, ∅);
  body ← read_exact_vec content_length;
  lift (parse (split 32 l) hs body).

Definition write_header (k v : bytes) : bytes := k ++ [58] ++ v ++ EOL.

Definition write `{HttpMessage T} (self : T) : bytes :=
  utf8 (join 32 (first_line self)) ++ EOL ++
  (header_entries (headers self) ≫= fun '(k, v) => write_header (utf8 k) (utf8 v)) ++
  (if 0 <? Z.of_nat (length (content self)) then
     write_header (utf8 CONTENT_LENGTH) (utf8 (to_string (Z.of_nat (length (content self)))))
   else []) ++
  EOL ++ content self.
End Message.

(** ** [http/method.rs], [http/request.rs], [http/response.rs] *)
Inductive Method := GET | POST.
#[export] Instance Method_eq_dec : EqDecision Method.
Proof. solve_decision. Defined.

Definition to_str (m : Method) : rstring := match m with GET => str "GET" | POST => str "POST" end.
Definition method_from_str (s : rstring) : res HttpIoError Method :=
  if bool_decide (s = str "GET") then Ok GET
  else if bool_decide (s = str "POST") then Ok POST
  else Err (InvalidData "unknown HTTP method").

Record Request := {
  rq_method : Method;
  rq_url : rstring;
  rq_protocol : rstring;
  rq_headers : Headers;
  rq_content : bytes
}.

Definition Request_new (m : Method) (url : rstring) (hs : Headers) (c : bytes) : Request :=
  {| rq_method := m; rq_url := url; rq_protocol := PROTOCOL; rq_headers := hs; rq_content := c |}.

Definition Request_parse (l : list rstring) (hs : Headers) (c : bytes) : res HttpIoError Request :=
  m ← to_io_result (l !! 0%nat);
  m ← method_from_str m;
  url ← to_io_result (l !! 1%nat);
  protocol ← to_io_result (l !! 2%nat);
  mret {| rq_method := m; rq_url := url; rq_protocol := protocol; rq_headers := hs; rq_content := c |}.

#[export] Instance Request_Message : HttpMessage Request := {|
  parse := Request_parse;
  first_line r := [to_str (rq_method r); rq_url r; rq_protocol r];
  headers := rq_headers;
  content := rq_content
|}.

Record Response := {
  rs_protocol : rstring;
  rs_code : Z;
  rs_phrase : rstring;
  rs_headers : Headers;
  rs_content : bytes
}.

Definition Response_new (code : Z) (phrase : rstring) (hs : Headers) (c : bytes) : Response :=
  {| rs_protocol := PROTOCOL; rs_code := code; rs_phrase := phrase; rs_headers := hs;
     rs_content := c |}.

Definition Response_parse (l : list rstring) (hs : Headers) (c : bytes) : res HttpIoError Response :=
  protocol ← to_io_result (l !! 0%nat);
  code ← to_io_result (l !! 1%nat);
  code ← ok_or (parse_uint 16 code) (InvalidData "parse");
  mret {| rs_protocol := protocol; rs_code := code; rs_phrase := default [] (l !! 2%nat);
          rs_headers := hs; rs_content := c |}.

#[export] Instance Response_Message : HttpMessage Response := {|
  parse := Response_parse;
  first_line r := [rs_protocol r; to_string (rs_code r); rs_phrase r];
  headers := rs_headers;
  content := rs_content
|}.

(** ** [http/url.rs] *)
Definition query_item (v : rstring) : rstring * rstring := default (v, []) (split_once 61 v).
(** Collecting into a [HashMap]: the last occurrence of a name counts. *)
Definition url_query (url : rstring) : gmap rstring rstring :=
  match split_once 63 url with
  | Some (_, query) =>
      if bool_decide (query = []) then ∅
      else foldl (fun m v => let '(k, x) := query_item v in <[k := x]> m) ∅ (split 38 query)
  | None => ∅
  end.

(** [trait Call] *)
Class Call (T : Type) := call : Request -> M T HttpIoError Response.

(** ** Lemmas *)
Section Lemmas.
Implicit Types (s w rest : rstring).

Definition ascii s : Prop := Forall (fun c => 0 <= c < 128) s.

Lemma utf8_ascii s : ascii s -> utf8 s = s.
Proof.
  induction 1 as [|c s Hc _ IH]; [done|]. unfold utf8 in *. rewrite bind_cons, IH.
  unfold utf8_char. by rewrite (proj2 (Z.ltb_lt c 128)) by lia.
Qed.

Lemma read_string_until_app (b : Z) (buf s rest : rstring) :
  b ∉ s -> read_string_until b buf (s ++ b :: rest) = (rest, Ok (buf ++ s)).
Proof.
  revert buf; induction s as [|c s IH]; intros buf Hb; simpl.
  - by rewrite Z.eqb_refl, app_nil_r.
  - rewrite (proj2 (Z.eqb_neq c b)) by set_solver. rewrite IH by set_solver. by rewrite <-app_assoc.
Qed.

Lemma read_line_app s rest : CR ∉ s -> read_line (s ++ EOL ++ rest) = (rest, Ok s).
Proof.
  intros Hs. unfold read_line, EOL. rewrite M_bind_eq. simpl.
  by rewrite read_string_until_app.
Qed.

Lemma split_once_app (sep : Z) (l r : rstring) :
  sep ∉ l -> split_once sep (l ++ sep :: r) = Some (l, r).
Proof.
  induction l as [|c l IH]; intros Hl; simpl.
  - by rewrite Z.eqb_refl.
  - rewrite (proj2 (Z.eqb_neq c sep)) by set_solver. by rewrite IH by set_solver.
Qed.

Lemma split_once_None (sep : Z) s : split_once sep s = None <-> sep ∉ s.
Proof.
  induction s as [|c s IH]; simpl; [set_solver|].
  destruct (Z.eqb_spec c sep) as [->|Hne]; [set_solver|].
  destruct (split_once sep s) as [[l r]|]; simpl; set_solver.
Qed.

Lemma split_word (sep : Z) w : sep ∉ w -> split sep w = [w].
Proof.
  induction w as [|c w IH]; intros Hw; simpl; [done|].
  rewrite (proj2 (Z.eqb_neq c sep)) by set_solver. by rewrite IH by set_solver.
Qed.

Lemma split_cons (sep : Z) w s : sep ∉ w -> split sep (w ++ sep :: s) = w :: split sep s.
Proof.
  induction w as [|c w IH]; intros Hw; simpl; [by rewrite Z.eqb_refl|].
  rewrite (proj2 (Z.eqb_neq c sep)) by set_solver. by rewrite IH by set_solver.
Qed.

Lemma split_join (sep : Z) (l : list rstring) :
  l <> [] -> Forall (fun w => sep ∉ w) l -> split sep (join sep l) = l.
Proof.
  intros Hne Hl. induction Hl as [|w l Hw Hl IH]; [done|].
  destruct l as [|w' l]; [by apply split_word|].
  change (join sep (w :: w' :: l)) with (w ++ sep :: join sep (w' :: l)).
  rewrite split_cons by done. by rewrite IH.
Qed.

(** *** Decimal numbers *)
Lemma parse_digit_Some (w : Z) (acc : Z) (c : Z) :
  48 <= c <= 57 -> acc * 10 + (c - 48) < 2 ^ w ->
  parse_digit w (Some acc) c = Some (acc * 10 + (c - 48)).
Proof.
  intros Hc Hlt. unfold parse_digit. cbn [mbind option_bind].
  rewrite (proj2 (Z.leb_le 48 c)), (proj2 (Z.leb_le c 57)) by lia. cbn [andb].
  by rewrite (proj2 (Z.ltb_lt _ (2 ^ w))).
Qed.

Lemma dec_digits_spec (fuel : nat) (n : Z) :
  0 <= n < 10 ^ Z.of_nat (S fuel) ->
  dec_digits (S fuel) n <> [] /\
  Forall (fun c => 48 <= c <= 57) (dec_digits (S fuel) n) /\
  forall w : Z, n < 2 ^ w -> parse_digits w (dec_digits (S fuel) n) = Some n.
Proof.
  revert n; induction fuel as [|fuel IH]; intros n Hn.
  - assert (n mod 10 = n) as Hm by (apply Z.mod_small; lia). simpl.
    rewrite (proj2 (Z.ltb_lt n 10)) by lia. simpl. rewrite Hm. split_and!; [done| |].
    + constructor; [lia|constructor].
    + intros w Hw. unfold parse_digits. cbn [foldl fold_left].
      rewrite parse_digit_Some by lia. f_equal. lia.
  - assert (0 <= n / 10 < 10 ^ Z.of_nat (S fuel)) as Hd.
    { rewrite Nat2Z.inj_succ, Z.pow_succ_r in Hn by lia.
      split; [apply Z.div_pos; lia|]. apply Z.div_lt_upper_bound; lia. }
    pose proof (Z.mod_pos_bound n 10 ltac:(lia)) as Hm.
    destruct (IH (n / 10) Hd) as (Hne & Hf & Hp).
    change (dec_digits (S (S fuel)) n)
      with ((if n <? 10 then [] else dec_digits (S fuel) (n / 10)) ++ [48 + n mod 10]).
    split_and!.
    + by intros [_ [=]]%app_eq_nil.
    + apply Forall_app; split; [by destruct (n <? 10)|]. constructor; [lia|constructor].
    + intros w Hw. unfold parse_digits. rewrite foldl_app. cbn [foldl fold_left].
      assert (foldl (parse_digit w) (Some 0) (if n <? 10 then [] else dec_digits (S fuel) (n / 10))
              = Some (n / 10)) as ->.
      { destruct (Z.ltb_spec n 10).
        - simpl. f_equal. symmetry. apply Z.div_small. lia.
        - apply Hp. assert (n / 10 <= n) by (apply Z.div_le_upper_bound; lia). lia. }
      pose proof (Z.div_mod n 10 ltac:(lia)).
      rewrite parse_digit_Some by lia. f_equal. lia.
Qed.

Lemma to_string_digits (n : Z) :
  0 <= n < 2 ^ 64 -> to_string n <> [] /\ Forall (fun c => 48 <= c <= 57) (to_string n).
Proof. intros Hn. destruct (dec_digits_spec 19 n) as (H1 & H2 & _); [lia|done]. Qed.

Lemma parse_to_string (w : Z) (n : Z) : 0 <= n < 2 ^ w -> w <= 64 -> parse_uint w (to_string n) = Some n.
Proof.
  intros Hn Hw. assert (2 ^ w <= 2 ^ 64) by (apply Z.pow_le_mono_r; lia).
  destruct (dec_digits_spec 19 n) as (H1 & H2 & H3); [lia|].
  unfold parse_uint, to_string. destruct (dec_digits 20 n) as [|c l] eqn:Hd; [done|].
  apply Forall_cons in H2 as [Hc _]. rewrite (proj2 (Z.eqb_neq c 43)) by lia. apply H3. lia.
Qed.

Lemma trim_digits s : Forall (fun c => 48 <= c <= 57) s -> trim s = s.
Proof.
  assert (forall s, Forall (fun c => 48 <= c <= 57) s -> trim_start s = s) as Ht.
  { intros [|c s'] Hs; [done|]. apply Forall_cons in Hs as [Hc _]. simpl.
    unfold is_whitespace.
    destruct (Z.leb_spec c 13), (Z.eqb_spec c 32), (Z.eqb_spec c 133), (Z.eqb_spec c 160); try lia.
    by destruct (9 <=? c). }
  intros Hs. unfold trim. rewrite (Ht s) by done. rewrite Ht; [apply reverse_involutive|].
  by rewrite reverse_Permutation.
Qed.

(** *** Header lines *)
Definition name_ok (k : rstring) : Prop :=
  Forall (fun c => 0 <= c < 128 /\ c <> 58 /\ c <> CR /\ lower_char c = c) k /\ k <> CONTENT_LENGTH.
Definition value_ok (v : rstring) : Prop :=
  Forall (fun c => 0 <= c < 128 /\ c <> CR) v /\ trim v = v.

Lemma Forall_not_elem (P : Z -> Prop) (x : Z) s : Forall P s -> ~ P x -> x ∉ s.
Proof. rewrite Forall_forall. intros Hs HP Hx. by apply HP, Hs. Qed.

Lemma to_lowercase_id s : Forall (fun c => lower_char c = c) s -> to_lowercase s = s.
Proof. induction 1 as [|c s Hc _ IH]; [done|]. unfold to_lowercase in *.
  rewrite fmap_cons, Hc. by f_equal. Qed.

Lemma name_ok_facts (k : rstring) :
  name_ok k -> ascii k /\ (58 ∉ k) /\ (CR ∉ k) /\ to_lowercase k = k /\ k <> CONTENT_LENGTH.
Proof.
  intros [Hk Hne]. split_and!; [| | | |done].
  - eapply Forall_impl; [exact Hk|]. naive_solver.
  - eapply Forall_not_elem; [exact Hk|]. naive_solver.
  - eapply Forall_not_elem; [exact Hk|]. naive_solver.
  - apply to_lowercase_id. eapply Forall_impl; [exact Hk|]. naive_solver.
Qed.

Lemma value_ok_facts (v : rstring) : value_ok v -> ascii v /\ (CR ∉ v) /\ trim v = v.
Proof.
  intros [Hv Ht]. split_and!; [| |done].
  - eapply Forall_impl; [exact Hv|]. naive_solver.
  - eapply Forall_not_elem; [exact Hv|]. naive_solver.
Qed.

(** One line of the header loop. *)
Lemma read_headers_line (fuel : nat) (line : rstring) acc rest :
  CR ∉ line -> line <> [] ->
  read_headers (S fuel) acc (line ++ EOL ++ rest) =
  match parse_header line acc with
  | Ok acc' => read_headers fuel acc' rest
  | Err e => (rest, Err e)
  | Panic => (rest, Panic)
  | Diverge => (rest, Diverge)
  end.
Proof.
  intros Hcr Hne. cbn [read_headers]. rewrite M_bind_eq, read_line_app by done.
  destruct line; [done|]. rewrite M_bind_eq. unfold lift. by destruct (parse_header _ acc).
Qed.

Lemma read_headers_end (fuel : nat) acc rest :
  read_headers (S fuel) acc (EOL ++ rest) = (rest, Ok acc).
Proof.
  cbn [read_headers]. rewrite M_bind_eq.
  change (EOL ++ rest) with ([] ++ EOL ++ rest). by rewrite read_line_app by apply not_elem_of_nil.
Qed.

Lemma write_header_line (k v : bytes) rest :
  write_header k v ++ rest = (k ++ 58 :: v) ++ EOL ++ rest.
Proof. unfold write_header. by rewrite <-!app_assoc. Qed.

Lemma read_headers_entry (fuel : nat) (k v : rstring) (n : Z) (hs : Headers) rest :
  name_ok k -> value_ok v ->
  read_headers (S fuel) (n, hs) (write_header (utf8 k) (utf8 v) ++ rest) =
  read_headers fuel (n, <[k := v]> hs) rest.
Proof.
  intros (Hka & Hk58 & Hkcr & Hkl & Hkc)%name_ok_facts (Hva & Hvcr & Hvt)%value_ok_facts.
  rewrite !utf8_ascii, write_header_line by done. rewrite read_headers_line.
  - unfold parse_header. rewrite split_once_app by done. simpl.
    by rewrite Hkl, Hvt, bool_decide_false by done.
  - unfold CR in *. set_solver.
  - by destruct k.
Qed.

Lemma read_headers_length (fuel : nat) (len : Z) (n : Z) (hs : Headers) rest :
  0 <= len < 2 ^ 64 ->
  read_headers (S fuel) (n, hs)
    (write_header (utf8 CONTENT_LENGTH) (utf8 (to_string len)) ++ rest) =
  read_headers fuel (len, hs) rest.
Proof.
  intros Hlen. destruct (to_string_digits len Hlen) as [Hne Hd].
  assert (ascii (to_string len)) as Ha by
    (eapply Forall_impl; [exact Hd|]; simpl; intros; lia).
  rewrite (utf8_ascii (to_string len)), (utf8_ascii CONTENT_LENGTH) by
    (try done; apply (bool_decide_unpack _); vm_compute; exact I).
  rewrite write_header_line, read_headers_line.
  - unfold parse_header. rewrite split_once_app by by_compute.
    cbn [to_io_result ok_or mbind res_bind].
    change (to_lowercase CONTENT_LENGTH) with CONTENT_LENGTH.
    rewrite bool_decide_true by done. rewrite trim_digits by done.
    by rewrite parse_to_string.
  - apply not_elem_of_app; split; [by_compute|].
    apply not_elem_of_cons; split; [done|]. unfold CR.
    eapply Forall_not_elem; [exact Hd|]. simpl. lia.
  - done.
Qed.

Definition entries_ok (l : list (rstring * rstring)) : Prop :=
  Forall (fun e => name_ok e.1 /\ value_ok e.2) l.

Lemma read_headers_entries (l : list (rstring * rstring)) (fuel : nat) (n : Z) (hs : Headers) rest :
  entries_ok l ->
  read_headers (length l + fuel) (n, hs)
    ((l ≫= fun '(k, v) => write_header (utf8 k) (utf8 v)) ++ rest) =
  read_headers fuel (n, foldl (fun h e => <[e.1 := e.2]> h) hs l) rest.
Proof.
  intros Hl. revert hs. induction Hl as [|[k v] l [Hk Hv] _ IH]; intros hs; [done|].
  rewrite bind_cons, <-app_assoc. simpl length. simpl "+"%nat.
  rewrite read_headers_entry by done. by rewrite IH.
Qed.

Lemma foldl_insert_entries (h : Headers) (l : list (rstring * rstring)) :
  l ≡ₚ map_to_list h -> foldl (fun h e => <[e.1 := e.2]> h) ∅ l = h.
Proof.
  intros Hp. assert (NoDup l.*1) as Hnd by (rewrite Hp; apply NoDup_fst_map_to_list).
  transitivity (list_to_map (reverse l) : Headers).
  - clear. induction l as [|[k v] l IH] using rev_ind; [done|].
    rewrite foldl_app, reverse_app. simpl. by rewrite IH.
  - rewrite <-(list_to_map_to_list h). apply list_to_map_proper.
    + by rewrite reverse_Permutation.
    + by rewrite reverse_Permutation.
Qed.
End Lemmas.

(** ** Properties *)
Section Properties.
Context {HO : HeaderOrder}.
Implicit Types (rest : bytes).

Definition word_ok (w : rstring) : Prop := Forall (fun c => 0 <= c < 128 /\ c <> CR /\ c <> 32) w.
Definition headers_ok (h : Headers) : Prop := map_Forall (fun k v => name_ok k /\ value_ok v) h.

Record message_ok `{HttpMessage T} (m : T) : Prop := {
  ok_first_line : first_line m <> [] /\ Forall word_ok (first_line m);
  ok_headers : headers_ok (headers m);
  ok_content : Z.of_nat (length (content m)) <= isize_max;
  ok_parse : parse (first_line m) (headers m) (content m) = Ok m
}.

Lemma word_ok_facts (w : rstring) : word_ok w -> ascii w /\ (32 ∉ w) /\ (CR ∉ w).
Proof.
  intros Hw. split_and!.
  - eapply Forall_impl; [exact Hw|]. naive_solver.
  - eapply Forall_not_elem; [exact Hw|]. naive_solver.
  - eapply Forall_not_elem; [exact Hw|]. naive_solver.
Qed.

Lemma join_ok (l : list rstring) :
  Forall word_ok l -> ascii (join 32 l) /\ (CR ∉ join 32 l).
Proof.
  induction 1 as [|w l (Ha & _ & Hc)%word_ok_facts Hl [IHa IHc]].
  { split; [constructor|apply not_elem_of_nil]. }
  destruct l as [|w' l]; [done|].
  change (join 32 (w :: w' :: l)) with (w ++ 32 :: join 32 (w' :: l)). split.
  - apply Forall_app; split; [done|]. constructor; [lia|done].
  - apply not_elem_of_app; split; [done|]. apply not_elem_of_cons; split; [done|done].
Qed.

Lemma entries_ok_of (h : Headers) : headers_ok h -> entries_ok (header_entries h).
Proof.
  intros Hh. unfold entries_ok. rewrite header_entries_perm. apply Forall_forall.
  intros [k v] Hkv%elem_of_map_to_list. by apply Hh.
Qed.

Lemma read_exact_vec_app (b rest : bytes) :
  Z.of_nat (length b) <= isize_max ->
  read_exact_vec (Z.of_nat (length b)) (b ++ rest) = (rest, Ok b).
Proof.
  intros Hb. unfold read_exact_vec. rewrite (proj2 (Z.ltb_ge _ _)) by done.
  rewrite (proj2 (Z.ltb_ge (Z.of_nat (length (b ++ rest))) _)) by (rewrite length_app; lia).
  by rewrite Nat2Z.id, take_app_length, drop_app_length.
Qed.

Lemma header_lines_length (l : list (rstring * rstring)) :
  (length l <= length (l ≫= fun '(k, v) => write_header (utf8 k) (utf8 v)))%nat.
Proof.
  induction l as [|[k v] l IH]; [done|]. rewrite bind_cons, length_app. unfold write_header at 1.
  rewrite !length_app. cbn [length]. lia.
Qed.

(** Framing: reading back a written message, whatever follows it. *)
Lemma read_write_message `{HttpMessage T} (m : T) rest :
  message_ok m -> read (write m ++ rest) = (rest, Ok m).
Proof.
  intros [[Hne Hw] Hh Hc Hp]. unfold write, read.
  destruct (join_ok _ Hw) as [Ha Hcr]. rewrite (utf8_ascii (join 32 _)) by done.
  rewrite <-!app_assoc, M_bind_eq, read_line_app by done.
  rewrite split_join; [|done|eapply Forall_impl; [exact Hw|]; intros w Hww; by apply word_ok_facts].
  rewrite M_bind_eq. unfold get_st at 1. rewrite M_bind_eq.
  pose proof (entries_ok_of _ Hh) as He. pose proof (header_entries_perm (headers m)) as Hperm.
  set (l := header_entries (headers m)) in *.
  pose proof (header_lines_length l) as Hll.
  match goal with |- context [read_headers (S (length ?i))] =>
    assert (exists k, S (length i) = (length l + S (S k))%nat) as [k ->] end.
  { match goal with |- exists k, S (length ?i) = _ =>
      assert (length l + 1 <= length i)%nat; [|exists (length i - length l - 1)%nat; lia] end.
    rewrite !length_app. change (length EOL) with 2%nat. lia. }
  rewrite read_headers_entries, (foldl_insert_entries (headers m)) by done.
  destruct (Z.ltb_spec 0 (Z.of_nat (length (content m)))) as [Hlt|Hge].
  - rewrite read_headers_length by (unfold isize_max in Hc; lia).
    rewrite read_headers_end. rewrite M_bind_eq, read_exact_vec_app by done.
    unfold lift. by rewrite Hp.
  - change ([] ++ EOL ++ content m ++ rest) with (EOL ++ content m ++ rest).
    rewrite read_headers_end. rewrite M_bind_eq.
    replace 0 with (Z.of_nat (length (content m))) by lia.
    rewrite read_exact_vec_app by done. unfold lift. by rewrite Hp.
Qed.

Definition request_ok (r : Request) : Prop :=
  word_ok (rq_url r) /\ word_ok (rq_protocol r) /\ headers_ok (rq_headers r) /\
  Z.of_nat (length (rq_content r)) <= isize_max.

Definition response_ok (r : Response) : Prop :=
  word_ok (rs_protocol r) /\ in_uint 16 (rs_code r) /\ word_ok (rs_phrase r) /\
  headers_ok (rs_headers r) /\ Z.of_nat (length (rs_content r)) <= isize_max.

Lemma request_message_ok (r : Request) : request_ok r -> message_ok r.
Proof.
  intros (Hu & Hp & Hh & Hc). split; [|done|done|].
  - split; [done|]. repeat constructor; try done.
    destruct (rq_method r); by_compute.
  - simpl. unfold Request_parse. simpl. by destruct r as [[] ? ? ? ?].
Qed.

Lemma response_message_ok (r : Response) : response_ok r -> message_ok r.
Proof.
  intros (Hpr & Hcode & Hph & Hh & Hc). unfold in_uint in Hcode.
  split; [|done|done|].
  - split; [done|]. repeat (constructor; [try done|]); [|constructor].
    destruct (to_string_digits (rs_code r)) as [_ Hd]; [lia|].
    eapply Forall_impl; [exact Hd|]. unfold CR. simpl. intros; lia.
  - simpl. unfold Response_parse. simpl. rewrite parse_to_string by lia. simpl. by destruct r.
Qed.

(** C26: a request that is written can be read back: the reader recovers it
    exactly and stops at its end, so several requests can follow each other on a
    stream.  (ASCII words without spaces, trimmed header values, lower-case names;
    the order in which the headers are written does not matter.) *)
Theorem request_roundtrip (r : Request) rest (Hok : request_ok r) :
  read (write r ++ rest) = (rest, Ok r).
Proof. by apply read_write_message, request_message_ok. Qed.

(** the same for a response whose reason phrase is a single word. *)
Theorem response_roundtrip (r : Response) rest (Hok : response_ok r) :
  read (write r ++ rest) = (rest, Ok r).
Proof. by apply read_write_message, response_message_ok. Qed.

(** *** Arbitrary input *)
Lemma read_string_until_shrinks (b : Z) (buf : rstring) (i i' : bytes) (s : rstring) :
  read_string_until b buf i = (i', Ok s) -> (length i' < length i)%nat.
Proof.
  revert buf; induction i as [|c i IH]; intros buf; simpl; [done|].
  destruct (c =? b); [intros [= <- _]; lia|]. intros ?%IH. lia.
Qed.

Lemma read_string_until_completes (b : Z) (buf : rstring) (i : bytes) :
  completes (read_string_until b buf i).2 = true.
Proof.
  revert buf; induction i as [|c i IH]; intros buf; simpl; [done|]. by destruct (c =? b).
Qed.

Lemma read_line_completes (i : bytes) :
  completes (read_line i).2 = true /\
  (forall i' s, read_line i = (i', Ok s) -> (length i' < length i)%nat).
Proof.
  unfold read_line. rewrite M_bind_eq.
  pose proof (read_string_until_completes CR [] i) as Hc.
  destruct (read_string_until CR [] i) as [i1 [s| | |]] eqn:Hs; try done.
  apply read_string_until_shrinks in Hs. rewrite M_bind_eq.
  destruct i1 as [|b i1]; simpl in *; [done|]. destruct (b =? LF); simpl; [|done].
  split; [done|]. intros i' s' [= <- _]. lia.
Qed.

Lemma parse_header_completes (line : rstring) acc : completes (parse_header line acc) = true.
Proof.
  destruct acc as [n h]. unfold parse_header. destruct (split_once 58 line) as [[k v]|]; [|done].
  simpl. case_bool_decide; [|done]. by destruct (parse_uint 64 (trim v)).
Qed.

Lemma read_headers_completes (fuel : nat) acc (i : bytes) :
  (length i < fuel)%nat -> completes (read_headers fuel acc i).2 = true.
Proof.
  revert acc i; induction fuel as [|fuel IH]; intros acc i Hf; [lia|].
  cbn [read_headers]. rewrite M_bind_eq. destruct (read_line_completes i) as [Hc Hs].
  destruct (read_line i) as [i1 [line| | |]] eqn:Hl; try done.
  specialize (Hs i1 line eq_refl). destruct line as [|c line]; [done|].
  rewrite M_bind_eq. unfold lift. pose proof (parse_header_completes (c :: line) acc) as Hp.
  destruct (parse_header _ acc) as [acc'| | |]; try done. apply IH. lia.
Qed.

(** C27: reading a message from any input ends, and the only way it can panic is
    a declared content length above [isize::MAX]. *)
Theorem read_ends (i : bytes) :
  (read (T := Request) i).2 <> Diverge /\
  ((read (T := Request) i).2 = Panic <->
   exists line i1 n h i2, read_line i = (i1, Ok line) /\
     read_headers (S (length i1)) (0, ∅) i1 = (i2, Ok (n, h)) /\ isize_max < n).
Proof.
  unfold read. rewrite M_bind_eq. destruct (read_line_completes i) as [Hc _].
  destruct (read_line i) as [i1 [line| | |]] eqn:Hl; try done.
  2: { split; [done|]. split; [done|]. intros (?&?&?&?&?&[=]&_). }
  rewrite M_bind_eq. unfold get_st. rewrite M_bind_eq.
  pose proof (read_headers_completes (S (length i1)) (0, ∅) i1 ltac:(lia)) as Hh.
  destruct (read_headers _ _ i1) as [i2 [[n h]| | |]] eqn:Hr; try done.
  2: { split; [done|]. split; [done|]. intros (?&?&?&?&?&?&Hr'&_). simplify_eq. congruence. }
  rewrite M_bind_eq. unfold read_exact_vec.
  destruct (Z.ltb_spec isize_max n) as [Hbig|Hsmall].
  - split; [done|]. split; [|done]. intros _. by exists line, i1, n, h, i2.
  - destruct (Z.of_nat (length i2) <? n); unfold lift; cbn [fst snd parse Request_Message].
    + split; [done|]. split; [done|]. intros (l'&i1'&n'&h'&i2'&Heq&Hr'&Hbig).
      assert (i1' = i1) as -> by congruence. rewrite Hr in Hr'. injection Hr' as _ -> _. lia.
    + assert (forall l c, completes (Request_parse l h c) = true) as Hp.
      { intros l c. unfold Request_parse. destruct (l !! 0%nat) as [m|]; [|done]. simpl.
        unfold method_from_str. repeat case_bool_decide; simpl; try done;
          destruct (l !! 1%nat), (l !! 2%nat); done. }
      specialize (Hp (split 32 line) (take (Z.to_nat n) i2)).
      destruct (Request_parse _ _ _); try done; (split; [done|]); (split; [done|]);
        intros (l'&i1'&n'&h'&i2'&Heq&Hr'&Hbig);
        assert (i1' = i1) as -> by congruence; rewrite Hr in Hr'; injection Hr' as _ -> _; lia.
Qed.

(** a request that declares a content length between [2^63] and [2^64 - 1]
    makes the reader panic instead of failing. *)
Theorem huge_content_length_panics (line : rstring) (n : Z) rest
    (Hline : CR ∉ line) (Hn : isize_max < n < 2 ^ 64) :
  (read (T := Request)
     (line ++ EOL ++ write_header (utf8 CONTENT_LENGTH) (utf8 (to_string n)) ++ EOL ++ rest)).2
  = Panic.
Proof.
  unfold read. rewrite M_bind_eq, read_line_app by done.
  rewrite M_bind_eq. unfold get_st at 1. rewrite M_bind_eq.
  match goal with |- context [read_headers (S (length ?i))] =>
    assert (exists k, S (length i) = S (S k)) as [k ->] end.
  { exists (length (write_header (utf8 CONTENT_LENGTH) (utf8 (to_string n)) ++ EOL ++ rest) - 1)%nat.
    rewrite !length_app. change (length EOL) with 2%nat. lia. }
  rewrite read_headers_length by (unfold isize_max in Hn; lia).
  rewrite read_headers_end, M_bind_eq. unfold read_exact_vec.
  by rewrite (proj2 (Z.ltb_lt isize_max n)) by lia.
Qed.
End Properties.

Module HttpWitness.
#[export] Instance entries_order : HeaderOrder :=
  {| header_entries h := map_to_list h; header_entries_perm h := Permutation_refl _ |}.

Definition request : Request :=
  Request_new POST (str "/") {[str "hello" := str "someThing"]} (str "Hello!").
Definition response : Response := Response_new 200 (str "OK") ∅ [255; 0; 13].

Lemma request_ok_example : request_ok request.
Proof.
  split_and!; by_compute.
Qed.

Lemma request_roundtrip_witness :
  read (write request ++ str "GET") = (str "GET", Ok request).
Proof. apply (request_roundtrip request (str "GET")). exact request_ok_example. Defined.

Lemma response_roundtrip_witness : read (write response) = ([], Ok response).
Proof.
  rewrite <-(app_nil_r (write response)). apply (response_roundtrip response []).
  split_and!; by_compute.
Defined.

Lemma huge_content_length_panics_witness :
  (read (T := Request)
     (str "POST / HTTP/1.1" ++ EOL ++
      write_header (utf8 CONTENT_LENGTH) (utf8 (to_string (2 ^ 63))) ++ EOL ++ [])).2 = Panic.
Proof.
  apply (huge_content_length_panics (str "POST / HTTP/1.1") (2 ^ 63) []).
  - by_compute.
  - unfold isize_max. lia.
Defined.
End HttpWitness.
