(* ===== verification/Relay.v ===== *)
(** * [relay-server]: the message relay

    [State] is the storage interface ([state.rs]); [MemState] stores messages in
    memory; [Server] serves a [MemState] over HTTP; [ProxyState] is a [State] that
    forwards to any [Call], in particular to a [Server].  The theorems show that
    a client of the proxy cannot tell it from the memory state behind it, and that
    every client reads all the messages in posting order. *)
From S2P Require Import Prelude Http.

(** [trait State] *)
Class State (S : Type) := {
  state_get : rstring -> M S HttpIoError bytes;
  state_post : bytes -> M S HttpIoError unit
}.

(** ** [mem_state.rs]

    The indices are those of a [Vec], so adding one to them cannot overflow. *)
Record MemState := { highwaters : gmap rstring nat; queue : list bytes }.

Definition MemState_default : MemState := {| highwaters := ∅; queue := [] |}.

Definition MemState_get (node_id : rstring) : M MemState HttpIoError bytes := fun s =>
  let first_unread :=
    match highwaters s !! node_id with Some last_read => S last_read | None => O end in
  match queue s !! first_unread with
  | Some r => ({| highwaters := <[node_id := first_unread]> (highwaters s); queue := queue s |}, Ok r)
  | None => (s, Ok [])
  end.

Definition MemState_post (m : bytes) : M MemState HttpIoError unit := fun s =>
  ({| highwaters := highwaters s; queue := queue s ++ [m] |}, Ok tt).

#[export] Instance MemState_State : State MemState :=
  {| state_get := MemState_get; state_post := MemState_post |}.

(** ** [server.rs], over the in-memory stream of [mem_io_stream.rs] *)
Record Server := { server_state : MemState }.
Record MemIoStream := { istream : bytes; ostream : bytes }.

Section Server.
Context {HO : HeaderOrder}.

Abbreviation UpdateST := (Server * MemIoStream)%type.

Definition on_state {A : Type} (m : M MemState HttpIoError A) : M UpdateST HttpIoError A :=
  zoom (fun st => server_state st.1) (fun s st => ({| server_state := s |}, st.2)) m.
Definition on_istream {A : Type} (m : M bytes HttpIoError A) : M UpdateST HttpIoError A :=
  zoom (fun st => istream st.2) (fun i st => (st.1, {| istream := i; ostream := ostream st.2 |})) m.
Definition write_out (b : bytes) : M UpdateST HttpIoError unit :=
  modify (fun st => (st.1, {| istream := istream st.2; ostream := ostream st.2 ++ b |})).

(** [Server::update] *)
Definition update : M UpdateST HttpIoError unit :=
  request ← on_istream read;
  c ← match rq_method request with
      | GET =>
          query ← lift (to_io_result (url_query (rq_url request) !! str "id"));
          on_state (state_get query)
      | POST =>
          on_state (state_post (rq_content request)) ;;
          mret []
      end;
  write_out (write (Response_new 200 (str "OK") ∅ c)).

(** [Server::raw_call]: the whole input must be consumed. *)
Definition raw_call (m : bytes) : M Server HttpIoError bytes := fun s =>
  let '((s', io), r) := update (s, {| istream := m; ostream := [] |}) in
  (s', _ ← r;
       if bool_decide (istream io = []) then Ok (ostream io) else Err (InvalidData "invalid request")).

(** [impl Call for Server] *)
Definition Server_call (request : Request) : M Server HttpIoError Response :=
  response_buf ← raw_call (write request);
  lift (read response_buf).2.

#[export] Instance Server_Call : Call Server := Server_call.

(** [Server::run]: connections are served one after the other; an error is
    printed and the next connection is served. *)
Fixpoint run (connections : list bytes) (s : Server) : Server * res Empty_set (list bytes) :=
  match connections with
  | [] => (s, Ok [])
  | i :: connections' =>
      let '((s', io), r) := update (s, {| istream := i; ostream := [] |}) in
      match r with
      | Ok _ | Err _ =>
          let '(s'', outs) := run connections' s' in
          (s'', outs ← outs; Ok (ostream io :: outs))
      | Panic => (s', Panic)
      | Diverge => (s', Diverge)
      end
  end.
End Server.

(** ** [proxy_state.rs] *)
Record ProxyState (T : Type) := { proxied : T }.
Arguments proxied {T}.

Section Proxy.
Context {T : Type} {CT : Call T}.

Definition on_proxied {A : Type} (m : M T HttpIoError A) : M (ProxyState T) HttpIoError A :=
  zoom proxied (fun t _ => {| proxied := t |}) m.

Definition ProxyState_get (node_id : rstring) : M (ProxyState T) HttpIoError bytes :=
  r ← on_proxied (call (Request_new GET (str "/?id=" ++ node_id) ∅ []));
  mret (rs_content r).

Definition ProxyState_post (m : bytes) : M (ProxyState T) HttpIoError unit :=
  on_proxied (call (Request_new POST (str "/") ∅ m)) ;;
  mret tt.

#[export] Instance ProxyState_State : State (ProxyState T) :=
  {| state_get := ProxyState_get; state_post := ProxyState_post |}.
End Proxy.

(** ** A client's view of a [State] *)
Inductive Op := Get (node_id : rstring) | Post (m : bytes).

Section Client.
Context {S : Type} {ST : State S}.

(** The bytes a [Get] returns, nothing for a [Post]. *)
Definition run_op (o : Op) : M S HttpIoError (option bytes) :=
  match o with
  | Get node_id => r ← state_get node_id; mret (Some r)
  | Post m => state_post m ;; mret None
  end.

Definition run_ops (l : list Op) : M S HttpIoError (list (option bytes)) :=
  foldS (fun acc o => r ← run_op o; mret (acc ++ [r])) [] l.
End Client.

(** *** Delivery *)

(** The number of messages a node has read. *)
Definition cursor (s : MemState) (node_id : rstring) : nat :=
  match highwaters s !! node_id with Some n => S n | None => O end.

Definition mem_ok (s : MemState) : Prop := forall c, (cursor s c <= length (queue s))%nat.

Lemma MemState_get_eq (c : rstring) (s : MemState) :
  MemState_get c s =
  match queue s !! cursor s c with
  | Some m => ({| highwaters := <[c := cursor s c]> (highwaters s); queue := queue s |}, Ok m)
  | None => (s, Ok [])
  end.
Proof. done. Qed.

(** What node [c] is handed while the operations run: the messages of its
    successful reads. *)
Fixpoint deliveries (c : rstring) (s : MemState) (l : list Op) : list bytes :=
  match l with
  | [] => []
  | o :: l' =>
      match o with
      | Get c' =>
          (if bool_decide (c' = c) then
             match queue s !! cursor s c with Some m => [m] | None => [] end
           else [])
          ++ deliveries c (MemState_get c' s).1 l'
      | Post m => deliveries c (MemState_post m s).1 l'
      end
  end.

Definition posted (l : list Op) : list bytes :=
  omap (fun o => match o with Post m => Some m | Get _ => None end) l.

Lemma cursor_insert (s : MemState) (c c' : rstring) (n : nat) :
  cursor {| highwaters := <[c' := n]> (highwaters s); queue := queue s |} c =
  if decide (c' = c) then S n else cursor s c.
Proof.
  unfold cursor. simpl. case_decide as Hc; subst; [by rewrite lookup_insert_eq|].
  by rewrite lookup_insert_ne.
Qed.

Lemma run_ops_acc {S : Type} {ST : State S} (l : list Op) (acc : list (option bytes)) (s : S) :
  foldS (fun acc o => r ← run_op o; mret (acc ++ [r])) acc l s =
  match run_ops l s with
  | (s', Ok rs) => (s', Ok (acc ++ rs))
  | (s', Err e) => (s', Err e)
  | (s', Panic) => (s', Panic)
  | (s', Diverge) => (s', Diverge)
  end.
Proof.
  unfold run_ops. revert acc s; induction l as [|o l IH]; intros acc s; simpl; [by rewrite app_nil_r|].
  rewrite !M_bind_eq. destruct (run_op o s) as [s1 [r| | |]]; try done. simpl.
  rewrite (IH (acc ++ [r])), (IH [r]). unfold run_ops.
  destruct (foldS _ _ l s1) as [s2 [rs| | |]]; try done. by rewrite <-app_assoc.
Qed.

Lemma run_ops_cons {S : Type} {ST : State S} (o : Op) (l : list Op) (s : S) :
  run_ops (o :: l) s = (r ← run_op o; rs ← run_ops l; mret (r :: rs)) s.
Proof.
  unfold run_ops at 1. simpl. rewrite !M_bind_eq.
  destruct (run_op o s) as [s1 [r| | |]]; try done. simpl. rewrite run_ops_acc, M_bind_eq.
  by destruct (run_ops l s1) as [s2 [rs| | |]].
Qed.

Lemma deliveries_spec (c : rstring) (l : list Op) (s : MemState) :
  mem_ok s ->
  exists s' rs, run_ops l s = (s', Ok rs) /\ mem_ok s' /\
    queue s' = queue s ++ posted l /\ (cursor s c <= cursor s' c)%nat /\
    deliveries c s l = take (cursor s' c - cursor s c) (drop (cursor s c) (queue s')).
Proof.
  revert s; induction l as [|o l IH]; intros s Hs.
  { exists s, []. split_and!; try done; [by rewrite app_nil_r|]. by rewrite Nat.sub_diag. }
  destruct o as [c'|m].
  - rewrite run_ops_cons, M_bind_eq. simpl run_op. rewrite M_bind_eq. simpl state_get.
    rewrite MemState_get_eq. simpl deliveries. rewrite MemState_get_eq.
    destruct (queue s !! cursor s c') as [x|] eqn:Hx; simpl.
    + set (s1 := {| highwaters := _; queue := queue s |}).
      pose proof (lookup_lt_Some _ _ _ Hx) as Hlt.
      assert (forall d, cursor s1 d = if decide (c' = d) then S (cursor s c') else cursor s d) as Hc1
        by (intros d; apply cursor_insert).
      assert (mem_ok s1) as Hs1.
      { intros d. rewrite Hc1. unfold s1; simpl. case_decide; [lia|apply Hs]. }
      destruct (IH s1 Hs1) as (s' & rs & Hr & Hs' & Hq & Hle & Hd).
      exists s', (Some x :: rs). rewrite M_bind_eq, Hr. simpl in Hq. rewrite Hc1 in Hle, Hd.
      split_and!; try done; [case_decide; subst; lia|]. rewrite Hd.
      case_decide as Hcc; [subst c'|by rewrite bool_decide_false by done].
      rewrite bool_decide_true by done. rewrite Hx.
      assert (queue s' !! cursor s c = Some x) as Hx' by (rewrite Hq; by apply lookup_app_l_Some).
      rewrite (drop_S _ _ _ Hx').
      replace (cursor s' c - cursor s c)%nat with (S (cursor s' c - S (cursor s c))) by lia. done.
    + destruct (IH s Hs) as (s' & rs & Hr & Hs' & Hq & Hle & Hd).
      exists s', (Some [] :: rs). rewrite M_bind_eq, Hr. split_and!; try done. rewrite Hd.
      case_bool_decide as Hcc; [subst c'; by rewrite Hx|done].
  - rewrite run_ops_cons, M_bind_eq. simpl.
    set (s1 := {| highwaters := _; queue := _ |}).
    assert (mem_ok s1) as Hs1.
    { intros d. specialize (Hs d). unfold s1, cursor in *; simpl. rewrite length_app. lia. }
    destruct (IH s1 Hs1) as (s' & rs & Hr & Hs' & Hq & Hle & Hd).
    exists s', (None :: rs). rewrite M_bind_eq, Hr. simpl in Hq.
    split_and!; try done. rewrite Hq. by rewrite <-app_assoc.
Qed.

(** every node reads the messages in the order they were posted, without
    gaps or repetitions, whatever the other nodes do: over any sequence of
    operations on an empty relay, what a node is handed is a prefix of what was
    posted, whose length is its cursor. *)
Theorem relay_fifo (c : rstring) (l : list Op) :
  exists s' rs, run_ops l MemState_default = (s', Ok rs) /\
    queue s' = posted l /\ (cursor s' c <= length (posted l))%nat /\
    deliveries c MemState_default l = take (cursor s' c) (posted l).
Proof.
  destruct (deliveries_spec c l MemState_default) as (s' & rs & Hr & Hok & Hq & _ & Hd).
  { intros d. unfold cursor. simpl. by rewrite lookup_empty. }
  simpl in Hq. exists s', rs. split_and!; [done|done| |].
  - rewrite <-Hq. apply Hok.
  - assert (cursor MemState_default c = O) as Hc0 by (unfold cursor; simpl; by rewrite lookup_empty).
    rewrite Hd, Hc0, Nat.sub_0_r, drop_0. by rewrite Hq.
Qed.

(** *** The proxy *)
Section Refinement.
Context {HO : HeaderOrder}.

(** A node id that survives the trip through the URL. *)
Definition id_ok (node_id : rstring) : Prop := word_ok node_id /\ (38 ∉ node_id).
Definition op_ok (o : Op) : Prop :=
  match o with
  | Get node_id => id_ok node_id
  | Post m => Z.of_nat (length m) <= isize_max
  end.
#[export] Instance op_ok_dec (o : Op) : Decision (op_ok o).
Proof. destruct o; unfold op_ok, id_ok; apply _. Defined.
Definition queue_ok (s : MemState) : Prop :=
  Forall (fun m => Z.of_nat (length m) <= isize_max) (queue s).

Lemma query_item_id (node_id : rstring) :
  query_item (str "id=" ++ node_id) = (str "id", node_id).
Proof.
  change (str "id=" ++ node_id) with (str "id" ++ 61 :: node_id). unfold query_item.
  by rewrite split_once_app by by_compute.
Qed.

Lemma url_query_id (node_id : rstring) :
  (38 ∉ node_id) -> url_query (str "/?id=" ++ node_id) !! str "id" = Some node_id.
Proof.
  intros H38. change (str "/?id=" ++ node_id) with ([47] ++ 63 :: str "id=" ++ node_id).
  unfold url_query. rewrite split_once_app by by_compute.
  rewrite bool_decide_false by done. rewrite split_word.
  - cbn [foldl fold_left]. rewrite query_item_id. by rewrite lookup_insert_eq.
  - apply not_elem_of_app; split; [by_compute|done].
Qed.

Lemma ok_response (c : bytes) :
  Z.of_nat (length c) <= isize_max -> response_ok (Response_new 200 (str "OK") ∅ c).
Proof.
  intros Hc. split; [by_compute|]. split; [by_compute|]. split; [by_compute|].
  split; [apply map_Forall_empty|exact Hc].
Qed.

Lemma get_request_ok (node_id : rstring) :
  word_ok node_id -> request_ok (Request_new GET (str "/?id=" ++ node_id) ∅ []).
Proof.
  intros Hw. split; [apply Forall_app; split; [by_compute|done]|].
  split; [by_compute|]. split; [apply map_Forall_empty|]. by_compute.
Qed.

Lemma post_request_ok (m : bytes) :
  Z.of_nat (length m) <= isize_max -> request_ok (Request_new POST (str "/") ∅ m).
Proof.
  intros Hm. split; [by_compute|]. split; [by_compute|]. split; [apply map_Forall_empty|exact Hm].
Qed.

(** One exchange with the server, through both parsers. *)
Lemma Server_call_eq (r : Request) (s : Server) (s' : MemState) (c : bytes) :
  request_ok r -> Z.of_nat (length c) <= isize_max ->
  (match rq_method r with
   | GET => query ← lift (to_io_result (url_query (rq_url r) !! str "id")); state_get query
   | POST => state_post (rq_content r) ;; mret []
   end : M MemState HttpIoError bytes) (server_state s) = (s', Ok c) ->
  Server_call r s = ({| server_state := s' |}, Ok (Response_new 200 (str "OK") ∅ c)).
Proof.
  intros Hr Hc Hs. unfold Server_call, raw_call. rewrite M_bind_eq.
  unfold update. rewrite M_bind_eq. unfold on_istream, zoom. cbn [fst snd istream].
  rewrite <-(app_nil_r (write r)). rewrite (read_write_message r [] (request_message_ok r Hr)). rewrite M_bind_eq.
  revert Hs. destruct (rq_method r) eqn:Hm; intros Hs; cbn [fst snd].
  - rewrite M_bind_eq. rewrite M_bind_eq in Hs. unfold lift in *.
    destruct (to_io_result _) as [query| | |]; try done.
    unfold on_state, zoom. cbn [fst snd server_state]. rewrite Hs. simpl.
    rewrite <-(app_nil_r (write _)). by rewrite (read_write_message _ [] (response_message_ok _ (ok_response c Hc))).
  - rewrite M_bind_eq. rewrite M_bind_eq in Hs. unfold on_state, zoom. cbn [fst snd server_state].
    destruct (state_post _ _) as [s1 [[]| | |]]; try done. simpl in *. injection Hs as <- <-.
    rewrite <-(app_nil_r (write _)). by rewrite (read_write_message _ [] (response_message_ok _ (ok_response [] Hc))).
Qed.

Definition over_call {T : Type} (emb : Server -> T) (s : MemState) : ProxyState T :=
  {| proxied := emb {| server_state := s |} |}.

(** A proxy over anything that answers as the server does. *)
Lemma proxy_step {T : Type} {CT : Call T} (emb : Server -> T)
    (Hemb : forall r s s' resp, Server_call r s = (s', Ok resp) -> call r (emb s) = (emb s', Ok resp))
    (o : Op) (s : MemState) :
  op_ok o -> queue_ok s ->
  run_op o (over_call emb s) = let '(s', r) := run_op o s in (over_call emb s', r).
Proof.
  intros Ho Hq. destruct o as [c|m]; simpl in *.
  - destruct Ho as [Hw H38].
    assert (exists s' r, MemState_get c s = (s', Ok r) /\ Z.of_nat (length r) <= isize_max)
      as (s' & r & Hg & Hl).
    { rewrite MemState_get_eq. destruct (queue s !! cursor s c) as [x|] eqn:Hx.
      - eexists _, _; split; [done|]. by eapply (Forall_lookup_1 _ _ _ _ Hq).
      - eexists _, _; split; [done|]. unfold isize_max. simpl. lia. }
    rewrite !M_bind_eq, Hg. unfold ProxyState_get. rewrite M_bind_eq.
    unfold on_proxied, zoom. simpl proxied.
    erewrite Hemb; [|eapply (Server_call_eq _ {| server_state := s |}); [by apply get_request_ok|exact Hl|]]; [done|].
    cbn [rq_method rq_url Request_new]. rewrite url_query_id by done. exact Hg.
  - rewrite !M_bind_eq. unfold ProxyState_post. rewrite M_bind_eq.
    unfold on_proxied, zoom. simpl proxied.
    erewrite Hemb; [|eapply (Server_call_eq _ {| server_state := s |}); [by apply post_request_ok| |reflexivity]]; [done|].
    unfold isize_max. simpl. lia.
Qed.

Lemma run_op_queue_ok (o : Op) (s s' : MemState) r :
  op_ok o -> queue_ok s -> run_op o s = (s', r) -> queue_ok s'.
Proof.
  intros Ho Hq. destruct o as [c|m]; simpl; rewrite M_bind_eq; simpl.
  - rewrite MemState_get_eq. destruct (queue s !! _); by intros [= <- _].
  - intros [= <- _]. unfold queue_ok. simpl. apply Forall_app; split; [done|]. by constructor.
Qed.

Lemma ops_refine {T : Type} {CT : Call T} (emb : Server -> T)
    (Hemb : forall r s s' resp, Server_call r s = (s', Ok resp) -> call r (emb s) = (emb s', Ok resp))
    (l : list Op) (s : MemState) : Forall op_ok l -> queue_ok s ->
  run_ops l (over_call emb s) = let '(s', r) := run_ops l s in (over_call emb s', r).
Proof.
  intros Hops Hq. revert s Hq; induction Hops as [|o l Ho _ IH]; intros s Hq; [done|].
  rewrite !run_ops_cons, !M_bind_eq, (proxy_step emb Hemb) by done.
  destruct (run_op o s) as [s1 r] eqn:Hr. pose proof (run_op_queue_ok o s s1 r Ho Hq Hr) as Hq1.
  destruct r as [x| | |]; try done. rewrite !M_bind_eq, IH by done.
  by destruct (run_ops l s1) as [s2 [rs| | |]].
Qed.

Definition over (s : MemState) : ProxyState Server := over_call id s.

(** a connection whose request fails to parse leaves the relay running and
    its messages alone, but one that declares a content length of [2^63] or more
    stops the server: the connections after it are never served. *)
Theorem huge_request_stops_server (line : rstring) (n : Z) (rest : bytes) (later : list bytes)
    (s : Server) (Hline : CR ∉ line) (Hn : isize_max < n < 2 ^ 64) :
  (run ((line ++ EOL ++ write_header (utf8 CONTENT_LENGTH) (utf8 (to_string n)) ++ EOL ++ rest)
        :: later) s).2 = Panic /\
  forall (i : bytes) e i', read (T := Request) i = (i', Err e) ->
    run (i :: later) s = let '(s', outs) := run later s in (s', outs ← outs; Ok ([] :: outs)).
Proof.
  split.
  - pose proof (huge_content_length_panics line n rest Hline Hn) as Hp. simpl. unfold update.
    rewrite M_bind_eq. unfold on_istream, zoom. cbn [fst snd istream].
    destruct (read _) as [i' r]. simpl in Hp. by subst.
  - intros i e i' Hr. simpl. unfold update. rewrite M_bind_eq. unfold on_istream, zoom.
    cbn [fst snd istream]. rewrite Hr. by destruct s.
Qed.
End Refinement.

Module RelayWitness.
Import HttpWitness.

Definition ops : list Op :=
  [Get (str "1"); Post (str "Msg # 0"); Get (str "1"); Get (str "5"); Post []; Get (str "1")].

Lemma huge_request_stops_server_witness :
  (run [str "POST / HTTP/1.1" ++ EOL ++
        write_header (utf8 CONTENT_LENGTH) (utf8 (to_string (2 ^ 63))) ++ EOL ++ []]
     {| server_state := MemState_default |}).2 = Panic.
Proof.
  refine (proj1 (huge_request_stops_server (str "POST / HTTP/1.1") (2 ^ 63) [] []
    {| server_state := MemState_default |} _ _)).
  - by_compute.
  - unfold isize_max. lia.
Defined.
End RelayWitness.
