(* ===== verification/Tcp.v ===== *)
(** * [yarpc/src/http/io_stream.rs], [mem_io_stream.rs]: calls over a stream

    A client calls a server through a bidirectional stream: it writes the request,
    flushes and reads the response.  [MemIoStream] is the stream in memory;
    [TcpStream] is a connection to the relay process, which serves it when the
    request has been flushed.  [RemoteServer] of [relay-server-test.rs] calls the
    relay over a new connection each time, and behaves as the server itself. *)
From S2P Require Import Prelude Http Relay.

(** ** [to_io_result.rs], on other types

    [err]: the error becomes the text of an [InvalidData] error, in
    [Result::to_io_result] that of the result; [Option::take_to_io_result] empties the option. *)
Definition err {E A : Type} (text : E -> string) (e : E) : res HttpIoError A := Err (InvalidData (text e)).
Definition result_to_io_result {E A : Type} (text : E -> string) (r : res E A) : res HttpIoError A :=
  match r with
  | Ok a => Ok a
  | Err e => err text e
  | Panic => Panic
  | Diverge => Diverge
  end.
Definition take_to_io_result {A : Type} : M (option A) HttpIoError A := fun o => (None, to_io_result o).

(** ** [trait IoStream] *)
Class IoStream (S : Type) := {
  on_input : forall A, M bytes HttpIoError A -> M S HttpIoError A;
  write_output : bytes -> M S HttpIoError unit;
  flush : M S HttpIoError unit
}.
Arguments on_input {S _ A}.

Section Streams.
Context {HO : HeaderOrder}.

(** [impl<T: IoStream> Call for T] *)
#[export] Instance IoStream_Call {S : Type} {IO : IoStream S} : Call S := fun request =>
  write_output (write request) ;;
  flush ;;
  on_input read.

(** ** In memory *)

(** [&[u8]::mem_io_stream] *)
Definition mem_io_stream (input output : bytes) : MemIoStream := {| istream := input; ostream := output |}.

#[export] Instance MemIoStream_IoStream : IoStream MemIoStream := {|
  on_input A m := zoom istream (fun i io => {| istream := i; ostream := ostream io |}) m;
  write_output b := modify (fun io => {| istream := istream io; ostream := ostream io ++ b |});
  flush := mret tt
|}.

(** ** Over TCP

    The process that listens at the address: running, or stopped by a panic. *)
Definition RelayProcess : Type := option Server.

Record TcpStream := { peer : RelayProcess; sent_bytes : bytes; received_bytes : bytes }.

(** [TcpStream::connect] *)
Definition connect (p : RelayProcess) : option TcpStream :=
  match p with
  | Some _ => Some {| peer := p; sent_bytes := []; received_bytes := [] |}
  | None => None
  end.

(** One connection of [Server::run]: a panic ends the process. *)
Definition serve_connection (s : Server) (input : bytes) : RelayProcess * bytes :=
  let '((s', io), r) := update (s, mem_io_stream input []) in
  (match r with Panic | Diverge => None | _ => Some s' end, ostream io).

#[export] Instance TcpStream_IoStream : IoStream TcpStream := {|
  on_input A m := zoom received_bytes
    (fun i t => {| peer := peer t; sent_bytes := sent_bytes t; received_bytes := i |}) m;
  write_output b := modify (fun t =>
    {| peer := peer t; sent_bytes := sent_bytes t ++ b; received_bytes := received_bytes t |});
  flush := modify (fun t =>
    match peer t with
    | Some s =>
        let '(p, out) := serve_connection s (sent_bytes t) in
        {| peer := p; sent_bytes := []; received_bytes := received_bytes t ++ out |}
    | None => t
    end)
|}.

(** ** [relay-server/src/bin/relay-server-test.rs] *)
Record RemoteServer := { relay_process : RelayProcess }.

(** A new connection for every request; [unwrap] of a refused one panics. *)
#[export] Instance RemoteServer_Call : Call RemoteServer := fun request self =>
  match connect (relay_process self) with
  | Some stream =>
      let '(stream', r) := call request stream in ({| relay_process := peer stream' |}, r)
  | None => (self, Panic)
  end.

(** [while TcpStream::connect(ADDR).is_err()]: a connection that is accepted is
    dropped without a request. *)
Fixpoint wait_for_server (fuel : nat) (start : nat -> RelayProcess) (k : nat) : res Empty_set RemoteServer :=
  match fuel with
  | O => Diverge
  | S fuel =>
      match start k with
      | Some s => Ok {| relay_process := (serve_connection s []).1 |}
      | None => wait_for_server fuel start (S k)
      end
  end.

(** ** A remote server is a server *)
Definition remote (s : Server) : RemoteServer := {| relay_process := Some s |}.

(** A reply in full: the server has handled the connection, and what it wrote is
    read back. *)
Lemma serve_reply (r : Request) (s s' : Server) (out : bytes) :
  raw_call (write r) s = (s', Ok out) -> serve_connection s (write r) = (Some s', out).
Proof.
  unfold raw_call, serve_connection, mem_io_stream. destruct (update _) as [[s1 io] [[]| | |]]; try done.
  simpl. case_bool_decide; [|done]. by intros [= -> ->].
Qed.

Lemma remote_call (r : Request) (s s' : Server) (response : Response) :
  Server_call r s = (s', Ok response) -> call r (remote s) = (remote s', Ok response).
Proof.
  unfold Server_call. rewrite M_bind_eq. destruct (raw_call (write r) s) as [s1 [out| | |]] eqn:Hraw; try done.
  unfold lift. intros [= -> Hread]. unfold call, RemoteServer_Call, remote. simpl.
  unfold call, IoStream_Call. rewrite !M_bind_eq. simpl. rewrite M_bind_eq. simpl.
  rewrite (serve_reply _ _ _ _ Hraw). unfold zoom. simpl. destruct (read out) as [rest rr]. simpl in *. by subst.
Qed.

(** A probe leaves the server as it is. *)
Lemma probe (s : Server) : serve_connection s [] = (Some s, []).
Proof. by destruct s. Qed.

(** The wait ends when the relay is up. *)
Lemma wait_ends (start : nat -> RelayProcess) (k : nat) (s : Server) (fuel : nat) :
  start k = Some s -> (forall j, (j < k)%nat -> start j = None) -> (k < fuel)%nat ->
  wait_for_server fuel start 0 = Ok (remote s).
Proof.
  intros Hs Hn Hf. assert (forall j fuel, (j <= k)%nat -> (k - j < fuel)%nat ->
    wait_for_server fuel start j = Ok (remote s)) as Hw; [|apply Hw; lia].
  clear fuel Hf. intros j fuel. revert j. induction fuel as [|fuel IH]; intros j Hj Hf; [lia|].
  cbn [wait_for_server].
  destruct (decide (j = k)) as [->|Hne]; [by rewrite Hs, probe|].
  rewrite Hn by lia. apply IH; lia.
Qed.

Definition over_tcp (s : MemState) : ProxyState RemoteServer := over_call remote s.

(** C25: a proxy that opens a connection to the relay process for every request
    behaves as the memory state in that process: any sequence of reads and posts
    gives the same results and leaves the same state, through the streams and the
    two HTTP writers and parsers; and so does a proxy in front of a server in its
    own process. *)
Theorem proxies_refine (l : list Op) (s : MemState) (Hops : Forall op_ok l) (Hq : queue_ok s) :
  (run_ops l (over_tcp s) = let '(s', r) := run_ops l s in (over_tcp s', r)) /\
  (run_ops l (over s) = let '(s', r) := run_ops l s in (over s', r)).
Proof. split; apply ops_refine; try done. intros r s1 s2 resp. apply remote_call. Qed.
End Streams.

Module TcpWitness.
Import HttpWitness.
Import RelayWitness.

Lemma proxies_refine_witness :
  (run_ops ops (over_tcp MemState_default)).2 =
  Ok [Some []; None; Some (str "Msg # 0"); Some (str "Msg # 0"); None; Some []].
Proof.
  destruct (proxies_refine ops MemState_default) as [Htcp _].
  - by_compute.
  - constructor.
  - rewrite Htcp. run.
Defined.
End TcpWitness.
