(* ===== verification/StacksNode.v ===== *)
(** * [stacks-coordinator/src/stacks_node]: access to the Stacks node

    [mod.rs] is the interface [StacksNode]; [client.rs] implements it over the
    node's RPC.  The types of [blockstack_lib] and [bitcoin], [serde_json]
    values and the HTTP client are external: [StacksTypes], [Json] and
    [RpcClient] give the accessors the sources use.  A pattern match on an
    external enum is written with a partial accessor per constructor. *)
From stdpp Require Import pretty.
From S2P Require Import Prelude Crypto FrostConfig Net.

(** Types of [blockstack_lib] and [bitcoin]. *)
Class StacksTypes := {
  Txid : Type;
  txid_to_hex : Txid -> string;
  txid_from_hex : string -> option Txid;
  txid_hex : forall t, txid_from_hex (txid_to_hex t) = Some t;
  txid_to_string : Txid -> string;                    (* Display *)
  BurnchainHeaderHash : Type;
  bhh_to_hex : BurnchainHeaderHash -> string;
  bhh_from_hex : string -> option BurnchainHeaderHash;
  bhh_hex : forall b, bhh_from_hex (bhh_to_hex b) = Some b;
  StacksAddress : Type;
  address_to_string : StacksAddress -> string;
  PrincipalData : Type;
  to_account_principal : StacksAddress -> PrincipalData;
  PegInOp : Type;
  pi_txid : PegInOp -> Txid;
  pi_burn_header_hash : PegInOp -> BurnchainHeaderHash;
  pi_block_height : PegInOp -> Z;
  pi_amount : PegInOp -> Z;
  pi_recipient : PegInOp -> PrincipalData;
  PegOutRequestOp : Type;
  po_txid : PegOutRequestOp -> Txid;
  po_burn_header_hash : PegOutRequestOp -> BurnchainHeaderHash;
  po_block_height : PegOutRequestOp -> Z;
  po_amount : PegOutRequestOp -> Z;
  po_fulfillment_fee : PegOutRequestOp -> Z;
  po_stx_address : PegOutRequestOp -> Z -> option StacksAddress;
  StacksTransaction : Type;
  tx_serialize : StacksTransaction -> option bytes;
  XOnlyPublicKey : Type;
  xonly_from_slice : bytes -> option XOnlyPublicKey;
  xonly_serialize : XOnlyPublicKey -> bytes;
  ClarityValue : Type;
  clarity_from_hex : string -> option ClarityValue;   (* try_deserialize_hex_untyped *)
  clarity_as_uint : ClarityValue -> option Z;
  clarity_as_optional : ClarityValue -> option (option ClarityValue);
  clarity_as_tuple : ClarityValue -> option (string -> option ClarityValue);
  clarity_as_buffer : ClarityValue -> option bytes;
  clarity_as_list : ClarityValue -> option (list ClarityValue);
  clarity_uint : Z -> ClarityValue;
  clarity_to_string : ClarityValue -> string
}.

(** [serde_json::Value] *)
Class Json := {
  JsonValue : Type;
  json_get : JsonValue -> string -> option JsonValue;
  json_null : JsonValue;
  json_string : string -> JsonValue;
  json_as_str : JsonValue -> option string;
  json_as_u64 : JsonValue -> option Z;
  json_as_bool : JsonValue -> option bool;
  json_as_array : JsonValue -> option (list JsonValue);
  json_to_string : JsonValue -> string
}.

(** [json[entry]]: [Null] for what is missing. *)
Definition json_index `{Json} (v : JsonValue) (entry : string) : JsonValue :=
  default json_null (json_get v entry).

(** ** [mod.rs] *)
Section StacksNode.
Context {TY : StacksTypes} {CP : P256k1}.

(** [client::BroadcastError] *)
Inductive BroadcastError :=
  | FeeTooLow (expected actual : Z)
  | NotEnoughFunds (reason : string)
  | ConflictingNonceInMempool
  | OtherBroadcastError (reason : string).

(** [stacks_node::Error] *)
Inductive StacksNodeError :=
  | InvalidJsonEntry (entry : string)
  | UnknownBlockHeight (height : Z)
  | UnknownAddress (address : string)
  | SNJsonError
  | ReqwestError
  | CodecError
  | SNTimeout
  | BehindChainTip
  | SNBroadcastError (e : BroadcastError)
  | ReadOnlyFailure (what : string)
  | SerializationError
  | NoCoordinatorData
  | NoSignerData (id : Z)
  | MalformedClarityValue (function_name : string) (value : ClarityValue)
  | Utf8Error
  | UrlParseError.

(** [trait StacksNode]; every call may change the state of the node. *)
Class StacksNode (N : Type) := {
  get_peg_in_ops : Z -> M N StacksNodeError (list PegInOp);
  get_peg_out_request_ops : Z -> M N StacksNodeError (list PegOutRequestOp);
  burn_block_height : M N StacksNodeError Z;
  next_nonce : StacksAddress -> M N StacksNodeError Z;
  broadcast_transaction : StacksTransaction -> M N StacksNodeError unit;
  keys_threshold : StacksAddress -> M N StacksNodeError Z;
  node_public_keys : StacksAddress -> M N StacksNodeError PublicKeys;
  node_signer_key_ids : StacksAddress -> M N StacksNodeError SignerKeyIds;
  node_coordinator_public_key : StacksAddress -> M N StacksNodeError (option PublicKey);
  node_bitcoin_wallet_public_key : StacksAddress -> M N StacksNodeError (option XOnlyPublicKey)
}.
End StacksNode.

(** What the coordinator relies on: the calls it retries return. *)
Class ReturningNode {TY : StacksTypes} {CP : P256k1} {N : Type} {STN : StacksNode N} := {
  next_nonce_returns : forall address n, (next_nonce address n).2 <> Diverge;
  broadcast_returns : forall tx n, (broadcast_transaction tx n).2 <> Diverge
}.

(** ** [client.rs] *)

(** The HTTP client ([reqwest], [url]) and the decoding of JSON into ops. *)
Class RpcClient `{TY : StacksTypes, CP : P256k1, JS : Json} := {
  RpcWorld : Type;
  Url : Type;
  url_join : Url -> string -> option Url;
  (* a GET: the status and the body, when it is JSON *)
  rpc_get : Url -> RpcWorld -> RpcWorld * option (Z * option JsonValue);
  (* a POST with its content type and body *)
  rpc_post : Url -> string -> bytes -> RpcWorld -> RpcWorld * option (Z * option JsonValue);
  call_read_body : string -> list string -> bytes;      (* json!({sender, arguments}) *)
  peg_in_ops_from_json : JsonValue -> option (list PegInOp);
  peg_out_ops_from_json : JsonValue -> option (list PegOutRequestOp);
  pk_try_from_slice : bytes -> option PublicKey
}.

Section NodeClient.
Context {TY : StacksTypes} {CP : P256k1} {JS : Json} {RC : RpcClient} {BO : Backoff}.

(** [impl From<&serde_json::Value> for BroadcastError] *)
Definition BroadcastError_from (value : JsonValue) : BroadcastError :=
  let reason := default "Unknown Reason" (json_get value "reason" ≫= json_as_str) in
  let reason_data := json_get value "reason_data" in
  if bool_decide (reason = "FeeTooLow") then
    FeeTooLow (default 0 (json_get value "expected" ≫= json_as_u64))
      (default 0 (json_get value "actual" ≫= json_as_u64))
  else if bool_decide (reason = "NotEnoughFunds") then
    NotEnoughFunds (json_to_string (default (json_string "No Reason Data") reason_data))
  else if bool_decide (reason = "ConflictingNonceInMempool") then ConflictingNonceInMempool
  else OtherBroadcastError reason.

Record NodeClient := {
  node_url : Url;
  contract_name : string;
  contract_address : StacksAddress;
  cached_nonce : option Z                      (* the field [next_nonce] *)
}.

Definition NodeClient_new (url : Url) (name : string) (address : StacksAddress) : NodeClient :=
  {| node_url := url; contract_name := name; contract_address := address; cached_nonce := None |}.

Abbreviation NC := (NodeClient * RpcWorld)%type.
Abbreviation Node := (M NC StacksNodeError).

Definition build_url (route : string) : Node Url := fun '(self, w) =>
  ((self, w), ok_or (url_join (node_url self) route) UrlParseError).

(** [backoff::retry_notify] around one GET; any failure is reported as a
    timeout. *)
Fixpoint get_attempts (attempts : nat) (url : Url) (w : RpcWorld)
    : RpcWorld * option (Z * option JsonValue) :=
  match attempts with
  | O => (w, None)
  | S n =>
      match rpc_get url w with
      | (w', Some r) => (w', Some r)
      | (w', None) => get_attempts n url w'
      end
  end.

Definition send_request (url : Url) : Node (Z * option JsonValue) := fun '(self, w) =>
  let '(w', r) := get_attempts backoff_attempts url w in ((self, w'), ok_or r SNTimeout).

Definition get_response (route : string) : Node (Z * option JsonValue) :=
  url ← build_url route;
  send_request url.

Definition post (url : Url) (content_type : string) (body : bytes) : Node (Z * option JsonValue) :=
  fun '(self, w) =>
    let '(w', r) := rpc_post url content_type body w in ((self, w'), ok_or r ReqwestError).

Definition get_burn_ops {T : Type} (from_json : JsonValue -> option T) (block_height : Z)
    (op : string) : Node T :=
  '(_, body) ← get_response ("/v2/burn_ops/" +:+ pretty block_height +:+ "/" +:+ op);
  json ← lift (ok_or body (UnknownBlockHeight block_height));
  lift (ok_or (from_json (json_index json op)) SNJsonError).

Definition call_read (sender : StacksAddress) (function_name : string) (args : list string)
    : Node string :=
  self ← gets fst;
  let body := call_read_body (address_to_string sender) args in
  url ← build_url ("/v2/contracts/call-read/" +:+ address_to_string (contract_address self) +:+
                   "/" +:+ contract_name self +:+ "/" +:+ function_name);
  '(_, json) ← post url "application/json" body;
  response ← lift (ok_or json ReqwestError);
  if negb (default false (json_get response "okay" ≫= json_as_bool)) then
    cause ← lift (ok_or (json_get response "cause") (InvalidJsonEntry "cause"));
    throw (ReadOnlyFailure (function_name +:+ ": " +:+ json_to_string cause))
  else
    result ← lift (ok_or (json_get response "result") (InvalidJsonEntry "result"));
    lift (ok_or (json_as_str result) (ReadOnlyFailure "Expected string result.")).

(** The read-only call, decoded. *)
Definition call_clarity (sender : StacksAddress) (function_name : string) (args : list string)
    : Node ClarityValue :=
  hex ← call_read sender function_name args;
  lift (ok_or (clarity_from_hex hex) SerializationError).

Definition expect_uint (function_name : string) (v : ClarityValue) : Node Z :=
  match clarity_as_uint v with
  | Some n => mret n
  | None => throw (MalformedClarityValue function_name v)
  end.

Definition num_signers (sender : StacksAddress) : Node Z :=
  v ← call_clarity sender "get-num-signers" [];
  expect_uint "get-num-signers" v.

Definition client_keys_threshold (sender : StacksAddress) : Node Z :=
  v ← call_clarity sender "get-threshold" [];
  expect_uint "get-threshold" v.

(** [u32::try_from(n).unwrap()] *)
Definition u32_unwrap (n : Z) : res StacksNodeError Z :=
  if bool_decide (in_u32 n) then Ok n else Panic.

(** [signer_data] also updates the two tables it is given. *)
Abbreviation Tables := (PublicKeys * SignerKeyIds)%type.

Definition add_key_id (malformed : StacksNodeError) (public_key : PublicKey)
    (acc : gmap Z PublicKey * list Z) (key_id : ClarityValue)
    : res StacksNodeError (gmap Z PublicKey * list Z) :=
  match clarity_as_uint key_id with
  | Some k =>
      k ← u32_unwrap k;
      mret (<[k := public_key]> acc.1, acc.2 ++ [k])
  | None => Err malformed
  end.

(** The tables after a signer's tuple was read: its key, then its key ids when
    there are any. *)
Definition add_signer (malformed : StacksNodeError) (id : Z) (data_map : string -> option ClarityValue)
    (tables : Tables) : res StacksNodeError Tables :=
  data ← ok_or (data_map "public-key" ≫= clarity_as_buffer) malformed;
  public_key ← ok_or (pk_try_from_slice data) malformed;
  id32 ← u32_unwrap id;
  let signers := <[id32 := public_key]> (pk_signers tables.1) in
  match data_map "key-ids" ≫= clarity_as_list with
  | Some key_ids =>
      '(ids, this_signer_key_ids) ←
        foldM (add_key_id malformed public_key) (pk_key_ids tables.1, []) key_ids;
      mret ({| pk_signers := signers; pk_key_ids := ids |}, <[id32 := this_signer_key_ids]> tables.2)
  | None => mret ({| pk_signers := signers; pk_key_ids := pk_key_ids tables.1 |}, tables.2)
  end.

(** After the tables are updated the source falls through to its last line, an
    [Err]: there is no [Ok(())] in the function. *)
Definition signer_data (sender : StacksAddress) (id : Z) (tables : Tables) : Node Tables :=
  let function_name := "get-signer-data" in
  signer_data ← call_clarity sender function_name [clarity_to_string (clarity_uint id)];
  let malformed := MalformedClarityValue function_name signer_data in
  match clarity_as_optional signer_data with
  | Some optional_data =>
      match optional_data ≫= clarity_as_tuple with
      | Some data_map =>
          lift (add_signer malformed id data_map tables) ;;
          throw malformed
      | None => throw (NoSignerData id)
      end
  | None => throw malformed
  end.

(** [for id in 1..=total_signers] over a [u128]: one call per signer until one
    fails. *)
Definition load_signers (sender : StacksAddress) : Node Tables :=
  total_signers ← num_signers sender;
  foldS (fun tables id => signer_data sender id tables)
    (PublicKeys_default, ∅) (seqZ 1 total_signers).

Definition client_public_keys (sender : StacksAddress) : Node PublicKeys :=
  tables ← load_signers sender;
  mret tables.1.

Definition client_signer_key_ids (sender : StacksAddress) : Node SignerKeyIds :=
  tables ← load_signers sender;
  mret tables.2.

Definition client_coordinator_public_key (sender : StacksAddress) : Node (option PublicKey) :=
  let function_name := "get-coordinator-data" in
  coordinator_data ← call_clarity sender function_name [];
  let malformed := MalformedClarityValue function_name coordinator_data in
  match clarity_as_optional coordinator_data with
  | Some optional_data =>
      match optional_data ≫= clarity_as_tuple with
      | Some data_map =>
          value ← lift (ok_or (data_map "key") malformed);
          match clarity_as_buffer value with
          | Some data =>
              public_key ← lift (ok_or (pk_try_from_slice data) malformed);
              mret (Some public_key)
          | None => throw malformed
          end
      | None => throw malformed
      end
  | None => mret None
  end.

Definition client_bitcoin_wallet_public_key (sender : StacksAddress) : Node (option XOnlyPublicKey) :=
  let function_name := "get-bitcoin-wallet-public-key" in
  v ← call_clarity sender function_name [];
  let malformed := MalformedClarityValue function_name v in
  match clarity_as_optional v with
  | Some optional_data =>
      match optional_data ≫= clarity_as_buffer with
      | Some data =>
          key ← lift (ok_or (xonly_from_slice data) malformed);
          mret (Some key)
      | None => mret None
      end
  | None => throw malformed
  end.

Definition client_burn_block_height : Node Z :=
  '(_, body) ← get_response "/v2/info";
  json ← lift (ok_or body ReqwestError);
  lift (ok_or (json_as_u64 (json_index json "burn_block_height"))
          (InvalidJsonEntry "burn_block_height")).

Definition set_cached_nonce (n : Z) (self : NodeClient) : NodeClient :=
  {| node_url := node_url self; contract_name := contract_name self;
     contract_address := contract_address self; cached_nonce := Some n |}.

(** [next_nonce]: the node is asked once, afterwards the client counts. *)
Definition client_next_nonce (address : StacksAddress) : Node Z :=
  self ← gets fst;
  match cached_nonce self with
  | Some nonce =>
      let next := wrapping_add 64 nonce 1 in
      modify (fun s => (set_cached_nonce next s.1, s.2)) ;;
      mret next
  | None =>
      '(status, body) ← get_response ("/v2/accounts/" +:+ address_to_string address);
      if status =? 404 then throw (UnknownAddress (address_to_string address))
      else
        json ← lift (ok_or body BehindChainTip);
        nonce ← lift (ok_or (json_get json "nonce" ≫= json_as_u64) (InvalidJsonEntry "nonce"));
        modify (fun s => (set_cached_nonce nonce s.1, s.2)) ;;
        mret nonce
  end.

Definition client_broadcast_transaction (tx : StacksTransaction) : Node unit :=
  url ← build_url "/v2/transactions";
  buffer ← lift (ok_or (tx_serialize tx) CodecError);
  '(status, body) ← post url "application/octet-stream" buffer;
  if negb (status =? 200) then
    json ← lift (ok_or body ReqwestError);
    throw (SNBroadcastError (BroadcastError_from json))
  else mret tt.

#[export] Instance NodeClient_StacksNode : StacksNode NC := {|
  get_peg_in_ops h := get_burn_ops peg_in_ops_from_json h "peg_in";
  get_peg_out_request_ops h := get_burn_ops peg_out_ops_from_json h "peg_out_request";
  burn_block_height := client_burn_block_height;
  next_nonce := client_next_nonce;
  broadcast_transaction := client_broadcast_transaction;
  keys_threshold := client_keys_threshold;
  node_public_keys := client_public_keys;
  node_signer_key_ids := client_signer_key_ids;
  node_coordinator_public_key := client_coordinator_public_key;
  node_bitcoin_wallet_public_key := client_bitcoin_wallet_public_key
|}.

(** The client keeps the promise. *)
Lemma build_url_returns (route : string) : returns (build_url route).
Proof. intros [self w]. simpl. by destruct (url_join _ _). Qed.
Lemma send_request_returns (url : Url) : returns (send_request url).
Proof. intros [self w]. simpl. destruct (get_attempts _ _ _) as [w' []]; done. Qed.
Lemma post_returns (url : Url) (content_type : string) (body : bytes) : returns (post url content_type body).
Proof. intros [self w]. simpl. destruct (rpc_post _ _ _ _) as [w' []]; done. Qed.
#[local] Hint Resolve build_url_returns send_request_returns post_returns : returns.

#[export] Instance NodeClient_returns : ReturningNode (N := NC).
Proof.
  split.
  - intros address. change (returns (client_next_nonce address)).
    apply returns_bind; [auto with returns|intros self]. destruct (cached_nonce self).
    + apply returns_bind; auto with returns.
    + apply returns_bind; [apply returns_bind; auto with returns|intros [status body]].
      case_match; [auto with returns|]. repeat (apply returns_bind; auto with returns; intros).
  - intros tx. change (returns (client_broadcast_transaction tx)).
    apply returns_bind; [auto with returns|intros url].
    apply returns_bind; [auto with returns|intros buffer].
    apply returns_bind; [auto with returns|intros [status body]].
    case_match; [|auto with returns]. apply returns_bind; auto with returns.
Qed.

(** ** Properties *)

Lemma signer_data_never_Ok (sender : StacksAddress) (id : Z) (t t' : Tables) (s s' : NC) :
  signer_data sender id t s <> (s', Ok t').
Proof.
  unfold signer_data. intros (s1 & v & _ & H)%M_bind_Ok_inv. revert H.
  destruct (clarity_as_optional v) as [o|]; [|done].
  destruct (o ≫= clarity_as_tuple) as [m|]; [|done].
  by intros (s2 & t2 & _ & H)%M_bind_Ok_inv.
Qed.

Lemma load_signers_never_Ok (sender : StacksAddress) (s s1 : NC) (n : Z) :
  num_signers sender s = (s1, Ok n) -> 1 <= n ->
  forall s' t, load_signers sender s <> (s', Ok t).
Proof.
  intros Hnum Hn s' t. unfold load_signers. rewrite M_bind_eq, Hnum.
  rewrite seqZ_cons by lia. simpl. intros (s2 & t2 & Hd & _)%M_bind_Ok_inv.
  by apply signer_data_never_Ok in Hd.
Qed.

(** the signers' keys can never be loaded from the contract: as soon as the
    contract reports at least one signer, [public_keys] and [signer_key_ids]
    fail, whatever the signer data is, because [signer_data] ends in an error
    on every path. *)
Theorem signer_tables_never_load (sender : StacksAddress) (s s1 : NC) (n : Z)
    (Hnum : num_signers sender s = (s1, Ok n)) (Hn : 1 <= n) :
  (forall s' pks, client_public_keys sender s <> (s', Ok pks)) /\
  (forall s' ids, client_signer_key_ids sender s <> (s', Ok ids)).
Proof.
  pose proof (load_signers_never_Ok sender s s1 n Hnum Hn) as Hload.
  unfold client_public_keys, client_signer_key_ids.
  by split; intros s' x (s2 & t & Hl%Hload & _)%M_bind_Ok_inv.
Qed.

(** nonces are handed out consecutively.  Once the node has answered with
    [n], the following calls return [n + 1], [n + 2], ... (modulo [2^64])
    without asking the node again, whatever happened to the transactions. *)
Theorem next_nonce_consecutive (k : nat) (address : StacksAddress) (self : NodeClient)
    (w : RpcWorld) (n : Z) (Hn : in_u64 n) (Hcached : cached_nonce self = Some n) :
  foldS (fun l _ => x ← client_next_nonce address; mret (l ++ [x])) [] (seq 0 k) (self, w)
  = ((match k with O => self | S _ => set_cached_nonce ((n + Z.of_nat k) mod 2 ^ 64) self end, w),
     Ok ((fun i => (n + i) mod 2 ^ 64) <$> seqZ 1 (Z.of_nat k))).
Proof.
  induction k as [|k IH]; [done|].
  rewrite seq_S, foldS_app, M_bind_eq, IH. simpl foldS. rewrite !M_bind_eq.
  unfold client_next_nonce at 1. rewrite M_bind_eq. unfold gets at 1. cbn [fst].
  assert (cached_nonce (match k with O => self
            | S _ => set_cached_nonce ((n + Z.of_nat k) mod 2 ^ 64) self end)
          = Some ((n + Z.of_nat k) mod 2 ^ 64)) as ->.
  { destruct k; [|done]. rewrite Hcached. f_equal. rewrite Z.add_0_r, Z.mod_small; done. }
  rewrite M_bind_eq. unfold modify at 1. cbn [fst snd]. unfold mret, M_ret.
  assert (wrapping_add 64 ((n + Z.of_nat k) mod 2 ^ 64) 1 = (n + Z.of_nat (S k)) mod 2 ^ 64) as ->.
  { unfold wrapping_add. rewrite Zplus_mod_idemp_l. f_equal. lia. }
  f_equal; [by destruct k|]. f_equal.
  rewrite seqZ_S. rewrite fmap_app. simpl. do 3 f_equal. lia.
Qed.
End NodeClient.

(** ** Executable instances: the node is a script of responses *)
#[local] Set Warnings "-register-all".
Module ToyStacks.
Inductive ToyClarity :=
  | CUInt (n : Z)
  | COptional (v : option ToyClarity)
  | CTuple (l : list (string * ToyClarity))
  | CBuffer (b : bytes)
  | CList (l : list ToyClarity).

Definition assoc {A : Type} (l : list (string * A)) (k : string) : option A :=
  snd <$> find (fun e => String.eqb e.1 k) l.

Record ToyOp := {
  toy_txid : string; toy_burn : string; toy_height : Z; toy_amount : Z; toy_fee : Z;
  toy_who : string
}.

#[export] Instance toy_stacks : StacksTypes := {|
  Txid := string; txid_to_hex t := t; txid_from_hex := Some; txid_hex _ := eq_refl;
  txid_to_string t := t;
  BurnchainHeaderHash := string; bhh_to_hex b := b; bhh_from_hex := Some; bhh_hex _ := eq_refl;
  StacksAddress := string; address_to_string a := a;
  PrincipalData := string; to_account_principal a := a;
  PegInOp := ToyOp; pi_txid := toy_txid; pi_burn_header_hash := toy_burn;
  pi_block_height := toy_height; pi_amount := toy_amount; pi_recipient := toy_who;
  PegOutRequestOp := ToyOp; po_txid := toy_txid; po_burn_header_hash := toy_burn;
  po_block_height := toy_height; po_amount := toy_amount; po_fulfillment_fee := toy_fee;
  po_stx_address op _ := Some (toy_who op);
  StacksTransaction := bytes; tx_serialize := Some;
  XOnlyPublicKey := bytes; xonly_from_slice := Some; xonly_serialize b := b;
  ClarityValue := ToyClarity;
  (* the answers of the toy contract *)
  clarity_from_hex s :=
    if String.eqb s "signers" then Some (CUInt 2)
    else if String.eqb s "signer" then
      Some (COptional (Some (CTuple [("public-key", CBuffer [7]); ("key-ids", CList [CUInt 1; CUInt 2])])))
    else if String.eqb s "coordinator" then
      Some (COptional (Some (CTuple [("key", CBuffer [3])])))
    else if String.eqb s "wallet" then Some (COptional (Some (CBuffer [12])))
    else Some (COptional None);
  clarity_as_uint v := match v with CUInt n => Some n | _ => None end;
  clarity_as_optional v := match v with COptional o => Some o | _ => None end;
  clarity_as_tuple v := match v with CTuple l => Some (assoc l) | _ => None end;
  clarity_as_buffer v := match v with CBuffer b => Some b | _ => None end;
  clarity_as_list v := match v with CList l => Some l | _ => None end;
  clarity_uint := CUInt;
  clarity_to_string _ := "u"
|}.

Inductive ToyJson :=
  | JNull
  | JString (s : string)
  | JNumber (n : Z)
  | JBool (b : bool)
  | JArray (l : list ToyJson)
  | JObject (l : list (string * ToyJson)).

#[export] Instance toy_json : Json := {|
  JsonValue := ToyJson;
  json_get v k := match v with JObject l => assoc l k | _ => None end;
  json_null := JNull;
  json_string := JString;
  json_as_str v := match v with JString s => Some s | _ => None end;
  json_as_u64 v := match v with JNumber n => Some n | _ => None end;
  json_as_bool v := match v with JBool b => Some b | _ => None end;
  json_as_array v := match v with JArray l => Some l | _ => None end;
  json_to_string v := match v with JString s => s | _ => "?" end
|}.

Import ToyCrypto.
Definition next_response (w : list (Z * option ToyJson)) :
    list (Z * option ToyJson) * option (Z * option ToyJson) :=
  match w with [] => ([], None) | r :: w' => (w', Some r) end.

#[export] Instance toy_rpc : RpcClient := {|
  RpcWorld := list (Z * option ToyJson);
  Url := string;
  url_join u r := Some (u +:+ r);
  rpc_get _ := next_response;
  rpc_post _ _ _ := next_response;
  call_read_body _ _ := [];
  peg_in_ops_from_json _ := Some [];
  peg_out_ops_from_json _ := Some [];
  pk_try_from_slice b := match b with [k] => Some k | _ => None end
|}.

Definition client (nonce : option Z) : NodeClient :=
  {| node_url := "http://node"; contract_name := "sbtc"; contract_address := "ST0";
     cached_nonce := nonce |}.
Definition result (s : string) : Z * option ToyJson :=
  (200, Some (JObject [("okay", JBool true); ("result", JString s)])).
End ToyStacks.

Module StacksNodeWitness.
Import ToyCrypto ToyStacks.
#[local] Instance one_attempt : Backoff := 1%nat.

Definition two_signers : NodeClient * list (Z * option ToyJson) :=
  (client None, [result "signers"; result "signer"]).
Lemma signer_tables_never_load_witness :
  ~ exists s' pks, client_public_keys (TY := toy_stacks) "ST1" two_signers = (s', Ok pks).
Proof.
  intros (s' & pks & H).
  refine (proj1 (signer_tables_never_load (TY := toy_stacks) "ST1" two_signers
           (client None, [result "signer"]) 2 _ _) s' pks H); [run|lia].
Defined.

Lemma next_nonce_consecutive_witness :
  foldS (fun l _ => x ← client_next_nonce "ST1"; mret (l ++ [x])) [] (seq 0 3)
    (client (Some (2 ^ 64 - 2)), [])
  = ((client (Some 1), []), Ok [2 ^ 64 - 1; 0; 1]).
Proof.
  refine (next_nonce_consecutive (TY := toy_stacks) (BO := one_attempt) 3 "ST1" (client (Some (2 ^ 64 - 2))) [] (2 ^ 64 - 2) _ _).
  - unfold in_uint. lia.
  - reflexivity.
Defined.
End StacksNodeWitness.
