(* ===== verification/PegQueue.v ===== *)
(** * [stacks-coordinator/src/peg_queue]: the queue of peg operations

    [SqlitePegQueue] keeps two tables.  Here they are a finite map from the
    primary key [(txid, burn_header_hash)] to a row of stored values, and the
    optional height of the metadata row; each SQL statement of the source is the
    corresponding operation on them ([REPLACE] is insertion, [ORDER BY
    block_height, op] is [row_le]).  Faults of the database itself are not
    modelled.  JSON encoding of the operations is external ([OpJson]). *)
From S2P Require Import Prelude Crypto FrostConfig Net StacksNode.

Section Data.
Context {TY : StacksTypes}.

(** [SbtcOp] *)
Inductive SbtcOp := PegIn (op : PegInOp) | PegOutRequest (op : PegOutRequestOp).

Definition as_peg_in (o : SbtcOp) : option PegInOp :=
  match o with PegIn op => Some op | _ => None end.
Definition as_peg_out_request (o : SbtcOp) : option PegOutRequestOp :=
  match o with PegOutRequest op => Some op | _ => None end.

Class OpJson := {
  op_to_json : SbtcOp -> option string;
  op_from_json : string -> option SbtcOp;
  op_json : forall o s, op_to_json o = Some s -> op_from_json s = Some o
}.
End Data.

(** [sqlite_peg_queue::Error] and [peg_queue::Error] *)
Inductive SqliteError := RusqliteError | JsonError | HexError | InvalidStatusError (s : string).

Inductive Status := New | Pending | Acknowledged.
#[export] Instance Status_eq_dec : EqDecision Status.
Proof. solve_decision. Defined.

Definition as_str (s : Status) : string :=
  match s with New => "new" | Pending => "pending" | Acknowledged => "acknowledged" end.

Definition status_from_str (s : string) : res SqliteError Status :=
  if bool_decide (s = "new") then Ok New
  else if bool_decide (s = "pending") then Ok Pending
  else if bool_decide (s = "acknowledged") then Ok Acknowledged
  else Err (InvalidStatusError s).

(** ** The database *)
Record Row := { row_height : Z; row_op : string; row_status : string }.
Abbreviation Key := (string * string)%type.
Record Db := { sbtc_ops : gmap Key Row; metadata : option Z }.

Definition row_le (a b : Key * Row) : Prop :=
  row_height a.2 < row_height b.2 \/
  (row_height a.2 = row_height b.2 /\ String.le (row_op a.2) (row_op b.2)).
#[export] Instance row_le_dec (a b : Key * Row) : Decision (row_le a b).
Proof. unfold row_le. apply _. Defined.

Section PegQueue.
Context {TY : StacksTypes} {CP : P256k1} {OJ : OpJson} {BP : BuildProfile}.

Inductive PegQueueError :=
  | SqlitePegQueueError (e : SqliteError)
  | PQStacksNodeError (e : StacksNodeError).

(** [Entry] *)
Record Entry := {
  burn_header_hash : BurnchainHeaderHash;
  txid : Txid;
  block_height : Z;
  op : SbtcOp;
  status : Status
}.

Definition set_status (s : Status) (e : Entry) : Entry :=
  {| burn_header_hash := burn_header_hash e; txid := txid e; block_height := block_height e;
     op := op e; status := s |}.

(** Decoding errors are turned into [rusqlite] errors. *)
Definition from_row (e : Key * Row) : res SqliteError Entry :=
  let '((t, b), r) := e in
  txid ← ok_or (txid_from_hex t) RusqliteError;
  bhh ← ok_or (bhh_from_hex b) RusqliteError;
  op ← ok_or (op_from_json (row_op r)) RusqliteError;
  status ← map_err (fun _ => RusqliteError) (status_from_str (row_status r));
  mret {| burn_header_hash := bhh; txid := txid; block_height := as_u64 (row_height r);
          op := op; status := status |}.

Definition Entry_from_peg_in (o : PegInOp) : Entry :=
  {| block_height := pi_block_height o; status := New; txid := pi_txid o;
     burn_header_hash := pi_burn_header_hash o; op := PegIn o |}.
Definition Entry_from_peg_out (o : PegOutRequestOp) : Entry :=
  {| block_height := po_block_height o; status := New; txid := po_txid o;
     burn_header_hash := po_burn_header_hash o; op := PegOutRequest o |}.

(** *** Statements *)
Definition entry_key (e : Entry) : Key := (txid_to_hex (txid e), bhh_to_hex (burn_header_hash e)).

Definition insert (e : Entry) : M Db SqliteError unit := fun db =>
  match op_to_json (op e) with
  | Some json =>
      ({| sbtc_ops := <[entry_key e := {| row_height := as_i64 (block_height e); row_op := json;
                                         row_status := as_str (status e) |}]> (sbtc_ops db);
          metadata := metadata db |}, Ok tt)
  | None => (db, Err JsonError)
  end.

Definition select_status (s : Status) (db : Db) : list (Key * Row) :=
  merge_sort row_le (filter (fun e => row_status e.2 = as_str s) (map_to_list (sbtc_ops db))).

(** [query_map(..)?.next().transpose()?] *)
Definition get_single_entry_with_status (s : Status) : M Db SqliteError (option Entry) := fun db =>
  (db, match select_status s db with
       | [] => Ok None
       | e :: _ => Some <$> from_row e
       end).

Definition get_entry (t : Txid) (b : BurnchainHeaderHash) : M Db SqliteError Entry := fun db =>
  let k := (txid_to_hex t, bhh_to_hex b) in
  (db, match sbtc_ops db !! k with
       | Some r => from_row (k, r)
       | None => Err RusqliteError
       end).

Definition last_processed_block_height : M Db SqliteError Z := fun db =>
  (db, match metadata db with Some h => Ok (as_u64 h) | None => Err RusqliteError end).

Definition insert_last_processed_block_height (height : Z) : M Db SqliteError unit :=
  modify (fun db => {| sbtc_ops := sbtc_ops db; metadata := Some (as_i64 height) |}).

(** [from_connection]: creating the tables leaves existing ones alone. *)
Definition from_connection (start_block_height : option Z) (current_block_height : Z)
    : M Db SqliteError unit := fun db =>
  match start_block_height with
  | Some start => insert_last_processed_block_height (saturating_sub start 1) db
  | None =>
      match last_processed_block_height db with
      | (db, Err _) => insert_last_processed_block_height (saturating_sub current_block_height 1) db
      | (db, _) => (db, Ok tt)
      end
  end.

(** *** [impl PegQueue for SqlitePegQueue] *)
Definition on_db {N A : Type} (m : M Db SqliteError A) : M (Db * N) PegQueueError A :=
  zoom fst (fun d s => (d, s.2)) (with_err SqlitePegQueueError m).

Definition sbtc_op : M Db PegQueueError (option SbtcOp) :=
  maybe_entry ← with_err SqlitePegQueueError (get_single_entry_with_status New);
  match maybe_entry with
  | None => mret None
  | Some entry =>
      with_err SqlitePegQueueError (insert (set_status Pending entry)) ;;
      mret (Some (op entry))
  end.

Definition acknowledge (t : Txid) (b : BurnchainHeaderHash) : M Db PegQueueError unit :=
  entry ← with_err SqlitePegQueueError (get_entry t b);
  with_err SqlitePegQueueError (insert (set_status Acknowledged entry)).

Section Poll.
Context {N : Type} {SN : StacksNode N}.

(** A call to the node with its error unconverted, as the [match] sees it. *)
Definition try_node {A : Type} (m : M N StacksNodeError A)
    : M (Db * N) PegQueueError (A + StacksNodeError) := fun '(db, n) =>
  let '(n', r) := m n in
  ((db, n'), match r with
             | Ok a => Ok (inl a)
             | Err e => Ok (inr e)
             | Panic => Panic
             | Diverge => Diverge
             end).

Definition poll_ops {O : Type} (get : M N StacksNodeError (list O)) (to_entry : O -> Entry)
    : M (Db * N) PegQueueError unit :=
  r ← try_node get;
  match r with
  | inr (UnknownBlockHeight _) => mret tt
  | inr e => throw (PQStacksNodeError e)
  | inl ops => for_each (fun o => on_db (insert (to_entry o))) ops
  end.

Definition poll_peg_in_ops (height : Z) : M (Db * N) PegQueueError unit :=
  poll_ops (get_peg_in_ops height) Entry_from_peg_in.
Definition poll_peg_out_request_ops (height : Z) : M (Db * N) PegQueueError unit :=
  poll_ops (get_peg_out_request_ops height) Entry_from_peg_out.

Definition poll_block (height : Z) : M (Db * N) PegQueueError unit :=
  poll_peg_in_ops height ;;
  poll_peg_out_request_ops height ;;
  on_db (insert_last_processed_block_height height).

Definition poll : M (Db * N) PegQueueError unit :=
  target ← zoom snd (fun n s => (s.1, n)) (with_err PQStacksNodeError burn_block_height);
  last ← on_db last_processed_block_height;
  start ← lift (uadd 64 last 1);
  if target <? start then mret tt
  else for_each poll_block (seqZ start (target - start + 1)).
End Poll.
End PegQueue.

(** ** Rows and entries *)
Section Lemmas.
Context {TY : StacksTypes} {CP : P256k1} {OJ : OpJson} {BP : BuildProfile}.
Implicit Types (db : Db) (e : Entry) (k : Key).

Definition row_of e (json : string) : Row :=
  {| row_height := as_i64 (block_height e); row_op := json; row_status := as_str (status e) |}.

(** The row at [k] is the encoding of [e]. *)
Definition stores db k e : Prop :=
  k = entry_key e /\ in_u64 (block_height e) /\
  exists json, op_to_json (op e) = Some json /\ sbtc_ops db !! k = Some (row_of e json).

Definition db_ok db : Prop := forall k r, sbtc_ops db !! k = Some r -> exists e, stores db k e.

Lemma status_roundtrip (s : Status) : status_from_str (as_str s) = Ok s.
Proof. by destruct s. Qed.

Lemma as_str_inj (s s' : Status) : as_str s = as_str s' -> s = s'.
Proof. by destruct s, s'. Qed.

Lemma from_row_of e (json : string) :
  in_u64 (block_height e) -> op_to_json (op e) = Some json ->
  from_row (entry_key e, row_of e json) = Ok e.
Proof.
  intros Hh Hj. unfold entry_key, row_of, from_row. rewrite txid_hex, bhh_hex. simpl.
  rewrite (op_json _ _ Hj). simpl. rewrite status_roundtrip, as_u64_as_i64 by done. by destruct e.
Qed.

Lemma stores_fun db k e e' : stores db k e -> stores db k e' -> e = e'.
Proof.
  intros (-> & Hh & json & Hj & Hr) (Hk & Hh' & json' & Hj' & Hr').
  assert (row_of e json = row_of e' json') as Heq by congruence.
  pose proof (from_row_of e json Hh Hj) as H1. pose proof (from_row_of e' json' Hh' Hj') as H2.
  rewrite Hk, Heq in H1. congruence.
Qed.

Lemma insert_stores db e json :
  in_u64 (block_height e) -> op_to_json (op e) = Some json -> db_ok db ->
  exists db', insert e db = (db', Ok tt) /\ db_ok db' /\
    sbtc_ops db' = <[entry_key e := row_of e json]> (sbtc_ops db) /\ metadata db' = metadata db.
Proof.
  intros Hh Hj Hok. unfold insert. rewrite Hj. eexists; split; [done|].
  split_and!; [|done|done]. intros k r. simpl. rewrite lookup_insert. case_decide as Hk.
  - intros [= <-]. exists e. split; [done|]. split; [done|]. exists json. split; [done|].
    simpl. by rewrite <-Hk, lookup_insert_eq.
  - intros Hr. destruct (Hok k r Hr) as (e' & -> & Hh' & json' & Hj' & Hr'). exists e'.
    split; [done|]. split; [done|]. exists json'. split; [done|]. simpl. by rewrite lookup_insert_ne.
Qed.

#[export] Instance row_le_trans : Transitive row_le.
Proof.
  intros a b c [H1|[H1 H1']] [H2|[H2 H2']]; unfold row_le; [left; lia|left; lia|left; lia|].
  right. split; [lia|]. by transitivity (row_op b.2).
Qed.
#[export] Instance row_le_total : Total row_le.
Proof.
  intros a b. unfold row_le. destruct (Z.lt_trichotomy (row_height a.2) (row_height b.2)) as [|[|]];
    [by left; left| |by right; left].
  destruct (total String.le (row_op a.2) (row_op b.2)); [left|right]; right; done.
Qed.

Lemma elem_of_select (s : Status) db k r :
  (k, r) ∈ select_status s db <-> sbtc_ops db !! k = Some r /\ row_status r = as_str s.
Proof.
  unfold select_status. rewrite merge_sort_Permutation, list_elem_of_filter. simpl.
  rewrite elem_of_map_to_list. tauto.
Qed.

(** The number of rows waiting to be handed out. *)
Definition new_count db : nat := size (filter (fun x : Key * Row => row_status x.2 = "new") (sbtc_ops db)).

Lemma new_count_pending db k r r' :
  sbtc_ops db !! k = Some r -> row_status r = "new" -> row_status r' = "pending" ->
  (S (new_count {| sbtc_ops := <[k := r']> (sbtc_ops db); metadata := metadata db |}) = new_count db)%nat.
Proof.
  intros Hk Hr Hr'. unfold new_count. simpl.
  rewrite map_filter_insert_False by (simpl; congruence).
  rewrite map_filter_delete. rewrite map_size_delete_Some.
  - assert (size (filter (fun x : Key * Row => row_status x.2 = "new") (sbtc_ops db)) <> O); [|lia].
    intros H0%map_size_empty_inv. assert (filter (fun x : Key * Row => row_status x.2 = "new")
      (sbtc_ops db) !! k = Some r) as H1 by by apply map_lookup_filter_Some.
    by rewrite H0, lookup_empty in H1.
  - exists r. by apply map_lookup_filter_Some.
Qed.

(** The run of [sbtc_op] on a well-formed database. *)
Lemma sbtc_op_run db (Hok : db_ok db) :
  match select_status New db with
  | [] => sbtc_op db = (db, Ok None)
  | (k, r) :: _ =>
      exists e json db', k = entry_key e /\ r = row_of e json /\ stores db k e /\ status e = New /\
        op_to_json (op e) = Some json /\ sbtc_op db = (db', Ok (Some (op e))) /\ db_ok db' /\
        metadata db' = metadata db /\
        sbtc_ops db' = <[k := row_of (set_status Pending e) json]> (sbtc_ops db) /\
        S (new_count db') = new_count db
  end.
Proof.
  assert (sbtc_op db = match select_status New db with
    | [] => (db, Ok None)
    | e :: _ =>
        match from_row e with
        | Ok entry => (with_err SqlitePegQueueError (insert (set_status Pending entry)) ;;
                       mret (Some (op entry))) db
        | Err e => (db, Err (SqlitePegQueueError e))
        | Panic => (db, Panic)
        | Diverge => (db, Diverge)
        end
    end) as Hrun.
  { unfold sbtc_op. rewrite M_bind_eq. unfold with_err at 1, get_single_entry_with_status.
    destruct (select_status New db) as [|e l]; [done|]. by destruct (from_row e). }
  destruct (select_status New db) as [|[k r] l] eqn:Hsel; [done|].
  assert ((k, r) ∈ select_status New db) as [Hk Hr]%elem_of_select by (rewrite Hsel; left).
  destruct (Hok k r Hk) as (e & -> & Hh & json & Hj & Hrow).
  assert (r = row_of e json) as -> by congruence. simpl in Hr.
  apply (as_str_inj _ New) in Hr. rewrite from_row_of, M_bind_eq in Hrun by done.
  destruct (insert_stores db (set_status Pending e) json Hh Hj Hok) as (db' & Hi & Hok' & Hops & Hm).
  unfold with_err in Hrun. rewrite Hi in Hrun. simpl in Hrun. exists e, json, db'. split_and!; try done.
  - split; [done|]. split; [done|]. by exists json.
  - assert (db' = {| sbtc_ops := <[entry_key e := row_of (set_status Pending e) json]> (sbtc_ops db);
                     metadata := metadata db |}) as -> by (destruct db'; simpl in *; by subst).
    apply (new_count_pending db _ (row_of e json)); [done| |done]. simpl. by rewrite Hr.
Qed.

Lemma select_new_nil db : select_status New db = [] -> new_count db = O.
Proof.
  intros Hnil. unfold new_count. apply map_size_empty_iff, map_empty. intros k.
  apply map_lookup_filter_None. right. intros r Hk Hs. simpl in Hs.
  assert ((k, r) ∈ select_status New db) as Hin by by apply elem_of_select.
  rewrite Hnil in Hin. by apply not_elem_of_nil in Hin.
Qed.

(** C16: [sbtc_op] hands out the pending work in order: the new operation with
    the smallest (block height, JSON text), after marking exactly that row as
    pending; [None] only when no row is new.  It cannot fail on a well-formed
    database, and every call that returns an operation leaves one new row less. *)
Theorem sbtc_op_spec db (Hok : db_ok db) :
  exists db' r, sbtc_op db = (db', Ok r) /\ db_ok db' /\ metadata db' = metadata db /\
  match r with
  | None => db' = db /\ forall k e, stores db k e -> status e <> New
  | Some o =>
      exists e json, stores db (entry_key e) e /\ status e = New /\ op e = o /\
        op_to_json o = Some json /\
        sbtc_ops db' = <[entry_key e := row_of (set_status Pending e) json]> (sbtc_ops db) /\
        S (new_count db') = new_count db /\
        forall k' r', sbtc_ops db !! k' = Some r' -> row_status r' = "new" ->
          row_le (entry_key e, row_of e json) (k', r')
  end.
Proof.
  pose proof (StronglySorted_merge_sort row_le
    (filter (fun e : Key * Row => row_status e.2 = as_str New) (map_to_list (sbtc_ops db)))) as Hsort.
  fold (select_status New db) in Hsort. pose proof (sbtc_op_run db Hok) as Hrun.
  destruct (select_status New db) as [|[k r] l] eqn:Hsel.
  - exists db, None. split_and!; try done. intros k e (-> & Hh & json & Hj & Hr) Hs.
    assert ((entry_key e, row_of e json) ∈ select_status New db) as Hin.
    { apply elem_of_select. split; [done|]. simpl. by rewrite Hs. }
    rewrite Hsel in Hin. by apply not_elem_of_nil in Hin.
  - destruct Hrun as (e & json & db' & -> & -> & He & Hs & Hj & Hr & Hok' & Hm & Hops & Hc).
    exists db', (Some (op e)). split_and!; try done. exists e, json. split_and!; try done.
    intros k' r' Hk' Hr'.
    assert ((k', r') ∈ (entry_key e, row_of e json) :: l) as Hin.
    { rewrite <-Hsel. by apply elem_of_select. }
    apply elem_of_cons in Hin as [->|Hin].
    + unfold row_le. right. split; [done|]. reflexivity.
    + apply StronglySorted_inv in Hsort as [_ Hall]. rewrite Forall_forall in Hall. by apply Hall.
Qed.

(** [taken db db']: rows were only moved from new to pending. *)
Definition taken db db' : Prop :=
  metadata db' = metadata db /\
  forall k, sbtc_ops db' !! k = sbtc_ops db !! k \/
    exists r, sbtc_ops db !! k = Some r /\ row_status r = "new" /\
      sbtc_ops db' !! k = Some {| row_height := row_height r; row_op := row_op r; row_status := "pending" |}.

Lemma taken_refl db : taken db db.
Proof. split; [done|]. by left. Qed.
Lemma taken_trans db1 db2 db3 : taken db1 db2 -> taken db2 db3 -> taken db1 db3.
Proof.
  intros [Hm12 H12] [Hm23 H23]. split; [congruence|]. intros k.
  destruct (H23 k) as [Heq|(r & Hr & Hs & Hr3)].
  - destruct (H12 k) as [Heq'|(r & Hr & Hs & Hr2)]; [left; congruence|].
    right. exists r. by rewrite Heq.
  - destruct (H12 k) as [Heq'|(r' & Hr' & Hs' & Hr2)]; [right; exists r; by rewrite <-Heq'|].
    rewrite Hr2 in Hr. by injection Hr as <-.
Qed.

(** The same from the point of view of a client that only needs the counts. *)
Lemma sbtc_op_step db (Hok : db_ok db) :
  exists db' r, sbtc_op db = (db', Ok r) /\ db_ok db' /\ taken db db' /\
    match r with
    | None => new_count db' = O /\ db' = db
    | Some _ => S (new_count db') = new_count db
    end.
Proof.
  pose proof (sbtc_op_run db Hok) as Hrun. pose proof (select_new_nil db) as Hnil.
  destruct (select_status New db) as [|[k r] l] eqn:Hsel.
  - exists db, None. split_and!; try done; [apply taken_refl|by apply Hnil].
  - destruct Hrun as (e & json & db' & -> & -> & He & Hs & Hj & Hr & Hok' & Hm & Hops & Hc).
    exists db', (Some (op e)). split_and!; try done. split; [done|].
    intros k. rewrite Hops, lookup_insert.
    case_decide as Hk; [|by left]. right. destruct He as (_ & _ & json' & Hj' & Hrow). subst k.
    exists (row_of e json'). split_and!; [done|simpl; by rewrite Hs|].
    by assert (json' = json) as -> by congruence.
Qed.
End Lemmas.

(** ** Polling *)
Section Polling.
Context {TY : StacksTypes} {CP : P256k1} {OJ : OpJson} {BP : BuildProfile}
  {N : Type} {SN : StacksNode N}.
Implicit Types (db : Db) (k : Key).

(** A node whose answers do not change while the queue polls it. *)
Context (n : N) (height : Z) (ins : Z -> res StacksNodeError (list PegInOp))
  (outs : Z -> res StacksNodeError (list PegOutRequestOp))
  (node_height : burn_block_height n = (n, Ok height))
  (node_ins : forall h, get_peg_in_ops h n = (n, ins h))
  (node_outs : forall h, get_peg_out_request_ops h n = (n, outs h)).

(** The row at [k] is waiting to be handed out. *)
Definition waiting db k : Prop :=
  exists r, sbtc_ops db !! k = Some r /\ row_status r = "new".

(** [only_new db db']: rows were only added or (re)set to new. *)
Definition only_new db db' : Prop :=
  forall k, sbtc_ops db' !! k = sbtc_ops db !! k \/ waiting db' k.

Lemma only_new_refl db : only_new db db.
Proof. intros k. by left. Qed.
Lemma only_new_trans db1 db2 db3 : only_new db1 db2 -> only_new db2 db3 -> only_new db1 db3.
Proof.
  intros H12 H23 k. destruct (H23 k) as [Heq|]; [|by right].
  destruct (H12 k) as [Heq'|(r & Hr & Hs)]; [left; congruence|]. right. exists r. by rewrite Heq.
Qed.
Lemma only_new_waiting db db' k : only_new db db' -> waiting db k -> waiting db' k.
Proof. intros H (r & Hr & Hs). destruct (H k) as [Heq|]; [|done]. exists r. by rewrite Heq. Qed.

Lemma insert_new (e : Entry) db db' r :
  status e = New -> insert e db = (db', r) ->
  only_new db db' /\ metadata db' = metadata db /\ (r = Ok tt -> waiting db' (entry_key e)).
Proof.
  intros Hs. unfold insert. destruct (op_to_json (op e)) as [json|]; intros [= <- <-].
  - assert (waiting {| sbtc_ops := <[entry_key e := {| row_height := as_i64 (block_height e);
        row_op := json; row_status := as_str (status e) |}]> (sbtc_ops db);
        metadata := metadata db |} (entry_key e)) as Hw.
    { eexists. split; [by apply lookup_insert_eq|]. simpl. by rewrite Hs. }
    split_and!; [|done|done]. intros k. destruct (decide (entry_key e = k)) as [<-|Hne]; [by right|].
    left. simpl. by rewrite lookup_insert_ne.
  - split_and!; [apply only_new_refl|done|done].
Qed.

Lemma poll_ops_spec {O : Type} (get : M N StacksNodeError (list O)) (to_entry : O -> Entry)
    (answer : res StacksNodeError (list O)) db s' r :
  (forall o, status (to_entry o) = New) -> get n = (n, answer) ->
  poll_ops get to_entry (db, n) = (s', r) ->
  s'.2 = n /\ only_new db s'.1 /\ metadata s'.1 = metadata db /\
  (r = Ok tt -> forall l o, answer = Ok l -> o ∈ l -> waiting s'.1 (entry_key (to_entry o))).
Proof.
  intros Hnew Hget. unfold poll_ops. rewrite M_bind_eq. unfold try_node. rewrite Hget.
  destruct answer as [l|e| |].
  - intros Hl.
    assert (s'.2 = n /\ only_new db s'.1 /\ metadata s'.1 = metadata db /\
      (r = Ok tt -> forall o, o ∈ l -> waiting s'.1 (entry_key (to_entry o)))) as (H1 & H2 & H3 & H4).
    { clear Hget. revert db Hl; induction l as [|o l IH]; intros db; simpl.
      - intros [= <- <-]. split_and!; try done; [apply only_new_refl|]. intros _ o Ho.
        by apply not_elem_of_nil in Ho.
      - rewrite M_bind_eq. unfold on_db at 1, zoom, with_err. simpl.
        destruct (insert (to_entry o) db) as [db1 r1] eqn:Hi.
        apply insert_new in Hi as (Ho1 & Hm1 & Hw1); [|apply Hnew].
        destruct r1 as [[]|e1| |]; simpl; try (intros [= <- <-]; simpl; split_and!; done).
        intros (Ha & Hb & Hc & Hd)%IH. split_and!; [done|by eapply only_new_trans|congruence|].
        intros Hr o' [->|Ho']%elem_of_cons; [|by apply Hd].
        eapply only_new_waiting; [exact Hb|]. by apply Hw1. }
    split_and!; try done. intros Hr l' o [= <-]. by apply H4.
  - destruct e; simpl; intros [= <- <-]; split_and!; try done; apply only_new_refl.
  - intros [= <- <-]. split_and!; try done. apply only_new_refl.
  - intros [= <- <-]. split_and!; try done. apply only_new_refl.
Qed.

(** The keys of the operations the node reports at a height. *)
Definition reported (h : Z) k : Prop :=
  (exists l o, ins h = Ok l /\ o ∈ l /\ k = entry_key (Entry_from_peg_in o)) \/
  (exists l o, outs h = Ok l /\ o ∈ l /\ k = entry_key (Entry_from_peg_out o)).

Lemma poll_block_spec (h : Z) db s' r :
  poll_block h (db, n) = (s', r) ->
  s'.2 = n /\ only_new db s'.1 /\
  (r = Ok tt -> metadata s'.1 = Some (as_i64 h) /\ forall k, reported h k -> waiting s'.1 k) /\
  (r <> Ok tt -> metadata s'.1 = metadata db).
Proof.
  unfold poll_block. rewrite M_bind_eq.
  destruct (poll_peg_in_ops h (db, n)) as [[db1 n1] r1] eqn:H1.
  apply (poll_ops_spec _ _ (ins h)) in H1 as (Hn1 & Ho1 & Hm1 & Hw1); [|done|apply node_ins].
  simpl in *. subst n1.
  destruct r1 as [[]|e| |]; try (intros [= <- <-]; simpl; split_and!; done).
  rewrite M_bind_eq.
  destruct (poll_peg_out_request_ops h (db1, n)) as [[db2 n2] r2] eqn:H2.
  apply (poll_ops_spec _ _ (outs h)) in H2 as (Hn2 & Ho2 & Hm2 & Hw2); [|done|apply node_outs].
  simpl in *. subst n2.
  assert (only_new db db2) as Ho by by eapply only_new_trans.
  destruct r2 as [[]|e| |]; try (intros [= <- <-]; simpl; split_and!; congruence || done).
  intros [= <- <-]. simpl. split_and!; try done. intros _. split; [done|].
  intros k [(l & o & Hl & Hin & ->)|(l & o & Hl & Hin & ->)].
  - destruct (only_new_waiting _ _ _ Ho2 (Hw1 eq_refl l o Hl Hin)) as (x & Hx & Hs). by exists x.
  - destruct (Hw2 eq_refl l o Hl Hin) as (x & Hx & Hs). by exists x.
Qed.

Lemma poll_blocks_spec (count : nat) (start : Z) db s' r :
  for_each poll_block (seqZ start (Z.of_nat count)) (db, n) = (s', r) ->
  s'.2 = n /\
  exists done_ : nat, (done_ <= count)%nat /\ (r = Ok tt <-> done_ = count) /\
    only_new db s'.1 /\
    metadata s'.1 = match done_ with
                    | O => metadata db
                    | S d => Some (as_i64 (start + Z.of_nat d))
                    end /\
    (forall h k, start <= h < start + Z.of_nat done_ -> reported h k -> waiting s'.1 k).
Proof.
  revert start db; induction count as [|count IH]; intros start db.
  { simpl. intros [= <- <-]. split; [done|]. exists O. split_and!; try done; [apply only_new_refl|]. lia. }
  rewrite seqZ_cons by lia. replace (Z.pred (Z.of_nat (S count))) with (Z.of_nat count) by lia.
  simpl. rewrite M_bind_eq. destruct (poll_block start (db, n)) as [[db1 n1] r1] eqn:H1.
  apply poll_block_spec in H1 as (Hn & Ho & Hok & Hko). simpl in *. subst n1.
  destruct r1 as [[]|e| |];
    try (intros [= <- <-]; split; [done|]; exists O; simpl; split_and!;
         [lia|split; [done|lia]|done|by apply Hko|lia]).
  specialize (Hok eq_refl) as [Hm Hw]. intros (Hn & d & Hd & Hr & Ho' & Hm' & Hw')%IH.
  split; [done|]. exists (S d). split_and!.
  - lia.
  - rewrite Hr. lia.
  - by eapply only_new_trans.
  - rewrite Hm'. destruct d; [rewrite Hm; do 2 f_equal; lia|]. do 2 f_equal. lia.
  - intros h k Hh Hrep. destruct (decide (h = start)) as [->|Hne].
    + eapply only_new_waiting; [exact Ho'|]. by apply Hw.
    + apply (Hw' h k); [lia|done].
Qed.

(** A poll is a run over the blocks that are not in the queue yet. *)
Lemma poll_as_blocks (last : Z) db :
  in_u64 last -> in_u64 (last + 1) -> metadata db = Some (as_i64 last) ->
  poll (db, n) = for_each poll_block (seqZ (last + 1) (Z.of_nat (Z.to_nat (height - last)))) (db, n).
Proof.
  intros Hlast Hnext Hm. unfold poll. rewrite M_bind_eq. unfold zoom at 1, with_err at 1. cbn [fst snd].
  rewrite node_height. cbn [fst snd map_err]. rewrite M_bind_eq.
  unfold on_db at 1, zoom at 1, with_err at 1, last_processed_block_height. cbn [fst snd].
  rewrite Hm. cbn [map_err]. rewrite M_bind_eq. unfold lift, uadd.
  rewrite as_u64_as_i64, checked_small by done. cbn [fst snd].
  destruct (Z.ltb_spec height (last + 1)).
  - by replace (Z.to_nat (height - last)) with O by lia.
  - by replace (height - (last + 1) + 1) with (Z.of_nat (Z.to_nat (height - last))) by lia.
Qed.

(** C15: polling catches up block by block.  Starting from the recorded height
    [last], it ends at some height between [last] and the node's; that height is
    recorded, every operation the node reports up to it is in the queue and
    waiting, all other rows are untouched, and the poll succeeded exactly when
    the node's height was reached: after an error the next poll resumes at the
    block that failed. *)
Theorem poll_catches_up (last : Z) db
    (Hlast : in_u64 last) (Hnext : in_u64 (last + 1)) (Hm : metadata db = Some (as_i64 last)) :
  exists db' r reached, poll (db, n) = ((db', n), r) /\
    last <= reached <= Z.max last height /\ (r = Ok tt <-> reached = Z.max last height) /\
    metadata db' = Some (as_i64 reached) /\ only_new db db' /\
    (forall h k, last < h <= reached -> reported h k -> waiting db' k).
Proof.
  rewrite (poll_as_blocks last) by done. destruct (for_each poll_block _ (db, n)) as [[db' n'] r] eqn:Hf.
  apply poll_blocks_spec in Hf as (Hn & d & Hd & Hr & Ho & Hm' & Hw). simpl in *. subst n'.
  exists db', r, (last + Z.of_nat d). split_and!; try done; try lia.
  - rewrite Hr. lia.
  - rewrite Hm'. destruct d; [rewrite Hm; do 2 f_equal; lia|do 2 f_equal; lia].
  - intros h k Hh Hrep. apply (Hw h k); [lia|done].
Qed.

(** opening the queue with a start height hands out old work again: after
    the next successful poll every operation from that height on is waiting,
    including those that were pending or acknowledged. *)
Theorem reopen_redelivers (start current : Z) db db1 db2
    (Hstart : 1 <= start <= height) (Hheight : in_u64 (height + 1))
    (Hopen : from_connection (Some start) current db = (db1, Ok tt))
    (Hpoll : poll (db1, n) = ((db2, n), Ok tt)) (h : Z) k
    (Hh : start <= h <= height) (Hk : reported h k) :
  waiting db2 k.
Proof.
  simpl in Hopen. injection Hopen as <-.
  assert (saturating_sub start 1 = start - 1) as Hs by (unfold saturating_sub; lia).
  unfold in_uint in Hheight.
  rewrite (poll_as_blocks (start - 1)) in Hpoll;
    [|unfold in_uint; lia|unfold in_uint; lia|simpl; by rewrite Hs].
  apply poll_blocks_spec in Hpoll as (_ & d & Hd & [Hr _] & _ & _ & Hw). simpl in *.
  specialize (Hr eq_refl). apply (Hw h k); [lia|done].
Qed.
End Polling.

(** ** Executable instances *)
Module ToyQueue.
Import ToyCrypto ToyStacks.
#[export] Instance debug_build : BuildProfile := true.

#[export] Instance ToyOp_eq_dec : EqDecision ToyOp.
Proof. solve_decision. Defined.

(** A peg-in at height 5 and a peg-out request at height 6. *)
Definition op_in : ToyOp :=
  {| toy_txid := "t1"; toy_burn := "b5"; toy_height := 5; toy_amount := 100; toy_fee := 0;
     toy_who := "ST1" |}.
Definition op_out : ToyOp :=
  {| toy_txid := "t2"; toy_burn := "b6"; toy_height := 6; toy_amount := 50; toy_fee := 10;
     toy_who := "ST2" |}.

#[export] Program Instance toy_op_json : OpJson := {|
  op_to_json o :=
    match o with
    | PegIn op => if bool_decide (op = op_in) then Some "in" else None
    | PegOutRequest op => if bool_decide (op = op_out) then Some "out" else None
    end;
  op_from_json s :=
    if String.eqb s "in" then Some (PegIn op_in)
    else if String.eqb s "out" then Some (PegOutRequest op_out) else None
|}.
Next Obligation. intros [op|op] s; simpl; case_bool_decide; intros [= <-]; by subst. Qed.

(** A node at height 6 that accepts or refuses broadcasts as scripted. *)
Record ToyNode := {
  tn_nonce : Z; tn_refusals : list (option StacksNodeError); tn_sent : list bytes
}.

#[export] Instance toy_node : StacksNode ToyNode := {|
  get_peg_in_ops h n := (n, Ok (if h =? 5 then [op_in] else []));
  get_peg_out_request_ops h n := (n, if h =? 6 then Ok [op_out] else Err (UnknownBlockHeight h));
  burn_block_height n := (n, Ok 6);
  next_nonce _ n :=
    ({| tn_nonce := tn_nonce n + 1; tn_refusals := tn_refusals n; tn_sent := tn_sent n |},
     Ok (tn_nonce n));
  broadcast_transaction tx n :=
    match tn_refusals n with
    | Some e :: l => ({| tn_nonce := tn_nonce n; tn_refusals := l; tn_sent := tn_sent n |}, Err e)
    | _ :: l => ({| tn_nonce := tn_nonce n; tn_refusals := l; tn_sent := tn_sent n ++ [tx] |}, Ok tt)
    | [] => ({| tn_nonce := tn_nonce n; tn_refusals := []; tn_sent := tn_sent n ++ [tx] |}, Ok tt)
    end;
  keys_threshold _ n := (n, Ok 2);
  node_public_keys _ n := (n, Ok PublicKeys_default);
  node_signer_key_ids _ n := (n, Ok ∅);
  node_coordinator_public_key _ n := (n, Ok None);
  node_bitcoin_wallet_public_key _ n := (n, Ok None)
|}.

Definition node (refusals : list (option StacksNodeError)) : ToyNode :=
  {| tn_nonce := 7; tn_refusals := refusals; tn_sent := [] |}.
Definition node_ins (h : Z) : res StacksNodeError (list PegInOp) :=
  Ok (if h =? 5 then [op_in] else []).
Definition node_outs (h : Z) : res StacksNodeError (list PegOutRequestOp) :=
  if h =? 6 then Ok [op_out] else Err (UnknownBlockHeight h).

Definition empty_db (last : Z) : Db := {| sbtc_ops := ∅; metadata := Some last |}.
Definition polled_db : Db :=
  {| sbtc_ops := {[("t1", "b5") := {| row_height := 5; row_op := "in"; row_status := "new" |};
                   ("t2", "b6") := {| row_height := 6; row_op := "out"; row_status := "new" |}]};
     metadata := Some 6 |}.
(** Both operations were handed out. *)
Definition worked_db : Db :=
  {| sbtc_ops := {[("t1", "b5") := {| row_height := 5; row_op := "in"; row_status := "pending" |};
                   ("t2", "b6") := {| row_height := 6; row_op := "out"; row_status := "acknowledged" |}]};
     metadata := Some 6 |}.
End ToyQueue.

Module PegQueueWitness.
Import ToyCrypto ToyStacks ToyQueue.

Lemma polled_ok : db_ok polled_db.
Proof.
  intros k r Hr. simpl in Hr. rewrite lookup_insert in Hr. case_decide as Hk.
  - injection Hr as <-. exists (Entry_from_peg_in (TY := toy_stacks) op_in).
    split; [by subst|]. split; [by_compute|]. exists "in". split; [run|]. by subst.
  - apply lookup_singleton_Some in Hr as [<- <-].
    exists (Entry_from_peg_out (TY := toy_stacks) op_out).
    split; [done|]. split; [by_compute|]. exists "out". split; run.
Qed.

Lemma sbtc_op_spec_witness : exists db' r, sbtc_op polled_db = (db', Ok r) /\ db_ok db'.
Proof.
  destruct (sbtc_op_spec polled_db polled_ok) as (db' & r & H & Hok & _).
  exists db', r. split; [exact H|exact Hok].
Defined.

Lemma toy_height : burn_block_height (N := ToyNode) (node []) = (node [], Ok 6).
Proof. reflexivity. Qed.
Lemma toy_ins (h : Z) : get_peg_in_ops (N := ToyNode) h (node []) = (node [], node_ins h).
Proof. reflexivity. Qed.
Lemma toy_outs (h : Z) : get_peg_out_request_ops (N := ToyNode) h (node []) = (node [], node_outs h).
Proof. reflexivity. Qed.

Lemma poll_catches_up_witness :
  exists db' r reached, poll (empty_db 3, node []) = ((db', node []), r) /\ 3 <= reached <= 6.
Proof.
  destruct (poll_catches_up (node []) 6 node_ins node_outs toy_height toy_ins toy_outs 3 (empty_db 3)) as (db' & r & reached & H & Hr & _).
  - unfold in_uint. lia.
  - unfold in_uint. lia.
  - reflexivity.
  - exists db', r, reached. split; [exact H|exact Hr].
Defined.

Definition repolled : Db :=
  match poll ((from_connection (Some 5) 6 worked_db).1, node []) with ((d, _), _) => d end.

Lemma reopen_redelivers_witness : waiting repolled ("t1", "b5").
Proof.
  apply (reopen_redelivers (node []) 6 node_ins node_outs toy_height toy_ins toy_outs 5 6 worked_db (from_connection (Some 5) 6 worked_db).1 repolled)
    with (h := 5).
  - lia.
  - unfold in_uint. lia.
  - reflexivity.
  - run.
  - lia.
  - left. exists [op_in], op_in. split_and!; [done|by left|done].
Defined.
End PegQueueWitness.
