(* ===== verification/BitcoinNode.v ===== *)
(** * [stacks-coordinator/src/bitcoin_node.rs]: access to the Bitcoin node

    The interface [BitcoinNode] and its implementation over JSON-RPC.  [ureq],
    [serde_json], [bdk] and the types of [bitcoin] are external. *)
From S2P Require Import Prelude StacksNode.

(** The parts of the [bitcoin] crate that are used. *)
Class BitcoinTypes `{TY : StacksTypes} := {
  BtcTxid : Type;
  BtcTxid_eq_dec :: EqDecision BtcTxid;
  btc_txid_from_hex : string -> option BtcTxid;
  Script : Type;
  Script_eq_dec :: EqDecision Script;
  script_empty : Script;
  script_from_hex : string -> option Script;               (* Script::from(hex::decode(..)?) *)
  script_op_return : bytes -> Script;                      (* OP_RETURN, push_slice *)
  script_p2tr_tweaked : XOnlyPublicKey -> Script;
  dust_value : Script -> Z;
  BtcNetwork : Type;
  BtcAddress : Type;
  p2tr_address : XOnlyPublicKey -> BtcNetwork -> BtcAddress;
  btc_address_to_string : BtcAddress -> string
}.

Section Data.
Context {TY : StacksTypes} {BT : BitcoinTypes}.

Record OutPoint := { op_txid : BtcTxid; op_vout : Z }.
Record TxIn := {
  previous_output : OutPoint;
  script_sig : Script;
  sequence : Z;
  witness : list bytes
}.
Record TxOut := { value : Z; script_pubkey : Script }.
Record Transaction := {
  version : Z;
  lock_time : Z;
  input : list TxIn;
  output : list TxOut
}.
End Data.

(** [bitcoin_node::UTXO] *)
Record UTXO := {
  u_txid : string;
  u_vout : Z;
  u_address : string;
  u_label : string;
  u_scriptPubKey : string;
  u_amount : Z;
  u_confirmations : Z;
  u_redeemScript : string;
  u_witnessScript : string;
  u_spendable : bool;
  u_solvable : bool;
  u_reused : bool;
  u_desc : string;
  u_safe : bool
}.

(** [bitcoin_node::Error] *)
Inductive BitcoinNodeError :=
  | BNIOError
  | RPCError (message : string)
  | InvalidResponseJSON (what : string)
  | InvalidUTXO (what : string)
  | InvalidTxHash
  | DescriptorError
  | BNUrlParseError.

(** [trait BitcoinNode] *)
Class BitcoinNode `{TY : StacksTypes, BT : !BitcoinTypes} (N : Type) := {
  btc_broadcast_transaction : Transaction -> M N BitcoinNodeError BtcTxid;
  btc_load_wallet : BtcAddress -> M N BitcoinNodeError unit;
  btc_list_unspent : BtcAddress -> M N BitcoinNodeError (list UTXO)
}.

(** What the coordinator relies on: the calls return. *)
Class ReturningBitcoin {TY : StacksTypes} {BT : BitcoinTypes} {N : Type} {BTN : BitcoinNode N} := {
  list_unspent_returns : forall address n, (btc_list_unspent address n).2 <> Diverge;
  btc_broadcast_returns : forall tx n, (btc_broadcast_transaction tx n).2 <> Diverge
}.

#[local] Set Warnings "-register-all".
(** The JSON parameters the client builds; a tuple is an array. *)
Inductive RpcParam :=
  | PString (s : string)
  | PInt (n : Z)
  | PBool (b : bool)
  | PNull
  | PArray (l : list RpcParam)
  | PObject (l : list (string * RpcParam)).

(** What [LocalhostBitcoinNode] needs from other crates: a JSON-RPC exchange, the
    encodings, and the conversion of a JSON number to satoshis. *)
Class BitcoinRpc `{TY : StacksTypes, BT : !BitcoinTypes, JS : Json} := {
  BtcWorld : Type;
  BtcUrl : Type;
  btc_url_join : BtcUrl -> string -> option BtcUrl;
  (* method and parameters: the JSON response, or an error *)
  json_rpc : BtcUrl -> string -> RpcParam -> BtcWorld -> BtcWorld * (JsonValue + BitcoinNodeError);
  tx_encode : Transaction -> option string;                  (* consensus_encode, hex *)
  btc_txid_from_str : string -> option BtcTxid;              (* Hash::from_str *)
  wallet_from_json : JsonValue -> option (string * string);  (* struct Wallet *)
  calc_checksum : string -> option string;
  json_as_f64 : JsonValue -> option JsonValue;               (* the number, when it is one *)
  amount_from_btc : JsonValue -> option Z;                   (* Amount::from_btc, to_sat *)
  message_contains : string -> string -> bool                (* str::contains *)
}.

Section LocalhostBitcoinNode.
Context {TY : StacksTypes} {BT : BitcoinTypes} {JS : Json} {BR : BitcoinRpc}.

Record LocalhostBitcoinNode := { bitcoind_api : BtcUrl; wallet_name : string }.

Definition LocalhostBitcoinNode_new (url : BtcUrl) : LocalhostBitcoinNode :=
  {| bitcoind_api := url; wallet_name := "stacks_coordinator" |}.

Abbreviation LB := (LocalhostBitcoinNode * BtcWorld)%type.
Abbreviation Node := (M LB BitcoinNodeError).

Definition rpc (url : BtcUrl) (method : string) (params : RpcParam) : Node JsonValue := fun '(self, w) =>
  let '(w', r) := json_rpc url method params w in
  ((self, w'), match r with inl v => Ok v | inr e => Err e end).

Definition call_path (method : string) (params : RpcParam) (path : option string) : Node JsonValue :=
  self ← gets fst;
  url ← match path with
        | Some p => lift (ok_or (btc_url_join (bitcoind_api self) p) BNUrlParseError)
        | None => mret (bitcoind_api self)
        end;
  json_response ← rpc url method params;
  lift (ok_or (json_get json_response "result") (InvalidResponseJSON "Missing entry 'result'.")).

Definition call (method : string) (params : RpcParam) : Node JsonValue := call_path method params None.

Definition call_wallet (method : string) (params : RpcParam) : Node JsonValue :=
  self ← gets fst;
  call_path method params (Some ("/wallet/" +:+ wallet_name self)).

Definition create_empty_wallet : Node unit :=
  self ← gets fst;
  v ← call "createwallet"
        (PArray [PString (wallet_name self); PBool true; PBool true; PString ""; PBool false;
                PBool true; PBool true]);
  _ ← lift (ok_or (wallet_from_json v) (InvalidResponseJSON "wallet"));
  mret tt.

Definition import_address (address : BtcAddress) : Node unit :=
  let descriptor := "addr(" +:+ btc_address_to_string address +:+ ")" in
  checksum ← lift (ok_or (calc_checksum descriptor) DescriptorError);
  let desc := descriptor +:+ "#" +:+ checksum in
  _ ← call_wallet "importdescriptors"
        (PArray [PArray [PObject
          [("desc", PString desc); ("timestamp", PString "now"); ("internal", PBool false);
           ("watchonly", PBool true); ("label", PString ""); ("keypool", PBool true);
           ("rescan", PBool true)]]]);
  mret tt.

(** Only an RPC error other than "already exists" stops [load_wallet]. *)
Definition load_wallet (address : BtcAddress) : Node unit := fun s =>
  let '(s1, result) := create_empty_wallet s in
  match result with
  | Panic => (s1, Panic)
  | Diverge => (s1, Diverge)
  | Err (RPCError message) =>
      if message_contains message "Database already exists" then import_address address s1
      else (s1, Err (RPCError message))
  | _ => import_address address s1
  end.

Definition entry {A : Type} (raw : JsonValue) (key : string) (conv : JsonValue -> option A)
    (what : string) : res BitcoinNodeError A :=
  ok_or (conv (json_index raw key)) (InvalidResponseJSON what).

Definition raw_to_utxo (raw : JsonValue) : res BitcoinNodeError UTXO :=
  txid ← entry raw "txid" json_as_str "Could not parse txid";
  vout ← entry raw "vout" json_as_u64 "Could not parse vout";
  address ← entry raw "address" json_as_str "Could not parse address";
  label ← entry raw "label" json_as_str "Could not parse label";
  script ← entry raw "scriptPubKey" json_as_str "Could not parse scriptPubKey";
  number ← entry raw "amount" json_as_f64 "Amount not provided or wrong type";
  amount ← ok_or (amount_from_btc number) (InvalidResponseJSON "Could not parse the float");
  confirmations ← entry raw "confirmations" json_as_u64 "Could not parse confirmations";
  spendable ← entry raw "spendable" json_as_bool "Could not parse spendable";
  solvable ← entry raw "solvable" json_as_bool "Could not parse solvable";
  safe ← entry raw "safe" json_as_bool "Could not parse safe";
  mret {| u_txid := txid; u_vout := as_u32 vout; u_address := address; u_label := label;
          u_scriptPubKey := script; u_amount := amount; u_confirmations := confirmations;
          u_redeemScript := ""; u_witnessScript := ""; u_spendable := spendable;
          u_solvable := solvable; u_reused := false; u_desc := ""; u_safe := safe |}.

Definition list_unspent (address : BtcAddress) : Node (list UTXO) :=
  response ← call_wallet "listunspent"
               (PArray [PInt 0; PInt 9999999; PArray [PString (btc_address_to_string address)]]);
  raws ← lift (ok_or (json_as_array response)
                 (InvalidResponseJSON "Listunspent response is not an array"));
  lift (mapR raw_to_utxo raws).

Definition node_broadcast_transaction (tx : Transaction) : Node BtcTxid :=
  raw_tx ← lift (ok_or (tx_encode tx) BNIOError);
  v ← call "sendrawtransaction" (PArray [PString raw_tx]);
  result ← lift (ok_or (json_as_str v)
    (InvalidResponseJSON "No transaction hash in sendrawtransaction response"));
  lift (ok_or (btc_txid_from_str result) InvalidTxHash).

#[export] Instance LocalhostBitcoinNode_BitcoinNode : BitcoinNode LB := {|
  btc_broadcast_transaction := node_broadcast_transaction;
  btc_load_wallet := load_wallet;
  btc_list_unspent := list_unspent
|}.

(** The client keeps the promise. *)
Lemma call_path_returns (method : string) (params : RpcParam) (path : option string) :
  returns (call_path method params path).
Proof.
  apply returns_bind; [auto with returns|intros self].
  apply returns_bind; [destruct path; auto with returns|intros url].
  apply returns_bind; [|auto with returns]. intros [self' w]. simpl.
  destruct (json_rpc _ _ _ _) as [w' []]; done.
Qed.
#[local] Hint Resolve call_path_returns : returns.

Lemma raw_to_utxo_returns (raw : JsonValue) : raw_to_utxo raw <> Diverge.
Proof.
  unfold raw_to_utxo, entry.
  repeat match goal with
  | |- context [ok_or ?o ?e] => destruct o; [cbn [ok_or mbind res_bind]|done]
  end. done.
Qed.

#[export] Instance LocalhostBitcoinNode_returns : ReturningBitcoin (N := LB).
Proof.
  split.
  - intros address. change (returns (list_unspent address)).
    apply returns_bind; [apply returns_bind; [auto with returns|intros; apply call_path_returns]|intros response].
    apply returns_bind; [auto with returns|intros raws]. apply returns_lift.
    generalize dependent raws. induction raws as [|v l IH]; [done|]. simpl.
    pose proof (raw_to_utxo_returns v) as Hv. destruct (raw_to_utxo v); try done. simpl.
    by destruct (mapR raw_to_utxo l).
  - intros tx. change (returns (node_broadcast_transaction tx)).
    apply returns_bind; [auto with returns|intros raw_tx].
    apply returns_bind; [apply call_path_returns|intros v]. apply returns_bind; auto with returns.
Qed.

(** A wallet that could not be created for any reason but an RPC error does not
    stop the start-up: the address is imported all the same. *)
Lemma load_wallet_ignores (address : BtcAddress) (s s1 : LB) (e : BitcoinNodeError) :
  create_empty_wallet s = (s1, Err e) -> (forall m, e <> RPCError m) ->
  load_wallet address s = import_address address s1.
Proof. intros Hc He. unfold load_wallet. rewrite Hc. by destruct e; try destruct (He message). Qed.
End LocalhostBitcoinNode.
