(* ===== verification/BitcoinWallet.v ===== *)
(** * [stacks-coordinator/src/bitcoin_wallet.rs]: fulfilling peg-outs

    [fulfill_peg_out] builds the unsigned Bitcoin transaction of a peg-out
    request out of the unspent outputs of the peg wallet. *)
From S2P Require Import Prelude StacksNode BitcoinNode.

(** [bitcoin_wallet::Error] *)
Inductive BitcoinWalletError :=
  | InsufficientFunds
  | InvalidTransactionID (id : string)
  | InvalidScriptPubKey (script : string)
  | MissingFulfillmentUTXO
  | MismatchedFulfillmentFee.

Section BitcoinWallet.
Context {TY : StacksTypes} {BT : BitcoinTypes} {BP : BuildProfile}.

Record BitcoinWallet := { wallet_address : BtcAddress; wallet_public_key : XOnlyPublicKey }.

Definition BitcoinWallet_new (public_key : XOnlyPublicKey) (network : BtcNetwork) : BitcoinWallet :=
  {| wallet_address := p2tr_address public_key network; wallet_public_key := public_key |}.

Definition utxo_to_input (u : UTXO) : res BitcoinWalletError TxIn :=
  txid ← ok_or (btc_txid_from_hex (u_txid u)) (InvalidTransactionID (u_txid u));
  mret {| previous_output := {| op_txid := txid; op_vout := u_vout u |};
          script_sig := script_empty; sequence := 0xFFFFFFFD; witness := [] |}.

Definition utxo_to_output (u : UTXO) : res BitcoinWalletError TxOut :=
  script ← ok_or (script_from_hex (u_scriptPubKey u)) (InvalidScriptPubKey (u_scriptPubKey u));
  mret {| value := u_amount u; script_pubkey := script |}.

(** "T2!" padded with dots to 35 bytes. *)
Definition withdrawal_data : bytes := take 35 (as_bytes "T2!" ++ replicate 35 46).
Definition withdrawal_data_output : TxOut :=
  {| value := 0; script_pubkey := script_op_return withdrawal_data |}.

(** The mutable locals of [fulfill_peg_out]. *)
Record Selection := {
  total_consumed : Z;
  inputs : list TxIn;
  prevouts : list TxOut;
  found_fulfillment_utxo : bool
}.
Definition no_selection : Selection :=
  {| total_consumed := 0; inputs := []; prevouts := []; found_fulfillment_utxo := false |}.

Definition is_fulfillment (op : PegOutRequestOp) (u : UTXO) : bool :=
  bool_decide (u_txid u = txid_to_string (po_txid op)) && (u_vout u =? 2).

Definition consume (sel : Selection) (u : UTXO) (total : Z) (found : bool)
    : res BitcoinWalletError Selection :=
  i ← utxo_to_input u;
  o ← utxo_to_output u;
  mret {| total_consumed := total; inputs := inputs sel ++ [i]; prevouts := prevouts sel ++ [o];
          found_fulfillment_utxo := found |}.

Fixpoint select_utxos (op : PegOutRequestOp) (available : list UTXO) (sel : Selection)
    : res BitcoinWalletError Selection :=
  match available with
  | [] => Ok sel
  | u :: available' =>
      if is_fulfillment op u then
        if negb (u_amount u =? po_fulfillment_fee op) then Err MismatchedFulfillmentFee
        else
          sel ← consume sel u (total_consumed sel) true;
          select_utxos op available' sel
      else if total_consumed sel <? po_amount op then
        total ← uadd 64 (total_consumed sel) (u_amount u);
        sel ← consume sel u total (found_fulfillment_utxo sel);
        select_utxos op available' sel
      else if found_fulfillment_utxo sel then Ok sel
      else select_utxos op available' sel
  end.

Definition outputs (self : BitcoinWallet) (op : PegOutRequestOp) (change_amount : Z) : list TxOut :=
  let script := script_p2tr_tweaked (wallet_public_key self) in
  [withdrawal_data_output; {| value := po_amount op; script_pubkey := script |}]
  ++ (if dust_value script <=? change_amount
      then [{| value := change_amount; script_pubkey := script |}] else []).

Definition fulfill_peg_out (self : BitcoinWallet) (op : PegOutRequestOp) (available : list UTXO)
    : res BitcoinWalletError (Transaction * list TxOut) :=
  sel ← select_utxos op available no_selection;
  if negb (found_fulfillment_utxo sel) then Err MissingFulfillmentUTXO
  else if total_consumed sel <? po_amount op then Err InsufficientFunds
  else
    change_amount ← usub 64 (total_consumed sel) (po_amount op);
    mret ({| version := 2; lock_time := 0; input := inputs sel;
             output := outputs self op change_amount |}, prevouts sel).

(** ** Lemmas *)
Definition sum_values (l : list TxOut) : Z := foldr Z.add 0 (value <$> l).

Lemma sum_values_app (l1 l2 : list TxOut) : sum_values (l1 ++ l2) = sum_values l1 + sum_values l2.
Proof.
  unfold sum_values. induction l1 as [|o l1 IH]; [done|]. rewrite <-app_comm_cons, !fmap_cons.
  cbn [foldr]. rewrite IH. lia.
Qed.

(** The input [i] spends the output [o] of one of the wallet's unspent outputs. *)
Definition spends (available : list UTXO) (i : TxIn) (o : TxOut) : Prop :=
  exists u, u ∈ available /\ utxo_to_input u = Ok i /\ utxo_to_output u = Ok o.

(** What is known of a selection that took [count] fulfillment outputs. *)
Record selected (op : PegOutRequestOp) (available : list UTXO) (sel : Selection) (count : nat) : Prop := {
  sel_spends : Forall2 (spends available) (inputs sel) (prevouts sel);
  sel_sum : sum_values (prevouts sel) = total_consumed sel + Z.of_nat count * po_fulfillment_fee op;
  sel_found : found_fulfillment_utxo sel = true <-> (1 <= count)%nat;
  sel_range : in_u64 (total_consumed sel)
}.

Lemma consume_Ok (sel sel' : Selection) (u : UTXO) (total : Z) (found : bool) :
  consume sel u total found = Ok sel' ->
  exists i o, utxo_to_input u = Ok i /\ utxo_to_output u = Ok o /\ value o = u_amount u /\
    sel' = {| total_consumed := total; inputs := inputs sel ++ [i]; prevouts := prevouts sel ++ [o];
              found_fulfillment_utxo := found |}.
Proof.
  unfold consume. intros (i & Hi & (o & Ho & [= <-])%res_bind_Ok_inv)%res_bind_Ok_inv.
  exists i, o. split_and!; try done. unfold utxo_to_output in Ho.
  by apply res_bind_Ok_inv in Ho as (sc & _ & [= <-]).
Qed.

Lemma consume_selected (op : PegOutRequestOp) (available : list UTXO) (sel : Selection) (u : UTXO)
    (count : nat) (total : Z) (fee : bool) (i : TxIn) (o : TxOut) :
  u ∈ available -> utxo_to_input u = Ok i -> utxo_to_output u = Ok o ->
  selected op available sel count -> in_u64 total ->
  value o = (if fee then po_fulfillment_fee op else total - total_consumed sel) ->
  (fee = true -> total = total_consumed sel) ->
  selected op available
    {| total_consumed := total; inputs := inputs sel ++ [i]; prevouts := prevouts sel ++ [o];
       found_fulfillment_utxo := if fee then true else found_fulfillment_utxo sel |}
    (if fee then S count else count).
Proof.
  intros Hu Hi Ho [Hs Hsum Hf Hr] Ht Hv Hfee. split; simpl; [| | |done].
  - apply Forall2_app; [done|]. constructor; [|constructor]. by exists u.
  - rewrite sum_values_app, Hsum. unfold sum_values at 1. simpl. rewrite Hv.
    destruct fee; [rewrite (Hfee eq_refl)|]; lia.
  - destruct fee; [|done]. split; [lia|done].
Qed.

(** Sum of the amounts that are not fulfillment outputs. *)
Definition funds (op : PegOutRequestOp) (l : list UTXO) : Z :=
  foldr Z.add 0 (u_amount <$> filter (fun u => is_fulfillment op u = false) l).

Lemma funds_cons (op : PegOutRequestOp) (u : UTXO) (l : list UTXO) :
  funds op (u :: l) = (if is_fulfillment op u then 0 else u_amount u) + funds op l.
Proof.
  unfold funds. destruct (is_fulfillment op u) eqn:Hu.
  - by rewrite filter_cons_False by congruence.
  - by rewrite filter_cons_True by done.
Qed.

Lemma funds_nonneg (op : PegOutRequestOp) (l : list UTXO) :
  Forall (fun u => 0 <= u_amount u) l -> 0 <= funds op l.
Proof.
  induction 1 as [|u l Hu _ IH]; [done|]. rewrite funds_cons. destruct (is_fulfillment op u); lia.
Qed.

Lemma select_utxos_selected (op : PegOutRequestOp) (all l : list UTXO) (sel sel' : Selection) (count : nat) :
  (forall u, u ∈ l -> u ∈ all) -> Forall (fun u => 0 <= u_amount u) l ->
  selected op all sel count -> total_consumed sel + funds op l < 2 ^ 64 ->
  select_utxos op l sel = Ok sel' -> exists count', selected op all sel' count'.
Proof.
  revert sel count; induction l as [|u l IH]; intros sel count Hin Hpos Hsel Hover; simpl.
  { intros [= <-]. by exists count. }
  apply Forall_cons in Hpos as [Hu Hpos]. rewrite funds_cons in Hover.
  pose proof (funds_nonneg op l Hpos) as Hfunds.
  assert (forall u, u ∈ l -> u ∈ all) as Hin' by (intros; apply Hin; by right).
  assert (u ∈ all) as Hua by (apply Hin; by left).
  revert Hover. destruct (is_fulfillment op u) eqn:Hful; intros Hover.
  - destruct (Z.eqb_spec (u_amount u) (po_fulfillment_fee op)) as [Hfee|]; [|done]. simpl.
    intros (sel1 & (i & o & Hi & Ho & Hv & ->)%consume_Ok & Hl)%res_bind_Ok_inv.
    eapply IH in Hl; [exact Hl|done|done| |simpl; lia].
    apply (consume_selected op all sel u count (total_consumed sel) true i o); try done;
      [by apply Hsel|congruence].
  - destruct (total_consumed sel <? po_amount op).
    + assert (in_u64 (total_consumed sel + u_amount u)) as Hrange.
      { destruct (sel_range _ _ _ _ Hsel). unfold in_uint. lia. }
      unfold uadd. rewrite checked_small by done. simpl.
      intros (sel1 & (i & o & Hi & Ho & Hv & ->)%consume_Ok & Hl)%res_bind_Ok_inv.
      eapply IH in Hl; [exact Hl|done|done| |simpl; lia].
      apply (consume_selected op all sel u count _ false i o); try done. lia.
    + destruct (found_fulfillment_utxo sel); [intros [= <-]; by exists count|].
      apply (IH sel count); try done. lia.
Qed.

Lemma fulfill_Ok (self : BitcoinWallet) (op : PegOutRequestOp) (available : list UTXO) tx prev :
  fulfill_peg_out self op available = Ok (tx, prev) ->
  exists sel, select_utxos op available no_selection = Ok sel /\
    found_fulfillment_utxo sel = true /\ po_amount op <= total_consumed sel /\
    prev = prevouts sel /\ input tx = inputs sel /\
    exists change, usub (E := BitcoinWalletError) 64 (total_consumed sel) (po_amount op) = Ok change /\
      output tx = outputs self op change.
Proof.
  unfold fulfill_peg_out. intros (sel & Hs & H)%res_bind_Ok_inv.
  destruct (found_fulfillment_utxo sel) eqn:Hf; [|done]. simpl in H.
  destruct (Z.ltb_spec (total_consumed sel) (po_amount op)) as [|Hge]; [done|].
  apply res_bind_Ok_inv in H as (change & Hc & [= <- <-]).
  exists sel. split_and!; try done. by exists change.
Qed.

Lemma consume_returns (sel : Selection) (u : UTXO) (total : Z) (found : bool) :
  consume sel u total found <> Diverge.
Proof.
  unfold consume, utxo_to_input, utxo_to_output.
  destruct (btc_txid_from_hex _); [|done]. by destruct (script_from_hex _).
Qed.

Lemma fulfill_peg_out_returns (self : BitcoinWallet) (op : PegOutRequestOp) (available : list UTXO) :
  fulfill_peg_out self op available <> Diverge.
Proof.
  assert (forall sel, select_utxos op available sel <> Diverge) as Hsel.
  { induction available as [|u l IH]; intros sel; [done|]. simpl. pose proof consume_returns as Hc.
    destruct (is_fulfillment op u); [destruct (negb _); [done|]|destruct (_ <? _); [|by case_match]].
    - specialize (Hc sel u (total_consumed sel) true). by destruct (consume _ _ _ _); simpl.
    - unfold uadd, checked. case_match; [done|]. cbn [mbind res_bind].
      specialize (Hc sel u ((total_consumed sel + u_amount u) mod 2 ^ 64) (found_fulfillment_utxo sel)).
      by destruct (consume _ _ _ _); simpl. }
  unfold fulfill_peg_out. specialize (Hsel no_selection).
  destruct (select_utxos _ _ _) as [sel| | |]; try done. simpl.
  destruct (negb _); [done|]. destruct (_ <? _); [done|]. unfold usub, checked. by case_match.
Qed.

Lemma no_selection_selected (op : PegOutRequestOp) (available : list UTXO) :
  selected op available no_selection 0.
Proof. split; simpl; [constructor|done|split; [done|lia]|unfold in_uint; lia]. Qed.

(** C10: value is conserved.  Every input of the transaction spends one of the
    available outputs, and what goes in is what comes out plus the miner's fee:
    the fulfillment fee of the request (once per matching output) and the
    change when it is too small to be returned. *)
Theorem fulfill_peg_out_conserves (self : BitcoinWallet) (op : PegOutRequestOp)
    (available : list UTXO) tx prev
    (Hamount : in_u64 (po_amount op)) (Hpos : Forall (fun u => 0 <= u_amount u) available)
    (Hover : funds op available < 2 ^ 64)
    (Hok : fulfill_peg_out self op available = Ok (tx, prev)) :
  Forall2 (spends available) (input tx) prev /\
  exists (count : nat) (dust : Z), (1 <= count)%nat /\
    0 <= dust /\ (dust = 0 \/ dust < dust_value (script_p2tr_tweaked (wallet_public_key self))) /\
    sum_values prev = sum_values (output tx) + Z.of_nat count * po_fulfillment_fee op + dust.
Proof.
  apply fulfill_Ok in Hok as (sel & Hs & Hf & Hge & -> & -> & change & Hc & Ho).
  apply (select_utxos_selected op available _ _ _ 0%nat) in Hs as [count [H1 H2 H3 H4]];
    [|done|done|apply no_selection_selected|simpl; lia].
  assert (change = total_consumed sel - po_amount op) as ->.
  { unfold usub in Hc. rewrite checked_small in Hc by (unfold in_uint in *; lia). by simplify_eq. }
  split; [done|]. exists count.
  exists (if dust_value (script_p2tr_tweaked (wallet_public_key self)) <=? total_consumed sel - po_amount op
          then 0 else total_consumed sel - po_amount op).
  rewrite H2, Ho. unfold outputs. rewrite sum_values_app.
  split; [by apply H3|].
  destruct (Z.leb_spec (dust_value (script_p2tr_tweaked (wallet_public_key self)))
              (total_consumed sel - po_amount op)); unfold sum_values; simpl.
  - split; [lia|]. split; [by left|]. lia.
  - split; [lia|]. split; [by right|]. lia.
Qed.

(** the destination of the request plays no role.  Every output with a value
    pays the peg wallet's own script: two requests that differ only in their
    recipient get the same transaction. *)
Theorem fulfill_pays_wallet (self : BitcoinWallet) (op : PegOutRequestOp) (available : list UTXO) tx prev
    (Hok : fulfill_peg_out self op available = Ok (tx, prev)) :
  Forall (fun o => value o = 0 \/ script_pubkey o = script_p2tr_tweaked (wallet_public_key self))
    (output tx) /\
  forall op', po_txid op' = po_txid op -> po_amount op' = po_amount op ->
    po_fulfillment_fee op' = po_fulfillment_fee op ->
    fulfill_peg_out self op' available = Ok (tx, prev).
Proof.
  split.
  - apply fulfill_Ok in Hok as (sel & _ & _ & _ & _ & _ & change & _ & ->). unfold outputs.
    apply Forall_app; split.
    + constructor; [by left|]. constructor; [by right|constructor].
    + case_match; [|constructor]. constructor; [by right|constructor].
  - intros op' Ht Ha Hfee.
    assert (forall l sel, select_utxos op' l sel = select_utxos op l sel) as Hsel.
    { induction l as [|u l IH]; intros sel; simpl; [done|].
      unfold is_fulfillment. rewrite Ht, Ha, Hfee.
      destruct (_ && _); [destruct (negb _); [done|]|destruct (_ <? _); [|by case_match]].
      - destruct (consume _ _ _ _); simpl; [apply IH|done..].
      - destruct (uadd _ _ _); simpl; [|done..]. destruct (consume _ _ _ _); simpl; [apply IH|done..]. }
    unfold fulfill_peg_out, outputs in *. rewrite Hsel, Ha. exact Hok.
Qed.

Lemma select_utxos_total (op : PegOutRequestOp) (l : list UTXO) (sel : Selection) :
  Forall (fun u => 0 <= u_amount u /\
    (exists i o, utxo_to_input u = Ok i /\ utxo_to_output u = Ok o) /\
    (is_fulfillment op u = true -> u_amount u = po_fulfillment_fee op)) l ->
  in_u64 (total_consumed sel) -> total_consumed sel + funds op l < 2 ^ 64 ->
  exists sel', select_utxos op l sel = Ok sel' /\
    (found_fulfillment_utxo sel' = true <->
       found_fulfillment_utxo sel = true \/ exists u, u ∈ l /\ is_fulfillment op u = true) /\
    (po_amount op <= total_consumed sel' <-> po_amount op <= total_consumed sel + funds op l).
Proof.
  intros Hl. revert sel; induction Hl as [|u l (Hu & (i & o & Hi & Ho) & Hfee) Hl IH]; intros sel Hr Hover.
  { exists sel. split_and!; [done| |unfold funds; simpl; lia].
    split; [by left|]. intros [?|(u & Hu & _)]; [done|]. by apply not_elem_of_nil in Hu. }
  rewrite funds_cons in Hover. simpl.
  assert (0 <= funds op l) as Hfunds.
  { apply funds_nonneg. eapply Forall_impl; [exact Hl|]. naive_solver. }
  rewrite funds_cons. unfold consume. rewrite Hi, Ho. simpl.
  revert Hover. destruct (is_fulfillment op u) eqn:Hful; intros Hover.
  - rewrite (Hfee eq_refl), Z.eqb_refl. simpl.
    edestruct (IH (Build_Selection (total_consumed sel) (inputs sel ++ [i]) (prevouts sel ++ [o]) true))
      as (sel' & -> & Hf & Ha); [done|simpl; lia|].
    exists sel'. split_and!; [done| |rewrite Ha; simpl; lia]. rewrite Hf. simpl.
    split; [|by left]. intros _. right. exists u. split; [by left|done].
  - destruct (Z.ltb_spec (total_consumed sel) (po_amount op)) as [Hlt|Hge].
    + unfold uadd. rewrite checked_small by (unfold in_uint in *; lia). simpl.
      edestruct (IH (Build_Selection (total_consumed sel + u_amount u) (inputs sel ++ [i])
                      (prevouts sel ++ [o]) (found_fulfillment_utxo sel)))
        as (sel' & -> & Hf & Ha); [unfold in_uint in *; simpl; lia|simpl; lia|].
      exists sel'. split_and!; [done| |rewrite Ha; simpl; lia]. rewrite Hf. simpl.
      split; [intros [?|(v & Hv & ?)]; [by left|right; exists v; split; [by right|done]]|].
      intros [?|(v & [->|Hv]%elem_of_cons & Hv')]; [by left|congruence|right; eauto].
    + destruct (found_fulfillment_utxo sel) eqn:Hfound.
      * exists sel. rewrite Hfound. split_and!; [done|by split; [left|]|]. split; lia.
      * destruct (IH sel Hr ltac:(lia)) as (sel' & -> & Hf & Ha).
        exists sel'. split_and!; [done| |rewrite Ha; lia]. rewrite Hf, Hfound.
        split; [intros [?|(v & Hv & ?)]; [done|right; exists v; split; [by right|done]]|].
        intros [?|(v & [->|Hv]%elem_of_cons & Hv')]; [done|congruence|right; eauto].
Qed.

(** C11: a request is fulfilled whenever it can be: with readable outputs whose
    total fits a [u64] and matching fulfillment amounts, the call succeeds
    exactly when a fulfillment output is among them and the other outputs
    cover the amount; otherwise it says which of the two is missing. *)
Theorem fulfill_peg_out_complete (self : BitcoinWallet) (op : PegOutRequestOp) (available : list UTXO)
    (Hall : Forall (fun u => 0 <= u_amount u /\
       (exists i o, utxo_to_input u = Ok i /\ utxo_to_output u = Ok o) /\
       (is_fulfillment op u = true -> u_amount u = po_fulfillment_fee op)) available)
    (Hamount : in_u64 (po_amount op)) (Hover : funds op available < 2 ^ 64) :
  ((exists r, fulfill_peg_out self op available = Ok r) <->
   (exists u, u ∈ available /\ is_fulfillment op u = true) /\ po_amount op <= funds op available) /\
  (fulfill_peg_out self op available = Err MissingFulfillmentUTXO <->
   ~ exists u, u ∈ available /\ is_fulfillment op u = true) /\
  (fulfill_peg_out self op available = Err InsufficientFunds <->
   (exists u, u ∈ available /\ is_fulfillment op u = true) /\ funds op available < po_amount op).
Proof.
  destruct (select_utxos_total op available no_selection Hall) as (sel & Hsel & Hf & Ha);
    [by_compute|simpl; lia|].
  unfold fulfill_peg_out. rewrite Hsel. simpl in *.
  assert (found_fulfillment_utxo sel = true <-> exists u, u ∈ available /\ is_fulfillment op u = true)
    as Hfound by (rewrite Hf; naive_solver).
  assert (select_utxos op available no_selection = Ok sel) as Hs by exact Hsel.
  apply (select_utxos_selected op available _ _ _ 0%nat) in Hs as [count [_ _ _ Hrange]];
    [|done| |apply no_selection_selected|simpl; lia].
  2: { eapply Forall_impl; [exact Hall|]. naive_solver. }
  destruct (found_fulfillment_utxo sel); simpl.
  - destruct Hfound as [Hfound _]. specialize (Hfound eq_refl).
    destruct (Z.ltb_spec (total_consumed sel) (po_amount op)) as [Hlt|Hge].
    + split; [|split]; split.
      * by intros [r Hr].
      * intros [_ ?]. lia.
      * by intros [=].
      * by intros [].
      * intros _. split; [done|]. lia.
      * done.
    + unfold usub. rewrite checked_small by (unfold in_uint in *; lia). simpl.
      split; [|split]; split.
      * intros _. split; [done|]. lia.
      * by eexists.
      * by intros [=].
      * by intros [].
      * by intros [=].
      * intros [_ ?]. lia.
  - assert (~ exists u, u ∈ available /\ is_fulfillment op u = true) as Hno by (by intros ?%Hfound).
    split; [|split]; split; try done; try (by intros [? _]).
    + by intros [r Hr].
Qed.
End BitcoinWallet.

(** ** Executable instance *)
Module ToyBitcoin.
Import ToyStacks.
#[export] Instance debug_build : BuildProfile := true.

#[export] Instance toy_bitcoin : BitcoinTypes (TY := toy_stacks) := {|
  BtcTxid := string;
  btc_txid_from_hex := Some;
  Script := string;
  script_empty := "";
  script_from_hex := Some;
  script_op_return _ := "return";
  script_p2tr_tweaked _ := "wallet";
  dust_value _ := 30;
  BtcNetwork := unit;
  BtcAddress := bytes;
  p2tr_address k _ := k;
  btc_address_to_string _ := "bc1"
|}.

Definition wallet : BitcoinWallet := BitcoinWallet_new (TY := toy_stacks) [1] tt.
Definition utxo (txid : string) (vout amount : Z) : UTXO :=
  {| u_txid := txid; u_vout := vout; u_address := ""; u_label := ""; u_scriptPubKey := "s";
     u_amount := amount; u_confirmations := 1; u_redeemScript := ""; u_witnessScript := "";
     u_spendable := true; u_solvable := true; u_reused := false; u_desc := ""; u_safe := true |}.
Definition request (who : string) : ToyOp :=
  {| toy_txid := "t2"; toy_burn := "b6"; toy_height := 6; toy_amount := 50; toy_fee := 10;
     toy_who := who |}.
Definition available : list UTXO := [utxo "a" 0 40; utxo "t2" 2 10; utxo "b" 0 35; utxo "c" 0 99].
Definition fulfilled : Transaction * list TxOut :=
  match fulfill_peg_out wallet (request "ST2") available with
  | Ok r => r
  | _ => ({| version := 0; lock_time := 0; input := []; output := [] |}, [])
  end.
End ToyBitcoin.

Module BitcoinWalletWitness.
Import ToyStacks ToyBitcoin.

Lemma fulfilled_ok : fulfill_peg_out wallet (request "ST2") available = Ok (fulfilled.1, fulfilled.2).
Proof. run. Qed.

Lemma fulfill_peg_out_conserves_witness :
  exists (count : nat) (dust : Z), (1 <= count)%nat /\ 0 <= dust /\ (dust = 0 \/ dust < 30) /\
    sum_values fulfilled.2 = sum_values (output fulfilled.1) + Z.of_nat count * 10 + dust.
Proof.
  refine (proj2 (fulfill_peg_out_conserves wallet (request "ST2") available _ _ _ _ _ fulfilled_ok)).
  - unfold in_uint. simpl. lia.
  - by_compute.
  - by_compute.
Defined.

Lemma fulfill_pays_wallet_witness :
  fulfill_peg_out wallet (request "somebody else") available = Ok (fulfilled.1, fulfilled.2).
Proof.
  apply (fulfill_pays_wallet wallet (request "ST2") available _ _ fulfilled_ok); reflexivity.
Defined.

Lemma fulfill_peg_out_complete_witness :
  fulfill_peg_out wallet (request "ST2") [utxo "t2" 2 10; utxo "a" 0 49] = Err InsufficientFunds.
Proof.
  apply (fulfill_peg_out_complete wallet (request "ST2") [utxo "t2" 2 10; utxo "a" 0 49]).
  - repeat constructor; simpl; try lia; try (do 2 eexists; split; reflexivity); done.
  - unfold in_uint. simpl. lia.
  - by_compute.
  - split; [exists (utxo "t2" 2 10); split; [by left|run]|by_compute].
Defined.
End BitcoinWalletWitness.
