(* ===== verification/StacksWallet.v ===== *)
(** * [stacks-coordinator/src/stacks_wallet.rs]: sBTC contract transactions

    Transactions of [blockstack_lib] are built field by field by the source and
    then signed by the library; [StacksTxLib] gives the library's part. *)
From S2P Require Import Prelude StacksNode.

Class StacksTxLib `{TY : StacksTypes} := {
  StacksPrivateKey : Type;
  StacksPublicKey : Type;
  stacks_pk_from_private : StacksPrivateKey -> StacksPublicKey;
  stacks_pk_to_bytes_compressed : StacksPublicKey -> bytes;
  v_uint : Z -> ClarityValue;
  v_principal : PrincipalData -> ClarityValue;
  v_ascii : bytes -> ClarityValue;
  v_buffer : bytes -> ClarityValue;
  v_tuple : list (string * ClarityValue) -> option ClarityValue;  (* TupleData::from_data *)
  clarity_name : string -> option string;                         (* ClarityName::try_from *)
  SpendingCondition : Type;
  new_singlesig_p2pkh : StacksPublicKey -> option SpendingCondition;
  set_nonce : Z -> SpendingCondition -> SpendingCondition;
  set_tx_fee : Z -> SpendingCondition -> SpendingCondition;
  C32_ADDRESS_VERSION_MAINNET_SINGLESIG : Z;
  C32_ADDRESS_VERSION_TESTNET_SINGLESIG : Z;
  CHAIN_ID_MAINNET : Z;
  CHAIN_ID_TESTNET : Z
}.

Inductive TransactionVersion := Mainnet | Testnet.
#[export] Instance TransactionVersion_eq_dec : EqDecision TransactionVersion.
Proof. solve_decision. Defined.
Inductive AnchorMode := Any.
Inductive PostConditionMode := Allow.

Section StacksWallet.
Context {TY : StacksTypes} {TL : StacksTxLib}.

(** [TransactionContractCall] and the unsigned [StacksTransaction] *)
Record ContractCall := {
  cc_address : StacksAddress;
  cc_contract_name : string;
  cc_function_name : string;
  cc_function_args : list ClarityValue
}.
Record UnsignedTransaction := {
  ut_version : TransactionVersion;
  ut_auth : SpendingCondition;
  ut_payload : ContractCall;
  ut_anchor_mode : AnchorMode;
  ut_post_condition_mode : PostConditionMode;
  ut_chain_id : Z
}.

(** [StacksTransactionSigner]: signing the origin, and the signed transaction
    once it is complete. *)
Class TxSigner := {
  SigningTx : Type;
  sign_origin : UnsignedTransaction -> StacksPrivateKey -> option SigningTx;
  get_tx : SigningTx -> option StacksTransaction
}.
Context {TS : TxSigner}.

(** [stacks_wallet::Error] *)
Inductive StacksWalletError :=
  | SigningError (what : string)
  | MalformedOp (what : string)
  | ClarityRuntimeError
  | BlockstackError.

Record StacksWallet := {
  sw_contract_address : StacksAddress;
  sw_contract_name : string;
  sender_key : StacksPrivateKey;
  sw_public_key : StacksPublicKey;
  sw_address : StacksAddress;
  sw_version : TransactionVersion;
  fee : Z
}.

Definition StacksWallet_new (contract_name : string) (contract_address : StacksAddress)
    (sender_key : StacksPrivateKey) (address : StacksAddress) (version : TransactionVersion)
    (fee : Z) : StacksWallet :=
  {| sw_contract_address := contract_address; sw_contract_name := contract_name;
     sender_key := sender_key; sw_public_key := stacks_pk_from_private sender_key;
     sw_address := address; sw_version := version; fee := fee |}.

Definition set_fee (f : Z) (w : StacksWallet) : StacksWallet :=
  {| sw_contract_address := sw_contract_address w; sw_contract_name := sw_contract_name w;
     sender_key := sender_key w; sw_public_key := sw_public_key w; sw_address := sw_address w;
     sw_version := sw_version w; fee := f |}.

(** [util::address_version] *)
Definition address_version (v : TransactionVersion) : Z :=
  match v with
  | Mainnet => C32_ADDRESS_VERSION_MAINNET_SINGLESIG
  | Testnet => C32_ADDRESS_VERSION_TESTNET_SINGLESIG
  end.

Definition build_transaction_payload (w : StacksWallet) (function_name : string)
    (args : list ClarityValue) : res StacksWalletError ContractCall :=
  name ← ok_or (clarity_name function_name) ClarityRuntimeError;
  mret {| cc_address := sw_contract_address w; cc_contract_name := sw_contract_name w;
          cc_function_name := name; cc_function_args := args |}.

Definition build_transaction_unsigned (w : StacksWallet) (function_name : string)
    (args : list ClarityValue) (nonce : Z) : res StacksWalletError UnsignedTransaction :=
  payload ← build_transaction_payload w function_name args;
  spending_condition ← ok_or (new_singlesig_p2pkh (sw_public_key w))
    (SigningError "Failed to create transaction spending condition from provided sender_key.");
  mret {| ut_version := sw_version w;
          ut_auth := set_tx_fee (fee w) (set_nonce nonce spending_condition);
          ut_payload := payload; ut_anchor_mode := Any; ut_post_condition_mode := Allow;
          ut_chain_id := if bool_decide (sw_version w = Testnet) then CHAIN_ID_TESTNET
                         else CHAIN_ID_MAINNET |}.

Definition build_transaction_signed (w : StacksWallet) (function_name : string)
    (args : list ClarityValue) (nonce : Z) : res StacksWalletError StacksTransaction :=
  unsigned_tx ← build_transaction_unsigned w function_name args nonce;
  tx_signer ← ok_or (sign_origin unsigned_tx (sender_key w)) (SigningError "sign_origin");
  ok_or (get_tx tx_signer)
    (SigningError "Unable to retrieve signed transaction from the signer.").

(** [trait BuildStacksTransaction] and its two implementations *)
Class BuildStacksTransaction (T : Type) :=
  build_transaction : T -> StacksWallet -> Z -> res StacksWalletError StacksTransaction.

Definition peg_in_args (op : PegInOp) : list ClarityValue :=
  [v_uint (pi_amount op); v_principal (pi_recipient op);
   v_ascii (as_bytes (txid_to_string (pi_txid op)))].

Definition PegInOp_build (op : PegInOp) (w : StacksWallet) (nonce : Z) :
    res StacksWalletError StacksTransaction :=
  build_transaction_signed w "mint!" (peg_in_args op) nonce.

Definition peg_out_args (op : PegOutRequestOp) (address : StacksAddress) : list ClarityValue :=
  [v_uint (po_amount op); v_principal (to_account_principal address);
   v_ascii (as_bytes (txid_to_string (po_txid op)))].

Definition PegOutRequestOp_build (op : PegOutRequestOp) (w : StacksWallet) (nonce : Z) :
    res StacksWalletError StacksTransaction :=
  address ← ok_or (po_stx_address op (address_version (sw_version w)))
    (MalformedOp "Failed to recover stx address from peg-out request op.");
  build_transaction_signed w "burn!" (peg_out_args op address) nonce.

Definition build_set_bitcoin_wallet_public_key_transaction (w : StacksWallet)
    (public_key : XOnlyPublicKey) (nonce : Z) : res StacksWalletError StacksTransaction :=
  build_transaction_signed w "set-bitcoin-wallet-public-key"
    [v_buffer (xonly_serialize public_key)] nonce.

Definition build_set_coordinator_data_transaction (w : StacksWallet) (address : StacksAddress)
    (public_key : StacksPublicKey) (nonce : Z) : res StacksWalletError StacksTransaction :=
  data ← ok_or (v_tuple [("addr", v_principal (to_account_principal address));
                         ("key", v_buffer (stacks_pk_to_bytes_compressed public_key))])
           BlockstackError;
  build_transaction_signed w "set-coordinator-data" [data] nonce.

(** ** What gets signed *)

(** The transaction signed for a contract call. *)
Definition contract_transaction (w : StacksWallet) (name : string) (args : list ClarityValue)
    (nonce : Z) (condition : SpendingCondition) : UnsignedTransaction :=
  {| ut_version := sw_version w; ut_auth := set_tx_fee (fee w) (set_nonce nonce condition);
     ut_payload := {| cc_address := sw_contract_address w; cc_contract_name := sw_contract_name w;
                      cc_function_name := name; cc_function_args := args |};
     ut_anchor_mode := Any; ut_post_condition_mode := Allow;
     ut_chain_id := match sw_version w with Testnet => CHAIN_ID_TESTNET | Mainnet => CHAIN_ID_MAINNET end |}.

Lemma build_transaction_signed_Ok (w : StacksWallet) (function_name : string)
    (args : list ClarityValue) (nonce : Z) (tx : StacksTransaction) :
  build_transaction_signed w function_name args nonce = Ok tx ->
  exists name condition signing,
    clarity_name function_name = Some name /\ new_singlesig_p2pkh (sw_public_key w) = Some condition /\
    sign_origin (contract_transaction w name args nonce condition) (sender_key w) = Some signing /\
    get_tx signing = Some tx.
Proof.
  unfold build_transaction_signed, build_transaction_unsigned, build_transaction_payload.
  intros (ut & Hut & (signing & Hs%ok_or_Ok_inv & Hg%ok_or_Ok_inv)%res_bind_Ok_inv)%res_bind_Ok_inv.
  apply res_bind_Ok_inv in Hut as (payload & Hp & Hut).
  apply res_bind_Ok_inv in Hp as (name & Hn%ok_or_Ok_inv & [= <-]).
  apply res_bind_Ok_inv in Hut as (condition & Hc%ok_or_Ok_inv & [= <-]).
  exists name, condition, signing. split_and!; try done. rewrite <-Hs. f_equal.
  unfold contract_transaction. f_equal. by destruct (sw_version w).
Qed.

(** minting and burning.  The transaction built for a peg-in calls the
    contract's mint function with the deposited amount, the recipient of the
    request and its transaction id; the one built for a peg-out request calls
    the burn function with the requested amount and the address recovered from
    the request.  Both are signed with the wallet's key, for its network, with
    its current fee and the given nonce. *)
Theorem wallet_transactions (w : StacksWallet) (nonce : Z) (tx : StacksTransaction)
    (peg_in : PegInOp) (peg_out : PegOutRequestOp) :
  (PegInOp_build peg_in w nonce = Ok tx ->
   exists name condition signing,
     clarity_name "mint!" = Some name /\
     sign_origin (contract_transaction w name (peg_in_args peg_in) nonce condition) (sender_key w)
       = Some signing /\ get_tx signing = Some tx) /\
  (PegOutRequestOp_build peg_out w nonce = Ok tx ->
   exists name condition signing address,
     clarity_name "burn!" = Some name /\
     po_stx_address peg_out (address_version (sw_version w)) = Some address /\
     sign_origin (contract_transaction w name (peg_out_args peg_out address) nonce condition)
       (sender_key w) = Some signing /\ get_tx signing = Some tx).
Proof.
  split.
  - intros (name & condition & signing & Hn & _ & Hs & Hg)%build_transaction_signed_Ok.
    by exists name, condition, signing.
  - intros (address & Ha%ok_or_Ok_inv & Hb)%res_bind_Ok_inv.
    apply build_transaction_signed_Ok in Hb as (name & condition & signing & Hn & _ & Hs & Hg).
    by exists name, condition, signing, address.
Qed.
End StacksWallet.

#[export] Instance PegInOp_BuildStacksTransaction `{TS : TxSigner} : BuildStacksTransaction PegInOp :=
  PegInOp_build.
#[export] Instance PegOutRequestOp_BuildStacksTransaction `{TS : TxSigner} :
  BuildStacksTransaction PegOutRequestOp := PegOutRequestOp_build.

(** ** Executable instance *)
Module ToyWallet.
Import ToyStacks.
(** A transaction is its arguments' amount, fee and nonce. *)
#[export] Instance toy_tx_lib : StacksTxLib (TY := toy_stacks) := {|
  StacksPrivateKey := Z;
  StacksPublicKey := Z;
  stacks_pk_from_private k := k;
  stacks_pk_to_bytes_compressed k := [k];
  v_uint := CUInt;
  v_principal _ := CBuffer [];
  v_ascii := CBuffer;
  v_buffer := CBuffer;
  v_tuple l := Some (CTuple l);
  clarity_name := Some;
  SpendingCondition := Z * Z;
  new_singlesig_p2pkh _ := Some (0, 0);
  set_nonce n c := (n, c.2);
  set_tx_fee f c := (c.1, f);
  C32_ADDRESS_VERSION_MAINNET_SINGLESIG := 22;
  C32_ADDRESS_VERSION_TESTNET_SINGLESIG := 26;
  CHAIN_ID_MAINNET := 1;
  CHAIN_ID_TESTNET := 2147483648
|}.

Definition amounts (l : list ToyClarity) : bytes :=
  omap (fun v => match v with CUInt n => Some n | _ => None end) l.
#[export] Instance toy_tx_signer : TxSigner (TL := toy_tx_lib) := {|
  SigningTx := bytes;
  sign_origin tx _ :=
    Some (amounts (cc_function_args (ut_payload tx)) ++ [(ut_auth tx).2; (ut_auth tx).1]);
  get_tx := Some
|}.

Definition toy_wallet : StacksWallet := StacksWallet_new "sbtc" "ST0" 5 "ST1" Testnet 100.
Definition deposit : ToyOp :=
  {| toy_txid := "t1"; toy_burn := "b5"; toy_height := 5; toy_amount := 700; toy_fee := 0;
     toy_who := "ST2" |}.
End ToyWallet.

Module StacksWalletWitness.
Import ToyStacks ToyWallet.

Lemma wallet_transactions_witness :
  (exists name condition signing,
     clarity_name (StacksTxLib := toy_tx_lib) "mint!" = Some name /\
     sign_origin (contract_transaction toy_wallet name (peg_in_args deposit) 7 condition) 5
       = Some signing /\ get_tx signing = Some [700; 100; 7]).
Proof.
  refine (proj1 (wallet_transactions (TY := toy_stacks) toy_wallet 7 [700; 100; 7] deposit deposit) _).
  run.
Defined.
End StacksWalletWitness.
