(* ===== verification/StacksCoordinator.v ===== *)
(** * [stacks-coordinator/src/coordinator.rs]: the peg coordinator

    [Coordinator] polls the queue and works it off: it mints for peg-ins, burns
    and pays out for peg-out requests.  The trait's methods are written over any
    Stacks node, Bitcoin node and FROST network; the start-up functions, which
    the source writes for its own clients, are in the second part. *)
From S2P Require Import Prelude Crypto FrostConfig Messages Net FrostCoordinator StacksNode PegQueue BitcoinNode BitcoinWallet StacksWallet.

(** Conversions between the types of [bitcoin], [wsts] and [p256k1]. *)
Class KeyConversions `{BT : BitcoinTypes, WA : WstsAggregator, TL : !StacksTxLib} := {
  (* SighashCache::taproot_key_spend_signature_hash, Prevouts::All, Default; as_hash *)
  taproot_key_spend_signature_hash : Transaction -> nat -> list TxOut -> option bytes;
  proof_to_bytes : SchnorrProof -> bytes;
  element_to_bytes : Element -> bytes;
  lift_x : bytes -> option Point;                 (* Point::lift_x(&Element::from(..)) *)
  stacks_pk_from_slice : bytes -> option StacksPublicKey
}.

(** [JSON] of the public shares, as [serde_json] writes and reads it. *)
Class SharesJson `{WP : Wsts} := {
  shares_to_json : gmap Z DkgPublicShare -> option bytes;
  shares_from_json : bytes -> option (gmap Z DkgPublicShare)
}.

Definition MAX_NONCE_RETRIES : Z := 10.
Definition MAX_FEE_RETRIES : Z := 2.

Section Coordinator.
Context {CP : P256k1} {WP : Wsts} {WA : WstsAggregator} {TY : StacksTypes} {TL : StacksTxLib}
  {TS : TxSigner} {BT : BitcoinTypes} {KC : KeyConversions} {OJ : OpJson} {BP : BuildProfile}
  {BO : Backoff}
  {FN : Type} {NL : NetListen FN} {SN : Type} {STN : StacksNode SN} {BN : Type} {BTN : BitcoinNode BN}.

(** [peg_wallet::Error] *)
Inductive PegWalletError :=
  | PWStacksWalletError (e : StacksWalletError)
  | PWBitcoinWalletError (e : BitcoinWalletError).

(** [coordinator::Error] *)
Inductive SCError :=
  | SCPegQueueError (e : PegQueueError)
  | SCPegWalletError (e : PegWalletError)
  | SCFrostCoordinatorError (e : CoordinatorError (N := FN))
  | SCSqlitePegQueueError (e : SqliteError)
  | SCStacksNodeError (e : StacksNodeError)
  | SCBitcoinNodeError (e : BitcoinNodeError)
  | SCConfigError (what : string)
  | SCInvalidPublicKey
  | SCSigningError
  | SCNoCoordinator
  | MaxFeeRetriesExceeded
  | MaxNonceRetriesExceeded
  | SCPointError.

(** [StacksCoordinator]; [bitcoin_wallet] and [stacks_wallet] are the fields of
    [local_fee_wallet]. *)
Record StacksCoordinator := mkStacksCoordinator {
  frost_coordinator : Coordinator (N := FN);
  local_peg_queue : Db;
  local_stacks_node : SN;
  local_bitcoin_node : BN;
  bitcoin_wallet : BitcoinWallet;
  stacks_wallet : StacksWallet
}.

Definition set_frost_coordinator (x : Coordinator) (s : StacksCoordinator) : StacksCoordinator :=
  let '(mkStacksCoordinator _ b c d e f) := s in mkStacksCoordinator x b c d e f.
Definition set_local_peg_queue (x : Db) (s : StacksCoordinator) : StacksCoordinator :=
  let '(mkStacksCoordinator a _ c d e f) := s in mkStacksCoordinator a x c d e f.
Definition set_local_stacks_node (x : SN) (s : StacksCoordinator) : StacksCoordinator :=
  let '(mkStacksCoordinator a b _ d e f) := s in mkStacksCoordinator a b x d e f.
Definition set_local_bitcoin_node (x : BN) (s : StacksCoordinator) : StacksCoordinator :=
  let '(mkStacksCoordinator a b c _ e f) := s in mkStacksCoordinator a b c x e f.
Definition set_stacks_wallet (x : StacksWallet) (s : StacksCoordinator) : StacksCoordinator :=
  let '(mkStacksCoordinator a b c d e _) := s in mkStacksCoordinator a b c d e x.

Abbreviation SC := (M StacksCoordinator SCError).

(** ** Calls to the parts, with the conversion of their errors *)
Definition on_frost {A : Type} (m : M (Coordinator (N := FN)) CoordinatorError A) : SC A :=
  zoom frost_coordinator set_frost_coordinator (with_err SCFrostCoordinatorError m).
Definition on_queue {A : Type} (m : M Db PegQueueError A) : SC A :=
  zoom local_peg_queue set_local_peg_queue (with_err SCPegQueueError m).
Definition on_stacks {A : Type} (m : M SN StacksNodeError A) : SC A :=
  zoom local_stacks_node set_local_stacks_node (with_err SCStacksNodeError m).
Definition on_bitcoin {A : Type} (m : M BN BitcoinNodeError A) : SC A :=
  zoom local_bitcoin_node set_local_bitcoin_node (with_err SCBitcoinNodeError m).

(** [self.peg_queue().poll(self.stacks_node())] *)
Definition poll_queue : SC unit :=
  zoom (fun s => (local_peg_queue s, local_stacks_node s))
    (fun p s => set_local_peg_queue p.1 (set_local_stacks_node p.2 s))
    (with_err SCPegQueueError poll).

(** A broadcast whose error the source matches on. *)
Definition try_broadcast (tx : StacksTransaction) : SC (unit + StacksNodeError) := fun s =>
  let '(n, r) := broadcast_transaction tx (local_stacks_node s) in
  (set_local_stacks_node n s,
   match r with
   | Ok u => Ok (inl u)
   | Err e => Ok (inr e)
   | Panic => Panic
   | Diverge => Diverge
   end).

(** ** [CoordinatorHelpers] *)
Fixpoint broadcast_loop {T : Type} {BS : BuildStacksTransaction T} (fuel : nat) (op : T)
    (address : StacksAddress) (nonce nonce_retries fee_retries : Z) : SC unit :=
  match fuel with
  | O => lift Diverge
  | S fuel' =>
      w ← gets stacks_wallet;
      tx ← lift (map_err (fun e => SCPegWalletError (PWStacksWalletError e))
             (build_transaction op w nonce));
      r ← try_broadcast tx;
      match r with
      | inr (SNBroadcastError ConflictingNonceInMempool) =>
          let nonce_retries := nonce_retries + 1 in
          if MAX_NONCE_RETRIES <? nonce_retries then throw MaxNonceRetriesExceeded
          else
            nonce ← on_stacks (next_nonce address);
            broadcast_loop fuel' op address nonce nonce_retries fee_retries
      | inr (SNBroadcastError (FeeTooLow expected actual)) =>
          let fee_retries := fee_retries + 1 in
          if MAX_FEE_RETRIES <? fee_retries then throw MaxFeeRetriesExceeded
          else
            modify (fun s => set_stacks_wallet (set_fee expected (stacks_wallet s)) s) ;;
            broadcast_loop fuel' op address nonce nonce_retries fee_retries
      | inr e => throw (SCStacksNodeError e)
      | inl _ => mret tt
      end
  end.

(** One attempt and the retries of both kinds: [peg_in_bounded] shows
    that the loop never runs longer. *)
Definition broadcast_attempts : nat := Z.to_nat (1 + MAX_NONCE_RETRIES + MAX_FEE_RETRIES).

Definition try_broadcast_transaction {T : Type} {BS : BuildStacksTransaction T} (op : T) : SC unit :=
  w ← gets stacks_wallet;
  let address := sw_address w in
  nonce ← on_stacks (next_nonce address);
  broadcast_loop broadcast_attempts op address nonce 0 0.

Definition peg_in (op : PegInOp) : SC unit := try_broadcast_transaction op.

(** [tx.input[index].witness.push(finalized)] *)
Definition push_witness (w : bytes) (i : TxIn) : TxIn :=
  {| previous_output := previous_output i; script_sig := script_sig i; sequence := sequence i;
     witness := witness i ++ [w] |}.
Definition push_input_witness (index : nat) (w : bytes) (tx : Transaction) : Transaction :=
  {| version := version tx; lock_time := lock_time tx; input := alter (push_witness w) index (input tx);
     output := output tx |}.

Definition sign_input (fuel : nat) (sighash_tx : Transaction) (prevouts : list TxOut)
    (tx : Transaction) (index : nat) : SC Transaction :=
  taproot_sighash ← lift (ok_or (taproot_key_spend_signature_hash sighash_tx index prevouts)
                            SCSigningError);
  '(_, schnorr_proof) ← on_frost (sign_message fuel taproot_sighash);
  mret (push_input_witness index (proof_to_bytes schnorr_proof) tx).

(** [fuel] is that of the signing rounds. *)
Definition fulfill_peg_out (fuel : nat) (op : PegOutRequestOp) : SC Transaction :=
  wallet ← gets bitcoin_wallet;
  utxos ← on_bitcoin (btc_list_unspent (wallet_address wallet));
  '(tx, prevouts) ← lift (map_err (fun e => SCPegWalletError (PWBitcoinWalletError e))
    (BitcoinWallet.fulfill_peg_out wallet op utxos));
  foldS (sign_input fuel tx prevouts) tx (seq 0 (length (input tx))).

Definition peg_out (fuel : nat) (op : PegOutRequestOp) : SC unit :=
  fulfill_tx ← fulfill_peg_out fuel op;
  try_broadcast_transaction op ;;
  on_bitcoin (btc_broadcast_transaction fulfill_tx) ;;
  mret tt.

(** ** [trait Coordinator] *)
Definition handle (fuel : nat) (op : SbtcOp) : SC unit :=
  match op with
  | PegIn op => peg_in op
  | PegOutRequest op => peg_out fuel op
  end.

Fixpoint process_queue (rounds fuel : nat) : SC unit :=
  match rounds with
  | O => lift Diverge
  | S rounds' =>
      o ← on_queue sbtc_op;
      match o with
      | Some op => handle fuel op ;; process_queue rounds' fuel
      | None => mret tt
      end
  end.

(** The main loop: [polls] iterations of it; the queue is worked off with as
    much fuel as it has waiting rows. *)
Definition process_whole_queue (fuel : nat) : SC unit :=
  s ← get_st;
  process_queue (S (new_count (local_peg_queue s))) fuel.

Fixpoint run (polls fuel : nat) : SC unit :=
  match polls with
  | O => lift Diverge
  | S polls' =>
      poll_queue ;;
      process_whole_queue fuel ;;
      run polls' fuel
  end.

(** ** [impl StacksCoordinator] *)
Definition run_dkg_round (fuel : nat) : SC XOnlyPublicKey :=
  p ← on_frost (run_distributed_key_generation fuel);
  lift (ok_or (xonly_from_slice (element_to_bytes (point_x p))) SCInvalidPublicKey).

Definition sc_sign_message (fuel : nat) (message : string) : SC (Signature * SchnorrProof) :=
  on_frost (sign_message fuel (as_bytes message)).
End Coordinator.

(** ** Properties *)

Section Properties.
Context {CP : P256k1} {WP : Wsts} {WA : WstsAggregator} {TY : StacksTypes} {TL : StacksTxLib}
  {TS : TxSigner} {BT : BitcoinTypes} {KC : KeyConversions} {OJ : OpJson} {BP : BuildProfile}
  {BO : Backoff}
  {FN : Type} {NL : NetListen FN} {SN : Type} {STN : StacksNode SN} {BN : Type} {BTN : BitcoinNode BN}.
Abbreviation State := (StacksCoordinator (FN := FN) (SN := SN) (BN := BN)).
Abbreviation SC := (M State SCError).
Implicit Types (s : State).

(** *** Broadcasting *)

(** [s'] is [s] after the Stacks node moved on and the fee was adjusted. *)
Definition only_fee_and_node s s' : Prop :=
  s' = set_stacks_wallet (set_fee (fee (stacks_wallet s')) (stacks_wallet s))
         (set_local_stacks_node (local_stacks_node s') s).

Lemma only_fee_and_node_refl s : only_fee_and_node s s.
Proof. destruct s as [a b c d e [w1 w2 w3 w4 w5 w6 w7]]. done. Qed.

Lemma only_fee_and_node_trans s1 s2 s3 :
  only_fee_and_node s1 s2 -> only_fee_and_node s2 s3 -> only_fee_and_node s1 s3.
Proof. unfold only_fee_and_node. intros -> ->. by destruct s1, s3. Qed.

Lemma only_fee_and_node_node n s : only_fee_and_node s (set_local_stacks_node n s).
Proof. unfold only_fee_and_node. by destruct s as [a b c d e [w1 w2 w3 w4 w5 w6 w7]]. Qed.

Lemma only_fee_and_node_fee f s :
  only_fee_and_node s (set_stacks_wallet (set_fee f (stacks_wallet s)) s).
Proof. unfold only_fee_and_node. by destruct s. Qed.

Lemma only_fee_and_node_rest s s' :
  only_fee_and_node s s' ->
  local_peg_queue s' = local_peg_queue s /\ local_bitcoin_node s' = local_bitcoin_node s /\
  frost_coordinator s' = frost_coordinator s /\ bitcoin_wallet s' = bitcoin_wallet s.
Proof. unfold only_fee_and_node. intros ->. by destruct s. Qed.

Section Broadcast.
Context {T : Type} {BS : BuildStacksTransaction T} (op : T).

(** A transaction built for [op] with the current fee was accepted by the node. *)
Definition accepted s' : Prop :=
  exists nonce tx n, build_transaction op (stacks_wallet s') nonce = Ok tx /\
    broadcast_transaction tx n = (local_stacks_node s', Ok tt).

(** [calls] counts the broadcasts a node has seen. *)
Context (calls : SN -> Z)
  (broadcast_calls : forall tx n, calls (broadcast_transaction tx n).1 <= calls n + 1)
  (nonce_calls : forall address n, calls (next_nonce address n).1 <= calls n).

Lemma try_broadcast_cases (tx : StacksTransaction) s s' r :
  try_broadcast tx s = (s', r) ->
  s' = set_local_stacks_node (local_stacks_node s') s /\
  calls (local_stacks_node s') <= calls (local_stacks_node s) + 1 /\
  (r = Ok (inl tt) -> broadcast_transaction tx (local_stacks_node s) = (local_stacks_node s', Ok tt)) /\
  (r = Diverge -> (broadcast_transaction tx (local_stacks_node s)).2 = Diverge).
Proof.
  unfold try_broadcast. pose proof (broadcast_calls tx (local_stacks_node s)) as Hc.
  destruct (broadcast_transaction tx (local_stacks_node s)) as [n x]. simpl in Hc.
  intros [= <- <-]. destruct s; simpl in *. split_and!; try done; by destruct x as [[]| | |].
Qed.

Lemma broadcast_loop_bounded (fuel : nat) (address : StacksAddress) (nonce i j : Z) s s' r :
  i <= MAX_NONCE_RETRIES -> j <= MAX_FEE_RETRIES ->
  1 + MAX_NONCE_RETRIES + MAX_FEE_RETRIES <= Z.of_nat fuel + i + j ->
  (forall w k, build_transaction op w k <> Diverge) -> ReturningNode ->
  broadcast_loop fuel op address nonce i j s = (s', r) ->
  r <> Diverge /\ calls (local_stacks_node s') <= calls (local_stacks_node s) + Z.of_nat fuel /\
  only_fee_and_node s s' /\ (r = Ok tt -> accepted s').
Proof.
  intros Hi Hj Hfuel Hbuild RN. revert nonce i j s Hi Hj Hfuel.
  induction fuel as [|fuel IH]; intros nonce i j s Hi Hj Hfuel; [lia|]. cbn [broadcast_loop].
  rewrite M_bind_eq. unfold gets at 1. rewrite M_bind_eq. unfold lift at 1.
  destruct (build_transaction op (stacks_wallet s) nonce) as [tx|e| |] eqn:Hb; cbn [map_err];
    [|intros [= <- <-]; split_and!; [done|lia|apply only_fee_and_node_refl|done]..
     |by apply Hbuild in Hb].
  rewrite M_bind_eq. destruct (try_broadcast tx s) as [s1 r1] eqn:Ht.
  pose proof Ht as (Hs1 & Hc1 & Ha1 & Hd1)%try_broadcast_cases.
  assert (only_fee_and_node s s1) as Hf1 by (rewrite Hs1; apply only_fee_and_node_node).
  assert (forall r', r' <> Diverge -> r' <> Ok tt -> (s1, r') = (s', r) ->
    r <> Diverge /\ calls (local_stacks_node s') <= calls (local_stacks_node s) + Z.of_nat (S fuel) /\
    only_fee_and_node s s' /\ (r = Ok tt -> accepted s')) as Hstop.
  { intros r' Hr1 Hr2 [= <- <-]. split_and!; [done|lia|done|done]. }
  destruct r1 as [[[]|e]|e| |]; [|destruct e as [| | | | | | | |be| | | | | | |]| | |];
    try (by apply Hstop).
  - (* accepted *)
    intros [= <- <-]. split_and!; [done|lia|done|]. intros _. exists nonce, tx, (local_stacks_node s).
    split; [|by apply Ha1]. rewrite Hs1, <-Hb. by destruct s.
  - destruct be; try (by apply Hstop).
    + destruct (Z.ltb_spec MAX_FEE_RETRIES (j + 1)); [by apply Hstop|].
      rewrite M_bind_eq. unfold modify at 1. intros Hl. apply IH in Hl; [|lia..].
      destruct Hl as (H1 & H2 & H3 & H4). split_and!; [done| | |done].
      * assert (local_stacks_node (set_stacks_wallet (set_fee expected (stacks_wallet s1)) s1)
                = local_stacks_node s1) as Hn by by destruct s1.
        rewrite Hn in H2. lia.
      * eapply only_fee_and_node_trans; [exact Hf1|]. eapply only_fee_and_node_trans; [|exact H3].
        apply only_fee_and_node_fee.
    + destruct (Z.ltb_spec MAX_NONCE_RETRIES (i + 1)); [by apply Hstop|].
      rewrite M_bind_eq. unfold on_stacks at 1, zoom, with_err.
      pose proof (nonce_calls address (local_stacks_node s1)) as Hnc.
      pose proof (next_nonce_returns address (local_stacks_node s1)) as Hnr.
      destruct (next_nonce address (local_stacks_node s1)) as [n2 x2]. simpl in Hnc, Hnr.
      assert (only_fee_and_node s (set_local_stacks_node n2 s1)) as Hf2.
      { eapply only_fee_and_node_trans; [exact Hf1|apply only_fee_and_node_node]. }
      assert (local_stacks_node (set_local_stacks_node n2 s1) = n2) as Hn2 by by destruct s1.
      destruct x2 as [k| | |]; cbn [map_err];
        try (intros [= <- <-]; rewrite Hn2; split_and!; [done|lia|done|done]).
      intros Hl. apply IH in Hl; [|lia..]. destruct Hl as (H1 & H2 & H3 & H4).
      split_and!; [done|rewrite Hn2 in H2; lia|by eapply only_fee_and_node_trans|done].
  - exfalso. by apply (broadcast_returns tx (local_stacks_node s)), Hd1.
Qed.

Lemma try_broadcast_transaction_bounded s s' r :
  (forall w k, build_transaction op w k <> Diverge) -> ReturningNode ->
  try_broadcast_transaction op s = (s', r) ->
  r <> Diverge /\
  calls (local_stacks_node s') <= calls (local_stacks_node s) + Z.of_nat broadcast_attempts /\
  only_fee_and_node s s' /\ (r = Ok tt -> accepted s').
Proof.
  intros Hbuild RN. unfold try_broadcast_transaction. rewrite M_bind_eq. unfold gets at 1.
  rewrite M_bind_eq. unfold on_stacks at 1, zoom, with_err.
  pose proof (nonce_calls (sw_address (stacks_wallet s)) (local_stacks_node s)) as Hnc.
  pose proof (next_nonce_returns (sw_address (stacks_wallet s)) (local_stacks_node s)) as Hnr.
  destruct (next_nonce _ (local_stacks_node s)) as [n x]. simpl in Hnc, Hnr.
  assert (local_stacks_node (set_local_stacks_node n s) = n) as Hn by by destruct s.
  pose proof (only_fee_and_node_node n s) as Hf.
  destruct x as [k|e| |]; cbn [map_err];
    try (intros [= <- <-]; rewrite Hn; split_and!; [done|lia|done|done]).
  intros Hl. apply broadcast_loop_bounded in Hl as (H1 & H2 & H3 & H4);
    [|by_compute|by_compute|by_compute|done|done].
  split_and!; [done|rewrite Hn in H2; lia|by eapply only_fee_and_node_trans|done].
Qed.
End Broadcast.

(** The same without a counter. *)
Lemma try_broadcast_transaction_returns {T : Type} {BS : BuildStacksTransaction T} (op : T) s s' r :
  (forall w k, build_transaction op w k <> Diverge) -> ReturningNode ->
  try_broadcast_transaction op s = (s', r) -> r <> Diverge /\ only_fee_and_node s s' /\ (r = Ok tt -> accepted op s').
Proof.
  intros Hbuild RN Hr. apply (try_broadcast_transaction_bounded op (fun _ => 0)) in Hr;
    [|done..]. naive_solver.
Qed.

Lemma build_transaction_signed_returns (w : StacksWallet) (name : string) (args : list ClarityValue)
    (nonce : Z) : build_transaction_signed w name args nonce <> Diverge.
Proof.
  unfold build_transaction_signed, build_transaction_unsigned, build_transaction_payload.
  destruct (clarity_name name); [|done]. cbn.
  destruct (new_singlesig_p2pkh _); [|done]. cbn. destruct (sign_origin _ _); [|done].
  cbn. by destruct (get_tx _).
Qed.

Lemma build_peg_in_returns (op : PegInOp) w k : build_transaction op w k <> Diverge.
Proof. apply build_transaction_signed_returns. Qed.
Lemma build_peg_out_returns (op : PegOutRequestOp) w k : build_transaction op w k <> Diverge.
Proof.
  unfold build_transaction, PegOutRequestOp_BuildStacksTransaction, PegOutRequestOp_build.
  destruct (po_stx_address _ _); [|done]. cbn. apply build_transaction_signed_returns.
Qed.

(** C17: broadcasting is bounded and honest.  [peg_in] always comes to an end,
    after at most 13 broadcasts (one attempt, 10 retries with a new nonce and 2
    with a higher fee); it succeeds only when the node accepted a transaction
    minting for this very request; and apart from the node it changes nothing but
    the wallet's fee. *)
Theorem peg_in_bounded (calls : SN -> Z) (op : PegInOp) s s' r
    (broadcast_calls : forall tx n, calls (broadcast_transaction tx n).1 <= calls n + 1)
    (nonce_calls : forall address n, calls (next_nonce address n).1 <= calls n)
    (RN : ReturningNode) (Hrun : peg_in op s = (s', r)) :
  r <> Diverge /\ calls (local_stacks_node s') <= calls (local_stacks_node s) + 13 /\
  only_fee_and_node s s' /\ (r = Ok tt -> accepted op s').
Proof.
  exact (try_broadcast_transaction_bounded op calls broadcast_calls nonce_calls s s' r
           (build_peg_in_returns op) RN Hrun).
Qed.

(** *** Fulfilling peg-outs *)

(** The inputs from [0] to [k - 1] of [tx] are those of [unsigned] with a proof
    that verifies under [key], the others are untouched. *)
Definition signed_upto (key : Point) (unsigned : Transaction) (prevouts : list TxOut) (k : nat)
    (tx : Transaction) : Prop :=
  version tx = version unsigned /\ lock_time tx = lock_time unsigned /\ output tx = output unsigned /\
  length (input tx) = length (input unsigned) /\
  forall j i, input unsigned !! j = Some i ->
    if decide (j < k)%nat then
      exists sighash proof, taproot_key_spend_signature_hash unsigned j prevouts = Some sighash /\
        schnorr_verify proof (point_x key) sighash = true /\
        input tx !! j = Some (push_witness (proof_to_bytes proof) i)
    else input tx !! j = Some i.

Lemma sign_input_Ok (fuel k : nat) (unsigned tx tx' : Transaction) (prevouts : list TxOut) s s' :
  signed_upto (aggregate_public_key (frost_coordinator s)) unsigned prevouts k tx ->
  sign_input fuel unsigned prevouts tx k s = (s', Ok tx') ->
  signed_upto (aggregate_public_key (frost_coordinator s)) unsigned prevouts (S k) tx' /\
  exists c, s' = set_frost_coordinator c s /\
    aggregate_public_key c = aggregate_public_key (frost_coordinator s).
Proof.
  intros (Hv & Hl & Ho & Hlen & Hin). unfold sign_input.
  intros (s1 & h & [= <- Hh%ok_or_Ok_inv] & Hr)%M_bind_Ok_inv.
  apply M_bind_Ok_inv in Hr as (s2 & [sg proof] & Hs & [= <- <-]).
  unfold on_frost, zoom, with_err in Hs.
  destruct (sign_message fuel h (frost_coordinator s)) as [c [x| | |]] eqn:Hm; try done.
  injection Hs as <- ->. apply sign_message_verifies in Hm as [Hver Hkey].
  split; [|by exists c]. split_and!; [done..|simpl; by rewrite length_alter|].
  intros j i Hj. specialize (Hin j i Hj). simpl.
  destruct (decide (j = k)) as [->|Hne].
  - rewrite decide_True by lia. rewrite decide_False in Hin by lia. exists h, proof.
    split_and!; [done|done|]. by rewrite list_lookup_alter_eq, Hin.
  - rewrite list_lookup_alter_ne by done. destruct (decide (j < k)%nat).
    + by rewrite decide_True by lia.
    + by rewrite decide_False by lia.
Qed.

Lemma sign_inputs_Ok (fuel n k : nat) (unsigned tx tx' : Transaction) (prevouts : list TxOut) s s' :
  signed_upto (aggregate_public_key (frost_coordinator s)) unsigned prevouts k tx ->
  foldS (sign_input fuel unsigned prevouts) tx (seq k n) s = (s', Ok tx') ->
  signed_upto (aggregate_public_key (frost_coordinator s)) unsigned prevouts (k + n) tx' /\
  exists c, s' = set_frost_coordinator c s /\
    aggregate_public_key c = aggregate_public_key (frost_coordinator s).
Proof.
  revert k tx s; induction n as [|n IH]; intros k tx s Hk; simpl.
  - intros [= <- <-]. rewrite Nat.add_0_r. split; [done|]. exists (frost_coordinator s).
    by destruct s.
  - intros (s1 & tx1 & [Hk1 (c & -> & Hc)]%sign_input_Ok & Hr)%M_bind_Ok_inv; [|done].
    assert (frost_coordinator (set_frost_coordinator c s) = c) as Hfc by by destruct s.
    apply IH in Hr as [Hk2 (c2 & -> & Hc2)]; rewrite Hfc, Hc in *; [|done].
    rewrite <-Nat.add_succ_comm. split; [done|]. exists c2. split; [by destruct s|congruence].
Qed.

(** C9: a fulfilled peg-out is the wallet's transaction, fully signed.  What
    [fulfill_peg_out] returns has the version, outputs and inputs of the
    transaction built by the wallet from the node's unspent outputs; every input
    got exactly one witness, a proof that verifies under the coordinator's
    aggregate key for the input's taproot signature hash.  Neither the queue nor
    the Stacks node is touched, and the aggregate key stays. *)
Theorem fulfill_peg_out_signed (fuel : nat) (op : PegOutRequestOp) s s' tx
    (Hok : fulfill_peg_out fuel op s = (s', Ok tx)) :
  exists n utxos unsigned prevouts,
    btc_list_unspent (wallet_address (bitcoin_wallet s)) (local_bitcoin_node s) = (n, Ok utxos) /\
    BitcoinWallet.fulfill_peg_out (bitcoin_wallet s) op utxos = Ok (unsigned, prevouts) /\
    signed_upto (aggregate_public_key (frost_coordinator s)) unsigned prevouts
      (length (input unsigned)) tx /\
    exists c, s' = set_frost_coordinator c (set_local_bitcoin_node n s) /\
      aggregate_public_key c = aggregate_public_key (frost_coordinator s).
Proof.
  unfold fulfill_peg_out in Hok. apply M_bind_Ok_inv in Hok as (? & ? & [= <- <-] & Hr).
  apply M_bind_Ok_inv in Hr as (s1 & utxos & Hl & Hr). unfold on_bitcoin, zoom, with_err in Hl.
  destruct (btc_list_unspent _ _) as [n x] eqn:Hlist. injection Hl as <- ->%map_err_Ok_inv.
  apply M_bind_Ok_inv in Hr as (s2 & [unsigned prevouts] & [= <- Hw%map_err_Ok_inv] & Hr).
  apply (sign_inputs_Ok fuel _ 0) in Hr as [Hk (c & -> & Hc)].
  - assert (frost_coordinator (set_local_bitcoin_node n s) = frost_coordinator s) as Hf
      by by destruct s.
    rewrite Hf in *. exists n, utxos, unsigned, prevouts. split_and!; try done. by exists c.
  - by split_and!.
Qed.

(** [fulfill_peg_out] uses the FROST coordinator and lists unspent outputs. *)
Lemma sign_inputs_frost (fuel : nat) (unsigned tx : Transaction) (prevouts : list TxOut)
    (l : list nat) s s' r :
  foldS (sign_input fuel unsigned prevouts) tx l s = (s', r) ->
  exists c, s' = set_frost_coordinator c s.
Proof.
  revert tx s; induction l as [|k l IH]; intros tx s; simpl.
  { intros [= <- <-]. exists (frost_coordinator s). by destruct s. }
  rewrite M_bind_eq. destruct (sign_input fuel unsigned prevouts tx k s) as [s1 r1] eqn:Hs.
  assert (exists c, s1 = set_frost_coordinator c s) as [c ->].
  { revert Hs. unfold sign_input. rewrite M_bind_eq. unfold lift.
    destruct (taproot_key_spend_signature_hash unsigned k prevouts) as [h|]; cbn [ok_or].
    - rewrite M_bind_eq. unfold on_frost, zoom, with_err.
      destruct (sign_message fuel h (frost_coordinator s)) as [c x].
      destruct x as [[sg pf]|e| |]; intros [= <- <-]; by exists c.
    - intros [= <- <-]. exists (frost_coordinator s). by destruct s. }
  destruct r1 as [tx1|e| |]; try (intros [= <- <-]; by exists c).
  intros [c2 ->]%IH. exists c2. by destruct s.
Qed.

Lemma fulfill_peg_out_state (fuel : nat) (op : PegOutRequestOp) s s' r :
  fulfill_peg_out fuel op s = (s', r) ->
  exists c, s' = set_frost_coordinator c (set_local_bitcoin_node
    (btc_list_unspent (wallet_address (bitcoin_wallet s)) (local_bitcoin_node s)).1 s).
Proof.
  unfold fulfill_peg_out. rewrite M_bind_eq. unfold gets at 1. rewrite M_bind_eq.
  unfold on_bitcoin at 1, zoom, with_err. destruct (btc_list_unspent _ _) as [n x]. cbn [fst].
  assert (forall r', (set_local_bitcoin_node n s, r') = (s', r) ->
    exists c, s' = set_frost_coordinator c (set_local_bitcoin_node n s)) as Hstop.
  { intros r' [= <- <-]. exists (frost_coordinator s). by destruct s. }
  destruct x as [utxos|e| |]; cbn [map_err]; try apply Hstop.
  rewrite M_bind_eq. unfold lift at 1.
  destruct (BitcoinWallet.fulfill_peg_out _ _ _) as [[tx prev]|e| |]; cbn [map_err]; try apply Hstop.
  apply sign_inputs_frost.
Qed.

Section PegOut.
(** [unpaid] is a property of the Bitcoin node that listing outputs keeps: only a
    broadcast can end it. *)
Context (unpaid : BN -> Prop)
  (list_unpaid : forall address n, unpaid n -> unpaid (btc_list_unspent address n).1)
  {RN : ReturningNode}.

(** C5: bitcoin is paid out only after the burn.  If the request cannot be
    fulfilled and signed, nothing is broadcast: the Stacks node is untouched and
    nothing is paid.  A payment reaches the Bitcoin node only when the Stacks
    node has accepted a transaction burning for this request; and a successful
    run ends with the Bitcoin node accepting the signed transaction. *)
Theorem peg_out_burns_first (fuel : nat) (op : PegOutRequestOp) s s' r
    (Hunpaid : unpaid (local_bitcoin_node s)) (Hrun : peg_out fuel op s = (s', r)) :
  ((forall s1 tx, fulfill_peg_out fuel op s <> (s1, Ok tx)) ->
     local_stacks_node s' = local_stacks_node s /\ unpaid (local_bitcoin_node s') /\ r <> Ok tt) /\
  (unpaid (local_bitcoin_node s') \/ accepted op s') /\
  (r = Ok tt -> accepted op s' /\ exists s1 tx n txid, fulfill_peg_out fuel op s = (s1, Ok tx) /\
     btc_broadcast_transaction tx n = (local_bitcoin_node s', Ok txid)).
Proof.
  unfold peg_out in Hrun. rewrite M_bind_eq in Hrun.
  destruct (fulfill_peg_out fuel op s) as [s1 r1] eqn:Hf.
  assert (unpaid (local_bitcoin_node s1) /\ local_stacks_node s1 = local_stacks_node s) as [Hu1 Hn1].
  { apply fulfill_peg_out_state in Hf as [c ->].
    destruct s as [a b c0 d e f]; simpl in *. split; [by apply list_unpaid|done]. }
  destruct r1 as [tx|e| |];
    try (injection Hrun as <- <-; split_and!; [done|by left|done]).
  split; [intros Hno; by destruct (Hno s1 tx)|].
  rewrite M_bind_eq in Hrun. destruct (try_broadcast_transaction op s1) as [s2 r2] eqn:Hb.
  apply (try_broadcast_transaction_returns op) in Hb
    as (_ & (_ & Hbtc & _)%only_fee_and_node_rest & Hacc); [|apply build_peg_out_returns|done].
  destruct r2 as [[]|e| |];
    try (injection Hrun as <- <-; split_and!; [left; by rewrite Hbtc|done]).
  specialize (Hacc eq_refl). rewrite M_bind_eq in Hrun. unfold on_bitcoin, zoom, with_err in Hrun.
  destruct (btc_broadcast_transaction tx (local_bitcoin_node s2)) as [n x] eqn:Hx.
  assert (accepted op (set_local_bitcoin_node n s2)) as Hacc' by (unfold accepted; by destruct s2).
  destruct x as [txid|e| |]; injection Hrun as <- <-; split_and!; try done; try (by right).
  intros _. split; [done|]. exists s1, tx, (local_bitcoin_node s2), txid. split; [done|].
  rewrite Hx. by destruct s2.
Qed.
End PegOut.

(** *** Working off the queue *)

(** What handling an operation may change: the nodes, the Stacks wallet and, but
    for its aggregate key, the FROST coordinator. *)
Record stable (I : State -> Prop) : Prop := {
  stable_stacks : forall n s, I s -> I (set_local_stacks_node n s);
  stable_bitcoin : forall n s, I s -> I (set_local_bitcoin_node n s);
  stable_wallet : forall w s, I s -> I (set_stacks_wallet w s);
  stable_frost : forall c s, aggregate_public_key c = aggregate_public_key (frost_coordinator s) ->
    I s -> I (set_frost_coordinator c s)
}.

Section Stable.
Context (I : State -> Prop) (HI : stable I).

Lemma keeps_on_stacks {A : Type} (m : M SN StacksNodeError A) : keeps I (on_stacks m).
Proof.
  intros s Hs. unfold on_stacks, zoom, with_err. destruct (m _) as [n x]. by apply (stable_stacks I HI).
Qed.
Lemma keeps_on_bitcoin {A : Type} (m : M BN BitcoinNodeError A) : keeps I (on_bitcoin m).
Proof.
  intros s Hs. unfold on_bitcoin, zoom, with_err. destruct (m _) as [n x]. by apply (stable_bitcoin I HI).
Qed.
Lemma keeps_try_broadcast (tx : StacksTransaction) : keeps I (try_broadcast tx).
Proof.
  intros s Hs. unfold try_broadcast. destruct (broadcast_transaction _ _). by apply (stable_stacks I HI).
Qed.
Lemma keeps_on_frost_sign (fuel : nat) (m : bytes) : keeps I (on_frost (sign_message fuel m)).
Proof.
  intros s Hs. unfold on_frost, zoom, with_err.
  pose proof (sign_message_keeps_key _ fuel m (frost_coordinator s) eq_refl) as Hk.
  destruct (sign_message fuel m _) as [c x]. by apply (stable_frost I HI).
Qed.
#[local] Hint Resolve keeps_on_stacks keeps_on_bitcoin keeps_try_broadcast keeps_on_frost_sign : keeps.

Lemma try_broadcast_transaction_keeps {T : Type} {BS : BuildStacksTransaction T} (op : T) :
  keeps I (try_broadcast_transaction op).
Proof.
  unfold try_broadcast_transaction. apply keeps_bind; [auto with keeps|intros w].
  apply keeps_bind; [auto with keeps|intros nonce].
  enough (forall n address nonce i j, keeps I (broadcast_loop n op address nonce i j)) as Hl by apply Hl.
  clear w nonce. induction n as [|n IH]; intros address nonce i j; [apply (keeps_lift _ Diverge)|].
  cbn [broadcast_loop]. apply keeps_bind; [auto with keeps|intros w].
  apply keeps_bind; [auto with keeps|intros tx]. apply keeps_bind; [auto with keeps|].
  intros [u|e]; [auto with keeps|]. destruct e; auto with keeps. destruct e; auto with keeps.
  - case_match; [auto with keeps|]. apply keeps_bind; [|auto].
    apply keeps_modify. intros s Hs. by apply (stable_wallet I HI).
  - case_match; [auto with keeps|]. apply keeps_bind; [auto with keeps|auto].
Qed.

Lemma handle_keeps (fuel : nat) (o : SbtcOp) : keeps I (handle fuel o).
Proof.
  destruct o as [op|op]; simpl; [apply try_broadcast_transaction_keeps|]. unfold peg_out.
  apply keeps_bind.
  - apply keeps_bind; [auto with keeps|intros w]. apply keeps_bind; [auto with keeps|intros utxos].
    apply keeps_bind; [auto with keeps|intros [tx prevouts]].
    apply keeps_foldS. intros tx' k _. apply keeps_bind; [auto with keeps|intros h].
    apply keeps_bind; [auto with keeps|intros []; auto with keeps].
  - intros tx. apply keeps_bind; [apply try_broadcast_transaction_keeps|intros _].
    apply keeps_bind; auto with keeps.
Qed.
End Stable.

Lemma handle_keeps_queue (fuel : nat) (o : SbtcOp) (db : Db) :
  keeps (fun s => local_peg_queue s = db) (handle fuel o).
Proof. apply handle_keeps. split; by intros ? []. Qed.

(** The wallet's key is the x coordinate of the aggregate key. *)
Definition wallet_key_ok s : Prop :=
  xonly_serialize (wallet_public_key (bitcoin_wallet s))
  = element_to_bytes (point_x (aggregate_public_key (frost_coordinator s))).

(** polling and processing, for any number of rounds and whatever fails, keep
    the wallet's key the one the signers sign for. *)
Lemma run_keeps_wallet_key (polls fuel : nat) : keeps wallet_key_ok (run polls fuel).
Proof.
  assert (stable wallet_key_ok) as Hstable.
  { unfold wallet_key_ok. split; try (by intros ? []). intros c []; simpl. by intros ->. }
  assert (forall db s, wallet_key_ok s -> wallet_key_ok (set_local_peg_queue db s)) as Hq by by intros ? [].
  induction polls as [|polls IH]; [apply (keeps_lift _ Diverge)|]. cbn [run].
  apply keeps_bind; [|intros _; apply keeps_bind; [|auto]].
  - intros s Hs. unfold poll_queue, zoom, with_err. destruct (poll _) as [[db n] x].
    by apply Hq, (stable_stacks _ Hstable).
  - apply keeps_bind; [auto with keeps|intros s0]. generalize (S (new_count (local_peg_queue s0))).
    induction n as [|n IHn]; [apply (keeps_lift _ Diverge)|]. cbn [process_queue].
    apply keeps_bind.
    + intros s Hs. unfold on_queue, zoom, with_err. destruct (sbtc_op _). by apply Hq.
    + intros [o|]; [|auto with keeps]. apply keeps_bind; [by apply handle_keeps|auto].
Qed.

Section ProcessQueue.
Context {FNet : FiniteNet (N := FN)} {RN : ReturningNode} {RB : ReturningBitcoin}.
Abbreviation left_over s := (budget (frost_coordinator s)).

(** [m] comes to an end when fewer than [fuel] FROST messages are left, and
    success does not add any. *)
Definition ends {A : Type} (fuel : nat) (m : SC A) : Prop :=
  forall s s' r, (left_over s < fuel)%nat -> m s = (s', r) ->
    r <> Diverge /\ (forall a, r = Ok a -> (left_over s' <= left_over s)%nat).

Lemma ends_bind {A B : Type} (fuel : nat) (m : SC A) (f : A -> SC B) :
  ends fuel m -> (forall a, ends fuel (f a)) -> ends fuel (m ≫= f).
Proof.
  intros Hm Hf s s' r Hb. rewrite M_bind_eq. destruct (m s) as [s1 r1] eqn:H1.
  destruct (Hm s s1 r1 Hb H1) as [Hd Hok].
  destruct r1 as [a|e| |]; intros Hr; try (injection Hr as <- <-; done).
  specialize (Hok a eq_refl). destruct (Hf a s1 s' r ltac:(lia) Hr) as [H2 H3].
  split; [done|]. intros x Hx. specialize (H3 x Hx). lia.
Qed.
Lemma ends_lift {A : Type} (fuel : nat) (x : res SCError A) : x <> Diverge -> ends fuel (lift x).
Proof. intros Hx s s' r _ [= <- <-]. by split. Qed.
Lemma ends_gets {A : Type} (fuel : nat) (f : State -> A) : ends fuel (gets f).
Proof. intros s s' r _ [= <- <-]. by split. Qed.
Lemma ends_ret {A : Type} (fuel : nat) (a : A) : ends fuel (mret a).
Proof. intros s s' r _ [= <- <-]. by split. Qed.

Lemma ends_on_bitcoin {A : Type} (fuel : nat) (m : M BN BitcoinNodeError A) :
  (forall n, (m n).2 <> Diverge) -> ends fuel (on_bitcoin m).
Proof.
  intros Hm s s' r _. unfold on_bitcoin, zoom, with_err. specialize (Hm (local_bitcoin_node s)).
  destruct (m (local_bitcoin_node s)) as [n x]. intros [= <- <-]. split; [by destruct x|].
  intros _ _. by destruct s.
Qed.

Lemma ends_sign_input (fuel : nat) (unsigned tx : Transaction) (prevouts : list TxOut) (k : nat) :
  ends fuel (sign_input fuel unsigned prevouts tx k).
Proof.
  intros s s' r Hb. revert s s' r Hb. apply ends_bind.
  - apply ends_lift. by destruct (taproot_key_spend_signature_hash _ _ _).
  - intros h. apply ends_bind; [|intros []; apply ends_ret].
    intros s s' r Hb. unfold on_frost, zoom, with_err.
    destruct (sign_message fuel h (frost_coordinator s)) as [c x] eqn:Hs.
    apply (stops_sign fuel (left_over s) h Hb) in Hs as [H1 H2]; [|done].
    intros [= <- <-]. split; [by destruct x|]. intros a Ha.
    assert (frost_coordinator (set_frost_coordinator c s) = c) as -> by by destruct s.
    destruct x as [x| | |]; try done. specialize (H2 x eq_refl). lia.
Qed.

Lemma ends_fulfill_peg_out (fuel : nat) (op : PegOutRequestOp) : ends fuel (fulfill_peg_out fuel op).
Proof.
  apply ends_bind; [apply ends_gets|intros w].
  apply ends_bind; [apply ends_on_bitcoin; intros n; apply list_unspent_returns|intros utxos].
  apply ends_bind.
  { apply ends_lift. pose proof (fulfill_peg_out_returns w op utxos).
    by destruct (BitcoinWallet.fulfill_peg_out w op utxos). }
  intros [tx prevouts]. generalize tx at 2. generalize (seq 0 (length (input tx))).
  induction l as [|k l IH]; intros tx'; simpl; [apply ends_ret|].
  apply ends_bind; [apply ends_sign_input|intros tx2; apply IH].
Qed.

Lemma ends_try_broadcast {T : Type} {BS : BuildStacksTransaction T} (fuel : nat) (op : T) :
  (forall w k, build_transaction op w k <> Diverge) -> ends fuel (try_broadcast_transaction op).
Proof.
  intros Hbuild s s' r _ Hr.
  apply (try_broadcast_transaction_returns op) in Hr as (H1 & Hf & _); [|done|done].
  apply only_fee_and_node_rest in Hf as (_ & _ & Hfc & _). split; [done|].
  intros a _. by rewrite Hfc.
Qed.

Lemma ends_handle (fuel : nat) (o : SbtcOp) : ends fuel (handle fuel o).
Proof.
  destruct o as [op|op]; simpl.
  - apply ends_try_broadcast, build_peg_in_returns.
  - apply ends_bind; [apply ends_fulfill_peg_out|intros tx].
    apply ends_bind; [apply ends_try_broadcast, build_peg_out_returns|intros _].
    apply ends_bind; [apply ends_on_bitcoin; intros n; apply btc_broadcast_returns|].
    intros _. apply ends_ret.
Qed.

(** C14: the queue is worked off.  With one round more than it has waiting rows,
    [process_queue] comes to an end on every well-formed queue.  Rows are only
    moved from new to pending; success means that none is waiting any more, and a
    failure always consumes the operation that failed: its row stays pending and
    is not handed out again. *)
Theorem process_queue_works_off (rounds fuel : nat) s s' r
    (Hok : db_ok (local_peg_queue s)) (Hrounds : (new_count (local_peg_queue s) < rounds)%nat)
    (Hfuel : (left_over s < fuel)%nat) (Hrun : process_queue rounds fuel s = (s', r)) :
  r <> Diverge /\ db_ok (local_peg_queue s') /\ taken (local_peg_queue s) (local_peg_queue s') /\
  (r = Ok tt -> new_count (local_peg_queue s') = O) /\
  (r <> Ok tt -> (new_count (local_peg_queue s') < new_count (local_peg_queue s))%nat).
Proof.
  revert s Hok Hrounds Hfuel Hrun; induction rounds as [|rounds IH]; intros s Hok Hrounds Hfuel; [lia|].
  cbn [process_queue]. rewrite M_bind_eq. unfold on_queue at 1, zoom, with_err.
  destruct (sbtc_op_step (local_peg_queue s) Hok) as (db & o & Ho & Hok1 & Ht1 & Hc1). rewrite Ho.
  cbn [map_err].
  assert (local_peg_queue (set_local_peg_queue db s) = db /\
          frost_coordinator (set_local_peg_queue db s) = frost_coordinator s) as [Hq Hfr]
    by by destruct s.
  destruct o as [o|].
  - rewrite M_bind_eq. destruct (handle fuel o (set_local_peg_queue db s)) as [s1 r1] eqn:Hh.
    pose proof (handle_keeps_queue fuel o db (set_local_peg_queue db s) Hq) as Hq1.
    rewrite Hh in Hq1. simpl in Hq1.
    apply (ends_handle fuel o) in Hh as [Hd Hb]; [|by rewrite Hfr].
    assert (forall r', r' <> Diverge -> r' <> Ok tt -> (s1, r') = (s', r) ->
      r <> Diverge /\ db_ok (local_peg_queue s') /\ taken (local_peg_queue s) (local_peg_queue s') /\
      (r = Ok tt -> new_count (local_peg_queue s') = O) /\
      (r <> Ok tt -> (new_count (local_peg_queue s') < new_count (local_peg_queue s))%nat)) as Hstop.
    { intros r' H1 H2 [= <- <-]. rewrite Hq1. split_and!; [done..|]. intros _. lia. }
    destruct r1 as [[]|e| |]; try by apply Hstop. clear Hstop. intros Hr.
    specialize (Hb tt eq_refl). rewrite Hfr in Hb.
    apply IH in Hr as (H1 & H2 & H3 & H4 & H5); rewrite ?Hq1 in *; [|done|lia|lia].
    split_and!; [done|done|by eapply taken_trans|done|]. intros Hne%H5. lia.
  - intros [= <- <-]. destruct Hc1 as [Hc1 ->]. rewrite Hq. split_and!; [done|done|done|done|done].
Qed.
End ProcessQueue.
End Properties.

(** ** Executable instances *)
Module ToyCoordinator.
Import ToyCrypto ToyStacks ToyWallet ToyQueue ToyBitcoin ScriptNet.
#[export] Instance three_attempts : Backoff := 3%nat.

#[export] Instance toy_conversions : KeyConversions := {|
  taproot_key_spend_signature_hash _ index _ := Some [Z.of_nat index];
  proof_to_bytes p := [p];
  element_to_bytes x := [x];
  lift_x b := match b with [x] => Some x | _ => None end;
  stacks_pk_from_slice b := match b with [k] => Some k | _ => None end
|}.

(** A Bitcoin node with fixed unspent outputs that records what it is sent. *)
Record ToyBtcNode := { tb_utxos : list UTXO; tb_sent : list (Transaction (TY := toy_stacks)) }.
#[export] Instance toy_btc_node : BitcoinNode ToyBtcNode := {|
  btc_broadcast_transaction tx n :=
    ({| tb_utxos := tb_utxos n; tb_sent := tb_sent n ++ [tx] |}, Ok "paid");
  btc_load_wallet _ n := (n, Ok tt);
  btc_list_unspent _ n := (n, Ok (tb_utxos n))
|}.

#[export] Instance toy_node_returns : ReturningNode (N := ToyNode).
Proof. split; [done|]. intros tx n. simpl. by destruct (tn_refusals n) as [|[]]. Qed.
#[export] Instance toy_btc_returns : ReturningBitcoin (N := ToyBtcNode).
Proof. done. Qed.

Definition sign_twice : list (option Message) :=
  FrostCoordinatorWitness.sign_script ++ FrostCoordinatorWitness.sign_script.

(** The queue holds a peg-in and a peg-out request; the Stacks node refuses
    broadcasts as given. *)
Definition start (refusals : list (option StacksNodeError)) :
    StacksCoordinator (FN := Script) (SN := ToyNode) (BN := ToyBtcNode) := {|
  frost_coordinator :=
    FrostCoordinatorWitness.coordinator sign_twice
      {[1 := FrostCoordinatorWitness.share 1; 2 := FrostCoordinatorWitness.share 2;
        3 := FrostCoordinatorWitness.share 3]} 12;
  local_peg_queue := polled_db;
  local_stacks_node := node refusals;
  local_bitcoin_node := {| tb_utxos := [utxo "t2" 2 10; utxo "a" 0 90]; tb_sent := [] |};
  bitcoin_wallet := wallet;
  stacks_wallet := toy_wallet
|}.

Definition conflict : option StacksNodeError := Some (SNBroadcastError ConflictingNonceInMempool).
Definition too_low (f : Z) : option StacksNodeError := Some (SNBroadcastError (FeeTooLow f 1)).
End ToyCoordinator.

Module StacksCoordinatorWitness.
Import ToyCrypto ToyStacks ToyWallet ToyQueue ToyBitcoin ScriptNet ToyCoordinator.

(** Two conflicts and one low fee: the fourth attempt is accepted, with the new
    fee and the next nonce. *)
Example peg_in_retries :
  tn_sent (local_stacks_node (peg_in op_in (start [conflict; too_low 180; conflict])).1)
  = [[100; 180; 9]].
Proof. run. Qed.

Definition calls (n : ToyNode) : Z := - Z.of_nat (length (tn_refusals n)).
Definition retried := peg_in op_in (start [conflict; too_low 180; conflict]).

Lemma peg_in_bounded_witness : retried.2 <> Diverge /\ accepted op_in retried.1.
Proof.
  assert (retried = (retried.1, Ok tt)) as Hrun by run.
  destruct (peg_in_bounded (TY := toy_stacks) calls op_in (start [conflict; too_low 180; conflict]) retried.1 (Ok tt))
    as (H1 & _ & _ & H2).
  - intros tx n. unfold calls. simpl. destruct (tn_refusals n) as [|[]]; simpl; lia.
  - intros a n. unfold calls. simpl. lia.
  - exact toy_node_returns.
  - exact Hrun.
  - split; [rewrite Hrun; exact H1|exact (H2 eq_refl)].
Defined.

Definition fulfilled := fulfill_peg_out (TY := toy_stacks) 20 op_out (start []).
Definition fulfilled_tx : Transaction :=
  match fulfilled.2 with
  | Ok tx => tx
  | _ => {| version := 0; lock_time := 0; input := []; output := [] |}
  end.

Lemma fulfill_peg_out_signed_witness :
  exists unsigned prevouts,
    signed_upto (WA := toy_aggregator) (KC := toy_conversions) 12 unsigned prevouts 2 fulfilled_tx.
Proof.
  destruct (fulfill_peg_out_signed (TY := toy_stacks) 20 op_out (start []) fulfilled.1 fulfilled_tx)
    as (n & utxos & unsigned & prevouts & Hl & Hw & Hs & _).
  - run.
  - injection Hl as <- <-. exists unsigned, prevouts.
    assert (length (input unsigned) = 2%nat) as <-; [|exact Hs].
    assert (BitcoinWallet.fulfill_peg_out wallet op_out [utxo "t2" 2 10; utxo "a" 0 90]
            = Ok (unsigned, prevouts)) as H2 by exact Hw.
    vm_compute in H2. injection H2 as <- <-. reflexivity.
Defined.

Definition unpaid (n : ToyBtcNode) : Prop := tb_sent n = [].
Lemma unpaid_list (a : BtcAddress) (n : ToyBtcNode) : unpaid n -> unpaid (btc_list_unspent (BT := toy_bitcoin) a n).1.
Proof. exact (fun H => H). Qed.
Definition paid := peg_out 20 op_out (start [conflict]).

Lemma peg_out_burns_first_witness : paid.2 = Ok tt /\ accepted op_out paid.1.
Proof.
  assert (paid = (paid.1, Ok tt)) as Hrun by run.
  destruct (peg_out_burns_first (TY := toy_stacks) (BN := ToyBtcNode) unpaid unpaid_list 20 op_out (start [conflict])
              paid.1 (Ok tt) eq_refl Hrun) as (_ & _ & Hok).
  split; [rewrite Hrun; reflexivity|exact (proj1 (Hok eq_refl))].
Defined.

(** The peg-in is refused for good: its row stays pending. *)
Definition worked := process_queue 3 20 (start [Some SNTimeout]).
Lemma process_queue_works_off_witness :
  worked.2 <> Diverge /\ (new_count (local_peg_queue worked.1) < 2)%nat.
Proof.
  assert (worked = (worked.1, Err (SCStacksNodeError SNTimeout))) as Hrun by run.
  destruct (process_queue_works_off 3 20 (start [Some SNTimeout]) worked.1
              (Err (SCStacksNodeError SNTimeout))) as (H1 & _ & _ & _ & H2).
  - exact PegQueueWitness.polled_ok.
  - apply Nat.ltb_lt. run.
  - apply Nat.ltb_lt. run.
  - exact Hrun.
  - split; [rewrite Hrun; exact H1|]. assert (new_count polled_db = 2%nat) as <- by run.
    apply H2. discriminate.
Defined.
End StacksCoordinatorWitness.
