(* ===== verification/CoordinatorConfig.v ===== *)
(** * [stacks-coordinator/src/config.rs, cli.rs]: coordinator configuration

    The TOML reader and the parsers of addresses, keys and URLs are external
    ([CoordinatorParsers]); splitting the contract identifier, the choice of the
    network and the checks are the source's own. *)
From Stdlib Require Import Ascii String.
From S2P Require Import Prelude Crypto FrostConfig Net StacksNode BitcoinNode StacksWallet.

Inductive Network := NetMainnet | NetTestnet.

Record SCRawConfig := {
  raw_sbtc_contract : string;
  raw_stacks_private_key : string;
  raw_stacks_node_rpc_url : string;
  raw_bitcoin_node_rpc_url : string;
  raw_frost_dkg_round_id : Z;
  raw_signer_config_path : option string;
  raw_start_block_height : option Z;
  raw_data_directory : option string;
  raw_network : option Network;
  raw_transaction_fee : Z;
  raw_http_relay_url : option string;
  raw_frost_state_file : option string;
  raw_network_private_key : option string;
  raw_polling_interval : option Z
}.

Class CoordinatorParsers `{CP : P256k1, TL : StacksTxLib, BT : !BitcoinTypes, JS : Json,
    RC : !RpcClient, BR : !BitcoinRpc} := {
  address_from_string : string -> option StacksAddress;
  contract_name_try_from : string -> option string;
  private_key_from_hex : string -> option StacksPrivateKey;
  (* StacksAddress::from_public_keys(version, SerializeP2PKH, 1, keys) *)
  address_from_public_keys : Z -> list StacksPublicKey -> option StacksAddress;
  url_parse : string -> option Url;
  btc_url_parse : string -> option BtcUrl;
  network_bitcoin : BtcNetwork;
  network_testnet : BtcNetwork;
  sc_read_to_string : string -> option string;
  sc_toml_from_str : string -> option SCRawConfig
}.

(** [config::Error] *)
Inductive SCConfigErr :=
  | SCIOError
  | SCTomlError
  | InvalidConfig (what : string)
  | InvalidContract (what : string)
  | SCInvalidPrivateKey (what : string).

Section Config.
Context {CP : P256k1} {TY : StacksTypes} {TL : StacksTxLib} {BT : BitcoinTypes} {JS : Json}
  {RC : RpcClient} {BR : BitcoinRpc} {SP : CoordinatorParsers}.

Definition parse_contract (rc : SCRawConfig) : res SCConfigErr (string * StacksAddress) :=
  let '(contract_address, rest) := split_on "."%char (raw_sbtc_contract rc) in
  contract_name ← ok_or (head rest) (InvalidContract "Missing name.");
  contract_address ← ok_or (address_from_string contract_address)
                       (InvalidContract "Bad contract address.");
  contract_name ← ok_or (contract_name_try_from contract_name) (InvalidContract "Bad contract name");
  mret (contract_name, contract_address).

Definition parse_version (rc : SCRawConfig) : TransactionVersion * BtcNetwork :=
  match default NetMainnet (raw_network rc) with
  | NetMainnet => (Mainnet, network_bitcoin)
  | NetTestnet => (Testnet, network_testnet)
  end.

Definition parse_stacks_private_key (rc : SCRawConfig)
    : res SCConfigErr (StacksPrivateKey * StacksAddress) :=
  sender_key ← ok_or (private_key_from_hex (raw_stacks_private_key rc)) (SCInvalidPrivateKey "hex");
  let pk := stacks_pk_from_private sender_key in
  address ← ok_or (address_from_public_keys (address_version (parse_version rc).1) [pk])
    (SCInvalidPrivateKey "Failed to generate stacks address from private key.");
  mret (sender_key, address).

Record SCConfig := {
  scc_contract_name : string;
  scc_contract_address : StacksAddress;
  scc_stacks_private_key : StacksPrivateKey;
  scc_stacks_address : StacksAddress;
  scc_stacks_node_rpc_url : Url;
  scc_bitcoin_node_rpc_url : BtcUrl;
  scc_frost_dkg_round_id : Z;
  scc_signer_config_path : option string;
  scc_start_block_height : option Z;
  scc_data_directory : option string;
  scc_bitcoin_network : BtcNetwork;
  scc_stacks_version : TransactionVersion;
  scc_transaction_fee : Z;
  scc_http_relay_url : option string;
  scc_network_private_key : option string;
  scc_polling_interval : Z
}.

Definition DEFAULT_POLLING_INTERVAL : Z := 5.

(** The options that are needed when there is no signer configuration. *)
Definition check_signer_options (rc : SCRawConfig) : res SCConfigErr unit :=
  match raw_signer_config_path rc with
  | Some _ => mret tt
  | None =>
      match raw_http_relay_url rc, raw_frost_state_file rc, raw_network_private_key rc with
      | None, _, _ => Err (InvalidConfig "Must specify http_relay_url when no signer_config_path specified.")
      | _, None, _ => Err (InvalidConfig "Must specify frost_state_file when no signer_config_path specified.")
      | _, _, None => Err (InvalidConfig "Must specify network_private_key when no signer config_path specified.")
      | Some _, Some _, Some _ => mret tt
      end
  end.

Definition SCConfig_try_from (rc : SCRawConfig) : res SCConfigErr SCConfig :=
  check_signer_options rc ;;
  '(contract_name, contract_address) ← parse_contract rc;
  let '(stacks_version, bitcoin_network) := parse_version rc in
  '(stacks_private_key, stacks_address) ← parse_stacks_private_key rc;
  stacks_url ← ok_or (url_parse (raw_stacks_node_rpc_url rc)) (InvalidConfig "Invalid stacks_node_rpc_url");
  bitcoin_url ← ok_or (btc_url_parse (raw_bitcoin_node_rpc_url rc)) (InvalidConfig "Invalid bitcoin_node_rpc_url");
  mret {| scc_contract_name := contract_name;
          scc_contract_address := contract_address;
          scc_stacks_private_key := stacks_private_key;
          scc_stacks_address := stacks_address;
          scc_stacks_node_rpc_url := stacks_url;
          scc_bitcoin_node_rpc_url := bitcoin_url;
          scc_frost_dkg_round_id := raw_frost_dkg_round_id rc;
          scc_signer_config_path := raw_signer_config_path rc;
          scc_start_block_height := raw_start_block_height rc;
          scc_data_directory := raw_data_directory rc;
          scc_bitcoin_network := bitcoin_network;
          scc_stacks_version := stacks_version;
          scc_transaction_fee := raw_transaction_fee rc;
          scc_http_relay_url := raw_http_relay_url rc;
          scc_network_private_key := raw_network_private_key rc;
          scc_polling_interval := default DEFAULT_POLLING_INTERVAL (raw_polling_interval rc) |}.

Definition SCConfig_from_path (path : string) : res SCConfigErr SCConfig :=
  content ← ok_or (sc_read_to_string path) SCIOError;
  raw_config ← ok_or (sc_toml_from_str content) SCTomlError;
  SCConfig_try_from raw_config.

(** ** Properties *)
Lemma append_empty (n : string) : (n +:+ "") = n.
Proof. induction n as [|c n IH]; [done|]. by rewrite <-IH at 2. Qed.

(** a contract identifier [ADDRESS.NAME] is read back as its two parts, and
    so is one followed by further dot-separated components: whatever comes after
    a second dot is ignored. *)
Theorem contract_identifier (rc : SCRawConfig) (a n : string) (address : StacksAddress) (name : string)
    (Ha : "."%char ∉ list_ascii_of_string a) (Hn : "."%char ∉ list_ascii_of_string n)
    (Haddr : address_from_string a = Some address) (Hname : contract_name_try_from n = Some name)
    (more : option string)
    (Hrc : raw_sbtc_contract rc =
       (a +:+ String "."%char (n +:+ match more with Some m => String "."%char m | None => "" end))) :
  parse_contract rc = Ok (name, address).
Proof.
  unfold parse_contract. rewrite Hrc, split_on_sep by done.
  assert (exists l, split_on "."%char (n +:+ match more with Some m => String "."%char m | None => "" end) = (n, l))
    as [l ->].
  { destruct more as [m|].
    - rewrite split_on_sep by done. by eexists.
    - exists []. rewrite append_empty. by apply split_on_no_sep. }
  simpl. rewrite Haddr. simpl. by rewrite Hname.
Qed.

(** What stands before the first separator, and after it. *)
Lemma split_on_inv (sep : ascii) (s a : string) (l : list string) : split_on sep s = (a, l) ->
  (sep ∉ list_ascii_of_string a) /\
  match l with
  | [] => s = a
  | x :: l => exists rest, s = (a +:+ String sep rest) /\ split_on sep rest = (x, l)
  end.
Proof.
  revert a l. induction s as [|c s IH]; simpl; intros a l.
  - intros [= <- <-]. split; [apply not_elem_of_nil|done].
  - destruct (split_on sep s) as [first rest] eqn:Hs. destruct (Ascii.eqb_spec c sep) as [->|Hne]; intros [= <- <-].
    + split; [apply not_elem_of_nil|]. by exists s.
    + destruct (IH first rest eq_refl) as [Hf Hr]. split.
      * simpl. apply not_elem_of_cons. by split; [intros ->|].
      * destruct rest as [|x l]; [by subst|]. destruct Hr as (r & -> & Hr). by exists r.
Qed.

(** The contract identifier: an address, a dot, a name, and nothing or a dot and
    anything. *)
Definition names_contract (rc : SCRawConfig) (name : string) (address : StacksAddress) : Prop :=
  exists a n more, raw_sbtc_contract rc =
      (a +:+ String "."%char (n +:+ match more with Some m => String "."%char m | None => "" end)) /\
    ("."%char ∉ list_ascii_of_string a) /\ ("."%char ∉ list_ascii_of_string n) /\
    address_from_string a = Some address /\ contract_name_try_from n = Some name.

Lemma parse_contract_spec (rc : SCRawConfig) (name : string) (address : StacksAddress) :
  parse_contract rc = Ok (name, address) <-> names_contract rc name address.
Proof.
  split.
  - unfold parse_contract. destruct (split_on _ _) as [a l] eqn:Hs. apply split_on_inv in Hs as [Ha Hl].
    destruct l as [|n l]; [done|]. destruct Hl as (rest & Hs & Hrest). simpl.
    intros (addr & Haddr%ok_or_Ok_inv & (nm & Hnm%ok_or_Ok_inv & [= <- <-])%res_bind_Ok_inv)%res_bind_Ok_inv.
    apply split_on_inv in Hrest as [Hn Hm]. exists a, n. destruct l as [|m l].
    + exists None. subst rest. rewrite append_empty. by split_and!.
    + destruct Hm as (m' & -> & _). exists (Some m'). by split_and!.
  - intros (a & n & more & Hs & Ha & Hn & Haddr & Hname). exact (contract_identifier rc a n address name Ha Hn Haddr Hname more Hs).
Qed.

(** The signer options: a signer configuration, or what stands in for one. *)
Definition signer_options (rc : SCRawConfig) : Prop :=
  is_Some (raw_signer_config_path rc) \/
  is_Some (raw_http_relay_url rc) /\ is_Some (raw_frost_state_file rc) /\ is_Some (raw_network_private_key rc).

Lemma check_signer_options_spec (rc : SCRawConfig) : check_signer_options rc = Ok tt <-> signer_options rc.
Proof.
  unfold check_signer_options, signer_options. destruct (raw_signer_config_path rc); [split; [left; by eexists|done]|].
  destruct (raw_http_relay_url rc), (raw_frost_state_file rc), (raw_network_private_key rc); split; intros H;
    try done; try (right; split_and!; by eexists); destruct H as [[? H]|([? H1] & [? H2] & [? H3])]; done.
Qed.

(** The networks a configuration is for: mainnet unless it says otherwise. *)
Definition networks_of (rc : SCRawConfig) : TransactionVersion * BtcNetwork :=
  match raw_network rc with
  | Some NetTestnet => (Testnet, network_testnet)
  | _ => (Mainnet, network_bitcoin)
  end.

(** What [cfg] has of [rc]. *)
Record config_of (rc : SCRawConfig) (cfg : SCConfig) : Prop := {
  co_signer : signer_options rc;
  co_contract : names_contract rc (scc_contract_name cfg) (scc_contract_address cfg);
  co_networks : (scc_stacks_version cfg, scc_bitcoin_network cfg) = networks_of rc;
  co_key : private_key_from_hex (raw_stacks_private_key rc) = Some (scc_stacks_private_key cfg);
  co_address : address_from_public_keys (address_version (networks_of rc).1)
    [stacks_pk_from_private (scc_stacks_private_key cfg)] = Some (scc_stacks_address cfg);
  co_stacks_url : url_parse (raw_stacks_node_rpc_url rc) = Some (scc_stacks_node_rpc_url cfg);
  co_bitcoin_url : btc_url_parse (raw_bitcoin_node_rpc_url rc) = Some (scc_bitcoin_node_rpc_url cfg);
  co_numbers : scc_frost_dkg_round_id cfg = raw_frost_dkg_round_id rc /\
    scc_start_block_height cfg = raw_start_block_height rc /\ scc_transaction_fee cfg = raw_transaction_fee rc /\
    scc_polling_interval cfg = match raw_polling_interval rc with Some n => n | None => 5 end;
  co_options : scc_signer_config_path cfg = raw_signer_config_path rc /\
    scc_data_directory cfg = raw_data_directory rc /\ scc_http_relay_url cfg = raw_http_relay_url rc /\
    scc_network_private_key cfg = raw_network_private_key rc
}.

Lemma parse_version_spec (rc : SCRawConfig) : parse_version rc = networks_of rc.
Proof. unfold parse_version, networks_of. by destruct (raw_network rc) as [[]|]. Qed.

(** C39: when a coordinator configuration is accepted, and what is made of it.  A raw
    configuration is accepted as [cfg] exactly when it names a signer configuration
    or gives the relay, the state file and the network key itself; its contract is
    an address and a name that parse to those of [cfg]; the networks of [cfg] are
    both the test networks if it says so and both the main networks otherwise; its
    key parses to that of [cfg], whose address is the one of the key on that
    network; the URLs parse to those of [cfg]; and the other fields are taken over,
    with 5 seconds between polls if nothing is said. *)
Theorem accepted_config (rc : SCRawConfig) (cfg : SCConfig) : SCConfig_try_from rc = Ok cfg <-> config_of rc cfg.
Proof.
  unfold SCConfig_try_from. split.
  - intros ([] & Hc & ([name addr] & Hn & Hr)%res_bind_Ok_inv)%res_bind_Ok_inv.
    rewrite parse_version_spec in Hr. destruct (networks_of rc) as [v net] eqn:Hv.
    apply res_bind_Ok_inv in Hr as ([key address] & Hk & (u1 & Hu1%ok_or_Ok_inv & (u2 & Hu2%ok_or_Ok_inv & [= <-])%res_bind_Ok_inv)%res_bind_Ok_inv).
    unfold parse_stacks_private_key in Hk. rewrite parse_version_spec, Hv in Hk.
    apply res_bind_Ok_inv in Hk as (k & Hkey%ok_or_Ok_inv & (a & Ha%ok_or_Ok_inv & [= <- <-])%res_bind_Ok_inv).
    split; simpl; rewrite ?Hv; try done.
    + by apply check_signer_options_spec.
    + by apply parse_contract_spec.
  - intros [Hs%check_signer_options_spec Hc%parse_contract_spec Hn Hk Ha Hu1 Hu2 (E1 & E2 & E3 & E4) (E5 & E6 & E7 & E8)].
    rewrite Hs. cbn [mbind res_bind]. rewrite Hc. cbn [mbind res_bind].
    unfold parse_stacks_private_key. rewrite parse_version_spec, Hk. cbn [ok_or mbind res_bind]. rewrite Ha.
    rewrite <-Hn. cbn [ok_or mbind res_bind]. simpl mret. cbn [mbind res_bind]. rewrite Hu1, Hu2. simpl.
    unfold mret, res_ret. f_equal. destruct cfg. simpl in *. by subst.
Qed.
End Config.
