(* ===== verification/CoordinatorStart.v ===== *)
(** * Starting the peg coordinator

    [stacks-coordinator/src/coordinator.rs] from [create_frost_coordinator] to
    [TryFrom<&Config>], [frost-coordinator/src/lib.rs] and
    [stacks-coordinator/src/main.rs].  Files are a finite map from paths to
    contents, SQLite databases a finite map from paths to their tables. *)
From S2P Require Import Prelude Crypto FrostConfig Messages Net FrostCoordinator StacksNode PegQueue BitcoinNode BitcoinWallet StacksWallet StacksCoordinator CoordinatorConfig.

Abbreviation Files := (gmap string bytes).

(** [Path::join] of a relative path. *)
Definition path_join (path name : string) : string :=
  if bool_decide (path = "") then name
  else if String.eqb (String.substring (String.length path - 1) 1 path) "/" then path +:+ name
  else path +:+ "/" +:+ name.

(** [File::options().create(true).write(true)] and one [write]: the file is not
    truncated, the bytes after the written ones stay. *)
Definition overwrite (content : bytes) (old : option bytes) : bytes :=
  content ++ drop (length content) (default [] old).

(** Paths that can be created or written. *)
Class FileSystem := can_write : string -> bool.

Section Shares.
Context {CP : P256k1} {WP : Wsts} {SJ : SharesJson} {FS : FileSystem}.

Inductive FileError := CannotOpen | CannotParse | CannotWrite.

Definition read_dkg_public_shares (path : string) : M Files FileError (gmap Z DkgPublicShare) :=
  files ← get_st;
  content ← lift (ok_or (files !! path_join path "dkg_public_shares.json") CannotOpen);
  lift (ok_or (shares_from_json content) CannotParse).

Definition write_dkg_public_shares (path : string) (shares : gmap Z DkgPublicShare)
    : M Files FileError unit :=
  let file := path_join path "dkg_public_shares.json" in
  if can_write file then
    modify (fun fs => <[file := default [] (fs !! file)]> fs) ;;
    content ← lift (ok_or (shares_to_json shares) CannotWrite);
    modify (fun fs => <[file := overwrite content (fs !! file)]> fs)
  else throw CannotOpen.

(** public shares survive a restart, unless the file shrinks.  What is
    written is what is read back when the file was missing or not longer than the
    new content; otherwise the file ends with the tail of its old content, and
    reading succeeds only if the JSON reader accepts that. *)
Theorem dkg_shares_roundtrip (path : string) (shares : gmap Z DkgPublicShare) (fs fs' : Files)
    (json : bytes) (Hjson : shares_to_json shares = Some json)
    (Hread : shares_from_json json = Some shares)
    (Hwrite : write_dkg_public_shares path shares fs = (fs', Ok tt)) :
  let old := default [] (fs !! path_join path "dkg_public_shares.json") in
  read_dkg_public_shares path fs' =
    (fs', if decide (length old <= length json)%nat then Ok shares
          else ok_or (shares_from_json (json ++ drop (length json) old)) CannotParse).
Proof.
  unfold write_dkg_public_shares in Hwrite. destruct (can_write _); [|done].
  apply M_bind_Ok_inv in Hwrite as (fs1 & [] & [= <-] & Hw).
  apply M_bind_Ok_inv in Hw as (fs2 & content & [= <- Hc%ok_or_Ok_inv] & [= <-]).
  rewrite Hjson in Hc. injection Hc as <-. rewrite lookup_insert_eq, insert_insert_eq. cbn zeta.
  unfold read_dkg_public_shares. rewrite M_bind_eq. unfold get_st. rewrite M_bind_eq. unfold lift at 1.
  rewrite lookup_insert_eq. cbn [ok_or]. unfold lift, overwrite. cbn [default].
  case_decide as Hlen; [|done]. rewrite drop_ge by done. rewrite app_nil_r, Hread. done.
Qed.
End Shares.

(** ** Creating the FROST coordinator *)
Definition DEVNET_COORDINATOR_ID : Z := 0.

Section Start.
Context {CP : P256k1} {WP : Wsts} {WA : WstsAggregator} {PP : ConfigParsers} {HC : HttpClient}
  {TY : StacksTypes} {TL : StacksTxLib} {TS : TxSigner} {BT : BitcoinTypes} {KC : KeyConversions}
  {JS : Json} {RC : RpcClient} {BR : BitcoinRpc} {SP : CoordinatorParsers}
  {OJ : OpJson} {SJ : SharesJson} {FS : FileSystem} {BP : BuildProfile} {BO : Backoff}.

Abbreviation FN := (HttpNetListen * World)%type.
Abbreviation FrostCoord := (Coordinator (N := FN)).
Abbreviation StartErr := (SCError (FN := FN)).

(** [frost_coordinator::create_coordinator]: it listens on the relay of the
    configuration; [w] is the network it runs on. *)
Definition create_coordinator {E : Type} (config : Config) (w : World) : res E FrostCoord :=
  Coordinator_new DEVNET_COORDINATOR_ID config
    (HttpNetListen_new (HttpNet_new (cfg_http_relay_url config)) [], w).

Definition create_coordinator_from_path (path : string) (w : World) : res ConfigError FrostCoord :=
  config ← Config_from_path path;
  create_coordinator config w.

Section Generic.
Context {SN : Type} {STN : StacksNode SN}.
Abbreviation Node := (M SN StartErr).
Definition at_node {A : Type} (m : M SN StacksNodeError A) : Node A := with_err SCStacksNodeError m.
Definition of_wallet {A : Type} (r : res StacksWalletError A) : res StartErr A :=
  map_err (fun e => SCPegWalletError (PWStacksWalletError e)) r.

Definition create_frost_coordinator_from_path (signer_config_path : string) (config : SCConfig)
    (w : World) (stacks_wallet : StacksWallet) : Node FrostCoord :=
  coordinator ← lift (map_err (fun _ => SCConfigError "Invalid signer_config_path")
                        (create_coordinator_from_path signer_config_path w));
  data ← at_node (node_coordinator_public_key (scc_stacks_address config));
  let coordinator_data_loaded :=
    match data with
    | Some public_key =>
        bool_decide (pk_to_bytes public_key = pk_to_bytes (FrostCoordinator.public_key coordinator))
    | None => false
    end in
  if coordinator_data_loaded then mret coordinator
  else
    nonce ← at_node (next_nonce (scc_stacks_address config));
    coordinator_public_key ← lift (ok_or
      (stacks_pk_from_slice (pk_to_bytes (FrostCoordinator.public_key coordinator))) SCInvalidPublicKey);
    coordinator_tx ← lift (of_wallet (build_set_coordinator_data_transaction stacks_wallet
                             (scc_stacks_address config) coordinator_public_key nonce));
    at_node (broadcast_transaction coordinator_tx) ;;
    mret coordinator.

Definition create_frost_coordinator_from_contract (config : SCConfig) (w : World) : Node FrostCoord :=
  keys_threshold ← at_node (keys_threshold (scc_stacks_address config));
  data ← at_node (node_coordinator_public_key (scc_stacks_address config));
  coordinator_public_key ← lift (ok_or data SCNoCoordinator);
  public_keys ← at_node (node_public_keys (scc_stacks_address config));
  signer_key_ids ← at_node (node_signer_key_ids (scc_stacks_address config));
  network_private_key ← lift (ok_or
    (scalar_try_from (as_bytes (default "" (scc_network_private_key config))))
    (SCConfigError "Invalid network_private_key."));
  let http_relay_url := default "" (scc_http_relay_url config) in
  keys_threshold ← lift (u32_try_from keys_threshold);
  signer_config ← lift (Config_new keys_threshold coordinator_public_key public_keys signer_key_ids
                          network_private_key http_relay_url);
  lift (create_coordinator signer_config w).

Definition create_frost_coordinator (config : SCConfig) (w : World) (stacks_wallet : StacksWallet)
    : Node FrostCoord :=
  match scc_signer_config_path config with
  | Some path => create_frost_coordinator_from_path path config w stacks_wallet
  | None => create_frost_coordinator_from_contract config w
  end.
End Generic.

(** ** The wallet key *)
Section LoadDkg.
Context {N : Type} {NL : NetListen N} {SN : Type} {STN : StacksNode SN}.

(** The mutable parts that [load_dkg_data] is given, and the file system. *)
Record LoadState := mkLoad {
  ld_frost : Coordinator (N := N);
  ld_node : SN;
  ld_files : Files
}.
Abbreviation LM := (M LoadState (SCError (FN := N))).

Definition ld_on_frost {A : Type} (m : M (Coordinator (N := N)) CoordinatorError A) : LM A :=
  zoom ld_frost (fun c s => mkLoad c (ld_node s) (ld_files s)) (with_err SCFrostCoordinatorError m).
Definition ld_on_node {A : Type} (m : M SN StacksNodeError A) : LM A :=
  zoom ld_node (fun n s => mkLoad (ld_frost s) n (ld_files s)) (with_err SCStacksNodeError m).
Definition ld_on_files {A : Type} (m : M Files FileError A) : LM A :=
  zoom ld_files (fun f s => mkLoad (ld_frost s) (ld_node s) f)
    (with_err (fun _ => SCConfigError "DKG public shares file") m).

Definition load_dkg_data (fuel : nat) (data_directory : option string) (stacks_wallet : StacksWallet)
    (address : StacksAddress) : LM XOnlyPublicKey :=
  stored ← ld_on_node (node_bitcoin_wallet_public_key address);
  match stored with
  | Some xonly_pubkey =>
      match data_directory with
      | Some dir =>
          shares ← ld_on_files (read_dkg_public_shares dir);
          ld_on_frost (modify (FrostCoordinator.set_dkg_public_shares shares))
      | None => mret tt
      end ;;
      point ← lift (ok_or (lift_x (xonly_serialize xonly_pubkey)) SCPointError);
      ld_on_frost (modify (FrostCoordinator.set_aggregate_public_key point)) ;;
      mret xonly_pubkey
  | None =>
      point ← ld_on_frost (run_distributed_key_generation fuel);
      match data_directory with
      | Some dir =>
          s ← get_st;
          ld_on_files (write_dkg_public_shares dir (dkg_public_shares (ld_frost s)))
      | None => mret tt
      end ;;
      xonly_pubkey ← lift (ok_or (xonly_from_slice (element_to_bytes (point_x point))) SCInvalidPublicKey);
      nonce ← ld_on_node (next_nonce address);
      tx ← lift (map_err (fun e => SCPegWalletError (PWStacksWalletError e))
             (build_set_bitcoin_wallet_public_key_transaction stacks_wallet xonly_pubkey nonce));
      ld_on_node (broadcast_transaction tx) ;;
      mret xonly_pubkey
  end.
End LoadDkg.

(** ** [TryFrom<&Config> for StacksCoordinator] *)
Abbreviation NC := (NodeClient * RpcWorld)%type.
Abbreviation LB := (LocalhostBitcoinNode * BtcWorld)%type.
Abbreviation PegCoordinator := (StacksCoordinator (FN := FN) (SN := NC) (BN := LB)).

(** The machine the program runs on. *)
Record Machine := mkMachine {
  m_files : Files;
  m_databases : gmap string Db;
  m_rpc : RpcWorld;
  m_btc : BtcWorld;
  m_http : World
}.

Definition empty_queue : Db := {| sbtc_ops := ∅; metadata := None |}.

(** [SqlitePegQueue::new] and [in_memory] *)
Definition open_queue (databases : gmap string Db) (path : option string) : Db :=
  match path with
  | Some path => default empty_queue (databases !! path)
  | None => empty_queue
  end.

Definition make_stacks_wallet (config : SCConfig) : StacksWallet :=
  StacksWallet_new (scc_contract_name config) (scc_contract_address config)
    (scc_stacks_private_key config) (scc_stacks_address config) (scc_stacks_version config)
    (scc_transaction_fee config).

(** The parts, one after the other; the state is that of the Stacks node client,
    the files and the Bitcoin node client. *)
Definition StacksCoordinator_try_from (fuel : nat) (config : SCConfig) (m : Machine)
    : res StartErr PegCoordinator :=
  let local_stacks_node :=
    (NodeClient_new (scc_stacks_node_rpc_url config) (scc_contract_name config)
       (scc_contract_address config), m_rpc m) in
  let stacks_wallet := make_stacks_wallet config in
  match create_frost_coordinator config (m_http m) stacks_wallet local_stacks_node with
  | (local_stacks_node, Ok frost_coordinator) =>
      match load_dkg_data fuel (scc_data_directory config) stacks_wallet (scc_stacks_address config)
              (mkLoad frost_coordinator local_stacks_node (m_files m)) with
      | (loaded, Ok xonly_pubkey) =>
          let bitcoin_wallet := BitcoinWallet_new xonly_pubkey (scc_bitcoin_network config) in
          match load_wallet (wallet_address bitcoin_wallet)
                  (LocalhostBitcoinNode_new (scc_bitcoin_node_rpc_url config), m_btc m) with
          | (local_bitcoin_node, Ok _) =>
              match client_burn_block_height (ld_node loaded) with
              | (local_stacks_node, Ok current_block_height) =>
                  let db_path := (fun path => path_join path "peg_queue.sqlite") <$>
                                   scc_data_directory config in
                  match from_connection (scc_start_block_height config) current_block_height
                          (open_queue (m_databases m) db_path) with
                  | (local_peg_queue, Ok _) =>
                      Ok {| frost_coordinator := ld_frost loaded; local_peg_queue := local_peg_queue;
                            local_stacks_node := local_stacks_node;
                            local_bitcoin_node := local_bitcoin_node;
                            bitcoin_wallet := bitcoin_wallet; stacks_wallet := stacks_wallet |}
                  | (_, Err e) => Err (SCSqlitePegQueueError e)
                  | (_, Panic) => Panic
                  | (_, Diverge) => Diverge
                  end
              | (_, Err e) => Err (SCStacksNodeError e)
              | (_, Panic) => Panic
              | (_, Diverge) => Diverge
              end
          | (_, Err e) => Err (SCBitcoinNodeError e)
          | (_, Panic) => Panic
          | (_, Diverge) => Diverge
          end
      | (_, Err e) => Err e
      | (_, Panic) => Panic
      | (_, Diverge) => Diverge
      end
  | (_, Err e) => Err e
  | (_, Panic) => Panic
  | (_, Diverge) => Diverge
  end.

(** ** [main] *)
Inductive CliCommand := CliRun | CliDkg | CliDkgSign.
Record Cli := {
  cli_config : string;
  cli_start_block_height : option Z;
  cli_signer_config : string;
  cli_command : CliCommand
}.

(** What the program ends with: it returns from [main] or panics; the
    coordinator is the one it ran, if there was one. *)
Inductive Exit := Returned (c : option PegCoordinator) | Panicked | StillRunning.

Definition exit_of {A : Type} (r : PegCoordinator * res StartErr A) : Exit :=
  match r with
  | (c, Ok _) | (c, Err _) => Returned (Some c)
  | (_, Panic) => Panicked
  | (_, Diverge) => StillRunning
  end.

(** The command line's values replace those of the configuration file. *)
Definition cli_override (cli : Cli) (config : SCConfig) : SCConfig :=
  {| scc_contract_name := scc_contract_name config;
     scc_contract_address := scc_contract_address config;
     scc_stacks_private_key := scc_stacks_private_key config;
     scc_stacks_address := scc_stacks_address config;
     scc_stacks_node_rpc_url := scc_stacks_node_rpc_url config;
     scc_bitcoin_node_rpc_url := scc_bitcoin_node_rpc_url config;
     scc_frost_dkg_round_id := scc_frost_dkg_round_id config;
     scc_signer_config_path := Some (cli_signer_config cli);
     scc_start_block_height := cli_start_block_height cli;
     scc_data_directory := scc_data_directory config;
     scc_bitcoin_network := scc_bitcoin_network config;
     scc_stacks_version := scc_stacks_version config;
     scc_transaction_fee := scc_transaction_fee config;
     scc_http_relay_url := scc_http_relay_url config;
     scc_network_private_key := scc_network_private_key config;
     scc_polling_interval := scc_polling_interval config |}.

Definition main (polls fuel : nat) (cli : Cli) (m : Machine) : Exit :=
  match SCConfig_from_path (cli_config cli) with
  | Ok config =>
      if bool_decide (cli_start_block_height cli = Some 0) then Returned None
      else
        match StacksCoordinator_try_from fuel (cli_override cli config) m with
        | Ok coordinator =>
            match cli_command cli with
            | CliRun => exit_of (run polls fuel coordinator)
            | CliDkg => exit_of (run_dkg_round fuel coordinator)
            | CliDkgSign =>
                match run_dkg_round fuel coordinator with
                | (coordinator, Ok _) | (coordinator, Err _) =>
                    match sc_sign_message fuel "Hello, world!" coordinator with
                    | (_, Err _) => Panicked
                    | r => exit_of r
                    end
                | (_, Panic) => Panicked
                | (_, Diverge) => StillRunning
                end
            end
        | Err _ => Returned None
        | Panic => Panicked
        | Diverge => StillRunning
        end
  | Err _ => Returned None
  | Panic => Panicked
  | Diverge => StillRunning
  end.

(** ** Properties *)

(** Documented behaviour of the key conversions. *)
Class KeyLaws := {
  lift_x_x : forall b p, lift_x b = Some p -> element_to_bytes (point_x p) = b;
  xonly_bytes : forall b k, xonly_from_slice b = Some k -> xonly_serialize k = b
}.
Context {KL : KeyLaws}.

Lemma load_dkg_data_key {N : Type} {NL : NetListen N} {SN : Type} {STN : StacksNode SN}
    (fuel : nat) (dir : option string) (w : StacksWallet) (address : StacksAddress)
    (s s' : LoadState (N := N) (SN := SN)) (key : XOnlyPublicKey) :
  load_dkg_data fuel dir w address s = (s', Ok key) ->
  xonly_serialize key = element_to_bytes (point_x (aggregate_public_key (ld_frost s'))).
Proof.
  assert (forall A (m : M SN StacksNodeError A) (t t' : LoadState (N := N) (SN := SN)) a,
    ld_on_node m t = (t', Ok a) -> ld_frost t' = ld_frost t) as Hnode.
  { intros A m t t' a. unfold ld_on_node, zoom, with_err. destruct (m _). by intros [= <- _]. }
  assert (forall A (m : M Files FileError A) (t t' : LoadState (N := N) (SN := SN)) a,
    ld_on_files m t = (t', Ok a) -> ld_frost t' = ld_frost t) as Hfiles.
  { intros A m t t' a. unfold ld_on_files, zoom, with_err. destruct (m _). by intros [= <- _]. }
  unfold load_dkg_data. intros (s1 & stored & _ & Hr)%M_bind_Ok_inv.
  destruct stored as [k|].
  - apply M_bind_Ok_inv in Hr as (s2 & [] & _ & Hr).
    apply M_bind_Ok_inv in Hr as (s3 & p & [= <- Hp%ok_or_Ok_inv] & Hr).
    apply M_bind_Ok_inv in Hr as (s4 & [] & [= <-] & [= <- <-]). simpl.
    apply lift_x_x in Hp. rewrite <-Hp. by destruct (ld_frost s2).
  - apply M_bind_Ok_inv in Hr as (s2 & p & Hp & Hr).
    unfold ld_on_frost, zoom, with_err in Hp.
    destruct (run_distributed_key_generation fuel (ld_frost s1)) as [c x] eqn:Hdkg.
    injection Hp as <- ->%map_err_Ok_inv. apply dkg_aggregate_key in Hdkg.
    apply M_bind_Ok_inv in Hr as (s3 & [] & Hf & Hr).
    assert (ld_frost s3 = c) as H3.
    { destruct dir; [|by injection Hf as <-]. by apply M_bind_Ok_inv in Hf as (? & ? & [= <- <-] & ->%Hfiles). }
    apply M_bind_Ok_inv in Hr as (s4 & k & [= <- Hk%ok_or_Ok_inv] & Hr).
    apply M_bind_Ok_inv in Hr as (s5 & nonce & H5%Hnode & Hr).
    apply M_bind_Ok_inv in Hr as (s6 & tx & [= <- _] & Hr).
    apply M_bind_Ok_inv in Hr as (s7 & [] & H7%Hnode & [= <- <-]).
    rewrite H7, H5, H3, Hdkg. by apply xonly_bytes.
Qed.

(** What a successful start went through. *)
Lemma try_from_Ok (fuel : nat) (config : SCConfig) (m : Machine) (c : PegCoordinator) :
  StacksCoordinator_try_from fuel config m = Ok c ->
  exists n1 frost loaded key b n2 height q,
    create_frost_coordinator config (m_http m) (make_stacks_wallet config)
      (NodeClient_new (scc_stacks_node_rpc_url config) (scc_contract_name config)
         (scc_contract_address config), m_rpc m) = (n1, Ok frost) /\
    load_dkg_data fuel (scc_data_directory config) (make_stacks_wallet config)
      (scc_stacks_address config) (mkLoad frost n1 (m_files m)) = (loaded, Ok key) /\
    client_burn_block_height (ld_node loaded) = (n2, Ok height) /\
    from_connection (scc_start_block_height config) height
      (open_queue (m_databases m) ((fun path => path_join path "peg_queue.sqlite") <$>
         scc_data_directory config)) = (q, Ok tt) /\
    c = mkStacksCoordinator (ld_frost loaded) q n2 b
          (BitcoinWallet_new key (scc_bitcoin_network config)) (make_stacks_wallet config).
Proof.
  unfold StacksCoordinator_try_from.
  destruct (create_frost_coordinator _ _ _ _) as [n1 [frost|e| |]] eqn:H1; try done.
  destruct (load_dkg_data _ _ _ _ _) as [loaded [key|e| |]] eqn:H2; try done.
  destruct (load_wallet _ _) as [b [x|e| |]] eqn:H3; try done.
  destruct (client_burn_block_height _) as [n2 [height|e| |]] eqn:H4; try done.
  destruct (from_connection _ _ _) as [q [[]|e| |]] eqn:H5; try done.
  intros [= <-]. by exists n1, frost, loaded, key, b, n2, height, q.
Qed.

(** C6: the coordinator signs for its own wallet.  Whether the wallet key was
    found in the contract or comes from a new key generation, the Bitcoin wallet
    the coordinator starts with belongs to its aggregate key, and that stays so
    through any number of polling rounds, whatever their outcome. *)
Theorem signs_for_its_wallet (polls fuel : nat) (config : SCConfig) (m : Machine) (c c' : PegCoordinator)
    (r : res StartErr unit)
    (Hstart : StacksCoordinator_try_from fuel config m = Ok c) (Hrun : run polls fuel c = (c', r)) :
  wallet_key_ok c /\ wallet_key_ok c'.
Proof.
  assert (wallet_key_ok c) as Hc.
  { apply try_from_Ok in Hstart as (n1 & frost & loaded & key & b & n2 & height & q & _ & Hl & _ & _ & ->).
    unfold wallet_key_ok. simpl. by apply load_dkg_data_key in Hl. }
  split; [done|]. pose proof (run_keeps_wallet_key polls fuel c Hc) as Hk. by rewrite Hrun in Hk.
Qed.

(** a coordinator cannot be configured from the contract.  Without the path
    of a signer configuration the start fails as soon as the contract reports a
    signer, since the signers' keys never load. *)
Theorem contract_start_fails (fuel : nat) (config : SCConfig) (m : Machine)
    (Hpath : scc_signer_config_path config = None)
    (Hsigners : forall s s' n, num_signers (scc_stacks_address config) s = (s', Ok n) -> 1 <= n) :
  forall c, StacksCoordinator_try_from fuel config m <> Ok c.
Proof.
  intros c (n1 & frost & _ & _ & _ & _ & _ & _ & Hf & _)%try_from_Ok.
  unfold create_frost_coordinator in Hf. rewrite Hpath in Hf.
  apply M_bind_Ok_inv in Hf as (s1 & th & _ & Hf). apply M_bind_Ok_inv in Hf as (s2 & d & _ & Hf).
  apply M_bind_Ok_inv in Hf as (s3 & k & _ & Hf).
  apply M_bind_Ok_inv in Hf as (s4 & pks & Hk%with_err_Ok_inv & _). simpl in Hk.
  apply M_bind_Ok_inv in Hk as (s5 & t & Hl & _). pose proof Hl as Hl'.
  unfold load_signers in Hl'. apply M_bind_Ok_inv in Hl' as (s6 & n & Hn & _).
  by apply (load_signers_never_Ok _ _ _ _ Hn (Hsigners _ _ _ Hn)) in Hl.
Qed.

(** the configured start height has no effect.  Started from the command line
    without a start height on a fresh queue, the coordinator begins just below
    the node's current height, whatever [start_block_height] says in the
    configuration file: earlier requests are not processed. *)
Theorem config_start_height_ignored (fuel : nat) (cli : Cli) (config : SCConfig) (m : Machine)
    (c : PegCoordinator) (Hcli : cli_start_block_height cli = None)
    (Hfresh : forall path, m_databases m !! path = None)
    (Hstart : StacksCoordinator_try_from fuel (cli_override cli config) m = Ok c) :
  exists n n' height, client_burn_block_height n = (n', Ok height) /\
    metadata (local_peg_queue c) = Some (as_i64 (saturating_sub height 1)).
Proof.
  apply try_from_Ok in Hstart as (n1 & frost & loaded & key & b & n2 & height & q & _ & _ & Hh & Hq & ->).
  exists (ld_node loaded), n2, height. split; [done|]. simpl in *. rewrite Hcli in Hq.
  assert (open_queue (m_databases m) ((fun path => path_join path "peg_queue.sqlite") <$>
            scc_data_directory config) = empty_queue) as Hempty.
  { unfold open_queue. destruct (_ <$> _); [|done]. by rewrite Hfresh. }
  rewrite Hempty in Hq. by injection Hq as <-.
Qed.
End Start.

(** ** Executable instances *)
Module ToyStart.
Import ToyCrypto ToyStacks ToyWallet ToyQueue ToyBitcoin ToyCoordinator FrostConfigWitness.

(** A contract with two signers, a coordinator and a wallet key. *)
Definition mentions (what url : string) : bool :=
  if String.index 0 what url is Some _ then true else false.
Definition contract_answer (url : string) : string :=
  if mentions "get-coordinator-data" url then "coordinator"
  else if mentions "get-bitcoin-wallet-public-key" url then "wallet"
  else if mentions "get-signer-data" url then "signer" else "signers".

#[export] Instance contract_rpc : RpcClient (TY := toy_stacks) := {|
  RpcWorld := unit;
  Url := string;
  url_join u r := Some (u +:+ r);
  rpc_get _ w := (w, Some (200, Some (JObject [("burn_block_height", JNumber 9); ("nonce", JNumber 4)])));
  rpc_post url _ _ w := (w, Some (result (contract_answer url)));
  call_read_body _ _ := [];
  peg_in_ops_from_json _ := Some [];
  peg_out_ops_from_json _ := Some [];
  pk_try_from_slice b := match b with [k] => Some k | _ => None end
|}.

#[export] Instance toy_btc_rpc : BitcoinRpc (TY := toy_stacks) := {|
  BtcWorld := unit;
  BtcUrl := string;
  btc_url_join u r := Some (u +:+ r);
  json_rpc _ _ _ w := (w, inl (JObject [("result", JArray [])]));
  tx_encode _ := Some "00";
  btc_txid_from_str := Some;
  wallet_from_json _ := Some ("stacks_coordinator", "");
  calc_checksum _ := Some "c";
  json_as_f64 := Some;
  amount_from_btc v := match v with JNumber n => Some n | _ => None end;
  message_contains _ _ := false
|}.

#[export] Instance toy_http : HttpClient (CP := toy_p256k1) := {|
  World := unit;
  BincodeError := unit;
  http_get _ w := (w, None);
  http_post _ _ w := (w, true);
  bincode_serialize _ := inl [];
  bincode_deserialize _ := None
|}.

#[export] Instance start_parsers : ConfigParsers := {|
  pk_try_from_str s := Some (Z.of_nat (String.length s));
  scalar_try_from_str s := Some (Z.of_nat (String.length s));
  read_to_string path := if String.eqb path "signer.toml" then inl "" else inr IoErrorOpaque;
  toml_from_str _ := inl raw
|}.

Definition raw_config : SCRawConfig :=
  {| raw_sbtc_contract := "ST0.sbtc.v2"; raw_stacks_private_key := "aa";
     raw_stacks_node_rpc_url := "http://node"; raw_bitcoin_node_rpc_url := "http://btc";
     raw_frost_dkg_round_id := 0; raw_signer_config_path := None; raw_start_block_height := Some 3;
     raw_data_directory := Some "data"; raw_network := Some NetTestnet; raw_transaction_fee := 100;
     raw_http_relay_url := Some "http://relay"; raw_frost_state_file := Some "state";
     raw_network_private_key := Some "A"; raw_polling_interval := None |}.

#[export] Instance toy_coordinator_parsers :
    CoordinatorParsers (TL := toy_tx_lib) (RC := contract_rpc) (BR := toy_btc_rpc) := {|
  address_from_string := Some;
  contract_name_try_from := Some;
  private_key_from_hex s := Some (Z.of_nat (String.length s));
  address_from_public_keys v keys := Some "ST1";
  url_parse := Some;
  btc_url_parse := Some;
  network_bitcoin := tt;
  network_testnet := tt;
  sc_read_to_string path := if String.eqb path "config.toml" then Some "" else None;
  sc_toml_from_str _ := Some raw_config
|}.

Definition share (k : Z) : DkgPublicShare :=
  {| dps_dkg_id := 1; dps_dkg_public_id := 0; dps_party_id := k; dps_public_share := (k, [2 * k]) |}.

(** Shares are written as the list of their keys. *)
#[export] Instance toy_shares_json : SharesJson := {|
  shares_to_json m := Some (btree_keys m);
  shares_from_json b :=
    if bool_decide (Forall (fun k => 1 <= k <= 3) b)
    then Some (list_to_map ((fun k => (k, share k)) <$> b)) else None
|}.
#[export] Instance writable : FileSystem := fun _ => true.
#[export] Instance toy_key_laws : KeyLaws (CP := toy_p256k1) (WA := toy_aggregator)
  (KC := toy_conversions).
Proof.
  split; simpl.
  - intros [|x [|]] p; simpl; intros [= <-]. done.
  - by intros b k [= <-].
Qed.

Definition machine : Machine :=
  {| m_files := {["data/dkg_public_shares.json" := [1; 2; 3]]}; m_databases := ∅; m_rpc := tt;
     m_btc := tt; m_http := tt |}.
Definition cli : Cli :=
  {| cli_config := "config.toml"; cli_start_block_height := None; cli_signer_config := "signer.toml";
     cli_command := CliRun |}.

Definition accepted_raw (rc : SCRawConfig) : SCConfig :=
  match SCConfig_try_from rc with
  | Ok config => config
  | _ => {| scc_contract_name := ""; scc_contract_address := ""; scc_stacks_private_key := 0;
            scc_stacks_address := ""; scc_stacks_node_rpc_url := ""; scc_bitcoin_node_rpc_url := "";
            scc_frost_dkg_round_id := 0; scc_signer_config_path := None;
            scc_start_block_height := None; scc_data_directory := None; scc_bitcoin_network := tt;
            scc_stacks_version := Mainnet; scc_transaction_fee := 0; scc_http_relay_url := None;
            scc_network_private_key := None; scc_polling_interval := 0 |}
  end.
Definition config : SCConfig := accepted_raw raw_config.
Definition started := StacksCoordinator_try_from 5 (cli_override cli config) machine.
End ToyStart.

Module CoordinatorStartWitness.
Import ToyCrypto ToyStacks ToyWallet ToyQueue ToyBitcoin ToyCoordinator FrostConfigWitness ToyStart.

Lemma contract_identifier_witness : parse_contract raw_config = Ok ("sbtc", "ST0").
Proof.
  apply (contract_identifier (TY := toy_stacks) raw_config "ST0" "sbtc" "ST0" "sbtc") with (more := Some "v2").
  - by_compute.
  - by_compute.
  - reflexivity.
  - reflexivity.
  - reflexivity.
Defined.

Lemma accepted_config_witness : config_of raw_config config /\ scc_stacks_version config = Testnet.
Proof. split; [|run]. refine (proj1 (accepted_config raw_config config) _). run. Defined.

Definition shares3 : gmap Z DkgPublicShare := {[1 := share 1; 2 := share 2; 3 := share 3]}.
Definition shares1 : gmap Z DkgPublicShare := {[1 := share 1]}.
Definition rewritten : Files :=
  {["data/dkg_public_shares.json" := [1; 2; 3]]}.

(** One share over a file of three: the old tail is still there. *)
Lemma dkg_shares_roundtrip_witness :
  read_dkg_public_shares "data" rewritten = (rewritten, Ok shares3).
Proof.
  refine (dkg_shares_roundtrip (SJ := toy_shares_json) "data" shares1 (m_files machine) rewritten [1] _ _ _).
  - run.
  - run.
  - run.
Defined.

Definition peg_coordinator := match started with Ok c => Some c | _ => None end.

Lemma signs_for_its_wallet_witness :
  exists c, started = Ok c /\ wallet_key_ok c /\ wallet_key_ok (run 1 5 c).1.
Proof.
  destruct started as [c|e| |] eqn:Hs; [|discriminate Hs..].
  exists c. split; [reflexivity|].
  refine (signs_for_its_wallet 1 5 (cli_override cli config) machine c (run 1 5 c).1 (run 1 5 c).2 Hs _).
  apply surjective_pairing.
Defined.

Lemma contract_start_fails_witness :
  ~ exists c, StacksCoordinator_try_from 5 config machine = Ok c.
Proof.
  intros [c Hc]. refine (contract_start_fails 5 config machine _ _ c Hc); [run|].
  intros [self []] s' n. unfold num_signers, call_clarity, call_read, build_url, post, expect_uint,
    mbind, M_bind, gets, lift. cbn -[contract_answer].
  set (answer := contract_answer _).
  assert (answer ∈ ["coordinator"; "wallet"; "signer"; "signers"]) as Hanswer.
  { unfold answer, contract_answer. repeat case_match; set_solver. }
  clearbody answer. repeat (apply elem_of_cons in Hanswer as [->|Hanswer]); cbn; intros Hn.
  - discriminate Hn.
  - discriminate Hn.
  - discriminate Hn.
  - injection Hn as _ <-. lia.
  - by apply not_elem_of_nil in Hanswer.
Defined.

Lemma config_start_height_ignored_witness :
  scc_start_block_height config = Some 3 /\
  exists c, started = Ok c /\ exists n n' height, client_burn_block_height n = (n', Ok height) /\
    metadata (local_peg_queue c) = Some (as_i64 (saturating_sub height 1)).
Proof.
  split; [run|]. destruct started as [c|e| |] eqn:Hs; [|discriminate Hs..].
  exists c. split; [reflexivity|].
  refine (config_start_height_ignored 5 cli config machine c _ _ Hs).
  - reflexivity.
  - intros path. apply lookup_empty.
Defined.
End CoordinatorStartWitness.
