(* ===== verification/Broadcast.v ===== *)
(** * Signers, HTTP client, relay server: the broadcast channel

    [frost-signer/src/net.rs] over [relay-server] over [yarpc/src/http]: any
    number of [HttpNetListen]s that poll and post through one relay.  What the
    HTTP client ([ureq]) does with a relay URL is the hypothesis [RelayBehind],
    the encoding of messages ([bincode]) is [BincodeLaws].  The composition
    refines a log that every listener reads from its own cursor
    ([broadcast_refines]), and in a run in which a listener polls again and again
    it receives every message that was sent ([broadcast_delivers]). *)
From stdpp Require Import pretty.
From S2P Require Import Prelude Crypto Messages Net Http Relay.

(** ** Decimal ids *)
Lemma as_bytes_app (s t : string) : as_bytes (s +:+ t) = as_bytes s ++ as_bytes t.
Proof. induction s as [|a s IH]; [done|]. simpl. f_equal. exact IH. Qed.

Lemma as_bytes_inj (s t : string) : as_bytes s = as_bytes t -> s = t.
Proof.
  revert t; induction s as [|a s IH]; intros [|b t]; simpl; try done. intros [= Hab Hst].
  apply N2Z.inj in Hab. f_equal; [|by apply IH].
  by rewrite <-(Ascii.ascii_N_embedding a), Hab, Ascii.ascii_N_embedding.
Qed.

Definition digits (s : string) : Prop := Forall (fun c => 48 <= c <= 57) (as_bytes s).

Lemma pretty_N_char_digit (x : N) : 48 <= Z.of_N (Ascii.N_of_ascii (pretty_N_char x)) <= 57.
Proof. unfold pretty_N_char. repeat case_match; vm_compute; split; congruence. Qed.

Lemma pretty_N_go_digits (x : N) (s : string) : digits s -> digits (pretty_N_go x s).
Proof.
  revert s. induction (N.lt_wf_0 x) as [x _ IH]; intros s Hs.
  assert (x = 0 \/ 0 < x)%N as [->|Hx] by lia; [by rewrite pretty_N_go_0|].
  rewrite pretty_N_go_step by done. apply IH; [by apply N.div_lt|].
  unfold digits in *. simpl. constructor; [apply pretty_N_char_digit|done].
Qed.

Lemma pretty_digits (x : Z) : 0 <= x -> digits (pretty x).
Proof.
  intros Hx. destruct x as [|p|p]; [by_compute| |lia].
  unfold pretty, pretty_Z, pretty, pretty_positive, pretty, pretty_N.
  rewrite decide_False by done. apply pretty_N_go_digits. constructor.
Qed.

(** The node id a listener polls with. *)
Abbreviation node_name id := (str (pretty id)).

Lemma node_name_ok (id : Z) : in_u32 id -> id_ok (node_name id).
Proof.
  intros [Hid _]. pose proof (pretty_digits id Hid) as Hd. split.
  - eapply Forall_impl; [exact Hd|]. unfold CR. simpl. intros; lia.
  - intros Hin. unfold digits in Hd. rewrite Forall_forall in Hd. specialize (Hd _ Hin). lia.
Qed.

Lemma node_name_inj (i j : Z) : node_name i = node_name j -> i = j.
Proof. intros H%as_bytes_inj. by apply (inj pretty). Qed.

(** ** The composition *)
Class BincodeLaws `{HttpClient} := {
  bincode_roundtrip : forall m b, bincode_serialize m = inl b -> bincode_deserialize b = Some m;
  bincode_nonempty : bincode_deserialize [] = None;
  bincode_size : forall m b, bincode_serialize m = inl b -> Z.of_nat (length b) <= isize_max
}.

Section Broadcast.
Context {CP : P256k1} {WP : Wsts} {HC : HttpClient} {BO : Backoff} {HO : HeaderOrder}.

(** The world contains a relay server, and the client's requests for [url]
    reach it: with the method, target and body asked for, whatever headers the
    client adds, and the reply comes back.  Requests that are lost, and the
    repetitions they would cause, are left out. *)
Class RelayBehind (url : string) := {
  relay_of : World -> Server;
  get_reaches : forall id w, in_u32 id ->
    exists r, request_ok r /\ rq_method r = GET /\ rq_url r = str "/?id=" ++ node_name id /\
      forall s' resp, Server_call r (relay_of w) = (s', Ok resp) ->
      exists w', http_get (url_with_id url id) w = (w', Some (rs_code resp, rs_content resp)) /\
                 relay_of w' = s';
  post_reaches : forall b w, Z.of_nat (length b) <= isize_max ->
    exists r, request_ok r /\ rq_method r = POST /\ rq_content r = b /\
      forall s' resp, Server_call r (relay_of w) = (s', Ok resp) ->
      exists w', http_post url b w = (w', true) /\ relay_of w' = s'
}.

(** Listeners by id, sharing the world. *)
Record Network := { listeners : gmap Z HttpNetListen; world : World }.

Inductive NetAction := Receive (id : Z) | Send (id : Z) (m : Message).
Inductive Outcome :=
  | Received (o : option Message)
  | Sent (r : res NetErrorKind unit)
  | NoListener.

(** [Receive] is a [poll] and the [next_message] after it. *)
Definition act (a : NetAction) (n : Network) : Network * Outcome :=
  match a with
  | Receive id =>
      match listeners n !! id with
      | Some l =>
          let '((l', w'), r) := next_message (poll id (l, world n)) in
          ({| listeners := <[id := l']> (listeners n); world := w' |}, Received r)
      | None => (n, NoListener)
      end
  | Send id m =>
      match listeners n !! id with
      | Some l =>
          let '((l', w'), r) := send_message m (l, world n) in
          ({| listeners := <[id := l']> (listeners n); world := w' |}, Sent r)
      | None => (n, NoListener)
      end
  end.

Fixpoint acts (l : list NetAction) (n : Network) : Network * list Outcome :=
  match l with
  | [] => (n, [])
  | a :: l' => let '(n1, o) := act a n in let '(n2, os) := acts l' n1 in (n2, o :: os)
  end.

(** ** The specification: a log and a cursor per listener *)
Record Log := { messages : list Message; cursors : gmap Z nat }.

Definition log_act (a : NetAction) (g : Log) : Log * Outcome :=
  match a with
  | Receive id =>
      match cursors g !! id with
      | Some c =>
          match messages g !! c with
          | Some m => ({| messages := messages g; cursors := <[id := S c]> (cursors g) |}, Received (Some m))
          | None => (g, Received None)
          end
      | None => (g, NoListener)
      end
  | Send id m =>
      match cursors g !! id with
      | Some _ =>
          match bincode_serialize m with
          | inl _ => ({| messages := messages g ++ [m]; cursors := cursors g |}, Sent (Ok tt))
          | inr e => (g, Sent (Err (SerializationError e)))
          end
      | None => (g, NoListener)
      end
  end.

Fixpoint log_acts (l : list NetAction) (g : Log) : Log * list Outcome :=
  match l with
  | [] => (g, [])
  | a :: l' => let '(g1, o) := log_act a g in let '(g2, os) := log_acts l' g1 in (g2, o :: os)
  end.

(** ** Refinement *)
Context {BL : BincodeLaws} {url : string} {RB : RelayBehind url}.
Implicit Types (n : Network) (g : Log).

Definition idle (l : HttpNetListen) : Prop := http_relay_url (net l) = url /\ in_queue l = [].
Definition mem n : MemState := server_state (relay_of (world n)).

Record implements n g : Prop := {
  im_idle : map_Forall (fun id l => in_u32 id /\ idle l) (listeners n);
  im_ids : dom (cursors g) = dom (listeners n);
  im_queue : Forall2 (fun m b => bincode_serialize m = inl b) (messages g) (queue (mem n));
  im_cursor : forall id c, cursors g !! id = Some c -> cursor (mem n) (node_name id) = c
}.

Lemma im_listener n g (id : Z) (c : nat) : implements n g ->
  cursors g !! id = Some c -> exists l, listeners n !! id = Some l /\ in_u32 id /\ idle l.
Proof.
  intros Hi Hc. assert (id ∈ dom (listeners n)) as [l Hl]%elem_of_dom.
  { rewrite <-(im_ids _ _ Hi). apply elem_of_dom. eauto. }
  exists l. split; [done|]. exact (im_idle _ _ Hi _ _ Hl).
Qed.

Lemma im_no_listener n g (id : Z) : implements n g -> cursors g !! id = None -> listeners n !! id = None.
Proof.
  intros Hi Hc. apply not_elem_of_dom. rewrite <-(im_ids _ _ Hi). by apply not_elem_of_dom.
Qed.

(** A poll of an idle listener: one read of the relay. *)
Lemma poll_relay (id : Z) (l : HttpNetListen) w (s' : MemState) (b : bytes) :
  in_u32 id -> idle l -> Z.of_nat (length b) <= isize_max ->
  MemState_get (node_name id) (server_state (relay_of w)) = (s', Ok b) ->
  exists l' w', next_message (poll id (l, w)) = ((l', w'), bincode_deserialize b) /\
    idle l' /\ server_state (relay_of w') = s'.
Proof.
  intros Hid [Hurl Hq] Hb Hg. destruct (get_reaches id w Hid) as (r & Hr & Hm & Hu & Hw).
  destruct (Hw {| server_state := s' |} (Response_new 200 (str "OK") ∅ b)) as (w' & Hget & Hs).
  { apply Server_call_eq; [done|done|]. rewrite Hm, Hu, url_query_id by apply (node_name_ok id Hid).
    exact Hg. }
  destruct l as [[u con] q]. simpl in Hurl, Hq. subst u q.
  destruct (poll_next_message id {| net := {| http_relay_url := url; connected := con |}; in_queue := [] |} w)
    as [c Hp].
  rewrite Hp. unfold polled. simpl. rewrite Hget. simpl. exists {| net := {| http_relay_url := url; connected := c |}; in_queue := [] |}, w'.
  rewrite Hs. destruct (bincode_deserialize b); simpl; by split_and!.
Qed.

(** A send: one message at the end of the relay's queue. *)
Lemma send_relay (m : Message) (b : bytes) (l : HttpNetListen) w :
  (0 < backoff_attempts)%nat -> idle l -> bincode_serialize m = inl b ->
  exists w', send_message m (l, w) = ((l, w'), Ok tt) /\
    server_state (relay_of w') = (MemState_post b (server_state (relay_of w))).1.
Proof.
  intros Hn [Hurl Hq] Hb. pose proof (bincode_size m b Hb) as Hl.
  destruct (post_reaches b w Hl) as (r & Hr & Hm & Hc & Hw).
  destruct (Hw {| server_state := (MemState_post b (server_state (relay_of w))).1 |}
              (Response_new 200 (str "OK") ∅ [])) as (w' & Hpost & Hs).
  { apply Server_call_eq; [done|simpl; unfold isize_max; lia|]. by rewrite Hm, Hc. }
  exists w'. unfold send_message, HttpNet_send_message. rewrite Hb, Hurl.
  destruct backoff_attempts; [lia|]. simpl. by rewrite Hpost, Hs.
Qed.

(** An action of a listener that leaves queue and cursors as they are. *)
Lemma keeps_implements n g (id : Z) (l l' : HttpNetListen) w :
  implements n g -> listeners n !! id = Some l -> in_u32 id -> idle l' -> server_state (relay_of w) = mem n ->
  implements {| world := w; listeners := <[id := l']> (listeners n) |} g.
Proof.
  intros Hi Hl Hid Hl' Hs. split; unfold mem in *; simpl; rewrite ?Hs.
  - by apply map_Forall_insert_2; [|exact (im_idle _ _ Hi)].
  - rewrite dom_insert_lookup_L by eauto. exact (im_ids _ _ Hi).
  - exact (im_queue _ _ Hi).
  - exact (im_cursor _ _ Hi).
Qed.

Lemma poll_refines (id : Z) n g (c : nat) (l : HttpNetListen) n' o :
  implements n g -> cursors g !! id = Some c -> listeners n !! id = Some l -> in_u32 id -> idle l ->
  act (Receive id) n = (n', o) -> exists g', log_act (Receive id) g = (g', o) /\ implements n' g'.
Proof.
  intros Hi Hc Hl Hid Hidle Ha. cbn [act log_act] in *. rewrite Hl in Ha. rewrite Hc.
  pose proof (im_cursor _ _ Hi _ _ Hc) as Hcur.
  pose proof (MemState_get_eq (node_name id) (mem n)) as Hg. rewrite Hcur in Hg.
  destruct (messages g !! c) as [m|] eqn:Hmsg.
  - destruct (Forall2_lookup_l _ _ _ _ _ (im_queue _ _ Hi) Hmsg) as (b & Hqb & Hb). rewrite Hqb in Hg.
    destruct (poll_relay id l (world n) _ b Hid Hidle (bincode_size _ _ Hb) Hg) as (l' & w' & Hp & Hl' & Hs).
    rewrite Hp, (bincode_roundtrip _ _ Hb) in Ha. injection Ha as <- <-.
    eexists. split; [done|]. split; unfold mem; simpl.
    + by apply map_Forall_insert_2; [|exact (im_idle _ _ Hi)].
    + rewrite !dom_insert_L. by rewrite (im_ids _ _ Hi).
    + rewrite Hs. exact (im_queue _ _ Hi).
    + intros id' c'. rewrite Hs. simpl. rewrite cursor_insert. destruct (decide (id' = id)) as [->|Hne].
      * rewrite lookup_insert_eq, decide_True by done. by intros [= <-].
      * rewrite lookup_insert_ne by done. rewrite decide_False by (by intros ?%node_name_inj).
        apply (im_cursor _ _ Hi).
  - assert (queue (mem n) !! c = None) as Hqb.
    { apply lookup_ge_None. rewrite <-(Forall2_length _ _ _ (im_queue _ _ Hi)). by apply lookup_ge_None. }
    rewrite Hqb in Hg.
    destruct (poll_relay id l (world n) _ [] Hid Hidle ltac:(by_compute) Hg) as (l' & w' & Hp & Hl' & Hs).
    rewrite Hp, bincode_nonempty in Ha. injection Ha as <- <-.
    eexists. split; [done|]. by eapply keeps_implements.
Qed.

Lemma send_refines (Hn : (0 < backoff_attempts)%nat) (id : Z) (m : Message) n g (c : nat) (l : HttpNetListen) n' o :
  implements n g -> cursors g !! id = Some c -> listeners n !! id = Some l -> in_u32 id -> idle l ->
  act (Send id m) n = (n', o) -> exists g', log_act (Send id m) g = (g', o) /\ implements n' g'.
Proof.
  intros Hi Hc Hl Hid Hidle Ha. cbn [act log_act] in *. rewrite Hl in Ha. rewrite Hc.
  destruct (bincode_serialize m) as [b|e] eqn:Hb.
  - destruct (send_relay m b l (world n) Hn Hidle Hb) as (w' & Hsend & Hs).
    rewrite Hsend in Ha. injection Ha as <- <-. eexists. split; [done|].
    split; unfold mem; simpl; rewrite ?Hs; simpl.
    + by apply map_Forall_insert_2; [|exact (im_idle _ _ Hi)].
    + rewrite dom_insert_lookup_L by eauto. exact (im_ids _ _ Hi).
    + apply Forall2_app; [exact (im_queue _ _ Hi)|by constructor].
    + exact (im_cursor _ _ Hi).
  - unfold send_message, HttpNet_send_message in Ha. rewrite Hb in Ha. injection Ha as <- <-.
    eexists. split; [done|]. by eapply keeps_implements.
Qed.

Lemma act_refines (Hn : (0 < backoff_attempts)%nat) (a : NetAction) n g n' o :
  implements n g -> act a n = (n', o) ->
  exists g', log_act a g = (g', o) /\ implements n' g'.
Proof.
  intros Hi Ha. destruct a as [id|id m]; (destruct (cursors g !! id) as [c|] eqn:Hc;
    [destruct (im_listener _ _ _ _ Hi Hc) as (l & Hl & Hid & Hidle)|]).
  - by eapply poll_refines.
  - cbn [act log_act] in *. rewrite Hc. rewrite (im_no_listener _ _ _ Hi Hc) in Ha. injection Ha as <- <-. eauto.
  - by eapply send_refines.
  - cbn [act log_act] in *. rewrite Hc. rewrite (im_no_listener _ _ _ Hi Hc) in Ha. injection Ha as <- <-. eauto.
Qed.

(** C31: any number of listeners behind one relay behave as a shared log: a
    message that is sent is appended to it, and a listener's polls hand out the
    log from the listener's own cursor, in order, without gaps or repetitions,
    through the message encoding, both HTTP codecs and the relay's state. *)
Theorem broadcast_refines (Hn : (0 < backoff_attempts)%nat) (l : list NetAction) n g n' os
    (Hi : implements n g) (Ha : acts l n = (n', os)) :
  exists g', log_acts l g = (g', os) /\ implements n' g'.
Proof.
  revert n g os Hi Ha. induction l as [|a l IH]; intros n g os Hi Ha; simpl in *.
  { injection Ha as <- <-. eauto. }
  destruct (act a n) as [n1 o] eqn:Ha1. destruct (acts l n1) as [n2 os'] eqn:Ha2.
  injection Ha as <- <-. destruct (act_refines Hn a n g n1 o Hi Ha1) as (g1 & Hg1 & Hi1).
  destruct (IH n1 g1 os' Hi1 Ha2) as (g2 & Hg2 & Hi2). exists g2. by rewrite Hg1, Hg2.
Qed.

(** ** Infinite runs *)
Fixpoint state_at (schedule : nat -> NetAction) n (k : nat) : Network :=
  match k with O => n | S k' => (act (schedule k') (state_at schedule n k')).1 end.
Definition outcome_at (schedule : nat -> NetAction) n (k : nat) : Outcome :=
  (act (schedule k) (state_at schedule n k)).2.

Fixpoint log_at (schedule : nat -> NetAction) g (k : nat) : Log :=
  match k with O => g | S k' => (log_act (schedule k') (log_at schedule g k')).1 end.

(** Listener [id] polls again and again. *)
Definition keeps_polling (schedule : nat -> NetAction) (id : Z) : Prop :=
  forall k, exists k', (k <= k')%nat /\ schedule k' = Receive id.

Lemma run_refines (Hn : (0 < backoff_attempts)%nat) (schedule : nat -> NetAction) n g (k : nat) :
  implements n g -> implements (state_at schedule n k) (log_at schedule g k) /\
    outcome_at schedule n k = (log_act (schedule k) (log_at schedule g k)).2.
Proof.
  intros Hi. assert (implements (state_at schedule n k) (log_at schedule g k)) as Hk.
  { induction k as [|k IH]; [done|]. simpl.
    destruct (act _ _) as [n' o] eqn:Ha. by destruct (act_refines Hn _ _ _ _ _ IH Ha) as (g' & -> & Hi'). }
  split; [done|]. unfold outcome_at. destruct (act _ _) as [n' o] eqn:Ha.
  by destruct (act_refines Hn _ _ _ _ _ Hk Ha) as (g' & -> & _).
Qed.

Lemma log_grows (schedule : nat -> NetAction) g (k : nat) (i : nat) (m : Message) :
  messages (log_at schedule g k) !! i = Some m -> messages (log_at schedule g (S k)) !! i = Some m.
Proof.
  intros Hm. simpl. destruct (schedule k) as [id|id m']; simpl; destruct (cursors _ !! id); try done.
  - by case_match.
  - destruct (bincode_serialize m'); [|done]. simpl. by apply lookup_app_l_Some.
Qed.

Lemma receives_or_not (a : NetAction) (id : Z) : a = Receive id \/ a <> Receive id.
Proof. destruct a as [i|]; [|by right]. destruct (decide (i = id)); [left|right]; congruence. Qed.

(** A poll moves the cursor past the message it hands out; nothing else moves it. *)
Lemma cursor_step (schedule : nat -> NetAction) g (id : Z) (k : nat) (c i : nat) (m : Message) :
  cursors (log_at schedule g k) !! id = Some c -> (c <= i)%nat ->
  messages (log_at schedule g k) !! i = Some m ->
  (schedule k = Receive id -> c = i /\ (log_act (schedule k) (log_at schedule g k)).2 = Received (Some m) \/
     (c < i)%nat /\ cursors (log_at schedule g (S k)) !! id = Some (S c)) /\
  (schedule k <> Receive id -> cursors (log_at schedule g (S k)) !! id = Some c).
Proof.
  intros Hc Hci Hm. simpl. split; intros Hs.
  - rewrite Hs. simpl. rewrite Hc. destruct (decide (c = i)) as [->|Hne].
    + left. by rewrite Hm.
    + right. assert (c < i)%nat as Hlt by lia. split; [done|].
      destruct (lookup_lt_is_Some_2 (messages (log_at schedule g k)) c) as [m' Hm'].
      { apply lookup_lt_Some in Hm. lia. }
      rewrite Hm'. simpl. by rewrite lookup_insert_eq.
  - destruct (schedule k) as [id'|id' m']; simpl; destruct (cursors _ !! id') as [c'|] eqn:Hc'; try done.
    + destruct (messages _ !! c'); [|done]. simpl. rewrite lookup_insert_ne; [done|congruence].
    + by destruct (bincode_serialize m').
Qed.

(** No cursor passes the end of the log. *)
Lemma log_cursor (schedule : nat -> NetAction) g (id : Z) (k : nat) :
  is_Some (cursors g !! id) ->
  map_Forall (fun _ c => (c <= length (messages g))%nat) (cursors g) ->
  exists c, cursors (log_at schedule g k) !! id = Some c /\ (c <= length (messages (log_at schedule g k)))%nat.
Proof.
  intros Hid Hb. induction k as [|k (c & Hc & Hle)].
  { destruct Hid as [c Hc]. exists c. split; [done|]. exact (Hb _ _ Hc). }
  simpl. destruct (schedule k) as [id'|id' m]; simpl; destruct (cursors _ !! id') as [c'|] eqn:Hc'; eauto.
  - destruct (messages _ !! c') eqn:Hm; simpl; [|by eauto].
    destruct (decide (id' = id)) as [->|Hne].
    + exists (S c'). rewrite lookup_insert_eq. split; [done|]. by apply lookup_lt_Some in Hm.
    + exists c. by rewrite lookup_insert_ne.
  - destruct (bincode_serialize m); simpl; [|by eauto]. exists c. rewrite length_app. split; [done|lia].
Qed.

Lemma log_delivers (schedule : nat -> NetAction) g (id : Z) (i : nat) (m : Message) :
  keeps_polling schedule id ->
  forall (k c : nat), cursors (log_at schedule g k) !! id = Some c -> (c <= i)%nat ->
  messages (log_at schedule g k) !! i = Some m ->
  exists k', (k <= k')%nat /\ schedule k' = Receive id /\
    (log_act (schedule k') (log_at schedule g k')).2 = Received (Some m).
Proof.
  intros Hfair k c. remember (i - c)%nat as d eqn:Hd. revert k c Hd.
  induction d as [d IHd] using lt_wf_ind; intros k c Hd Hc Hci Hm.
  destruct (Hfair k) as (k1 & Hk1 & Hs1).
  remember (k1 - k)%nat as e eqn:He. revert k Hk1 He Hc Hm.
  induction e as [|e IHe]; intros k Hk1 He Hc Hm;
    destruct (cursor_step schedule g id k c i m Hc Hci Hm) as [Hrecv Hother];
    (destruct (receives_or_not (schedule k) id) as [Hs|Hs];
     [destruct (Hrecv Hs) as [[_ Ho]|[Hlt Hc']];
      [by exists k|];
      destruct (IHd (i - S c)%nat ltac:(lia) (S k) (S c)) as (k' & ? & ? & ?);
        [done|done|lia|by apply log_grows|]; exists k'; split_and!; [lia|done|done]|]).
  - assert (k = k1) as -> by lia. done.
  - destruct (IHe (S k)) as (k' & ? & ? & ?); [|lia|by apply Hother|by apply log_grows|].
    + destruct (decide (k = k1)) as [->|]; [done|lia].
    + exists k'. split_and!; [lia|done|done].
Qed.

(** C8: in a run of any number of listeners behind one relay, a listener that
    polls again and again eventually receives every message that is sent, however
    the polls and sends of the others are interleaved with its own. *)
Theorem broadcast_delivers (Hn : (0 < backoff_attempts)%nat) (schedule : nat -> NetAction) n g
    (id sender : Z) (k : nat) (m : Message)
    (Hi : implements n g) (Hid : is_Some (cursors g !! id)) (Hfair : keeps_polling schedule id)
    (Hbehind : map_Forall (fun _ c => (c <= length (messages g))%nat) (cursors g))
    (Hsend : schedule k = Send sender m) (Hsent : outcome_at schedule n k = Sent (Ok tt)) :
  exists k', (k < k')%nat /\ schedule k' = Receive id /\
    outcome_at schedule n k' = Received (Some m).
Proof.
  destruct (log_cursor schedule g id k Hid Hbehind) as (c & Hc & Hle).
  destruct (run_refines Hn schedule n g k Hi) as [_ Ho]. rewrite Hsent, Hsend in Ho.
  assert (messages (log_at schedule g (S k)) = messages (log_at schedule g k) ++ [m] /\
          cursors (log_at schedule g (S k)) = cursors (log_at schedule g k)) as [Hm Hcs].
  { simpl. rewrite Hsend. simpl in *. destruct (cursors _ !! sender); [|done].
    by destruct (bincode_serialize m). }
  destruct (log_delivers schedule g id (length (messages (log_at schedule g k))) m Hfair (S k) c)
    as (k' & Hk' & Hs & Hr).
  - by rewrite Hcs.
  - done.
  - rewrite Hm. by apply list_lookup_middle.
  - exists k'. split_and!; [lia|done|]. destruct (run_refines Hn schedule n g k' Hi) as [_ ->]. done.
Qed.
End Broadcast.

Module BroadcastWitness.
Import ToyCrypto.
Import HttpWitness.

(** Messages of one kind, and a client that talks to the server directly. *)
Definition base : string := "http://relay".
Definition toy_serialize (m : Message) : bytes + unit :=
  match msg m with
  | MDkgBegin b =>
      if bool_decide (in_u64 (db_dkg_id b)) && (Z.of_nat (length (sig m)) <? 1000)
      then inl (be_bytes 8 (db_dkg_id b) ++ sig m) else inr tt
  | _ => inr tt
  end.
Definition toy_deserialize (b : bytes) : option Message :=
  if (length b <? 8)%nat then None
  else Some {| msg := MDkgBegin {| db_dkg_id := be_decode (take 8 b) |}; sig := drop 8 b |}.

(** The target of a URL that starts with [base]. *)
Definition target (url : string) : rstring := 47 :: drop (length (as_bytes base)) (as_bytes url).
Definition exchange (r : Request) (w : Server) : Server * option (Z * bytes) :=
  match Server_call r w with
  | (w', Ok resp) => (w', Some (rs_code resp, rs_content resp))
  | (w', _) => (w', None)
  end.

#[export] Instance toy_http : HttpClient (CP := toy_p256k1) := {|
  World := Server;
  BincodeError := unit;
  http_get url := exchange (Request_new GET (target url) ∅ []);
  http_post url b w :=
    let '(w', r) := exchange (Request_new POST (str "/") ∅ b) w in (w', bool_decide (is_Some r));
  bincode_serialize := toy_serialize;
  bincode_deserialize := toy_deserialize
|}.
#[export] Instance toy_backoff : Backoff := 2%nat.

Lemma toy_serialize_inv (m : Message) (b : bytes) : toy_serialize m = inl b ->
  exists d, msg m = MDkgBegin d /\ in_u64 (db_dkg_id d) /\ Z.of_nat (length (sig m)) < 1000 /\
    b = be_bytes 8 (db_dkg_id d) ++ sig m.
Proof.
  unfold toy_serialize. destruct (msg m) as [d| | | | | | | | |]; try done.
  destruct (bool_decide _ && _) eqn:Hc; [|done]. intros [= <-].
  apply andb_prop in Hc as [H1%bool_decide_eq_true H2%Z.ltb_lt]. eauto.
Qed.

#[export] Instance toy_bincode : BincodeLaws (H := toy_http).
Proof.
  split.
  - intros m b (d & Hm & [Hd0 Hd] & Hs & ->)%toy_serialize_inv. simpl. unfold toy_deserialize.
    rewrite length_app, be_bytes_length. simpl.
    rewrite take_app_length', drop_app_length' by (symmetry; apply be_bytes_length).
    rewrite be_decode_bytes, Z.mod_small by (split; [done|exact Hd]).
    destruct m as [ms sg], d. simpl in *. by subst.
  - done.
  - intros m b (d & Hm & Hd & Hs & ->)%toy_serialize_inv.
    rewrite length_app, be_bytes_length. unfold isize_max. lia.
Qed.

#[export] Instance toy_relay : RelayBehind (HC := toy_http) base.
Proof.
  refine {| relay_of := fun w : World => w |}.
  - intros id w Hid. exists (Request_new GET (str "/?id=" ++ node_name id) ∅ []).
    split_and!; [by apply get_request_ok, node_name_ok|done|done|]. intros s' resp Hr.
    exists s'. split; [|done]. simpl. unfold exchange, target, url_with_id. rewrite !as_bytes_app.
    rewrite drop_app_length. change (47 :: as_bytes "?id=" ++ as_bytes (pretty id))
      with (str "/?id=" ++ node_name id). by rewrite Hr.
  - intros b w Hb. exists (Request_new POST (str "/") ∅ b).
    split_and!; [by apply post_request_ok|done|done|]. intros s' resp Hr. exists s'. split; [|done].
    cbn [http_post toy_http]. unfold exchange. by rewrite Hr.
Defined.

Definition begin (i : Z) : Message := {| msg := MDkgBegin {| db_dkg_id := i |}; sig := [30] |}.
Definition listener : HttpNetListen := HttpNetListen_new (HttpNet_new base) [].
Definition net0 : Network :=
  {| listeners := {[1 := listener; 2 := listener]};
     world := ({| server_state := MemState_default |} : World (HttpClient := toy_http)) |}.
Definition log0 : Log := {| messages := []; cursors := {[1 := O; 2 := O]} |}.

Lemma net0_log0 : implements (url := base) net0 log0.
Proof.
  split.
  - intros id l. unfold net0. simpl. rewrite lookup_insert_Some, lookup_singleton_Some.
    intros [[<- <-]|[_ [<- <-]]]; (split; [by_compute|by split]).
  - by_compute.
  - constructor.
  - intros id c. unfold log0. simpl. rewrite lookup_insert_Some, lookup_singleton_Some.
    by intros [[<- <-]|[_ [<- <-]]].
Qed.

Definition actions : list NetAction :=
  [Send 1 (begin 7); Receive 2; Send 2 (begin 8); Receive 2; Receive 2; Receive 1; Receive 3].

Lemma broadcast_refines_witness :
  (acts (HC := toy_http) actions net0).2 =
  [Sent (Ok tt); Received (Some (begin 7)); Sent (Ok tt); Received (Some (begin 8)); Received None;
   Received (Some (begin 7)); NoListener].
Proof.
  destruct (broadcast_refines (HC := toy_http) (url := base) ltac:(by_compute) actions net0 log0
    (acts actions net0).1 (acts actions net0).2 net0_log0 (surjective_pairing _)) as (g' & Hg & _).
  assert ((log_acts (HC := toy_http) actions log0).2 = (acts (HC := toy_http) actions net0).2) as <-
    by (by rewrite Hg).
  run.
Defined.

Definition schedule (k : nat) : NetAction :=
  if (k =? 0)%nat then Send 1 (begin 7) else if Nat.even k then Receive 2 else Receive 1.

Lemma broadcast_delivers_witness :
  exists k', (0 < k')%nat /\ schedule k' = Receive 2 /\
    outcome_at (HC := toy_http) schedule net0 k' = Received (Some (begin 7)).
Proof.
  apply (broadcast_delivers (HC := toy_http) (url := base) ltac:(by_compute) schedule net0 log0 2 1 0
           (begin 7) net0_log0).
  - eexists; reflexivity.
  - intros k. exists (2 * S k)%nat. split; [lia|]. unfold schedule.
    rewrite (proj2 (Nat.eqb_neq _ _)) by lia. by rewrite Nat.even_mul.
  - by_compute.
  - reflexivity.
  - run.
Defined.
End BroadcastWitness.
