(* ===== verification/SignerProcess.v ===== *)
(** * [frost-signer] and [stacks-signer] as processes

    [Signer::start_p2p_sync] runs two threads: [poll_loop] forwards verified
    messages through a channel, [start_signing_round] handles them.  The process
    is a state with one step per thread, run under an arbitrary [schedule]; the
    loop bodies are those of [FrostSigner].  The binaries around it are
    [frost_signer_main], [stacks_signer_main] and [frost_coordinator_main]. *)
From S2P Require Import Prelude Crypto FrostUtil FrostConfig Messages SigningRound Net FrostSigner FrostCoordinator CoordinatorStart.

Section Process.
Context {CP : P256k1} {WP : Wsts} {BP : BuildProfile} {N : Type} {NL : NetListen N}.

(** ** The two threads *)

(** The polling thread: running, returned with an error, or panicked.  In the
    last two cases its end of the channel is closed. *)
Inductive Poller := Polling | PollEnded (e : SignerError) | PollPanicked.

Record Process := mkProcess {
  pr_net : N;
  pr_timeout : Z;
  pr_channel : list Message;                 (* sent and not yet received *)
  pr_poller : Poller;
  pr_round : SigningRound;
  pr_rng : Rng;
  pr_exit : option (res SignerError unit)    (* what [start_p2p_sync] returned *)
}.

Inductive Turn := PollTurn | SignTurn.

(** What a turn did: the message the network handed out, the message that was
    handled, or nothing. *)
Inductive Event := Got (o : option Message) | Handled (m : Message) | Waiting.

Definition poller_after (r : res SignerError Z) : Poller :=
  match r with
  | Err e => PollEnded e
  | Panic => PollPanicked
  | _ => Polling
  end.

Definition exit_after (r : res SignerError unit) : option (res SignerError unit) :=
  match r with Ok _ => None | _ => Some r end.

(** One iteration of [poll_loop]. *)
Definition poll_turn (self : FrostSigner) (p : Process) : Process * Event :=
  let config := fs_config self in
  let got := (net_next_message (net_poll (fs_signer_id self) (pr_net p))).2 in
  let '(st, r) :=
    poll_step (fs_signer_id self) (cfg_public_keys config) (cfg_coordinator_public_key config)
      {| pl_net := pr_net p; pl_timeout := pr_timeout p;
         pl_tx := {| receiver_alive := true; pending := pr_channel p |} |} in
  (mkProcess (pl_net st) (pl_timeout st) (pending (pl_tx st)) (poller_after r)
     (pr_round p) (pr_rng p) None, Got got).

(** One iteration of [start_signing_round]: [recv] waits while the channel is
    empty, and fails once the polling thread is gone. *)
Definition sign_turn (self : FrostSigner) (p : Process) : Process * Event :=
  match pr_channel p with
  | [] =>
      match pr_poller p with
      | Polling => (p, Waiting)
      | _ => (mkProcess (pr_net p) (pr_timeout p) [] (pr_poller p) (pr_round p) (pr_rng p)
                (Some (Err RecvError)), Waiting)
      end
  | inbound :: rest =>
      let '((round, rng, n), r) :=
        handle_inbound (cfg_network_private_key (fs_config self)) inbound
          ((pr_round p, pr_rng p), pr_net p) in
      (mkProcess n (pr_timeout p) rest (pr_poller p) round rng (exit_after r), Handled inbound)
  end.

(** When [start_p2p_sync] has returned, the process is over. *)
Definition turn (self : FrostSigner) (t : Turn) (p : Process) : Process * Event :=
  match pr_exit p with
  | Some _ => (p, Waiting)
  | None =>
      match t with
      | PollTurn => match pr_poller p with Polling => poll_turn self p | _ => (p, Waiting) end
      | SignTurn => sign_turn self p
      end
  end.

Fixpoint turns (self : FrostSigner) (schedule : list Turn) (p : Process) : Process * list Event :=
  match schedule with
  | [] => (p, [])
  | t :: schedule' =>
      let '(p1, e) := turn self t p in
      let '(p2, es) := turns self schedule' p1 in (p2, e :: es)
  end.

(** [Signer::start_p2p_sync]; the round is created by the calling thread, which
    may panic (the polling thread has polled before or not). *)
Definition process_start (self : FrostSigner) (rng : Rng) (n : N) : res Empty_set Process :=
  match SigningRound_from self rng with
  | (rng', Ok round) => Ok (mkProcess n BASE_TIMEOUT [] Polling round rng' None)
  | (_, Err e) => Err e
  | (_, Panic) => Panic
  | (_, Diverge) => Diverge
  end.

Definition start_p2p_sync (schedule : list Turn) (self : FrostSigner) (rng : Rng) (n : N)
    : res Empty_set (Process * list Event) :=
  p ← process_start self rng n;
  mret (turns self schedule p).

(** ** What the process handles *)
Definition handled (es : list Event) : list Message :=
  omap (fun e => match e with Handled m => Some m | _ => None end) es.
Definition got (es : list Event) : list (option Message) :=
  omap (fun e => match e with Got o => Some o | _ => None end) es.

Definition accepted (self : FrostSigner) (l : list (option Message)) : list Message :=
  accepted_messages (cfg_public_keys (fs_config self)) (cfg_coordinator_public_key (fs_config self)) l.

Lemma accepted_cons (self : FrostSigner) (o : option Message) (l : list (option Message)) :
  accepted self (o :: l) = accepted self [o] ++ accepted self l.
Proof.
  unfold accepted, accepted_messages. destruct o as [m|]; simpl; [|done].
  rewrite !filter_cons. by case_decide.
Qed.

Lemma poll_turn_channel (self : FrostSigner) (p p' : Process) (e : Event) :
  poll_turn self p = (p', e) ->
  exists o, e = Got o /\ pr_channel p' = pr_channel p ++ accepted self [o] /\
    pr_round p' = pr_round p /\ pr_exit p' = None.
Proof.
  unfold poll_turn, poll_step, accepted, accepted_messages.
  destruct (net_next_message _) as [n [m|]]; simpl.
  - destruct (verify_msg m _ _) as [[]|[]| |] eqn:Hv; simpl; intros [= <- <-]; simpl;
      exists (Some m); split_and!; try done; simpl; rewrite filter_cons;
      case_decide; try congruence; by rewrite ?app_nil_r.
  - intros [= <- <-]. exists None. simpl. by rewrite app_nil_r.
Qed.

Lemma exit_after_not_ok (r : res SignerError unit) : exit_after r <> Some (Ok tt).
Proof. destruct r as [[]| | |]; simpl; congruence. Qed.

Lemma handle_inbound_round (sk : Scalar) (m : Message) (s : SignerST) :
  (resting (state s.1.1) = true -> resting (state (handle_inbound sk m s).1.1.1) = true) /\
  static (handle_inbound sk m s).1.1.1 = static s.1.1.
Proof.
  destruct s as [[round rng] n]. unfold handle_inbound. rewrite M_bind_eq.
  unfold on_round, zoom, with_err. simpl.
  pose proof (process_resting (msg m) (round, rng)) as Hr.
  pose proof (process_static (msg m) (round, rng)) as Hs.
  destruct (process (msg m) (round, rng)) as [[round' rng'] r]. simpl in *.
  destruct r as [outs| | |]; simpl; [|done..].
  assert (forall s, s.1 = (round', rng') ->
    (for_each (fun out => m ← lift (sign_outbound sk out); on_net (net_send_message m)) outs s).1.1
      = (round', rng')) as Hsend.
  { clear. induction outs as [|out outs IH]; intros s Hs; [done|]. simpl.
    rewrite M_bind_eq, M_bind_eq. unfold lift. destruct (sign_outbound sk out) as [m'| | |]; try done.
    unfold on_net, zoom, with_err. destruct (net_send_message m' s.2) as [n' [[]| | |]]; simpl; try done.
    by apply IH. }
  rewrite Hsend by done. done.
Qed.

Record fine (self : FrostSigner) (round : SigningRound) (p : Process) : Prop := {
  fine_exit : pr_exit p <> Some (Ok tt);
  fine_state : resting (state (pr_round p)) = true;
  fine_static : static (pr_round p) = static round
}.

Lemma turn_fine (self : FrostSigner) (round : SigningRound) (t : Turn) (p p' : Process) (e : Event) :
  fine self round p -> turn self t p = (p', e) ->
  fine self round p' /\
  handled [e] ++ pr_channel p' = pr_channel p ++ accepted self (got [e]).
Proof.
  intros [He Hr Hs] Ht. unfold turn in Ht.
  destruct (pr_exit p) eqn:Hx; [injection Ht as <- <-; split; [split; congruence|by rewrite app_nil_r]|].
  destruct t.
  - destruct (pr_poller p); [|injection Ht as <- <-; split; [split; congruence|by rewrite app_nil_r]..].
    destruct (poll_turn_channel _ _ _ _ Ht) as (o & -> & Hc & Hround & Hex).
    split; [split; congruence|]. exact Hc.
  - unfold sign_turn in Ht. destruct (pr_channel p) as [|inbound rest] eqn:Hc.
    + destruct (pr_poller p); injection Ht as <- <-; simpl;
        (split; [split; simpl; congruence|by rewrite ?Hc]).
    + pose proof (handle_inbound_round (cfg_network_private_key (fs_config self)) inbound
        (pr_round p, pr_rng p, pr_net p)) as [H1 H2].
      destruct (handle_inbound _ _ _) as [[[r' g'] n'] r]. injection Ht as <- <-. simpl in *.
      split; [|by rewrite app_nil_r]. split; simpl; [apply exit_after_not_ok|by apply H1|congruence].
Qed.

Lemma turns_fine (self : FrostSigner) (round : SigningRound) (schedule : list Turn) (p p' : Process)
    (es : list Event) :
  fine self round p -> turns self schedule p = (p', es) ->
  fine self round p' /\ handled es ++ pr_channel p' = pr_channel p ++ accepted self (got es).
Proof.
  revert p es. induction schedule as [|t schedule IH]; intros p es Hf Ht; simpl in Ht.
  { injection Ht as <- <-. split; [done|]. simpl. by rewrite app_nil_r. }
  destruct (turn self t p) as [p1 e] eqn:He. destruct (turns self schedule p1) as [p2 es'] eqn:Hes.
  injection Ht as <- <-. destruct (turn_fine _ _ _ _ _ _ Hf He) as [Hf1 H1].
  destruct (IH p1 es' Hf1 Hes) as [Hf2 H2]. split; [done|].
  change (e :: es') with ([e] ++ es'). unfold handled, got in *. rewrite !omap_app, <-app_assoc, H2.
  rewrite app_assoc, H1, <-app_assoc. f_equal.
  destruct e; simpl; [|done..]. symmetry. apply accepted_cons.
Qed.

Lemma start_fine (schedule : list Turn) (self : FrostSigner) (rng : Rng) (n : N) (p : Process)
    (es : list Event) :
  start_p2p_sync schedule self rng n = Ok (p, es) ->
  exists rng' round, SigningRound_from (E := Empty_set) self rng = (rng', Ok round) /\
    fine self round p /\ handled es ++ pr_channel p = accepted self (got es).
Proof.
  unfold start_p2p_sync, process_start.
  destruct (SigningRound_from self rng) as [rng' [round| | |]] eqn:Hfrom; try done.
  intros Hrun. injection Hrun as Hrun. exists rng', round. split; [done|].
  apply turns_fine with (round := round) in Hrun; [done|]. split; simpl; [done| |done].
  unfold SigningRound_from in Hfrom. by repeat (case_match; simplify_eq).
Qed.

(** C13: however the two threads are scheduled, the messages the signing round
    handles, followed by those still in the channel, are exactly the received
    messages that verify, in the order of their arrival; the round rests in its
    initial or a key generation state with its configuration unchanged; and
    [start_p2p_sync] never returns [Ok]. *)
Theorem process_handles_verified (schedule : list Turn) (self : FrostSigner) (rng : Rng) (n : N)
    (p : Process) (es : list Event) (Hrun : start_p2p_sync schedule self rng n = Ok (p, es)) :
  handled es ++ pr_channel p = accepted self (got es) /\
  resting (state (pr_round p)) = true /\
  sr_public_keys (pr_round p) = cfg_public_keys (fs_config self) /\
  sr_network_private_key (pr_round p) = cfg_network_private_key (fs_config self) /\
  pr_exit p <> Some (Ok tt).
Proof.
  destruct (start_fine _ _ _ _ _ _ Hrun) as (rng' & round & Hfrom & [He Hr Hs] & Hh).
  split; [done|]. split; [done|].
  assert (sr_public_keys round = cfg_public_keys (fs_config self) /\
          sr_network_private_key round = cfg_network_private_key (fs_config self)) as [<- <-].
  { unfold SigningRound_from in Hfrom. repeat (case_match; simplify_eq). done. }
  unfold static in Hs. by simplify_eq/=.
Qed.

(** ** One message ends the process *)
Fixpoint sign_turns (schedule : list Turn) : nat :=
  match schedule with
  | [] => O
  | SignTurn :: schedule' => S (sign_turns schedule')
  | PollTurn :: schedule' => sign_turns schedule'
  end.

Lemma turns_over (self : FrostSigner) (schedule : list Turn) (p : Process) (r : res SignerError unit) :
  pr_exit p = Some r -> exists es, turns self schedule p = (p, es) /\ got es = [].
Proof.
  intros Hr. induction schedule as [|t schedule (es & IH & Hes)]; [by exists []|].
  exists (Waiting :: es). simpl. unfold turn. by rewrite Hr, IH.
Qed.

(** Without the polling thread the signing thread works off the channel and
    returns. *)
Lemma turns_closed (self : FrostSigner) (schedule : list Turn) (p : Process) :
  pr_exit p = None -> pr_poller p <> Polling -> (length (pr_channel p) < sign_turns schedule)%nat ->
  exists p' es r, turns self schedule p = (p', es) /\ got es = [] /\ pr_exit p' = Some r /\
    (pr_channel p = [] -> r = Err RecvError).
Proof.
  revert p. induction schedule as [|t schedule IH]; intros p Hx Hp Hlen; simpl in Hlen; [lia|].
  simpl. unfold turn. rewrite Hx. destruct t.
  - assert (exists p' es r, turns self schedule p = (p', es) /\ got es = [] /\ pr_exit p' = Some r /\
      (pr_channel p = [] -> r = Err RecvError)) as (p' & es & r & He & Hg & Hr) by by apply IH.
    destruct (pr_poller p); [done| |]; rewrite He; by exists p', (Waiting :: es), r.
  - unfold sign_turn. destruct (pr_channel p) as [|inbound rest] eqn:Hc.
    + destruct (pr_poller p); [done| |];
        (edestruct turns_over as (es & -> & Hes); [reflexivity|]);
        by eexists _, (Waiting :: es), (Err RecvError).
    + destruct (handle_inbound _ _ _) as [[[round rng] n] r]. destruct (exit_after r) as [r'|] eqn:Hr.
      * edestruct turns_over as (es & -> & Hes); [reflexivity|].
        by eexists _, (Handled inbound :: es), r'.
      * edestruct IH as (p' & es & r' & -> & Hg & Hr' & _); [| | |]; simpl.
        -- done.
        -- done.
        -- simpl in Hlen. lia.
        -- by eexists p', (Handled inbound :: es), r'.
Qed.

(** C32: one message ends a signer, without a valid signature: [DkgPrivateShares]
    in the name of any known key whose shares are not numbered [0, 1, ..., n - 1]
    makes the polling thread panic while it verifies the message; nothing is
    polled any more, and as soon as the channel is worked off [start_p2p_sync]
    returns an error. *)
Theorem forged_shares_end_signer (self : FrostSigner) (p : Process) (n : N) (m : Message)
    (s : DkgPrivateShares) (key : PublicKey) (schedule : list Turn)
    (Hexit : pr_exit p = None) (Hpoll : pr_poller p = Polling)
    (Hnext : net_next_message (net_poll (fs_signer_id self) (pr_net p)) = (n, Some m))
    (Hm : msg m = MDkgPrivateShares s) (Hid : in_u32 (dprs_key_id s + 1))
    (Hkey : pk_key_ids (cfg_public_keys (fs_config self)) !! (dprs_key_id s + 1) = Some key)
    (Hsize : Z.of_nat (size (dprs_private_shares s)) < 2 ^ 32)
    (Hshares : dom (dprs_private_shares s) <>
       (list_to_set : _ -> gset Z) (seqZ 0 (Z.of_nat (size (dprs_private_shares s)))))
    (Hturns : (length (pr_channel p) < sign_turns schedule)%nat) :
  exists p' es r, turns self (PollTurn :: schedule) p = (p', es) /\ got es = [Some m] /\
    pr_exit p' = Some r /\ (pr_channel p = [] -> r = Err RecvError).
Proof.
  assert (verify_msg m (cfg_public_keys (fs_config self)) (cfg_coordinator_public_key (fs_config self))
          = Panic) as Hv.
  { rewrite verify_msg_eq by by rewrite Hm. rewrite Hm. simpl. rewrite Hkey. simpl.
    unfold verify. apply (private_shares_hash_panics s Hsize) in Hshares.
    change (preimage (MDkgPrivateShares s)) with (preimage s). by rewrite Hshares. }
  cbn [turns]. unfold turn. rewrite Hexit, Hpoll. unfold poll_turn, poll_step. cbn [pl_net].
  rewrite Hnext, Hv. cbn [snd fst].
  edestruct turns_closed as (p' & es & r & -> & Hg & Hr & Hrecv); [| | |].
  - done.
  - done.
  - exact Hturns.
  - exists p', (Got (Some m) :: es), r. split_and!; try done. simpl. by f_equal.
Qed.
End Process.

(** ** The binaries *)
Section Mains.
Context {CP : P256k1} {WP : Wsts} {PP : ConfigParsers} {BP : BuildProfile}.
Context {N : Type} {NL : NetListen N}.

(** [stacks_signer::Signer] *)
Record StacksSigner := { frost_signer_of : FrostSigner }.
Definition StacksSigner_new (config : Config) (id : Z) : StacksSigner :=
  {| frost_signer_of := FrostSigner_new config id |}.
Definition StacksSigner_start (schedule : list Turn) (s : StacksSigner) (rng : Rng) (n : N) :
    res Empty_set (Process * list Event) := start_p2p_sync schedule (frost_signer_of s) rng n.

(** How far [main] has come under a schedule. *)
Inductive MainEnd :=
  | Running (p : Process (N := N))
  | Logged                                   (* an error was logged, [main] returned *)
  | Printed (text : string)
  | WroteKey (path content : string).

Inductive SignerCommand :=
  | Run (id : Z) (config : string)
  | PrivateKey (filepath : option string)
  | PublicKeyOf (config : string).

(** [Scalar::random], [Display], [Point::from(&Scalar)], [File::create]. *)
Class KeyTools := {
  scalar_random : Rng -> Scalar * Rng;
  scalar_to_string : Scalar -> string;
  point_from_scalar : Scalar -> Point;
  point_to_string : Point -> string;
  can_create : string -> bool
}.

(** [Secp256k1::generate_private_key] *)
Definition generate_private_key {KT : KeyTools} (filepath : option string) (rng : Rng)
    : res IoError MainEnd :=
  let private_key := (scalar_random rng).1 in
  match filepath with
  | Some path =>
      if can_create path then Ok (WroteKey path (scalar_to_string private_key)) else Err IoErrorOpaque
  | None => Ok (Printed (scalar_to_string private_key))
  end.

(** The [main] of [stacks-signer]: every error is a panic. *)
Definition stacks_signer_main {KT : KeyTools} (schedule : list Turn) (command : SignerCommand)
    (rng : Rng) (n : N) : res Empty_set MainEnd :=
  match command with
  | Run id config =>
      config ← unwrap_ok (Config_from_path config);
      '(p, _) ← StacksSigner_start schedule (StacksSigner_new config id) rng n;
      match pr_exit p with
      | None => mret (Running p)
      | Some r => unwrap_ok r ;; mret Logged
      end
  | PrivateKey filepath => unwrap_ok (generate_private_key filepath rng)
  | PublicKeyOf config =>
      config ← unwrap_ok (Config_from_path config);
      mret (Printed (point_to_string (point_from_scalar (cfg_network_private_key config))))
  end.

(** The [main] of [frost-signer]: errors are logged. *)
Definition frost_signer_main (schedule : list Turn) (id : Z) (config : string) (rng : Rng) (n : N)
    : res Empty_set MainEnd :=
  match Config_from_path config with
  | Ok config =>
      '(p, _) ← start_p2p_sync schedule (FrostSigner_new config id) rng n;
      match pr_exit p with
      | None => mret (Running p)
      | Some (Ok _) | Some (Err _) => mret Logged
      | Some Panic => Panic
      | Some Diverge => Diverge
      end
  | Err _ => mret Logged
  | Panic => Panic
  | Diverge => Diverge
  end.

(** The same signer under the two binaries: both run, or both panic, or the one
    panics where the other logs an error and ends successfully. *)
Lemma signer_mains {KT : KeyTools} (schedule : list Turn) (id : Z) (config : string) (rng : Rng) (n : N) :
  let frost := frost_signer_main schedule id config rng n in
  let stacks := stacks_signer_main schedule (Run id config) rng n in
  stacks = match frost with Ok (Running p) => Ok (Running p) | Diverge => Diverge | _ => Panic end.
Proof.
  unfold frost_signer_main, stacks_signer_main, StacksSigner_start.
  destruct (Config_from_path config) as [c| | |]; simpl; try done.
  destruct (start_p2p_sync schedule (FrostSigner_new c id) rng n) as [[p es]|[]| |] eqn:Hs; simpl; try done.
  destruct (pr_exit p) as [[[]| | |]|] eqn:He; simpl; try done.
  by destruct (start_fine schedule (FrostSigner_new c id) rng n p es Hs) as (_ & _ & _ & [[]] & _).
Qed.

(** The [main] of [frost-coordinator]. *)
Definition frost_coordinator_main {WA : WstsAggregator} {HC : HttpClient} {BO : Backoff}
    (fuel : nat) (config : string) (command : Command) (w : World)
    : res Empty_set (option (Coordinator (N := HttpNetListen * World))) :=
  match create_coordinator_from_path config w with
  | Ok coordinator =>
      let '(coordinator', r) := FrostCoordinator.run fuel command coordinator in
      match r with
      | Ok _ | Err _ => mret (Some coordinator')
      | Panic => Panic
      | Diverge => Diverge
      end
  | Err _ => mret None
  | Panic => Panic
  | Diverge => Diverge
  end.
End Mains.

Module SignerProcessWitness.
Import ToyCrypto.
Import Toy.
Import ScriptNet.
Import FrostSignerWitness.

(** A forged and a genuine message, one polling turn more than messages. *)
Definition schedule : list Turn :=
  [SignTurn; PollTurn; PollTurn; SignTurn; PollTurn; SignTurn; PollTurn].
Definition started := start_p2p_sync (CP := toy_p256k1) schedule (frost 1 10) 0 net0.

Lemma process_handles_verified_witness :
  match started with
  | Ok (p, es) =>
      handled es ++ pr_channel p = accepted (frost 1 10) (got es) /\ handled es = [begin] /\
      resting (state (pr_round p)) = true
  | _ => False
  end.
Proof.
  assert (match started with Ok (_, es) => Some (handled es) | _ => None end = Some [begin]) as Hb by run.
  destruct started as [[p es]|[]| |] eqn:Hs; [|discriminate Hb..].
  destruct (process_handles_verified (CP := toy_p256k1) schedule (frost 1 10) 0 net0 p es Hs)
    as (Hh & Hr & _).
  injection Hb as Hb. split; [exact Hh|]. split; [exact Hb|exact Hr].
Defined.

(** Shares in the name of key 1, numbered from 5, with an empty signature. *)
Definition bad_shares : DkgPrivateShares :=
  {| dprs_dkg_id := 1; dprs_key_id := 0; dprs_private_shares := {[5 := []]} |}.
Definition forgery : Message := {| msg := MDkgPrivateShares bad_shares; sig := [] |}.
Definition waiting : Process (N := Script) :=
  mkProcess (script [Some forgery; Some begin]) BASE_TIMEOUT [] Polling
    (round_in 1 10 [0; 1] Idle) (0 : Rng) None.

Lemma forged_shares_end_signer_witness :
  exists p' es r, turns (CP := toy_p256k1) (frost 1 10) [PollTurn; PollTurn; SignTurn; PollTurn] waiting
    = (p', es) /\ got es = [Some forgery] /\ pr_exit p' = Some r /\
    (pr_channel waiting = [] -> r = Err RecvError).
Proof.
  eapply (forged_shares_end_signer (CP := toy_p256k1) (frost 1 10) waiting _ forgery bad_shares).
  - reflexivity.
  - reflexivity.
  - reflexivity.
  - reflexivity.
  - by_compute.
  - reflexivity.
  - reflexivity.
  - by_compute.
  - simpl. lia.
Defined.
End SignerProcessWitness.
