(* ===== verification/JsRpc.v ===== *)
(** * [yarpc/src/rpc]: calls to a JavaScript process

    [Js] starts [deno] with a script and exchanges lines of JSON with it over
    its standard input and output.  The process and [serde_json] are external
    ([JsProcess], [JsJson]); reading is [Http.read_string_until], the bytes of a
    line taken one by one as characters. *)
From S2P Require Import Prelude Http.

(** The error kinds of [io::Error] that a call can return. *)
Inductive JsError :=
  | SpawnFailed
  | NoStdio                          (* take_to_io_result on None *)
  | WriteFailed
  | ReadFailed
  | JsonFailed
  | CallFailed (message : rstring).  (* the Err of the script *)

(** A child process: [child_write] gives it bytes on its standard input,
    [child_output] are the bytes it has written and nobody has read, and
    [child_done] says that no more will come. *)
Class JsProcess := {
  Child : Type;
  spawn : string -> list string -> option Child;
  has_stdio : Child -> bool;
  child_write : bytes -> Child -> option Child;
  child_output : Child -> bytes;
  child_read : bytes -> Child -> Child;      (* leaves these bytes unread *)
  child_done : Child -> bool
}.

(** [serde_json]: [to_string] of the input, and [from_str] to [Result<O, String>]. *)
Class JsJson := {
  JsIn : Type;
  JsOut : Type;
  to_json : JsIn -> option rstring;
  from_json : rstring -> option (JsOut + rstring)
}.

Section Js.
Context {JP : JsProcess} {JJ : JsJson}.

(** [DispatchCommand]: a command name and its argument. *)
Definition DispatchCommand (T : Type) : Type := (string * T)%type.

Record Js := { js_child : Child }.

(** [Js::new] *)
Definition Js_new (path : string) : res JsError Js :=
  child ← ok_or (spawn "deno" ["run"; "--allow-env"; "--allow-read"; "--allow-net"; path]) SpawnFailed;
  if has_stdio child then mret {| js_child := child |} else Err NoStdio.

Definition write_stdin (b : bytes) : M Js JsError unit := fun js =>
  match child_write b (js_child js) with
  | Some c => ({| js_child := c |}, Ok tt)
  | None => (js, Err WriteFailed)
  end.

(** [stdout.read_string_until('\n')]: it waits when the line is incomplete and
    the process still runs. *)
Definition read_reply : M Js JsError rstring := fun js =>
  let '(rest, r) := read_string_until LF [] (child_output (js_child js)) in
  let js' := {| js_child := child_read rest (js_child js) |} in
  match r with
  | Ok s => (js', Ok s)
  | _ => (js', if child_done (js_child js) then Err ReadFailed else Diverge)
  end.

Definition js_to_io_result {A : Type} (r : A + rstring) : res JsError A :=
  match r with inl a => Ok a | inr e => Err (CallFailed e) end.

(** [Rpc::call] for [Js] *)
Definition js_call (input : JsIn) : M Js JsError JsOut :=
  i ← lift (ok_or (to_json input) JsonFailed);
  write_stdin (utf8 i) ;;
  write_stdin [LF] ;;
  o ← read_reply;
  result ← lift (ok_or (from_json o) JsonFailed);
  lift (js_to_io_result result).

Fixpoint js_calls (inputs : list JsIn) (js : Js) : Js * list (res JsError JsOut) :=
  match inputs with
  | [] => (js, [])
  | i :: inputs' =>
      let '(js1, r) := js_call i js in
      let '(js2, rs) := js_calls inputs' js1 in (js2, r :: rs)
  end.

(** ** A script that answers every line with a line

    [answer] maps the text of a request to the text of its reply; both are
    single lines ([JSON.stringify] and [serde_json] escape line breaks). *)
Class LineServer (answer : rstring -> rstring) := {
  ready : Child -> Prop;
  ready_answers : forall c line, ready c -> LF ∉ utf8 line ->
    exists c1 c2, child_write (utf8 line) c = Some c1 /\ child_write [LF] c1 = Some c2 /\
      child_output c2 = utf8 (answer line) ++ [LF] /\ ready (child_read [] c2);
  answer_line : forall line, LF ∉ utf8 (answer line)
}.

(** What the caller makes of a reply's text: its UTF-8 bytes, each as a character. *)
Definition decode_reply (reply : rstring) : res JsError JsOut :=
  result ← ok_or (from_json (utf8 reply)) JsonFailed;
  js_to_io_result result.

Definition reply_to (answer : rstring -> rstring) (input : JsIn) : res JsError JsOut :=
  i ← ok_or (to_json input) JsonFailed;
  decode_reply (answer i).

Section Answers.
Context (answer : rstring -> rstring) {LS : LineServer answer}.
Hypothesis one_line : forall i s, to_json i = Some s -> LF ∉ utf8 s.

Lemma js_call_answer (input : JsIn) (js : Js) : ready (js_child js) ->
  exists js', js_call input js = (js', reply_to answer input) /\ ready (js_child js').
Proof.
  intros Hr. unfold js_call, reply_to. rewrite M_bind_eq. unfold lift at 1.
  destruct (to_json input) as [s|] eqn:Hs; simpl; [|by exists js].
  destruct (ready_answers _ s Hr (one_line _ _ Hs)) as (c1 & c2 & Hw1 & Hw2 & Ho & Hr').
  rewrite M_bind_eq. unfold write_stdin at 1. rewrite Hw1.
  rewrite M_bind_eq. unfold write_stdin. simpl. rewrite Hw2.
  rewrite M_bind_eq. unfold read_reply. simpl. rewrite Ho, read_string_until_app by apply answer_line.
  simpl. rewrite M_bind_eq. unfold decode_reply, lift.
  exists {| js_child := child_read [] c2 |}. split; [|done].
  by destruct (ok_or (from_json _) _) as [r| | |].
Qed.

(** calls to a script that answers every line with a line are answered in
    order, each with its own reply, and leave nothing unread; an error of the
    script is the error of the call.  The reply that is parsed is not the
    script's text but its UTF-8 bytes taken as characters, so only ASCII
    replies arrive unchanged. *)
Theorem js_calls_answered (inputs : list JsIn) (js : Js) (Hready : ready (js_child js)) :
  exists js', js_calls inputs js = (js', reply_to answer <$> inputs) /\ ready (js_child js') /\
    forall i s, to_json i = Some s -> ascii (answer s) ->
      reply_to answer i = (r ← ok_or (from_json (answer s)) JsonFailed; js_to_io_result r).
Proof.
  assert (forall i s, to_json i = Some s -> ascii (answer s) ->
      reply_to answer i = (r ← ok_or (from_json (answer s)) JsonFailed; js_to_io_result r)) as Hascii.
  { intros i s Hs Ha. unfold reply_to, decode_reply. rewrite Hs. simpl. by rewrite utf8_ascii. }
  revert js Hready. induction inputs as [|i inputs IH]; intros js Hr; simpl; [by exists js|].
  destruct (js_call_answer i js Hr) as (js1 & -> & Hr1). destruct (IH js1 Hr1) as (js2 & -> & Hr2 & _).
  by exists js2.
Qed.
End Answers.
End Js.

Module JsRpcWitness.
(** A script that answers a line with [+] and one e acute ([233]) per byte of
    the line; a text that starts with [+] is an [Ok], with [-] an [Err]. *)
Record Script := { typed : bytes; shown : bytes }.
Definition script_answer (line : rstring) : rstring := 43 :: replicate (length (utf8 line)) 233.
Definition script_write (b : bytes) (c : Script) : option Script :=
  Some (if bool_decide (b = [LF])
        then {| typed := []; shown := shown c ++ utf8 (43 :: replicate (length (typed c)) 233) ++ [LF] |}
        else {| typed := typed c ++ b; shown := shown c |}).

#[export] Instance script_process : JsProcess := {|
  Child := Script;
  spawn _ _ := Some {| typed := []; shown := [] |};
  has_stdio _ := true;
  child_write := script_write;
  child_output := shown;
  child_read b c := {| typed := typed c; shown := b |};
  child_done _ := false
|}.

#[export] Instance text_json : JsJson := {|
  JsIn := rstring;
  JsOut := rstring;
  to_json s := if decide (LF ∉ utf8 s) then Some s else None;
  from_json s := match s with 43 :: v => Some (inl v) | 45 :: e => Some (inr e) | _ => None end
|}.

Lemma accents_line (n : nat) : LF ∉ utf8 (43 :: replicate n 233).
Proof.
  unfold utf8. simpl. apply not_elem_of_cons. split; [done|].
  induction n as [|n IH]; simpl; [by apply not_elem_of_nil|]. by rewrite !not_elem_of_cons.
Qed.

#[export] Instance script_server : LineServer (JP := script_process) script_answer.
Proof.
  refine {| ready := fun c : Child => typed c = [] /\ shown c = [] |}.
  - intros [t o] line [Ht Ho] Hline. simpl in *. subst.
    eexists _, _. unfold script_write. rewrite bool_decide_false by (intros Heq; rewrite Heq in Hline; set_solver).
    split_and!; done.
  - intros line. apply accents_line.
Defined.

Definition js0 : Js := {| js_child := ({| typed := []; shown := [] |} : Child) |}.

(** The reply to the one-byte request is one e acute; the caller gets the two
    bytes of its encoding. *)
Lemma js_calls_answered_witness :
  (js_calls (JJ := text_json) [[65]; [65; 66]; [LF]] js0).2 =
  [Ok [195; 169]; Ok [195; 169; 195; 169]; Err JsonFailed].
Proof.
  destruct (js_calls_answered (JJ := text_json) script_answer
    (fun i s => ltac:(simpl; case_decide; intros [= <-]; assumption)) [[65]; [65; 66]; [LF]] js0)
    as (js' & -> & _).
  - split; reflexivity.
  - reflexivity.
Defined.
End JsRpcWitness.
