(* ===== verification/ApiTypes.v ===== *)
(** * [stacks-signer-api/src]: the data of the signer API

    [transaction.rs], [vote.rs] and [config.rs]: what the API stores and
    exchanges, and how a configuration is built from a key or a file.  The
    textual form of an enumeration is derived by [parse_display] with
    [style = "lowercase"]: [LowercaseEnum].  [secp256k1], [hex], [toml] and the
    file system are external ([ApiKeys], [ApiFiles]). *)
From S2P Require Import Prelude.

(** ** [#[derive(Display, FromStr)]] of an enumeration

    [enum_name] prints a variant; parsing finds the variant with that name. *)
Class LowercaseEnum (T : Type) := {
  variants : list T;
  enum_name : T -> string;
  variants_complete : forall t, t ∈ variants;
  enum_name_inj : forall t t', enum_name t = enum_name t' -> t = t'
}.

Fixpoint find_variant {T : Type} (name : T -> string) (s : string) (l : list T) : option T :=
  match l with
  | [] => None
  | t :: l' => if bool_decide (name t = s) then Some t else find_variant name s l'
  end.
Definition enum_parse `{LowercaseEnum T} (s : string) : option T := find_variant enum_name s variants.

Lemma enum_parse_Some `{LowercaseEnum T} (s : string) (t : T) :
  enum_parse s = Some t <-> s = enum_name t.
Proof.
  unfold enum_parse. pose proof (variants_complete t) as Hin. revert Hin.
  induction variants as [|v l IH]; simpl; [by intros ?%not_elem_of_nil|]. intros Hin.
  case_bool_decide as Hv.
  - split; [by intros [= <-]|]. intros ->. f_equal. by apply enum_name_inj.
  - apply elem_of_cons in Hin as [->|Hin]; [|by apply IH]. split; [|congruence].
    clear -Hv. intros Hf. exfalso. revert Hf. induction l as [|w l IH]; simpl; [done|].
    case_bool_decide; [|done]. congruence.
Qed.

#[global] Arguments enum_name : simpl never.
#[global] Arguments enum_parse : simpl never.

Lemma enum_roundtrip `{LowercaseEnum T} (t : T) : enum_parse (enum_name t) = Some t.
Proof. by apply enum_parse_Some. Qed.

(** ** [vote.rs] *)
Inductive VoteChoice := Approve | Reject.
Inductive VoteMechanism := Auto | Manual.
Inductive VoteStatus := VotePending | Approved | Rejected | NoConsensus.

#[export] Instance VoteChoice_eq_dec : EqDecision VoteChoice.
Proof. solve_decision. Defined.
#[export] Instance VoteMechanism_eq_dec : EqDecision VoteMechanism.
Proof. solve_decision. Defined.
#[export] Instance VoteStatus_eq_dec : EqDecision VoteStatus.
Proof. solve_decision. Defined.

Definition VoteChoice_name (c : VoteChoice) : string :=
  match c with Approve => "approve" | Reject => "reject" end.
Definition VoteMechanism_name (m : VoteMechanism) : string :=
  match m with Auto => "auto" | Manual => "manual" end.
Definition VoteStatus_name (s : VoteStatus) : string :=
  match s with
  | VotePending => "pending"
  | Approved => "approved"
  | Rejected => "rejected"
  | NoConsensus => "noconsensus"
  end.

#[export, refine] Instance VoteChoice_enum : LowercaseEnum VoteChoice :=
  {| variants := [Approve; Reject]; enum_name := VoteChoice_name |}.
Proof. 1: intros []; set_solver. by intros [] []. Defined.
#[export, refine] Instance VoteMechanism_enum : LowercaseEnum VoteMechanism :=
  {| variants := [Auto; Manual]; enum_name := VoteMechanism_name |}.
Proof. 1: intros []; set_solver. by intros [] []. Defined.
#[export, refine] Instance VoteStatus_enum : LowercaseEnum VoteStatus :=
  {| variants := [VotePending; Approved; Rejected; NoConsensus]; enum_name := VoteStatus_name |}.
Proof. 1: intros []; set_solver. by intros [] []. Defined.

(** The current tally of a transaction. *)
Record VoteTally := {
  target_consensus : Z;
  current_consensus : Z;
  vote_status : VoteStatus
}.
Record Vote := {
  vote_txid : string;
  vote_tally : VoteTally;
  vote_choice : option VoteChoice;
  vote_mechanism : VoteMechanism
}.
Record VoteRequest := {
  request_txid : string;
  signing_delegator : string;
  request_choice : VoteChoice
}.
Record VoteResponse := { response_choice : VoteChoice; response_tally : VoteTally }.

#[export] Instance VoteTally_eq_dec : EqDecision VoteTally.
Proof. solve_decision. Defined.
#[export] Instance Vote_eq_dec : EqDecision Vote.
Proof. solve_decision. Defined.

(** ** [transaction.rs] *)
Inductive TransactionAddress := BitcoinAddr (a : string) | StacksAddr (a : string).

Inductive TransactionKind :=
  | DepositReveal
  | WithdrawalReveal
  | WithdrawalFulfill
  | WalletHandoff.
#[export] Instance TransactionKind_eq_dec : EqDecision TransactionKind.
Proof. solve_decision. Defined.
#[export] Instance TransactionAddress_eq_dec : EqDecision TransactionAddress.
Proof. solve_decision. Defined.

Definition TransactionKind_name (k : TransactionKind) : string :=
  match k with
  | DepositReveal => "depositreveal"
  | WithdrawalReveal => "withdrawalreveal"
  | WithdrawalFulfill => "withdrawalfulfill"
  | WalletHandoff => "wallethandoff"
  end.
#[export, refine] Instance TransactionKind_enum : LowercaseEnum TransactionKind :=
  {| variants := [DepositReveal; WithdrawalReveal; WithdrawalFulfill; WalletHandoff];
     enum_name := TransactionKind_name |}.
Proof. 1: intros []; set_solver. by intros [] []. Defined.

Record ApiTransaction := {
  txid : string;
  transaction_kind : TransactionKind;
  transaction_block_height : option Z;
  transaction_deadline_block_height : Z;
  transaction_amount : Z;
  transaction_fees : Z;
  memo : bytes;
  transaction_originator_address : TransactionAddress;
  transaction_debit_address : TransactionAddress;
  transaction_credit_address : TransactionAddress
}.
#[export] Instance ApiTransaction_eq_dec : EqDecision ApiTransaction.
Proof. solve_decision. Defined.

Definition Transaction_default : ApiTransaction := {|
  txid := "0000000000000000000000000000000000000000000000000000000000000000";
  transaction_kind := DepositReveal;
  transaction_block_height := None;
  transaction_deadline_block_height := 0;
  transaction_amount := 0;
  transaction_fees := 0;
  memo := [];
  transaction_originator_address := BitcoinAddr "originator";
  transaction_debit_address := BitcoinAddr "escrow bitcoin wallet";
  transaction_credit_address := StacksAddr "sBTC protocol address"
|}.

(** The fields of the [u64] columns are in range. *)
Definition transaction_ok (t : ApiTransaction) : Prop :=
  (forall h, transaction_block_height t = Some h -> in_u64 h) /\
  in_u64 (transaction_deadline_block_height t) /\
  in_u64 (transaction_amount t) /\ in_u64 (transaction_fees t).
Definition tally_ok (v : VoteTally) : Prop :=
  in_u64 (target_consensus v) /\ in_u64 (current_consensus v).

Record TransactionResponse := {
  resp_transaction : ApiTransaction;
  resp_vote_tally : VoteTally;
  resp_vote_choice : option VoteChoice;
  resp_vote_mechanism : VoteMechanism
}.

(** ** [config.rs] *)
Class ApiKeys := {
  SecretKey : Type;
  ApiPublicKey : Type;
  ApiPublicKey_eq_dec :: EqDecision ApiPublicKey;
  secret_from_slice : bytes -> option SecretKey;
  secret_bytes : SecretKey -> bytes;
  public_from_secret : SecretKey -> ApiPublicKey;
  public_to_string : ApiPublicKey -> string;
  public_from_str : string -> option ApiPublicKey;
  hex_encode : bytes -> string;
  hex_decode : string -> option bytes
}.
Class ApiKeysLaws `{ApiKeys} := {
  secret_roundtrip : forall k, secret_from_slice (secret_bytes k) = Some k;
  public_roundtrip : forall k, public_from_str (public_to_string k) = Some k;
  secret_bytes_u8 : forall k, Forall in_u8 (secret_bytes k);
  hex_roundtrip : forall b, Forall in_u8 b -> hex_decode (hex_encode b) = Some b
}.

Lemma public_to_string_inj `{ApiKeysLaws} : Inj eq eq public_to_string.
Proof. intros k k' Heq. apply (f_equal public_from_str) in Heq. rewrite !public_roundtrip in Heq. congruence. Qed.

Inductive ApiConfigError := HexError | Secp256k1Error | IOError | TomlError.

Section Config.
Context {AK : ApiKeys}.

Definition DEFAULT_MAX_AMOUNT : Z := 100000.

Record RawApiConfig := {
  raw_secret_key : SecretKey;
  raw_delegate_public_key : option ApiPublicKey;
  raw_delegator_public_keys : option (list ApiPublicKey);
  raw_auto_deny_addresses : option (list string);
  raw_auto_approve_max_amount : option Z
}.
Record ApiConfig := {
  secret_key : SecretKey;
  auto_approve_max_amount : Z;
  delegate_public_key : ApiPublicKey;
  delegator_public_keys : list ApiPublicKey;
  auto_deny_addresses : list string
}.

(** [std::fs::read_to_string] and [toml::from_str]. *)
Class ApiFiles := {
  read_to_string : string -> option string;
  toml_raw_config : string -> option RawApiConfig
}.

Definition Config_new (sk : SecretKey) : ApiConfig :=
  {| secret_key := sk; delegate_public_key := public_from_secret sk;
     auto_approve_max_amount := DEFAULT_MAX_AMOUNT; delegator_public_keys := [];
     auto_deny_addresses := [] |}.

Definition Config_from_secret_key (s : string) : res ApiConfigError ApiConfig :=
  secret_bytes ← ok_or (hex_decode s) HexError;
  sk ← ok_or (secret_from_slice secret_bytes) Secp256k1Error;
  mret (Config_new sk).

Definition Config_try_from (raw : RawApiConfig) : ApiConfig :=
  {| secret_key := raw_secret_key raw;
     delegate_public_key :=
       default (public_from_secret (raw_secret_key raw)) (raw_delegate_public_key raw);
     auto_approve_max_amount := default DEFAULT_MAX_AMOUNT (raw_auto_approve_max_amount raw);
     delegator_public_keys := default [] (raw_delegator_public_keys raw);
     auto_deny_addresses := default [] (raw_auto_deny_addresses raw) |}.

Definition RawConfig_from_path {AF : ApiFiles} (path : string) : res ApiConfigError RawApiConfig :=
  text ← ok_or (read_to_string path) IOError;
  ok_or (toml_raw_config text) TomlError.

Definition Config_from_path {AF : ApiFiles} (path : string) : res ApiConfigError ApiConfig :=
  Config_try_from <$> RawConfig_from_path path.

(** A file with a secret key alone gives the configuration of that key. *)
Lemma Config_try_from_bare (sk : SecretKey) :
  Config_try_from {| raw_secret_key := sk; raw_delegate_public_key := None;
    raw_delegator_public_keys := None; raw_auto_deny_addresses := None;
    raw_auto_approve_max_amount := None |} = Config_new sk.
Proof. done. Qed.
End Config.

(** ** An executable instance

    Hexadecimal text as [hex] reads and writes it; a secret key is a boolean and
    a public key its text. *)
Module ToyApi.
Definition hex_digit (n : Z) : Ascii.ascii :=
  default Ascii.zero (String.get (Z.to_nat n) "0123456789abcdef").
Definition hex_value (c : Ascii.ascii) : option Z :=
  head (filter (fun n => hex_digit n = c \/
    String.get (Z.to_nat n) "0123456789ABCDEF" = Some c) (seqZ 0 16)).

Fixpoint hex_text (b : bytes) : string :=
  match b with
  | [] => ""
  | x :: b' => String (hex_digit (x / 16)) (String (hex_digit (x mod 16)) (hex_text b'))
  end.
Fixpoint hex_bytes (s : string) : option bytes :=
  match s with
  | EmptyString => Some []
  | String c (String d s') =>
      x ← hex_value c; y ← hex_value d; b ← hex_bytes s'; Some (x * 16 + y :: b)
  | _ => None
  end.

Lemma hex_value_digit (n : Z) : 0 <= n < 16 -> hex_value (hex_digit n) = Some n.
Proof.
  intros Hn. assert (Forall (fun n => hex_value (hex_digit n) = Some n) (seqZ 0 16)) as Hall by by_compute.
  rewrite Forall_forall in Hall. apply Hall, elem_of_seqZ. lia.
Qed.

Lemma hex_bytes_text (b : bytes) : Forall in_u8 b -> hex_bytes (hex_text b) = Some b.
Proof.
  unfold in_uint. induction 1 as [|x b Hx _ IH]; [done|]. simpl hex_text. cbn [hex_bytes].
  pose proof (Z.mod_pos_bound x 16 eq_refl). pose proof (Z.div_mod x 16 ltac:(done)).
  rewrite !hex_value_digit by lia. simpl. rewrite IH. simpl. do 2 f_equal. lia.
Qed.

#[export] Instance toy_keys : ApiKeys := {|
  SecretKey := bool;
  ApiPublicKey := string;
  secret_from_slice b := 
    match b with
    | [1] => Some true
    | [0] => Some false
    | _ => if bool_decide (length b = 32%nat) then Some true else None
    end;
  secret_bytes k := [if k then 1 else 0];
  public_from_secret k := (if k then "pk1" else "pk0")%string;
  public_to_string k := k;
  public_from_str s := Some s;
  hex_encode := hex_text;
  hex_decode := hex_bytes
|}.
#[export, refine] Instance toy_keys_laws : ApiKeysLaws := {|
  hex_roundtrip := hex_bytes_text
|}.
Proof.
  - by intros [].
  - done.
  - intros []; by_compute.
Defined.
End ToyApi.
