(* ===== verification/Sql.v ===== *)
(** * SQL tables with a primary key

    The statements the signer API uses on its SQLite tables.  A table is the
    list of its rows in the order of their row ids, which is the order in which
    SQLite returns the rows of a [SELECT] without [ORDER BY]; [sql_replace] is
    [REPLACE INTO] (the conflicting row is deleted, the new one comes last). *)
From S2P Require Import Prelude.

Section Table.
Context {K R : Type} `{EqDecision K} (key : R -> K).
Implicit Types (t : list R) (r : R) (k : K).

Definition sql_delete k t : list R := filter (fun r => key r <> k) t.
Definition sql_replace r t : list R := sql_delete (key r) t ++ [r].
(** [SELECT .. WHERE key = k], [fetch_one]. *)
Definition sql_lookup k t : option R := head (filter (fun r => key r = k) t).
(** [k IN (SELECT key FROM t)] *)
Definition sql_mem k t : bool := bool_decide (k ∈ key <$> t).

(** The primary key constraint. *)
Definition keyed t : Prop := NoDup (key <$> t).

Lemma elem_of_delete k t r : r ∈ sql_delete k t <-> r ∈ t /\ key r <> k.
Proof. unfold sql_delete. rewrite list_elem_of_filter. tauto. Qed.

Lemma elem_of_replace r0 t r : r ∈ sql_replace r0 t <-> r = r0 \/ (r ∈ t /\ key r <> key r0).
Proof. unfold sql_replace. rewrite elem_of_app, elem_of_delete, list_elem_of_singleton. tauto. Qed.

Lemma fmap_delete k t : key <$> sql_delete k t = filter (fun k' => k' <> k) (key <$> t).
Proof.
  unfold sql_delete. induction t as [|r t IH]; [done|]. rewrite fmap_cons, !filter_cons.
  destruct (decide (key r <> k)); rewrite ?fmap_cons; by rewrite IH.
Qed.

Lemma keyed_delete k t : keyed t -> keyed (sql_delete k t).
Proof. unfold keyed. rewrite fmap_delete. apply NoDup_filter. Qed.

Lemma keyed_replace r t : keyed t -> keyed (sql_replace r t).
Proof.
  intros Ht. unfold keyed, sql_replace. rewrite fmap_app. apply NoDup_app. split_and!.
  - by apply keyed_delete.
  - intros k Hk. rewrite fmap_delete, list_elem_of_filter in Hk. simpl. set_solver.
  - apply NoDup_singleton.
Qed.

Lemma lookup_Some_elem k t r : sql_lookup k t = Some r -> r ∈ t /\ key r = k.
Proof.
  unfold sql_lookup. intros H. assert (r ∈ filter (fun r => key r = k) t) as Hin.
  { destruct (filter _ t); simpl in H; simplify_eq. left. }
  apply list_elem_of_filter in Hin. tauto.
Qed.

Lemma elem_lookup t r : keyed t -> r ∈ t -> sql_lookup (key r) t = Some r.
Proof.
  unfold keyed, sql_lookup. intros Hk. induction t as [|a t IH]; [by intros ?%not_elem_of_nil|].
  rewrite fmap_cons, NoDup_cons in Hk. destruct Hk as [Ha Hk].
  intros [->|Hin]%elem_of_cons; rewrite filter_cons; [by rewrite decide_True|].
  rewrite decide_False; [by apply IH|]. intros Heq. apply Ha. rewrite Heq. by apply list_elem_of_fmap_2.
Qed.

Lemma lookup_None k t : sql_lookup k t = None <-> k ∉ key <$> t.
Proof.
  split.
  - intros H (r & -> & Hin)%list_elem_of_fmap. unfold sql_lookup in H.
    assert (r ∈ filter (fun r' => key r' = key r) t) as Hf by by apply list_elem_of_filter.
    destruct (filter _ t); [by apply not_elem_of_nil in Hf|done].
  - intros Hk. destruct (sql_lookup k t) as [r|] eqn:Hr; [|done].
    apply lookup_Some_elem in Hr as [Hin <-]. exfalso. by apply Hk, list_elem_of_fmap_2.
Qed.

Lemma lookup_delete_self k t : sql_lookup k (sql_delete k t) = None.
Proof. apply lookup_None. rewrite fmap_delete, list_elem_of_filter. tauto. Qed.

Lemma lookup_delete_other k k' t : k' <> k -> sql_lookup k' (sql_delete k t) = sql_lookup k' t.
Proof.
  intros Hne. unfold sql_lookup, sql_delete. f_equal. rewrite list_filter_filter. apply list_filter_iff.
  intros r. naive_solver.
Qed.

Lemma lookup_replace r k t :
  sql_lookup k (sql_replace r t) = if decide (key r = k) then Some r else sql_lookup k t.
Proof.
  case_decide as Hk.
  - subst k. unfold sql_lookup, sql_replace. rewrite filter_app.
    assert (filter (fun r0 => key r0 = key r) (sql_delete (key r) t) = []) as ->.
    { apply elem_of_nil_inv. intros x [Heq Hx]%list_elem_of_filter. by apply elem_of_delete in Hx as [_ ?]. }
    rewrite filter_cons. by rewrite decide_True.
  - unfold sql_lookup at 1. unfold sql_replace. rewrite filter_app, filter_cons, decide_False by done.
    rewrite app_nil_r. change (head (filter (fun r0 => key r0 = k) (sql_delete (key r) t)))
      with (sql_lookup k (sql_delete (key r) t)). by apply lookup_delete_other.
Qed.

Lemma lookup_app_single r k t :
  sql_lookup k (t ++ [r]) =
    match sql_lookup k t with
    | Some r' => Some r'
    | None => if decide (key r = k) then Some r else None
    end.
Proof.
  unfold sql_lookup. rewrite filter_app, filter_cons.
  destruct (filter (fun r0 => key r0 = k) t) as [|x l]; [|done]. simpl. by case_decide.
Qed.

Lemma sql_mem_lookup k t : sql_mem k t = bool_decide (is_Some (sql_lookup k t)).
Proof.
  unfold sql_mem. apply bool_decide_ext. destruct (sql_lookup k t) as [r|] eqn:Hr.
  - apply lookup_Some_elem in Hr as [Hin <-]. split; [eauto|]. intros _. by apply list_elem_of_fmap_2.
  - apply lookup_None in Hr. split; [done|]. by intros [? ?].
Qed.

Lemma sql_mem_true k t : sql_mem k t = true <-> k ∈ key <$> t.
Proof. unfold sql_mem. by rewrite bool_decide_eq_true. Qed.

Lemma delete_absent k t : k ∉ key <$> t -> sql_delete k t = t.
Proof.
  intros Hk. unfold sql_delete. induction t as [|r t IH]; [done|].
  rewrite fmap_cons, not_elem_of_cons in Hk. destruct Hk as [Hr Hk].
  rewrite filter_cons, decide_True by congruence. f_equal. by apply IH.
Qed.
End Table.

(** A view of the rows that keeps their keys commutes with the statements. *)
Lemma fmap_sql_delete {K R R' : Type} `{EqDecision K} (key : R -> K) (key' : R' -> K) (f : R -> R')
    (k : K) (t : list R) :
  (forall r, key' (f r) = key r) -> f <$> sql_delete key k t = sql_delete key' k (f <$> t).
Proof.
  intros Hf. unfold sql_delete. induction t as [|r t IH]; [done|].
  rewrite fmap_cons, !filter_cons, Hf. destruct (decide (key r <> k)); rewrite ?fmap_cons; by rewrite IH.
Qed.

Lemma fmap_sql_lookup {K R R' : Type} `{EqDecision K} (key : R -> K) (key' : R' -> K) (f : R -> R')
    (k : K) (t : list R) :
  (forall r, key' (f r) = key r) -> sql_lookup key' k (f <$> t) = f <$> sql_lookup key k t.
Proof.
  intros Hf. unfold sql_lookup. induction t as [|r t IH]; [done|].
  rewrite fmap_cons, !filter_cons, Hf. by destruct (decide (key r = k)).
Qed.

Lemma Forall2_sql_delete {K R R' : Type} `{EqDecision K} (key : R -> K) (key' : R' -> K)
    (P : R -> R' -> Prop) (k : K) (t : list R) (t' : list R') :
  (forall r r', P r r' -> key r = key' r') -> Forall2 P t t' ->
  Forall2 P (sql_delete key k t) (sql_delete key' k t').
Proof.
  intros Hkey. unfold sql_delete. induction 1 as [|r r' t t' Hr _ IH]; [constructor|].
  rewrite !filter_cons. pose proof (Hkey r r' Hr) as Heq.
  destruct (decide (key r <> k)), (decide (key' r' <> k)); [by constructor|naive_solver..|done].
Qed.

Lemma fmap_sql_replace_inj {A B : Type} `{EqDecision A, EqDecision B} (f : A -> B) `{!Inj eq eq f}
    (a : A) (l : list A) :
  f <$> sql_replace id a l = sql_replace id (f a) (f <$> l).
Proof.
  unfold sql_replace. rewrite fmap_app. f_equal. unfold sql_delete, id.
  induction l as [|b l IH]; [done|]. rewrite fmap_cons, !filter_cons.
  destruct (decide (b <> a)) as [Hb|Hb], (decide (f b <> f a)) as [Hf|Hf].
  - by rewrite fmap_cons, IH.
  - destruct Hf. intros ?. by apply Hb, (inj f).
  - destruct Hb. congruence.
  - done.
Qed.
