(* ===== verification/ApiDb.v ===== *)
(** * [stacks-signer-api/src/db] and [migrations]: the signer API's database

    The tables of the migration with their primary keys, the foreign key of
    [votes] and the trigger [add_empty_vote]; every query of [config.rs],
    [transaction.rs] and [vote.rs] as a statement on them.  A statement is
    atomic; [faults] says which of the coming statements fail without effect
    ([true]), an empty list standing for no more faults.  Whether SQLite enforces
    foreign keys is a setting of the connection: [ForeignKeys]. *)
From S2P Require Import Prelude ApiTypes Sql.

Class ForeignKeys := foreign_keys : bool.

(** [sqlx::Error], as far as it is told apart, and [db::Error]. *)
Inductive SqlxError := RowNotFound | ConstraintViolation | DatabaseFault.
Inductive DbError :=
  | SqlxErr (e : SqlxError)
  | MalformedData
  | DbSecp256k1Error
  | SqlxMigrationError
  | InvalidSecretKey.

(** ** The tables *)
Record ConfigRow := {
  c_id : Z;
  c_secret_key : string;
  c_auto_approve_max_amount : Z;
  c_delegate_public_key : string
}.
Record TxRow := {
  t_txid : string;
  t_kind : string;
  t_block_height : option Z;
  t_deadline_block_height : Z;
  t_amount : Z;
  t_fees : Z;
  t_memo : bytes;
  t_originator_address : string;
  t_debit_address : string;
  t_credit_address : string
}.
Record VoteRow := {
  v_txid : string;
  v_status : string;
  v_choice : option string;
  v_mechanism : string;
  v_target_consensus : Z;
  v_current_consensus : Z
}.
Record Tables := {
  config : list ConfigRow;
  delegators : list string;
  denied : list string;
  transactions : list TxRow;
  votes : list VoteRow
}.
Definition empty_tables : Tables :=
  {| config := []; delegators := []; denied := []; transactions := []; votes := [] |}.

Definition set_config c (t : Tables) : Tables :=
  {| config := c; delegators := delegators t; denied := denied t;
     transactions := transactions t; votes := votes t |}.
Definition set_delegators d (t : Tables) : Tables :=
  {| config := config t; delegators := d; denied := denied t;
     transactions := transactions t; votes := votes t |}.
Definition set_denied d (t : Tables) : Tables :=
  {| config := config t; delegators := delegators t; denied := d;
     transactions := transactions t; votes := votes t |}.
Definition set_ballots tx v (t : Tables) : Tables :=
  {| config := config t; delegators := delegators t; denied := denied t;
     transactions := tx; votes := v |}.

(** The row the trigger [add_empty_vote] inserts. *)
Definition empty_vote_row (txid : string) : VoteRow :=
  {| v_txid := txid; v_status := "pending"; v_choice := None; v_mechanism := "manual";
     v_target_consensus := 70; v_current_consensus := 0 |}.

(** [AFTER INSERT ON transactions .. WHEN NEW.txid NOT IN (SELECT txid FROM votes)] *)
Definition add_empty_vote (txid : string) (vs : list VoteRow) : list VoteRow :=
  if sql_mem v_txid txid vs then vs else vs ++ [empty_vote_row txid].

Record Pool := { tables : Tables; faults : list bool }.

Section Db.
Context {FK : ForeignKeys} {AK : ApiKeys}.

(** [REPLACE INTO transactions]: a row with the same id is deleted first, which
    deletes its vote ([ON DELETE CASCADE]); then the trigger runs. *)
Definition replace_transaction (r : TxRow) (t : Tables) : Tables * res DbError unit :=
  let cascaded :=
    if foreign_keys && sql_mem t_txid (t_txid r) (transactions t)
    then sql_delete v_txid (t_txid r) (votes t) else votes t in
  (set_ballots (sql_replace t_txid r (transactions t)) (add_empty_vote (t_txid r) cascaded) t, Ok tt).

(** [REPLACE INTO votes], which references [transactions]. *)
Definition replace_vote (r : VoteRow) (t : Tables) : Tables * res DbError unit :=
  if foreign_keys && negb (sql_mem t_txid (v_txid r) (transactions t))
  then (t, Err (SqlxErr ConstraintViolation))
  else (set_ballots (transactions t) (sql_replace v_txid r (votes t)) t, Ok tt).

(** Running a statement on the pool. *)
Definition exec {A : Type} (stmt : Tables -> Tables * res DbError A) : M Pool DbError A := fun p =>
  match faults p with
  | true :: fs => ({| tables := tables p; faults := fs |}, Err (SqlxErr DatabaseFault))
  | fs => let '(t, r) := stmt (tables p) in ({| tables := t; faults := tail fs |}, r)
  end.
Definition query {A : Type} (f : Tables -> res DbError A) : M Pool DbError A :=
  exec (fun t => (t, f t)).
Definition update (f : Tables -> Tables) : M Pool DbError unit := exec (fun t => (f t, Ok tt)).

(** [fetch_one] *)
Definition fetch_one {A : Type} (o : option A) : res DbError A := ok_or o (SqlxErr RowNotFound).

(** ** [db/mod.rs] *)

(** The database behind a URL: [None] without a schema.  Migrating leaves the
    tables of a migrated database as they are. *)
Class Databases := connect : string -> option (option Tables).

Definition migrate (d : option Tables) : Tables := default empty_tables d.

Definition init_pool {DB : Databases} (path : option string) : res DbError Pool :=
  d ← match path with
      | Some path => ok_or (connect path) (SqlxErr DatabaseFault)
      | None => Ok None
      end;
  mret {| tables := migrate d; faults := [] |}.

(** ** [db/transaction.rs] *)
Definition transaction_row (t : ApiTransaction) : TxRow :=
  {| t_txid := txid t;
     t_kind := enum_name (transaction_kind t);
     t_block_height := as_i64 <$> transaction_block_height t;
     t_deadline_block_height := as_i64 (transaction_deadline_block_height t);
     t_amount := as_i64 (transaction_amount t);
     t_fees := as_i64 (transaction_fees t);
     t_memo := memo t;
     t_originator_address := "";
     t_debit_address := "";
     t_credit_address := "" |}.

Definition row_transaction (r : TxRow) : res DbError ApiTransaction :=
  kind ← ok_or (enum_parse (t_kind r)) MalformedData;
  mret {| txid := t_txid r;
          transaction_kind := kind;
          transaction_block_height := as_u64 <$> t_block_height r;
          transaction_deadline_block_height := as_u64 (t_deadline_block_height r);
          transaction_amount := as_u64 (t_amount r);
          transaction_fees := as_u64 (t_fees r);
          memo := t_memo r;
          transaction_originator_address := BitcoinAddr (t_originator_address r);
          transaction_debit_address := BitcoinAddr (t_debit_address r);
          transaction_credit_address := BitcoinAddr (t_credit_address r) |}.

Definition add_transaction (t : ApiTransaction) : M Pool DbError unit :=
  exec (replace_transaction (transaction_row t)).

Definition get_transactions : M Pool DbError (list ApiTransaction) :=
  rows ← query (fun t => Ok (transactions t));
  lift (mapR row_transaction rows).

Definition get_transaction_by_id (id : string) : M Pool DbError ApiTransaction :=
  row ← query (fun t => fetch_one (sql_lookup t_txid id (transactions t)));
  lift (row_transaction row).

(** ** [db/vote.rs] *)
Definition vote_row (v : Vote) : VoteRow :=
  {| v_txid := vote_txid v;
     v_status := enum_name (vote_status (vote_tally v));
     v_choice := enum_name <$> vote_choice v;
     v_mechanism := enum_name (vote_mechanism v);
     v_target_consensus := as_i64 (target_consensus (vote_tally v));
     v_current_consensus := as_i64 (current_consensus (vote_tally v)) |}.

(** [.map(|choice| choice.parse()).transpose()?] *)
Definition parse_choice (o : option string) : res DbError (option VoteChoice) :=
  match o with
  | None => Ok None
  | Some s => Some <$> ok_or (enum_parse s) MalformedData
  end.

Definition row_vote (r : VoteRow) : res DbError Vote :=
  status ← ok_or (enum_parse (v_status r)) MalformedData;
  choice ← parse_choice (v_choice r);
  mechanism ← ok_or (enum_parse (v_mechanism r)) MalformedData;
  mret {| vote_txid := v_txid r;
          vote_tally := {| vote_status := status;
                           target_consensus := as_u64 (v_target_consensus r);
                           current_consensus := as_u64 (v_current_consensus r) |};
          vote_choice := choice;
          vote_mechanism := mechanism |}.

Definition add_vote (v : Vote) : M Pool DbError unit := exec (replace_vote (vote_row v)).

Definition get_vote_by_id (id : string) : M Pool DbError Vote :=
  row ← query (fun t => fetch_one (sql_lookup v_txid id (votes t)));
  lift (row_vote row).

(** ** [db/config.rs] *)
Definition get_auto_deny_addresses : M Pool DbError (list string) := query (fun t => Ok (denied t)).

Definition get_delegator_public_keys : M Pool DbError (list ApiPublicKey) :=
  rows ← query (fun t => Ok (delegators t));
  lift (mapR (fun s => ok_or (public_from_str s) DbSecp256k1Error) rows).

Definition get_config : M Pool DbError ApiConfig :=
  row ← query (fun t => fetch_one (head (config t)));
  secret_bytes ← lift (ok_or (hex_decode (c_secret_key row)) InvalidSecretKey);
  sk ← lift (ok_or (secret_from_slice secret_bytes) DbSecp256k1Error);
  delegate ← lift (ok_or (public_from_str (c_delegate_public_key row)) DbSecp256k1Error);
  keys ← get_delegator_public_keys;
  addresses ← get_auto_deny_addresses;
  mret {| secret_key := sk;
          auto_approve_max_amount := as_u64 (c_auto_approve_max_amount row);
          delegate_public_key := delegate;
          delegator_public_keys := keys;
          auto_deny_addresses := addresses |}.

Definition config_row (c : ApiConfig) : ConfigRow :=
  {| c_id := 1;
     c_secret_key := hex_encode (secret_bytes (secret_key c));
     c_auto_approve_max_amount := as_i64 (auto_approve_max_amount c);
     c_delegate_public_key := public_to_string (delegate_public_key c) |}.

Definition update_config (c : ApiConfig) : M Pool DbError unit :=
  update (fun t => set_config (sql_replace c_id (config_row c) (config t)) t) ;;
  for_each (fun k => update (fun t =>
    set_delegators (sql_replace id (public_to_string k) (delegators t)) t)) (delegator_public_keys c) ;;
  for_each (fun a => update (fun t =>
    set_denied (sql_replace id a (denied t)) t)) (auto_deny_addresses c).
End Db.
