(* ===== verification/ApiSpec.v ===== *)
(** * What the signer API's database stores

    The abstract state behind the tables of [ApiDb]: the ballots (a transaction
    with its vote) in the order they were added, and the configuration.
    [represents] relates it to the tables; every database function is shown to
    be the corresponding operation on the abstract state, provided foreign keys
    are enforced. *)
From S2P Require Import Prelude ApiTypes Sql ApiDb.

(** ** Ballots *)
Record Ballot := { b_transaction : ApiTransaction; b_vote : Vote }.
Definition ballot_key (b : Ballot) : string := txid (b_transaction b).

(** The transaction as it is stored: its addresses are dropped. *)
Definition stored (t : ApiTransaction) : ApiTransaction :=
  {| txid := txid t; transaction_kind := transaction_kind t;
     transaction_block_height := transaction_block_height t;
     transaction_deadline_block_height := transaction_deadline_block_height t;
     transaction_amount := transaction_amount t; transaction_fees := transaction_fees t;
     memo := memo t; transaction_originator_address := BitcoinAddr "";
     transaction_debit_address := BitcoinAddr ""; transaction_credit_address := BitcoinAddr "" |}.
Definition empty_vote (id : string) : Vote :=
  {| vote_txid := id; vote_choice := None; vote_mechanism := Manual;
     vote_tally := {| target_consensus := 70; current_consensus := 0; vote_status := VotePending |} |}.

Definition with_vote (v : Vote) (b : Ballot) : Ballot :=
  if decide (ballot_key b = vote_txid v) then {| b_transaction := b_transaction b; b_vote := v |} else b.

Section Spec.
Context {AK : ApiKeys}.

Record Spec := {
  s_ballots : list Ballot;
  s_config : option (SecretKey * Z * ApiPublicKey);
  s_delegators : list ApiPublicKey;
  s_denied : list string
}.
Definition spec_empty : Spec :=
  {| s_ballots := []; s_config := None; s_delegators := []; s_denied := [] |}.

Definition set_s_ballots (bs : list Ballot) (s : Spec) : Spec :=
  {| s_ballots := bs; s_config := s_config s; s_delegators := s_delegators s;
     s_denied := s_denied s |}.

Definition spec_ballot (id : string) (s : Spec) : option Ballot :=
  sql_lookup ballot_key id (s_ballots s).
Definition spec_add (t : ApiTransaction) (s : Spec) : Spec :=
  set_s_ballots (sql_replace ballot_key
    {| b_transaction := stored t; b_vote := empty_vote (txid t) |} (s_ballots s)) s.
Definition spec_vote (v : Vote) (s : Spec) : Spec :=
  set_s_ballots (with_vote v <$> s_ballots s) s.
(** Old keys and addresses stay, those of the configuration come last. *)
Definition spec_update_config (c : ApiConfig) (s : Spec) : Spec :=
  {| s_ballots := s_ballots s;
     s_config := Some (secret_key c, auto_approve_max_amount c, delegate_public_key c);
     s_delegators := foldl (fun l k => sql_replace id k l) (s_delegators s) (delegator_public_keys c);
     s_denied := foldl (fun l a => sql_replace id a l) (s_denied s) (auto_deny_addresses c) |}.
Definition spec_config (s : Spec) : option ApiConfig :=
  '(sk, amount, delegate) ← s_config s;
  Some {| secret_key := sk; auto_approve_max_amount := amount; delegate_public_key := delegate;
          delegator_public_keys := s_delegators s; auto_deny_addresses := s_denied s |}.
End Spec.

(** ** Rows *)
Lemma row_transaction_row (t : ApiTransaction) :
  transaction_ok t -> row_transaction (transaction_row t) = Ok (stored t).
Proof.
  intros (Hh & Hd & Ha & Hf). unfold row_transaction, transaction_row. simpl.
  rewrite (enum_roundtrip (transaction_kind t)). simpl. rewrite !as_u64_as_i64 by done.
  unfold stored, mret, res_ret. do 2 f_equal.
  destruct (transaction_block_height t) as [h|]; [|done]. simpl. f_equal. by apply as_u64_as_i64, Hh.
Qed.

Lemma row_transaction_key (r : TxRow) (t : ApiTransaction) :
  row_transaction r = Ok t -> txid t = t_txid r.
Proof. unfold row_transaction. by intros (k & _ & [= <-])%res_bind_Ok_inv. Qed.

Lemma row_vote_row (v : Vote) : tally_ok (vote_tally v) -> row_vote (vote_row v) = Ok v.
Proof.
  intros [Ht Hc]. unfold row_vote, vote_row. simpl.
  rewrite (enum_roundtrip (vote_status _)), (enum_roundtrip (vote_mechanism v)). simpl.
  assert (parse_choice (enum_name <$> vote_choice v) = Ok (vote_choice v)) as ->.
  { destruct (vote_choice v) as [c|]; [|done]. simpl. by rewrite (enum_roundtrip c). }
  simpl. rewrite !as_u64_as_i64 by done. by destruct v as [? [] ? ?].
Qed.

Lemma row_vote_empty (id : string) : row_vote (empty_vote_row id) = Ok (empty_vote id).
Proof. done. Qed.

Lemma row_vote_tally (r : VoteRow) (v : Vote) : row_vote r = Ok v -> tally_ok (vote_tally v).
Proof.
  unfold row_vote. intros (? & _ & (? & _ & (? & _ & [= <-])%res_bind_Ok_inv)%res_bind_Ok_inv)%res_bind_Ok_inv.
  split; apply as_u64_range.
Qed.

Lemma row_vote_key (r : VoteRow) (v : Vote) : row_vote r = Ok v -> vote_txid v = v_txid r.
Proof.
  unfold row_vote. by intros (? & _ & (? & _ & (? & _ & [= <-])%res_bind_Ok_inv)%res_bind_Ok_inv)%res_bind_Ok_inv.
Qed.

(** ** The relation *)
Section Represents.
Context {FK : ForeignKeys} {AK : ApiKeys} {AL : ApiKeysLaws}.
Implicit Types (t : Tables) (s : Spec).

Definition config_rows s : list ConfigRow :=
  match s_config s with
  | None => []
  | Some (sk, amount, delegate) =>
      [{| c_id := 1; c_secret_key := hex_encode (secret_bytes sk);
          c_auto_approve_max_amount := as_i64 amount;
          c_delegate_public_key := public_to_string delegate |}]
  end.

(** A row of [transactions] is the transaction of a ballot, whose vote is the
    row of [votes] with its id.  The primary keys of the migration hold. *)
Definition votes_of t s : Prop := forall id,
  match sql_lookup v_txid id (votes t), spec_ballot id s with
  | Some r, Some b => row_vote r = Ok (b_vote b)
  | None, None => True
  | _, _ => False
  end.

Record represents t s : Prop := {
  rep_transactions : Forall2 (fun r b => row_transaction r = Ok (b_transaction b))
                       (transactions t) (s_ballots s);
  rep_keyed : keyed ballot_key (s_ballots s);
  rep_votes : votes_of t s;
  rep_config : config t = config_rows s;
  rep_amount : forall c, s_config s = Some c -> in_u64 c.1.2;
  rep_delegators : delegators t = public_to_string <$> s_delegators s;
  rep_denied : denied t = s_denied s;
  rep_vote_rows : keyed v_txid (votes t);
  rep_delegator_rows : keyed id (s_delegators s);
  rep_denied_rows : keyed id (s_denied s)
}.

(** What the tables hold then: each transaction has exactly one row of [votes], no
    other row is there, and every row can be read. *)
Definition well_voted t : Prop :=
  keyed t_txid (transactions t) /\ keyed v_txid (votes t) /\
  v_txid <$> votes t ≡ₚ t_txid <$> transactions t /\
  (forall r, r ∈ transactions t -> exists tx, row_transaction r = Ok tx) /\
  (forall r, r ∈ votes t -> exists v, row_vote r = Ok v).

Lemma represents_empty : represents empty_tables spec_empty.
Proof. split; try done; try constructor. Qed.

(** *** Reading *)
Lemma rep_lookup_transaction t s (id : string) :
  represents t s ->
  match sql_lookup t_txid id (transactions t), spec_ballot id s with
  | Some r, Some b => row_transaction r = Ok (b_transaction b)
  | None, None => True
  | _, _ => False
  end.
Proof.
  intros [Htx _ _ _ _ _ _ _ _ _]. unfold spec_ballot, sql_lookup.
  induction Htx as [|r b rs bs Hr _ IH]; [done|]. rewrite !filter_cons.
  assert (ballot_key b = t_txid r) as -> by by apply row_transaction_key.
  by destruct (decide (t_txid r = id)).
Qed.

Lemma rep_mem t s (id : string) :
  represents t s -> sql_mem t_txid id (transactions t) = bool_decide (is_Some (spec_ballot id s)).
Proof.
  intros Hrep. pose proof (rep_lookup_transaction t s id Hrep) as Hl.
  rewrite sql_mem_lookup. by destruct (sql_lookup _ _ _), (spec_ballot id s).
Qed.

Lemma rep_all_transactions t s :
  represents t s -> mapR row_transaction (transactions t) = Ok (b_transaction <$> s_ballots s).
Proof. intros Hrep. apply mapR_Forall2, Forall2_fmap_r, rep_transactions, Hrep. Qed.

Lemma rep_ballot_vote_key t s (id : string) (b : Ballot) :
  represents t s -> spec_ballot id s = Some b -> vote_txid (b_vote b) = id /\ ballot_key b = id.
Proof.
  intros Hrep Hb. pose proof (rep_votes _ _ Hrep id) as Hv. rewrite Hb in Hv.
  destruct (sql_lookup v_txid id (votes t)) as [r|] eqn:Hr; [|done].
  apply lookup_Some_elem in Hr as [_ <-]. split; [by apply row_vote_key|].
  unfold spec_ballot in Hb. by apply lookup_Some_elem in Hb as [_ ?].
Qed.

Lemma rep_well_voted t s : represents t s -> well_voted t.
Proof.
  intros Hrep. pose proof (rep_transactions _ _ Hrep) as Htx.
  assert (t_txid <$> transactions t = ballot_key <$> s_ballots s) as Hkeys.
  { clear Hrep. induction Htx as [|r b rs bs Hr _ IH]; [done|]. rewrite !fmap_cons, IH. f_equal. symmetry.
    by apply row_transaction_key. }
  assert (forall i, i ∈ v_txid <$> votes t <-> i ∈ t_txid <$> transactions t) as Hsame.
  { intros i. rewrite <-!sql_mem_true, (rep_mem _ _ _ Hrep), sql_mem_lookup. pose proof (rep_votes _ _ Hrep i) as Hv.
    by destruct (sql_lookup v_txid i (votes t)), (spec_ballot i s). }
  split_and!.
  - unfold keyed. rewrite Hkeys. apply Hrep.
  - apply Hrep.
  - apply NoDup_Permutation; [apply Hrep|rewrite Hkeys; apply Hrep|exact Hsame].
  - intros r Hr. apply list_elem_of_lookup in Hr as [i Hi]. destruct (Forall2_lookup_l _ _ _ _ _ Htx Hi) as (b & _ & Hb). eauto.
  - intros r Hr. pose proof (rep_votes _ _ Hrep (v_txid r)) as Hv. rewrite (elem_lookup v_txid _ r) in Hv; [|apply Hrep|done].
    destruct (spec_ballot (v_txid r) s) as [b|]; [eauto|done].
Qed.

(** *** Writing *)
Lemma spec_ballot_add (tx : ApiTransaction) s (id : string) :
  spec_ballot id (spec_add tx s) =
    if decide (txid tx = id) then Some {| b_transaction := stored tx; b_vote := empty_vote (txid tx) |}
    else spec_ballot id s.
Proof. unfold spec_ballot, spec_add. simpl. by rewrite lookup_replace. Qed.

Lemma with_vote_key (v : Vote) (b : Ballot) : ballot_key (with_vote v b) = ballot_key b.
Proof. unfold with_vote. by case_decide. Qed.

Lemma spec_ballot_vote (v : Vote) s (id : string) :
  spec_ballot id (spec_vote v s) = with_vote v <$> spec_ballot id s.
Proof. unfold spec_ballot, spec_vote. simpl. apply fmap_sql_lookup, with_vote_key. Qed.

(** Whatever vote was there, a re-added transaction starts with the empty one. *)
Lemma rep_cascade t s (tx : ApiTransaction) (id : string) :
  foreign_keys = true -> represents t s ->
  sql_lookup v_txid id (votes (replace_transaction (transaction_row tx) t).1) =
    if decide (txid tx = id) then Some (empty_vote_row id) else sql_lookup v_txid id (votes t).
Proof.
  intros Hfk Hrep. unfold replace_transaction. rewrite Hfk. simpl.
  set (cascaded := if sql_mem _ _ _ then _ else _).
  assert (sql_lookup v_txid (txid tx) cascaded = None) as Hnone.
  { unfold cascaded. rewrite (rep_mem _ _ _ Hrep). case_bool_decide as Hb; [apply lookup_delete_self|].
    pose proof (rep_votes _ _ Hrep (txid tx)) as Hv. apply eq_None_not_Some in Hb. rewrite Hb in Hv. by case_match. }
  assert (forall id, txid tx <> id -> sql_lookup v_txid id cascaded = sql_lookup v_txid id (votes t)) as Hother.
  { intros id' Hne. unfold cascaded. case_match; [|done]. by apply lookup_delete_other. }
  unfold add_empty_vote. rewrite sql_mem_lookup, Hnone, bool_decide_false by by intros [? ?].
  rewrite lookup_app_single. simpl. case_decide as Hid.
  - subst id. by rewrite Hnone.
  - rewrite Hother by done. by case_match.
Qed.

Lemma keyed_add_empty_vote (id : string) (vs : list VoteRow) : keyed v_txid vs -> keyed v_txid (add_empty_vote id vs).
Proof.
  intros Hv. unfold add_empty_vote. destruct (sql_mem v_txid id vs) eqn:Hm; [done|]. unfold keyed in *.
  rewrite fmap_app. apply NoDup_app. split_and!; [done| |apply NoDup_singleton].
  intros k Hk ->%list_elem_of_singleton. apply sql_mem_true in Hk. simpl in Hk. congruence.
Qed.

Lemma rep_add t s (tx : ApiTransaction) :
  foreign_keys = true -> transaction_ok tx -> represents t s ->
  represents (replace_transaction (transaction_row tx) t).1 (spec_add tx s).
Proof.
  intros Hfk Hok Hrep. pose proof Hrep as [Htx Hk _ Hc Ha Hd Hn Hv Hdk Hnk].
  split; try done.
  - simpl. unfold sql_replace. apply Forall2_app; [|constructor; [|constructor]].
    + eapply Forall2_sql_delete; [|done]. intros r b Hr. symmetry. by apply row_transaction_key.
    + by apply row_transaction_row.
  - by apply keyed_replace.
  - intros id. rewrite spec_ballot_add, (rep_cascade t s) by done.
    case_decide; [subst; apply row_vote_empty|apply Hrep].
  - simpl. apply keyed_add_empty_vote. case_match; [by apply keyed_delete|done].
Qed.

Lemma rep_vote t s (v : Vote) :
  foreign_keys = true -> tally_ok (vote_tally v) -> represents t s ->
  match spec_ballot (vote_txid v) s with
  | Some _ => exists t', replace_vote (vote_row v) t = (t', Ok tt) /\ represents t' (spec_vote v s)
  | None => replace_vote (vote_row v) t = (t, Err (SqlxErr ConstraintViolation))
  end.
Proof.
  intros Hfk Hok Hrep. unfold replace_vote. rewrite Hfk, (rep_mem _ s _ Hrep). change (v_txid (vote_row v)) with (vote_txid v).
  destruct (spec_ballot (vote_txid v) s) as [b|] eqn:Hb;
    [rewrite bool_decide_true by eauto|rewrite bool_decide_false by (by intros [? ?]); done].
  eexists. split; [done|]. pose proof Hrep as [Htx Hk _ Hc Ha Hd Hn Hv Hdk Hnk]. split; try done; [| | |by apply keyed_replace].
  - simpl. apply Forall2_fmap_r. eapply Forall2_impl; [done|]. intros r b' Hr.
    simpl. unfold with_vote. by destruct (decide _).
  - unfold spec_vote, keyed. simpl. rewrite <-list_fmap_compose.
    rewrite (list_fmap_ext _ ballot_key); [done|]. intros. apply with_vote_key.
  - intros id. rewrite spec_ballot_vote. simpl. rewrite lookup_replace. simpl.
    pose proof (rep_votes _ _ Hrep id) as Hid. case_decide as Heq.
    + subst id. rewrite Hb. simpl. rewrite row_vote_row by done.
      unfold with_vote. destruct (rep_ballot_vote_key _ _ _ _ Hrep Hb) as [_ ->].
      by rewrite decide_True.
    + destruct (sql_lookup v_txid id (votes t)) as [r|], (spec_ballot id s) as [b'|] eqn:Hb'; try done.
      simpl. unfold with_vote. destruct (rep_ballot_vote_key _ _ _ _ Hrep Hb') as [_ ->].
      by rewrite decide_False by done.
Qed.

Lemma rep_config_row t s (c : ApiConfig) :
  in_u64 (auto_approve_max_amount c) -> represents t s ->
  represents (set_config (sql_replace c_id (config_row c) (config t)) t)
    {| s_ballots := s_ballots s;
       s_config := Some (secret_key c, auto_approve_max_amount c, delegate_public_key c);
       s_delegators := s_delegators s; s_denied := s_denied s |}.
Proof.
  intros Hr Hrep. destruct Hrep as [? ? ? Hc ? ? ? ? ? ?]. split; try done.
  - simpl. rewrite Hc. unfold config_rows. by destruct (s_config s) as [[[? ?] ?]|].
  - simpl. by intros ? [= <-].
Qed.

Definition set_s_delegators l s : Spec :=
  {| s_ballots := s_ballots s; s_config := s_config s; s_delegators := l; s_denied := s_denied s |}.
Definition set_s_denied l s : Spec :=
  {| s_ballots := s_ballots s; s_config := s_config s; s_delegators := s_delegators s; s_denied := l |}.

Lemma rep_delegator t s (k : ApiPublicKey) :
  represents t s ->
  represents (set_delegators (sql_replace id (public_to_string k) (delegators t)) t)
    (set_s_delegators (sql_replace id k (s_delegators s)) s).
Proof.
  intros [? ? ? ? ? Hd ? ? Hdk ?]. split; try done; [|by apply keyed_replace]. simpl. rewrite Hd.
  pose proof public_to_string_inj. by rewrite fmap_sql_replace_inj.
Qed.

Lemma rep_deny t s (a : string) :
  represents t s ->
  represents (set_denied (sql_replace id a (denied t)) t)
    (set_s_denied (sql_replace id a (s_denied s)) s).
Proof. intros [? ? ? ? ? ? Hn ? ? Hnk]. split; try done; [|by apply keyed_replace]. simpl. by rewrite Hn. Qed.

(** ** The functions of [db] on a pool without faults *)
Definition calm t : Pool := {| tables := t; faults := [] |}.

Lemma update_calm (f : Tables -> Tables) t : update f (calm t) = (calm (f t), Ok tt).
Proof. done. Qed.

Lemma update_each_calm {A : Type} (f : A -> Tables -> Tables) (l : list A) t :
  for_each (fun a => update (f a)) l (calm t) = (calm (foldl (fun t a => f a t) t l), Ok tt).
Proof. revert t. induction l as [|a l IH]; intros t; simpl; [done|]. rewrite M_bind_eq. apply IH. Qed.

(** A relation kept by every step of two loops. *)
Lemma foldl_rel {A B X : Type} (R : A -> B -> Prop) (f : A -> X -> A) (g : B -> X -> B) (l : list X) a b :
  (forall a b x, R a b -> R (f a x) (g b x)) -> R a b -> R (foldl f a l) (foldl g b l).
Proof. intros Hstep. revert a b. induction l; simpl; auto. Qed.

Lemma add_transaction_calm t s (tx : ApiTransaction) :
  foreign_keys = true -> transaction_ok tx -> represents t s ->
  exists t', add_transaction tx (calm t) = (calm t', Ok tt) /\ represents t' (spec_add tx s).
Proof. intros ???. eexists. split; [|by apply rep_add]. done. Qed.

Lemma get_transactions_calm t s :
  represents t s -> get_transactions (calm t) = (calm t, Ok (b_transaction <$> s_ballots s)).
Proof.
  intros Hrep. unfold get_transactions. rewrite M_bind_eq. simpl. unfold lift.
  by rewrite (rep_all_transactions _ _ Hrep).
Qed.

Lemma get_transaction_by_id_calm t s (i : string) :
  represents t s ->
  get_transaction_by_id i (calm t) = (calm t, fetch_one (b_transaction <$> spec_ballot i s)).
Proof.
  intros Hrep. unfold get_transaction_by_id. rewrite M_bind_eq. simpl.
  pose proof (rep_lookup_transaction _ _ i Hrep) as Hl.
  destruct (sql_lookup t_txid i (transactions t)), (spec_ballot i s); try done.
  simpl. unfold lift. by rewrite Hl.
Qed.

Lemma get_vote_by_id_calm t s (i : string) :
  represents t s -> get_vote_by_id i (calm t) = (calm t, fetch_one (b_vote <$> spec_ballot i s)).
Proof.
  intros Hrep. unfold get_vote_by_id. rewrite M_bind_eq. simpl.
  pose proof (rep_votes _ _ Hrep i) as Hl.
  destruct (sql_lookup v_txid i (votes t)), (spec_ballot i s); try done.
  simpl. unfold lift. by rewrite Hl.
Qed.

Lemma add_vote_calm t s (v : Vote) (b : Ballot) :
  foreign_keys = true -> tally_ok (vote_tally v) -> represents t s ->
  spec_ballot (vote_txid v) s = Some b ->
  exists t', add_vote v (calm t) = (calm t', Ok tt) /\ represents t' (spec_vote v s).
Proof.
  intros Hfk Hok Hrep Hb. pose proof (rep_vote _ _ v Hfk Hok Hrep) as Hv. rewrite Hb in Hv.
  destruct Hv as (t' & Hrun & Hrep'). exists t'. split; [|done].
  unfold add_vote, exec. simpl. by rewrite Hrun.
Qed.

Lemma get_config_calm t s :
  represents t s -> get_config (calm t) = (calm t, fetch_one (spec_config s)).
Proof.
  intros [_ _ _ Hc Ha Hd Hn _ _ _]. unfold get_config. rewrite M_bind_eq. simpl. rewrite Hc.
  unfold config_rows, spec_config.
  destruct (s_config s) as [[[sk amount] delegate]|]; [|done]. simpl.
  rewrite M_bind_eq. unfold lift. rewrite hex_roundtrip by apply secret_bytes_u8. simpl.
  rewrite M_bind_eq. rewrite secret_roundtrip. simpl.
  rewrite M_bind_eq. rewrite public_roundtrip. simpl.
  rewrite M_bind_eq. unfold get_delegator_public_keys at 1. rewrite M_bind_eq. simpl. unfold lift.
  rewrite Hd. assert (mapR (fun x => ok_or (public_from_str x) DbSecp256k1Error)
    (public_to_string <$> s_delegators s) = Ok (s_delegators s)) as ->.
  { apply mapR_Forall2. clear -AL. induction (s_delegators s); constructor; [|done]. by rewrite public_roundtrip. }
  rewrite M_bind_eq. simpl. rewrite as_u64_as_i64, Hn; [done|]. by apply (Ha _ eq_refl).
Qed.

Lemma update_config_calm t s (c : ApiConfig) :
  in_u64 (auto_approve_max_amount c) -> represents t s ->
  exists t', update_config c (calm t) = (calm t', Ok tt) /\ represents t' (spec_update_config c s).
Proof.
  intros Hc Hrep. unfold update_config. eexists. split.
  - rewrite M_bind_eq, update_calm. simpl. rewrite M_bind_eq.
    rewrite (update_each_calm (fun k t => set_delegators (sql_replace id (public_to_string k)
      (delegators t)) t)). cbv beta iota.
    by rewrite (update_each_calm (fun a t => set_denied (sql_replace id a (denied t)) t)).
  - set (s1 := {| s_ballots := s_ballots s;
       s_config := Some (secret_key c, auto_approve_max_amount c, delegate_public_key c);
       s_delegators := s_delegators s; s_denied := s_denied s |}).
    assert (spec_update_config c s = foldl (fun s a => set_s_denied (sql_replace id a (s_denied s)) s)
      (foldl (fun s k => set_s_delegators (sql_replace id k (s_delegators s)) s) s1
        (delegator_public_keys c)) (auto_deny_addresses c)) as ->.
    { unfold spec_update_config. change (s_ballots s) with (s_ballots s1).
      change (s_delegators s) with (s_delegators s1). change (s_denied s) with (s_denied s1).
      change (Some _) with (s_config s1).
      generalize s1 (delegator_public_keys c) (auto_deny_addresses c). clear. intros s ks ads.
      revert s. induction ks as [|k ks IH]; intros s; simpl; [|by rewrite <-IH].
      revert s. induction ads as [|a ads IH]; intros s; simpl; [by destruct s|]. by rewrite <-IH. }
    apply (foldl_rel represents); [by intros; apply rep_deny|].
    apply (foldl_rel represents); [by intros; apply rep_delegator|]. by apply rep_config_row.
Qed.

(** ** Under faults

    [sound]: the tables represent some abstract state.  Every function keeps it,
    whichever statements fail. *)
Definition sound (p : Pool) : Prop := exists s, represents (tables p) s.

Lemma keeps_exec {A : Type} (stmt : Tables -> Tables * res DbError A) :
  (forall t s, represents t s -> exists s', represents (stmt t).1 s') -> keeps sound (exec stmt).
Proof.
  intros Hstmt p [s Hs]. unfold exec, sound. destruct (Hstmt _ _ Hs) as [s' Hs'].
  destruct (faults p) as [|[] fs]; simpl; [|by exists s|];
    (destruct (stmt (tables p)); simpl in *; by exists s').
Qed.
Lemma keeps_query {A : Type} (f : Tables -> res DbError A) : keeps sound (query f).
Proof. apply keeps_exec. eauto. Qed.
Lemma keeps_update (f : Tables -> Tables) :
  (forall t s, represents t s -> exists s', represents (f t) s') -> keeps sound (update f).
Proof. intros Hf. by apply keeps_exec. Qed.
#[local] Hint Resolve keeps_query : keeps.

Lemma keeps_add_transaction (tx : ApiTransaction) :
  foreign_keys = true -> transaction_ok tx -> keeps sound (add_transaction tx).
Proof. intros ??. apply keeps_exec. intros t s ?. eexists. by apply rep_add. Qed.

Lemma keeps_add_vote (v : Vote) :
  foreign_keys = true -> tally_ok (vote_tally v) -> keeps sound (add_vote v).
Proof.
  intros Hfk Hok. apply keeps_exec. intros t s Hrep. pose proof (rep_vote t s v Hfk Hok Hrep) as Hv.
  destruct (spec_ballot _ s); [destruct Hv as (t' & -> & ?)|rewrite Hv]; eauto.
Qed.

Lemma keeps_update_config (c : ApiConfig) :
  in_u64 (auto_approve_max_amount c) -> keeps sound (update_config c).
Proof.
  intros Hc. repeat (apply keeps_bind; [|intros _]);
    [|apply keeps_for_each; intros k _..]; apply keeps_update; intros t s Hrep; eexists.
  - by apply rep_config_row.
  - by apply rep_delegator.
  - by apply rep_deny.
Qed.

Lemma keeps_get_transactions : keeps sound get_transactions.
Proof. unfold get_transactions. auto with keeps. Qed.
Lemma keeps_get_transaction_by_id (i : string) : keeps sound (get_transaction_by_id i).
Proof. unfold get_transaction_by_id. auto with keeps. Qed.
Lemma keeps_get_vote_by_id (i : string) : keeps sound (get_vote_by_id i).
Proof. unfold get_vote_by_id. auto with keeps. Qed.
Lemma keeps_get_config : keeps sound get_config.
Proof. unfold get_config, get_delegator_public_keys, get_auto_deny_addresses. auto 20 with keeps. Qed.
End Represents.

#[export] Hint Resolve keeps_add_transaction keeps_add_vote keeps_update_config
  keeps_get_transactions keeps_get_transaction_by_id keeps_get_vote_by_id keeps_get_config : keeps.
