(* ===== verification/ApiRoutes.v ===== *)
(** * [stacks-signer-api/src/routes]: the handlers of the signer API

    One definition per handler, on the pool of [ApiDb]; [handle] runs a decoded
    request, [all_routes] decodes an HTTP request as the combined [warp] filters
    do.  The functional specification is [spec_handle] on the abstract state of
    [ApiSpec].  Decoding of JSON bodies and query strings is external. *)
From S2P Require Import Prelude ApiTypes Sql ApiDb ApiSpec.

(** ** Replies *)
Abbreviation OK := 200 (only parsing).
Abbreviation BAD_REQUEST := 400 (only parsing).
Abbreviation FORBIDDEN := 403 (only parsing).
Abbreviation NOT_FOUND := 404 (only parsing).
Abbreviation CONFLICT := 409 (only parsing).
Abbreviation INTERNAL_SERVER_ERROR := 500 (only parsing).

(** ** [paginate_items] *)
Section Paginate.
Context {BP : BuildProfile} {E A : Type}.

(** [&items[a..b]] *)
Definition slice (items : list A) (a b : Z) : res E (list A) :=
  if (0 <=? a) && (a <=? b) && (b <=? Z.of_nat (length items))
  then Ok (take (Z.to_nat (b - a)) (drop (Z.to_nat a) items)) else Panic.

Definition paginate_items (items : list A) (page limit : option Z) : res E (list A) :=
  let page := default 1 page in
  let limit := default usize_max limit in
  let len := Z.of_nat (length items) in
  previous ← usub 64 page 1;
  offset ← umul 64 previous limit;
  let start_index := Z.min len offset in
  bound ← uadd 64 start_index limit;
  let end_index := Z.min len bound in
  slice items (Z.min start_index end_index) end_index.
End Paginate.

Section Routes.
Context {FK : ForeignKeys} {AK : ApiKeys} {BP : BuildProfile}.

(** [TransactionQuery] *)
Record TransactionQuery := {
  q_page : option Z;
  q_limit : option Z;
  q_status : option VoteStatus
}.

Inductive ReplyBody :=
  | NoBody
  | ConfigBody (c : ApiConfig)
  | TransactionBody (r : TransactionResponse)
  | TransactionsBody (l : list TransactionResponse)
  | VoteBody (r : VoteResponse).
Record Reply := { status_code : Z; body : ReplyBody }.
Definition status (code : Z) : Reply := {| status_code := code; body := NoBody |}.
Definition json (b : ReplyBody) : Reply := {| status_code := OK; body := b |}.

(** The handlers return [Result<_, Infallible>]. *)
Abbreviation Handler := (M Pool Empty_set).

(** ** [config.rs] *)
Definition update_config_handler (c : ApiConfig) : Handler Reply :=
  r ← attempt (update_config c);
  mret (match r with Some _ => status OK | None => status NOT_FOUND end).

Definition get_config_handler : Handler Reply :=
  r ← attempt get_config;
  mret (match r with Some c => json (ConfigBody c) | None => status NOT_FOUND end).

(** ** [transactions.rs] *)
Definition transaction_response (tx : ApiTransaction) (v : Vote) : TransactionResponse :=
  {| resp_transaction := tx; resp_vote_tally := vote_tally v; resp_vote_choice := vote_choice v;
     resp_vote_mechanism := vote_mechanism v |}.

Definition get_transaction_by_id_handler (i : string) : Handler Reply :=
  tx ← attempt (get_transaction_by_id i);
  match tx with
  | Some tx =>
      vote ← attempt (get_vote_by_id i);
      mret (match vote with
            | Some vote => json (TransactionBody (transaction_response tx vote))
            | None => status INTERNAL_SERVER_ERROR
            end)
  | None => mret (status NOT_FOUND)
  end.

Definition keep_status (filter : option VoteStatus) (v : Vote) : bool :=
  match filter with
  | Some st => bool_decide (vote_status (vote_tally v) = st)
  | None => true
  end.

(** The loop of [get_transactions]; [None] is the early return. *)
Fixpoint filter_transactions (filter : option VoteStatus) (txs : list ApiTransaction)
    (filtered : list TransactionResponse) : Handler (option (list TransactionResponse)) :=
  match txs with
  | [] => mret (Some filtered)
  | tx :: txs' =>
      vote ← attempt (get_vote_by_id (txid tx));
      match vote with
      | Some vote =>
          filter_transactions filter txs'
            (if keep_status filter vote then filtered ++ [transaction_response tx vote] else filtered)
      | None => mret None
      end
  end.

Definition get_transactions_handler (q : TransactionQuery) : Handler Reply :=
  if bool_decide (q_page q = Some 0) then mret (status BAD_REQUEST)
  else
    txs ← attempt get_transactions;
    match txs with
    | Some txs =>
        filtered ← filter_transactions (q_status q) txs [];
        match filtered with
        | Some filtered =>
            results ← lift (paginate_items filtered (q_page q) (q_limit q));
            mret (json (TransactionsBody results))
        | None => mret (status INTERNAL_SERVER_ERROR)
        end
    | None => mret (status INTERNAL_SERVER_ERROR)
    end.

(** ** [vote.rs]

    The handler awaits the database twice; what it does up to the second call
    is [vote_check], a reply or the vote to store. *)
Definition cast (req : VoteRequest) (v : Vote) (consensus : Z) : Vote :=
  {| vote_txid := vote_txid v;
     vote_tally := {| target_consensus := target_consensus (vote_tally v);
                      current_consensus := consensus;
                      vote_status := vote_status (vote_tally v) |};
     vote_choice := Some (request_choice req);
     vote_mechanism := vote_mechanism v |}.

Definition decide_vote (req : VoteRequest) (v : Vote) : res Empty_set (Reply + Vote) :=
  match vote_choice v with
  | Some _ => Ok (inl (status CONFLICT))
  | None =>
      if negb (bool_decide (vote_status (vote_tally v) = VotePending))
      then Ok (inl (status FORBIDDEN))
      else
        consensus ← uadd 64 (current_consensus (vote_tally v)) 1;
        mret (inr (cast req v consensus))
  end.

Definition vote_check (req : VoteRequest) : Handler (Reply + Vote) :=
  vote ← attempt (get_vote_by_id (request_txid req));
  match vote with
  | Some vote => lift (decide_vote req vote)
  | None => mret (inl (status NOT_FOUND))
  end.

Definition vote_store (req : VoteRequest) (v : Vote) : Handler Reply :=
  r ← attempt (add_vote v);
  mret (match r with
        | Some _ => json (VoteBody {| response_choice := request_choice req;
                                      response_tally := vote_tally v |})
        | None => status INTERNAL_SERVER_ERROR
        end).

Definition vote_finish (req : VoteRequest) (r : Reply + Vote) : Handler Reply :=
  match r with
  | inl reply => mret reply
  | inr v => vote_store req v
  end.

Definition vote_handler (req : VoteRequest) : Handler Reply := vote_check req ≫= vote_finish req.

(** Two requests served at the same time, both waiting for the database once. *)
Definition vote_interleaved (req1 req2 : VoteRequest) : Handler (Reply * Reply) :=
  c1 ← vote_check req1;
  c2 ← vote_check req2;
  r1 ← vote_finish req1 c1;
  r2 ← vote_finish req2 c2;
  mret (r1, r2).

(** ** Requests *)
Inductive ApiRequest :=
  | PostConfig (c : ApiConfig)
  | GetConfig
  | GetTransactions (q : TransactionQuery)
  | GetTransaction (i : string)
  | PostVote (r : VoteRequest).

Definition handle (r : ApiRequest) : Handler Reply :=
  match r with
  | PostConfig c => update_config_handler c
  | GetConfig => get_config_handler
  | GetTransactions q => get_transactions_handler q
  | GetTransaction i => get_transaction_by_id_handler i
  | PostVote req => vote_handler req
  end.

(** Requests handled one after the other.  A panic ends the request, not the
    server. *)
Fixpoint serve (rs : list ApiRequest) (p : Pool) : Pool * list (res Empty_set Reply) :=
  match rs with
  | [] => (p, [])
  | r :: rs' =>
      let '(p1, reply) := handle r p in
      let '(p2, replies) := serve rs' p1 in (p2, reply :: replies)
  end.

(** ** [all_routes]

    The parts of an HTTP request that the filters look at. *)
Inductive ApiMethod := ApiGet | ApiPost.
#[export] Instance ApiMethod_eq_dec : EqDecision ApiMethod.
Proof. solve_decision. Defined.
Record ApiHttpRequest := {
  h_method : ApiMethod;
  h_path : list string;
  h_query : string;
  h_content_length : option Z;
  h_body : bytes
}.
Class ApiJson := {
  config_from_json : bytes -> option ApiConfig;
  vote_request_from_json : bytes -> option VoteRequest;
  transaction_query_from : string -> option TransactionQuery
}.

Section Filters.
Context {AJ : ApiJson}.
Implicit Types (h : ApiHttpRequest).

Definition matches (m : ApiMethod) (path : list string) h : option unit :=
  if bool_decide (h_method h = m) && bool_decide (h_path h = path) then Some tt else None.

(** [content_length_limit(1024 * 16).and(json())] *)
Definition json_body {T : Type} (decode : bytes -> option T) h : option T :=
  n ← h_content_length h;
  if n <=? 1024 * 16 then decode (h_body h) else None.

Definition update_config_route h : option ApiRequest :=
  matches ApiPost ["v1"; "config"] h ;; PostConfig <$> json_body config_from_json h.
Definition get_config_route h : option ApiRequest :=
  matches ApiGet ["v1"; "config"] h ;; Some GetConfig.
Definition get_transactions_route h : option ApiRequest :=
  matches ApiGet ["v1"; "transactions"] h ;; GetTransactions <$> transaction_query_from (h_query h).
Definition get_transaction_by_id_route h : option ApiRequest :=
  if bool_decide (h_method h = ApiGet) then
    match h_path h with
    | [a; b; i] => if bool_decide (a = "v1") && bool_decide (b = "transactions") && bool_decide (i <> ""%string)
                   then Some (GetTransaction i) else None
    | _ => None
    end
  else None.
Definition vote_route h : option ApiRequest :=
  matches ApiPost ["v1"; "vote"] h ;; PostVote <$> json_body vote_request_from_json h.

(** [or]: the next filter is tried when one rejects; [None] is a rejection,
    which [warp] answers itself. *)
Definition all_routes h : option ApiRequest :=
  union (update_config_route h) (union (get_config_route h) (union (get_transactions_route h)
    (union (get_transaction_by_id_route h) (vote_route h)))).
End Filters.
End Routes.

(** ** The specification of the API *)
Section Spec.
Context {FK : ForeignKeys} {AK : ApiKeys} {BP : BuildProfile}.

Definition ballot_response (b : Ballot) : TransactionResponse :=
  transaction_response (b_transaction b) (b_vote b).

(** The ballots a query selects, in the order they were added. *)
Definition spec_list (st : option VoteStatus) (s : Spec) : list TransactionResponse :=
  ballot_response <$> filter (fun b => keep_status st (b_vote b)) (s_ballots s).

Definition spec_handle (r : ApiRequest) (s : Spec) : Spec * res Empty_set Reply :=
  match r with
  | PostConfig c => (spec_update_config c s, Ok (status OK))
  | GetConfig =>
      (s, Ok (match spec_config s with Some c => json (ConfigBody c) | None => status NOT_FOUND end))
  | GetTransaction i =>
      (s, Ok (match spec_ballot i s with
              | Some b => json (TransactionBody (ballot_response b))
              | None => status NOT_FOUND
              end))
  | GetTransactions q =>
      (s, if bool_decide (q_page q = Some 0) then Ok (status BAD_REQUEST)
          else json ∘ TransactionsBody <$> paginate_items (spec_list (q_status q) s) (q_page q) (q_limit q))
  | PostVote req =>
      match spec_ballot (request_txid req) s with
      | None => (s, Ok (status NOT_FOUND))
      | Some b =>
          match decide_vote req (b_vote b) with
          | Ok (inl reply) => (s, Ok reply)
          | Ok (inr v) => (spec_vote v s, Ok (json (VoteBody {| response_choice := request_choice req;
                                                                response_tally := vote_tally v |})))
          | Err e => (s, Err e)
          | Panic => (s, Panic)
          | Diverge => (s, Diverge)
          end
      end
  end.

Fixpoint spec_serve (rs : list ApiRequest) (s : Spec) : Spec * list (res Empty_set Reply) :=
  match rs with
  | [] => (s, [])
  | r :: rs' =>
      let '(s1, reply) := spec_handle r s in
      let '(s2, replies) := spec_serve rs' s1 in (s2, reply :: replies)
  end.

(** A decoded request: its numbers fit their types. *)
Definition request_ok (r : ApiRequest) : Prop :=
  match r with PostConfig c => in_u64 (auto_approve_max_amount c) | _ => True end.
End Spec.

(** ** Lemmas *)
Section Lemmas.
Context {FK : ForeignKeys} {AK : ApiKeys} {AL : ApiKeysLaws} {BP : BuildProfile}.
Implicit Types (t : Tables) (s : Spec).

Lemma attempt_fetch {A : Type} (m : M Pool DbError A) t (o : option A) :
  m (calm t) = (calm t, fetch_one o) -> attempt (F := Empty_set) m (calm t) = (calm t, Ok o).
Proof. intros Hm. unfold attempt. rewrite Hm. by destruct o. Qed.

Lemma attempt_ok {A : Type} (m : M Pool DbError A) t t' (a : A) :
  m (calm t) = (calm t', Ok a) -> attempt (F := Empty_set) m (calm t) = (calm t', Ok (Some a)).
Proof. intros Hm. unfold attempt. by rewrite Hm. Qed.

Lemma filter_transactions_calm t s (st : option VoteStatus) (bs : list Ballot) acc :
  represents t s -> (forall b, b ∈ bs -> spec_ballot (ballot_key b) s = Some b) ->
  filter_transactions st (b_transaction <$> bs) acc (calm t) =
    (calm t, Ok (Some (acc ++ (ballot_response <$> filter (fun b => keep_status st (b_vote b)) bs)))).
Proof.
  intros Hrep. revert acc. induction bs as [|b bs IH]; intros acc Hin; simpl; [by rewrite app_nil_r|].
  rewrite M_bind_eq, (attempt_fetch _ _ _ (get_vote_by_id_calm _ _ _ Hrep)).
  change (txid (b_transaction b)) with (ballot_key b). rewrite (Hin b) by left. simpl.
  rewrite IH by (intros; apply Hin; by right). rewrite filter_cons.
  case_decide as Hk.
  - apply Is_true_true in Hk. rewrite Hk. by rewrite fmap_cons, <-app_assoc.
  - apply Is_true_false in Hk. by rewrite Hk.
Qed.

Lemma rep_lookup_self t s (b : Ballot) :
  represents t s -> b ∈ s_ballots s -> spec_ballot (ballot_key b) s = Some b.
Proof. intros Hrep Hb. apply elem_lookup; [apply Hrep|done]. Qed.

Lemma decide_vote_tally (req : VoteRequest) (v v' : Vote) :
  tally_ok (vote_tally v) -> decide_vote req v = Ok (inr v') -> tally_ok (vote_tally v').
Proof.
  unfold decide_vote. intros [Ht _]. case_match; [done|]. case_match; [done|].
  intros (c & Hc & [= <-])%res_bind_Ok_inv. split; [done|]. by apply checked_Ok_range in Hc.
Qed.

Lemma decide_vote_txid (req : VoteRequest) (v v' : Vote) :
  decide_vote req v = Ok (inr v') -> vote_txid v' = vote_txid v.
Proof.
  unfold decide_vote. case_match; [done|]. case_match; [done|].
  by intros (c & _ & [= <-])%res_bind_Ok_inv.
Qed.

Lemma rep_tally t s (i : string) (b : Ballot) :
  represents t s -> spec_ballot i s = Some b -> tally_ok (vote_tally (b_vote b)).
Proof.
  intros Hrep Hb. pose proof (rep_votes _ _ Hrep i) as Hv. rewrite Hb in Hv.
  destruct (sql_lookup v_txid i (votes t)); [|done]. by eapply row_vote_tally.
Qed.

Lemma vote_calm t s (req : VoteRequest) :
  foreign_keys = true -> represents t s ->
  exists t', vote_handler req (calm t) = (calm t', (spec_handle (PostVote req) s).2) /\
    represents t' (spec_handle (PostVote req) s).1.
Proof.
  intros Hfk Hrep. simpl. unfold vote_handler. rewrite M_bind_eq. unfold vote_check.
  rewrite M_bind_eq, (attempt_fetch _ _ _ (get_vote_by_id_calm _ _ _ Hrep)).
  destruct (spec_ballot (request_txid req) s) as [b|] eqn:Hb; simpl; [|by exists t].
  unfold lift. destruct (decide_vote req (b_vote b)) as [[reply|v]| | |] eqn:Hd; simpl; try by exists t.
  destruct (rep_ballot_vote_key _ _ _ _ Hrep Hb) as [Hid _].
  assert (spec_ballot (vote_txid v) s = Some b) as Hb' by by rewrite (decide_vote_txid _ _ _ Hd), Hid.
  assert (tally_ok (vote_tally v)) as Hok by (eapply decide_vote_tally; [|done]; by eapply rep_tally).
  destruct (add_vote_calm _ _ _ _ Hfk Hok Hrep Hb') as (t' & Hrun & Hrep').
  exists t'. split; [|done]. unfold vote_store. by rewrite M_bind_eq, (attempt_ok _ _ _ _ Hrun).
Qed.

Lemma handle_calm t s (r : ApiRequest) :
  foreign_keys = true -> request_ok r -> represents t s ->
  exists t', handle r (calm t) = (calm t', (spec_handle r s).2) /\ represents t' (spec_handle r s).1.
Proof.
  intros Hfk Hok Hrep. destruct r as [c| |q|i|req]; simpl in Hok.
  - destruct (update_config_calm _ _ c Hok Hrep) as (t' & Hrun & Hrep'). exists t'. split; [|done].
    simpl. unfold update_config_handler. by rewrite M_bind_eq, (attempt_ok _ _ _ _ Hrun).
  - exists t. split; [|done]. simpl. unfold get_config_handler.
    rewrite M_bind_eq, (attempt_fetch _ _ _ (get_config_calm _ _ Hrep)). by destruct (spec_config s).
  - exists t. split; [|done]. simpl. unfold get_transactions_handler. case_bool_decide; [done|].
    rewrite M_bind_eq, (attempt_ok _ _ _ _ (get_transactions_calm _ _ Hrep)). rewrite M_bind_eq.
    rewrite (filter_transactions_calm _ s) by eauto using rep_lookup_self.
    rewrite M_bind_eq. unfold lift. simpl. fold (spec_list (q_status q) s).
    by destruct (paginate_items _ _ _).
  - exists t. split; [|done]. simpl. unfold get_transaction_by_id_handler.
    rewrite M_bind_eq, (attempt_fetch _ _ _ (get_transaction_by_id_calm _ _ _ Hrep)).
    destruct (spec_ballot i s) as [b|] eqn:Hb; simpl; [|done].
    rewrite M_bind_eq, (attempt_fetch _ _ _ (get_vote_by_id_calm _ _ _ Hrep)). by rewrite Hb.
  - by apply vote_calm.
Qed.
End Lemmas.

(** ** Theorems *)
Section Theorems.
Context {FK : ForeignKeys} {AK : ApiKeys} {AL : ApiKeysLaws} {BP : BuildProfile}.
Implicit Types (t : Tables) (s : Spec).

Lemma serve_calm t s (rs : list ApiRequest) :
  foreign_keys = true -> Forall request_ok rs -> represents t s ->
  exists t', serve rs (calm t) = (calm t', (spec_serve rs s).2) /\
    represents t' (spec_serve rs s).1.
Proof.
  intros Hfk Hok. revert t s. induction Hok as [|r rs Hr _ IH]; intros t s Hrep; [by exists t|].
  destruct (handle_calm _ _ r Hfk Hr Hrep) as (t1 & Hrun & Hrep1).
  destruct (IH _ _ Hrep1) as (t2 & Hserve & Hrep2). exists t2. simpl. rewrite Hrun, Hserve.
  destruct (spec_handle r s) as [s1 reply]. simpl in *. by destruct (spec_serve rs s1).
Qed.

(** C12: The API on its SQL tables behaves as its specification: without database
    faults every sequence of requests gets the replies computed on the abstract
    ballots and configuration, and the tables represent the resulting state. *)
Theorem api_refines t s (rs : list ApiRequest) :
  foreign_keys = true -> Forall request_ok rs -> represents t s ->
  exists t', serve rs (calm t) = (calm t', (spec_serve rs s).2) /\
    represents t' (spec_serve rs s).1.
Proof. apply serve_calm. Qed.

Lemma keeps_filter_transactions (st : option VoteStatus) (txs : list ApiTransaction) acc :
  keeps sound (filter_transactions st txs acc).
Proof.
  revert acc. induction txs as [|tx txs IH]; intros acc; simpl; [auto with keeps|].
  apply keeps_bind; [auto with keeps|]. intros [v|]; [apply IH|auto with keeps].
Qed.

Lemma get_vote_by_id_tally (i : string) (p p' : Pool) (v : Vote) :
  get_vote_by_id i p = (p', Ok v) -> tally_ok (vote_tally v).
Proof. intros (p1 & row & _ & [= _ Hrow])%M_bind_Ok_inv. by eapply row_vote_tally. Qed.

Lemma keeps_vote_handler (req : VoteRequest) : foreign_keys = true -> keeps sound (vote_handler req).
Proof.
  intros Hfk p Hp. unfold vote_handler, vote_check. rewrite !M_bind_eq. unfold attempt at 1.
  pose proof (keeps_get_vote_by_id (request_txid req) p Hp) as Hp1.
  destruct (get_vote_by_id _ p) as [p1 r1] eqn:Hv. simpl in Hp1.
  destruct r1 as [v| | |]; simpl; try done. unfold lift.
  destruct (decide_vote req v) as [[reply|v']| | |] eqn:Hd; simpl; try done.
  unfold vote_store. apply keeps_bind; [|auto with keeps|done].
  apply keeps_attempt, keeps_add_vote; [done|].
  eapply decide_vote_tally; [|done]. by eapply get_vote_by_id_tally.
Qed.

Lemma keeps_handle (r : ApiRequest) : foreign_keys = true -> request_ok r -> keeps sound (handle r).
Proof.
  intros Hfk Hok. destruct r as [c| |q|i|req]; simpl.
  - unfold update_config_handler. auto with keeps.
  - unfold get_config_handler. auto with keeps.
  - unfold get_transactions_handler. case_bool_decide; [auto with keeps|].
    apply keeps_bind; [auto with keeps|]. intros [txs|]; [|auto with keeps].
    apply keeps_bind; [apply keeps_filter_transactions|]. intros [l|]; auto with keeps.
  - unfold get_transaction_by_id_handler. apply keeps_bind; [auto with keeps|].
    intros [tx|]; [|auto with keeps]. apply keeps_bind; auto with keeps.
  - by apply keeps_vote_handler.
Qed.

Lemma serve_sound (rs : list ApiRequest) (p : Pool) :
  foreign_keys = true -> Forall request_ok rs -> sound p -> sound (serve rs p).1.
Proof.
  intros Hfk Hok. revert p. induction Hok as [|r rs Hr _ IH]; intros p Hp; [done|]. simpl.
  pose proof (keeps_handle r Hfk Hr p Hp) as Hp1. destruct (handle r p) as [p1 reply].
  specialize (IH p1 Hp1). by destruct (serve rs p1).
Qed.

(** C34: Whichever database statements fail, in the middle of a handler or not, the
    tables keep representing a configuration and ballots; in particular no primary
    key of [transactions] or [votes] occurs twice, the votes are those of the
    transactions, one row for each and none besides, and every row of both tables
    can be read.  The requests are those the server has routes for; none of them
    adds a transaction. *)
Theorem api_invariant (rs : list ApiRequest) (p : Pool) :
  foreign_keys = true -> Forall request_ok rs -> sound p ->
  sound (serve rs p).1 /\ well_voted (tables (serve rs p).1).
Proof.
  intros Hfk Hok Hp. pose proof (serve_sound rs p Hfk Hok Hp) as Hs. split; [done|].
  destruct Hs as [s Hs]. by apply rep_well_voted with s.
Qed.

(** *** Votes *)
Definition accepts (i : string) (r : ApiRequest) (reply : res Empty_set Reply) : bool :=
  match r, reply with
  | PostVote req, Ok rep => bool_decide (request_txid req = i) && (status_code rep =? OK)
  | _, _ => false
  end.
Fixpoint accepted (i : string) (rs : list ApiRequest) (replies : list (res Empty_set Reply)) : nat :=
  match rs, replies with
  | r :: rs', reply :: replies' => (if accepts i r reply then 1 else 0) + accepted i rs' replies'
  | _, _ => O
  end.

Definition decided (i : string) s : Prop :=
  exists b, spec_ballot i s = Some b /\ is_Some (vote_choice (b_vote b)).

Lemma decided_vote s (i : string) (v : Vote) :
  is_Some (vote_choice v) -> decided i s -> decided i (spec_vote v s).
Proof.
  intros Hv (b & Hb & Hc). exists (with_vote v b). rewrite spec_ballot_vote, Hb. split; [done|].
  unfold with_vote. by case_decide.
Qed.

Lemma decide_vote_choice (req : VoteRequest) (v v' : Vote) :
  decide_vote req v = Ok (inr v') -> vote_choice v = None /\ vote_choice v' = Some (request_choice req).
Proof.
  unfold decide_vote. case_match; [done|]. case_match; [done|].
  by intros (c & _ & [= <-])%res_bind_Ok_inv.
Qed.

Lemma decide_vote_reply (req : VoteRequest) (v : Vote) (reply : Reply) :
  decide_vote req v = Ok (inl reply) -> (status_code reply =? OK) = false.
Proof.
  unfold decide_vote. case_match; [by intros [= <-]|]. case_match; [by intros [= <-]|].
  by intros (c & _ & ?)%res_bind_Ok_inv.
Qed.

Lemma spec_handle_decided s (i : string) (r : ApiRequest) :
  decided i s -> decided i (spec_handle r s).1 /\ accepts i r (spec_handle r s).2 = false.
Proof.
  intros Hd. destruct r as [c| |q|j|req]; simpl; try done.
  destruct (spec_ballot (request_txid req) s) as [b|] eqn:Hb; simpl.
  - destruct (decide_vote req (b_vote b)) as [[reply|v]| | |] eqn:Hv; simpl; try done.
    + split; [done|]. by rewrite (decide_vote_reply _ _ _ Hv), andb_false_r.
    + apply decide_vote_choice in Hv as [Hnone Hsome]. split; [by apply decided_vote|].
      case_bool_decide as Hi; [|done]. subst i. destruct Hd as (b' & Hb' & Hc).
      rewrite Hb in Hb'. simplify_eq. rewrite Hnone in Hc. by destruct Hc.
  - split; [done|]. by rewrite andb_false_r.
Qed.

Lemma spec_handle_accepts t s (i : string) (r : ApiRequest) :
  represents t s -> accepts i r (spec_handle r s).2 = true -> decided i (spec_handle r s).1.
Proof.
  intros Hrep. destruct r as [c| |q|j|req]; simpl; try done.
  destruct (spec_ballot (request_txid req) s) as [b|] eqn:Hb; simpl; [|by rewrite andb_false_r].
  destruct (decide_vote req (b_vote b)) as [[reply|v]| | |] eqn:Hv; simpl; try done.
  - by rewrite (decide_vote_reply _ _ _ Hv), andb_false_r.
  - rewrite andb_true_r, bool_decide_eq_true. intros <-. pose proof Hv as Hv'.
    apply decide_vote_choice in Hv' as [_ Hc]. exists (with_vote v b).
    rewrite spec_ballot_vote, Hb. split; [done|]. unfold with_vote.
    destruct (rep_ballot_vote_key _ _ _ _ Hrep Hb) as [Hid ->].
    rewrite (decide_vote_txid _ _ _ Hv), Hid, decide_True by done. simpl. rewrite Hc. eauto.
Qed.

Lemma accepted_decided s (i : string) (rs : list ApiRequest) :
  decided i s -> accepted i rs (spec_serve rs s).2 = O.
Proof.
  revert s. induction rs as [|r rs IH]; intros s Hd; [done|]. simpl.
  destruct (spec_handle_decided _ _ r Hd) as [Hd' Ha]. destruct (spec_handle r s) as [s1 reply].
  simpl in *. specialize (IH s1 Hd'). destruct (spec_serve rs s1). simpl in *. by rewrite Ha, IH.
Qed.

(** C33: Requests served one after the other: at most one vote per transaction is
    accepted. *)
Theorem vote_once t s (rs : list ApiRequest) (i : string) :
  foreign_keys = true -> Forall request_ok rs -> represents t s ->
  (accepted i rs (serve rs (calm t)).2 <= 1)%nat.
Proof.
  intros Hfk Hok. revert t s. induction Hok as [|r rs Hr Hrs IH]; intros t s Hrep; simpl; [lia|].
  destruct (handle_calm _ _ r Hfk Hr Hrep) as (t1 & Hrun & Hrep1). rewrite Hrun.
  specialize (IH _ _ Hrep1). destruct (serve rs (calm t1)) as [p2 replies] eqn:Hserve. simpl in *.
  destruct (accepts i r (spec_handle r s).2) eqn:Ha; [|lia].
  apply (spec_handle_accepts _ _ _ _ Hrep) in Ha as Hd.
  destruct (serve_calm t1 _ rs Hfk Hrs Hrep1) as (t2 & Hserve' & _). rewrite Hserve in Hserve'.
  injection Hserve' as _ ->. by rewrite accepted_decided.
Qed.

(** A vote on a ballot that is open. *)
Lemma decide_vote_open (req : VoteRequest) (v : Vote) :
  vote_choice v = None -> vote_status (vote_tally v) = VotePending ->
  in_u64 (current_consensus (vote_tally v) + 1) ->
  decide_vote req v = Ok (inr (cast req v (current_consensus (vote_tally v) + 1))).
Proof.
  intros Hc Hs Hr. unfold decide_vote. rewrite Hc, bool_decide_true by done. simpl.
  unfold uadd. by rewrite checked_small.
Qed.

Lemma vote_check_calm t s (req : VoteRequest) (b : Ballot) :
  represents t s -> spec_ballot (request_txid req) s = Some b ->
  vote_check req (calm t) = (calm t, decide_vote req (b_vote b)).
Proof.
  intros Hrep Hb. unfold vote_check.
  rewrite M_bind_eq, (attempt_fetch _ _ _ (get_vote_by_id_calm _ _ _ Hrep)). by rewrite Hb.
Qed.

Lemma vote_store_calm t s (req : VoteRequest) (v : Vote) (b : Ballot) :
  foreign_keys = true -> tally_ok (vote_tally v) -> represents t s ->
  spec_ballot (vote_txid v) s = Some b ->
  exists t', vote_store req v (calm t) =
      (calm t', Ok (json (VoteBody {| response_choice := request_choice req;
                                      response_tally := vote_tally v |}))) /\
    represents t' (spec_vote v s).
Proof.
  intros Hfk Hok Hrep Hb. destruct (add_vote_calm _ _ _ _ Hfk Hok Hrep Hb) as (t' & Hrun & Hrep').
  exists t'. split; [|done]. unfold vote_store. by rewrite M_bind_eq, (attempt_ok _ _ _ _ Hrun).
Qed.

(** C38: Requests served at the same time: when two votes on an open ballot are both
    checked before either is stored, both are answered with success, the second
    overwrites the first, and the consensus counts one of them. *)
Theorem concurrent_votes t s (req1 req2 : VoteRequest) (b : Ballot) :
  foreign_keys = true -> represents t s -> request_txid req1 = request_txid req2 ->
  spec_ballot (request_txid req1) s = Some b -> vote_choice (b_vote b) = None ->
  vote_status (vote_tally (b_vote b)) = VotePending ->
  in_u64 (current_consensus (vote_tally (b_vote b)) + 1) ->
  let v := cast req2 (b_vote b) (current_consensus (vote_tally (b_vote b)) + 1) in
  let reply req := json (VoteBody {| response_choice := request_choice req;
                                     response_tally := vote_tally v |}) in
  exists t' s', vote_interleaved req1 req2 (calm t) = (calm t', Ok (reply req1, reply req2)) /\
    represents t' s' /\
    spec_ballot (request_txid req1) s' = Some {| b_transaction := b_transaction b; b_vote := v |}.
Proof.
  intros Hfk Hrep Hid Hb Hc Hs Hr v reply.
  pose proof (rep_tally _ _ _ _ Hrep Hb) as [Ht _].
  destruct (rep_ballot_vote_key _ _ _ _ Hrep Hb) as [Hkey Hbk].
  set (v1 := cast req1 (b_vote b) (current_consensus (vote_tally (b_vote b)) + 1)).
  assert (spec_ballot (vote_txid v1) s = Some b) as Hb1 by (simpl; by rewrite Hkey).
  destruct (vote_store_calm _ _ req1 v1 _ Hfk (conj Ht Hr) Hrep Hb1) as (t1 & Hrun1 & Hrep1).
  assert (spec_ballot (vote_txid v) (spec_vote v1 s) = Some (with_vote v1 b)) as Hb2.
  { rewrite spec_ballot_vote. simpl. by rewrite Hkey, Hb. }
  destruct (vote_store_calm _ _ req2 v _ Hfk (conj Ht Hr) Hrep1 Hb2) as (t2 & Hrun2 & Hrep2).
  exists t2, (spec_vote v (spec_vote v1 s)). split_and!; [|done|].
  - unfold vote_interleaved. rewrite M_bind_eq, (vote_check_calm _ _ _ _ Hrep Hb), decide_vote_open by done.
    rewrite M_bind_eq, (vote_check_calm _ s _ b), decide_vote_open by (done || by rewrite <-Hid).
    rewrite M_bind_eq. simpl vote_finish. fold v1. rewrite Hrun1. cbv beta iota.
    rewrite M_bind_eq. simpl vote_finish. fold v. by rewrite Hrun2.
  - rewrite !spec_ballot_vote, Hb. simpl. f_equal. unfold with_vote.
    assert (ballot_key b = vote_txid v1) as E1 by (simpl; congruence). rewrite (decide_True _ _ E1).
    assert (vote_txid v1 = vote_txid v) as E2 by done.
    unfold ballot_key in *. simpl in *. rewrite decide_True by congruence. done.
Qed.

(** *** Configuration *)
Lemma replace_all_fresh {A : Type} `{EqDecision A} (l ks : list A) :
  NoDup ks -> foldl (fun l k => sql_replace id k l) l ks = filter (fun k => k ∉ ks) l ++ ks.
Proof.
  revert l. induction ks as [|k ks IH]; intros l Hnd; simpl.
  - rewrite app_nil_r. clear. induction l as [|a l IHl]; [done|].
    rewrite filter_cons, decide_True by apply not_elem_of_nil. by f_equal.
  - apply NoDup_cons in Hnd as [Hk Hnd]. rewrite IH by done. unfold sql_replace, sql_delete.
    rewrite filter_app, filter_cons, decide_True by done.
    rewrite <-app_assoc. simpl. f_equal. rewrite list_filter_filter. apply list_filter_iff.
    intros a. unfold id. set_solver.
Qed.

(** Updating the configuration replaces the key, the amount and the delegate;
    delegators and denied addresses are only ever added: the configuration read
    back has the old ones first. *)
Theorem config_update_merges t s (c : ApiConfig) :
  foreign_keys = true -> in_u64 (auto_approve_max_amount c) -> represents t s ->
  NoDup (delegator_public_keys c) -> NoDup (auto_deny_addresses c) ->
  (serve [PostConfig c; GetConfig] (calm t)).2 =
    [Ok (status OK);
     Ok (json (ConfigBody
       {| secret_key := secret_key c; auto_approve_max_amount := auto_approve_max_amount c;
          delegate_public_key := delegate_public_key c;
          delegator_public_keys :=
            filter (fun k => k ∉ delegator_public_keys c) (s_delegators s) ++ delegator_public_keys c;
          auto_deny_addresses :=
            filter (fun a => a ∉ auto_deny_addresses c) (s_denied s) ++ auto_deny_addresses c |}))].
Proof.
  intros Hfk Hc Hrep Hks Has.
  destruct (serve_calm t s [PostConfig c; GetConfig] Hfk) as (t' & Hserve & _); [|done|].
  - constructor; [exact Hc|]. by constructor.
  - rewrite Hserve. simpl. by rewrite !replace_all_fresh.
Qed.

(** *** Pages *)
Lemma paginate_page {E A : Type} (items : list A) (k limit : Z) :
  1 <= k -> 0 <= limit -> k * limit < 2 ^ 64 -> k < 2 ^ 64 ->
  paginate_items (E := E) items (Some k) (Some limit) =
    Ok (take (Z.to_nat limit) (drop (Z.to_nat ((k - 1) * limit)) items)).
Proof.
  intros Hk Hl Hkl Hk64. unfold paginate_items. simpl.
  assert (0 <= (k - 1) * limit) by nia. assert ((k - 1) * limit + limit = k * limit) by lia.
  unfold usub. rewrite checked_small by (unfold in_uint; lia). simpl.
  unfold umul. rewrite checked_small by (unfold in_uint; lia). simpl.
  set (off := (k - 1) * limit) in *. set (len := Z.of_nat (length items)).
  unfold uadd. rewrite checked_small by (unfold in_uint; lia). simpl. unfold slice. fold len.
  destruct (Z.le_gt_cases off len) as [Hin|Hout].
  - rewrite (Z.min_r len off) by lia. rewrite Z.min_l by lia.
    rewrite !(proj2 (Z.leb_le _ _)) by lia. simpl. f_equal.
    destruct (Z.le_gt_cases (off + limit) len).
    + rewrite Z.min_r by lia. f_equal. lia.
    + rewrite Z.min_l by lia. rewrite !take_ge; [done|..]; rewrite length_drop; lia.
  - rewrite (Z.min_l len off) by lia. rewrite (Z.min_l len (len + limit)) by lia. rewrite Z.min_id.
    rewrite !(proj2 (Z.leb_le _ _)) by lia. simpl.
    rewrite !drop_ge by lia. by rewrite !take_nil.
Qed.

(** C36: Pagination agrees with cutting the list into chunks: the pages 1 to [n] of a
    positive limit are the first [n * limit] items, each of them in one place. *)
Theorem paginate_pages {E A : Type} (items : list A) (limit : Z) (n : nat) :
  0 < limit -> Z.of_nat n * limit < 2 ^ 64 ->
  exists pages : list (list A),
    mapR (fun k => paginate_items (E := E) items (Some k) (Some limit)) (seqZ 1 (Z.of_nat n)) = Ok pages /\
    concat pages = take (n * Z.to_nat limit) items /\
    Forall (fun page => (length page <= Z.to_nat limit)%nat) pages.
Proof.
  intros Hl Hn.
  exists ((fun k => take (Z.to_nat limit) (drop (Z.to_nat ((k - 1) * limit)) items)) <$> seqZ 1 (Z.of_nat n)).
  split_and!.
  - apply mapR_Forall2, Forall2_fmap_r, Forall_Forall2_diag, Forall_forall.
    intros k Hk%elem_of_seqZ. apply paginate_page; nia.
  - clear Hn. induction n as [|n IH]; [done|]. rewrite Nat2Z.inj_succ, <-Z.add_1_r, seqZ_app by lia.
    rewrite fmap_app, concat_app, IH. simpl concat. rewrite app_nil_r.
    replace (S n * Z.to_nat limit)%nat with (n * Z.to_nat limit + Z.to_nat limit)%nat by lia.
    rewrite <-take_take_drop. do 3 f_equal. nia.
  - apply Forall_fmap, Forall_forall. intros k _. simpl. rewrite length_take. lia.
Qed.

(** The second page without a limit: the end index overflows. *)
Lemma second_page_panics {E A : Type} (items : list A) :
  overflow_checks = true -> items <> [] -> Z.of_nat (length items) < 2 ^ 63 ->
  paginate_items (E := E) items (Some 2) None = Panic.
Proof.
  intros Hov Hne Hlen. unfold paginate_items. simpl.
  assert (1 <= Z.of_nat (length items)) by (destruct items; [done|simpl; lia]).
  unfold usub, umul, uadd, usize_max. rewrite !checked_small by (unfold in_uint; lia). simpl.
  rewrite checked_small by (unfold in_uint; lia). simpl.
  unfold checked. by rewrite Hov, bool_decide_false by (unfold in_uint; lia).
Qed.
End Theorems.

(** ** Witnesses *)
Module ApiRoutesWitness.
Import ToyApi.
#[local] Instance fk : ForeignKeys := true.
#[local] Instance bp : BuildProfile := true.

Definition tx (i : string) : ApiTransaction :=
  {| txid := i; transaction_kind := WalletHandoff; transaction_block_height := Some 5;
     transaction_deadline_block_height := 9; transaction_amount := 2 ^ 64 - 1;
     transaction_fees := 10; memo := [1; 2]; transaction_originator_address := BitcoinAddr "o";
     transaction_debit_address := BitcoinAddr "d"; transaction_credit_address := StacksAddr "c" |}.
Definition config0 : ApiConfig := Config_new (AK := toy_keys) true.
Definition config1 : ApiConfig (AK := toy_keys) :=
  {| secret_key := false; auto_approve_max_amount := 7; delegate_public_key := "d"%string;
     delegator_public_keys := ["k2"; "k1"]%string; auto_deny_addresses := ["a"]%string |}.
Definition ballot_of (i : string) : Ballot := {| b_transaction := stored (tx i); b_vote := empty_vote i |}.

Definition tables0 : Tables :=
  (replace_transaction (transaction_row (tx "t2"))
    (replace_transaction (transaction_row (tx "t1")) empty_tables).1).1.
Definition spec0 : Spec (AK := toy_keys) := spec_add (tx "t2") (spec_add (tx "t1") spec_empty).

Lemma tx_ok (i : string) : transaction_ok (tx i).
Proof. split_and!; try by_compute. intros h [= <-]. by_compute. Qed.

Lemma rep0 : represents tables0 spec0.
Proof.
  apply (rep_add (AK := toy_keys) _ _ (tx "t2")); [done|apply tx_ok|].
  apply (rep_add (AK := toy_keys) _ _ (tx "t1")); [done|apply tx_ok|]. apply represents_empty.
Qed.

Definition vote_for (i : string) (c : VoteChoice) : VoteRequest :=
  {| request_txid := i; signing_delegator := "s"; request_choice := c |}.
Definition requests : list ApiRequest :=
  [PostVote (vote_for "t2" Approve); PostVote (vote_for "t2" Reject); PostVote (vote_for "t3" Reject);
   PostConfig config0; GetConfig;
   GetTransactions {| q_page := Some 2; q_limit := Some 1; q_status := None |}; GetTransaction "t1"].

Lemma requests_ok : Forall request_ok requests.
Proof. repeat (constructor; [simpl; first [exact I|by_compute]|]). constructor. Qed.

Lemma api_refines_witness :
  exists t', serve requests (calm tables0) = (calm t', (spec_serve requests spec0).2) /\
    represents t' (spec_serve requests spec0).1.
Proof. apply (api_refines tables0 spec0 requests); [done|apply requests_ok|apply rep0]. Defined.

(** The second statement of the configuration update fails. *)
Lemma api_invariant_witness :
  let p := (serve [PostConfig config1; PostVote (vote_for "t1" Approve); GetConfig]
    {| tables := tables0; faults := [false; true; false] |}).1 in
  sound p /\ well_voted (tables p).
Proof. apply api_invariant; [done| |by exists spec0; apply rep0].
  constructor; [simpl; by_compute|]. do 2 (constructor; [exact I|]). constructor. Defined.

Lemma vote_once_witness : (accepted "t2" requests (serve requests (calm tables0)).2 <= 1)%nat.
Proof. apply (vote_once tables0 spec0); [done|apply requests_ok|apply rep0]. Defined.

Example replies_run :
  (fun r => match r with Ok reply => status_code reply | _ => 0 end) <$>
    (serve requests (calm tables0)).2 = [200; 409; 404; 200; 200; 200; 200].
Proof. run. Qed.

Lemma concurrent_votes_witness :
  exists t' s', vote_interleaved (vote_for "t1" Approve) (vote_for "t1" Reject) (calm tables0) =
      (calm t', Ok (json (VoteBody {| response_choice := Approve; response_tally :=
                 {| target_consensus := 70; current_consensus := 1; vote_status := VotePending |} |}),
                json (VoteBody {| response_choice := Reject; response_tally :=
                 {| target_consensus := 70; current_consensus := 1; vote_status := VotePending |} |}))) /\
    represents t' s' /\
    spec_ballot "t1" s' = Some {| b_transaction := stored (tx "t1");
                                  b_vote := cast (vote_for "t1" Reject) (empty_vote "t1") 1 |}.
Proof.
  apply (concurrent_votes tables0 spec0 (vote_for "t1" Approve) (vote_for "t1" Reject) (ballot_of "t1"));
    [done|apply rep0|done|run|done|done|by_compute].
Defined.

Lemma config_update_merges_witness :
  (serve [PostConfig config1; GetConfig] (calm tables0)).2 =
    [Ok (status OK); Ok (json (ConfigBody config1))].
Proof.
  apply (config_update_merges tables0 spec0 config1); [done|by_compute|apply rep0|by_compute..].
Defined.

Lemma paginate_pages_witness :
  exists pages : list (list Z),
    mapR (fun k => paginate_items (E := Empty_set) [10; 11; 12; 13; 14] (Some k) (Some 2)) (seqZ 1 3) = Ok pages /\
    concat pages = take 6 [10; 11; 12; 13; 14] /\
    Forall (fun page => (length page <= 2)%nat) pages.
Proof. apply (paginate_pages [10; 11; 12; 13; 14] 2 3); lia. Defined.
End ApiRoutesWitness.
