(* ===== verification/ApiMain.v ===== *)
(** * [stacks-signer-api/src/main.rs]: the commands of the signer API

    Start-up of the server ([verify_config], [init_pool]), the simulator with
    its generated data, and the swagger pages.  A command ends in the pool the
    server then answers from ([ApiRoutes.serve]), or in the error that is
    printed.  The environment, the random generator and the swagger assets are
    external. *)
From S2P Require Import Prelude ApiTypes Sql ApiDb ApiSpec ApiRoutes.

(** The errors as [anyhow] messages distinguish them. *)
Inductive MainError :=
  | NoDatabaseOrConfig
  | LoadConfigFailed (e : ApiConfigError)
  | NoConfiguration
  | PoolFailed (e : DbError)
  | SimulatorKeyFailed (e : ApiConfigError)
  | UpdateConfigFailed (e : DbError)
  | AddTransactionFailed (e : DbError)
  | AddVoteFailed (e : DbError)
  | InvalidFilePath
  | DocsJsonFailed
  | WriteDocsFailed.

(** [rand::Rng] *)
Class RandRng := {
  RandState : Type;
  gen_range : Z -> Z -> RandState -> Z * RandState;
  gen_u64 : RandState -> Z * RandState;
  gen_option_u64 : RandState -> option Z * RandState
}.
Class RandRngLaws `{RandRng} := {
  gen_range_in : forall a b r, a < b -> a <= (gen_range a b r).1 < b;
  gen_u64_in : forall r, in_u64 (gen_u64 r).1;
  gen_option_in : forall r x, (gen_option_u64 r).1 = Some x -> in_u64 x
}.

Section Main.
Context {FK : ForeignKeys} {AK : ApiKeys} {AF : ApiFiles} {DB : Databases}.
Context {RR : RandRng} {BP : BuildProfile}.

(** ** [run] *)
Definition verify_config (database_url config_path : option string) : M Pool MainError unit :=
  match database_url, config_path with
  | None, None => throw NoDatabaseOrConfig
  | _, Some path =>
      config ← lift (map_err LoadConfigFailed (Config_from_path path));
      with_err UpdateConfigFailed (update_config config)
  | Some _, None =>
      with_err (fun _ => NoConfiguration) (get_config ;; mret tt)
  end.

Definition main_init_pool (database_url : option string) : res MainError Pool :=
  map_err PoolFailed (init_pool database_url).

(** [Command::Run]: the pool the server runs on. *)
Definition run_command (database_url config_path : option string) : res MainError Pool :=
  pool ← main_init_pool database_url;
  match verify_config database_url config_path pool with
  | (pool', Ok _) => Ok pool'
  | (_, Err e) => Err e
  | (_, Panic) => Panic
  | (_, Diverge) => Diverge
  end.

(** ** [simulator] *)
Definition TEST_SECRET_KEY : string :=
  "26F85CE8B2C635AD92F6148E4443FE415F512F3F29F44AB0E2CBDA819295BBD5".

Abbreviation Gen := (M RandState Empty_set).
Definition draw {A : Type} (f : RandState -> A * RandState) : Gen A :=
  fun r => let '(a, r') := f r in (r', Ok a).

Definition generate_transaction (i : Z) : Gen ApiTransaction :=
  rand_kind ← draw (gen_range 0 4);
  let transaction_kind :=
    if rand_kind =? 0 then DepositReveal
    else if rand_kind =? 1 then WithdrawalReveal
    else if rand_kind =? 2 then WithdrawalFulfill
    else WalletHandoff in
  block_height ← draw gen_option_u64;
  delay ← draw (gen_range 1 10);
  deadline ← lift (uadd 64 (default 0 block_height) delay);
  amount ← draw gen_u64;
  fees ← draw (gen_range 10 1000);
  mret {| txid := hex_encode (replicate 32 (as_u8 i));
          transaction_kind := transaction_kind;
          transaction_block_height := block_height;
          transaction_deadline_block_height := deadline;
          transaction_amount := amount;
          transaction_fees := fees;
          memo := [];
          transaction_originator_address := BitcoinAddr "originator";
          transaction_debit_address := BitcoinAddr "escrow bitcoin wallet";
          transaction_credit_address := StacksAddr "sBTC protocol address" |}.

Definition simulated_choice (m : VoteMechanism) (choice : Z) : option VoteChoice :=
  match m with
  | Auto => if choice =? 0 then Some Approve else Some Reject
  | Manual => if choice =? 0 then Some Approve else if choice =? 1 then Some Reject else None
  end.

Definition generate_vote (txid : string) : Gen Vote :=
  m ← draw (gen_range 0 2);
  let vote_mechanism := if m =? 0 then Auto else Manual in
  status ← draw (gen_range 0 4);
  '(vote_status, current_consensus) ←
    (if status =? 0 then c ← draw (gen_range 1 55); mret (VotePending, c)
     else if status =? 1 then c ← draw (gen_range 70 100); mret (Approved, c)
     else if status =? 2 then c ← draw (gen_range 70 100); mret (Rejected, c)
     else c ← draw (gen_range 1 69); mret (NoConsensus, c));
  choice ← draw (gen_range 0 3);
  mret {| vote_txid := txid; vote_mechanism := vote_mechanism;
          vote_tally := {| current_consensus := current_consensus; target_consensus := 70;
                           vote_status := vote_status |};
          vote_choice := simulated_choice vote_mechanism choice |}.

Fixpoint generate_loop (indices : list Z) (txs : list ApiTransaction) (votes : list Vote)
    : Gen (list ApiTransaction * list Vote) :=
  match indices with
  | [] => mret (txs, votes)
  | i :: indices' =>
      tx ← generate_transaction i;
      vote ← generate_vote (txid tx);
      generate_loop indices' (txs ++ [tx]) (votes ++ [vote])
  end.
Definition generate_txs_votes : Gen (list ApiTransaction * list Vote) := generate_loop (seqZ 0 10) [] [].

Definition fill_database (txs : list ApiTransaction) (votes : list Vote) : M Pool MainError unit :=
  for_each (fun tx => with_err AddTransactionFailed (add_transaction tx)) txs ;;
  for_each (fun vote => with_err AddVoteFailed (add_vote vote)) votes.

Definition run_simulator (database_url : option string) (rng : RandState) : res MainError Pool :=
  pool ← main_init_pool database_url;
  config ← map_err SimulatorKeyFailed (Config_from_secret_key TEST_SECRET_KEY);
  match with_err UpdateConfigFailed (update_config config) pool with
  | (pool1, Ok _) =>
      '(txs, votes) ← no_err (generate_txs_votes rng).2;
      match fill_database txs votes pool1 with
      | (pool2, Ok _) => Ok pool2
      | (_, Err e) => Err e
      | (_, Panic) => Panic
      | (_, Diverge) => Diverge
      end
  | (_, Err e) => Err e
  | (_, Panic) => Panic
  | (_, Diverge) => Diverge
  end.
End Main.

(** ** [swagger]

    [utoipa_swagger_ui::serve]: a file, no file, or an error text. *)
Inductive SwaggerReply :=
  | SwaggerRedirect (to : string)
  | SwaggerFile (content_type : string) (content : bytes)
  | SwaggerStatus (code : Z) (text : string).

Definition serve_swagger (assets : string -> option (string * bytes) + string)
    (full_path tail : string) : SwaggerReply :=
  if bool_decide (full_path = "/swagger-ui") then SwaggerRedirect "/swagger-ui/"
  else
    match assets tail with
    | inl (Some (content_type, content)) => SwaggerFile content_type content
    | inl None => SwaggerStatus 404 ""
    | inr error => SwaggerStatus 500 error
    end.

(** ** Start-up *)
Section Theorems.
Context {FK : ForeignKeys} {AK : ApiKeys} {AL : ApiKeysLaws} {AF : ApiFiles} {DB : Databases}.
Context {RR : RandRng} {RL : RandRngLaws} {BP : BuildProfile}.

(** What [Config_from_path] promises about numbers. *)
Class FilesInRange := files_in_range : forall path c,
  Config_from_path path = Ok c -> in_u64 (auto_approve_max_amount c).

(** The database at [url] has no schema yet, or represents [s]. *)
Definition database_is (url : option string) (s : Spec) : Prop :=
  match url with
  | None => s = spec_empty
  | Some u => exists d, connect u = Some d /\ represents (migrate d) s
  end.

Lemma init_pool_calm (url : option string) (s : Spec) :
  database_is url s -> exists t, main_init_pool url = Ok (calm t) /\ represents t s.
Proof.
  unfold database_is, main_init_pool, init_pool. destruct url as [u|].
  - intros (d & -> & Hrep). by exists (migrate d).
  - intros ->. exists empty_tables. split; [done|apply represents_empty].
Qed.

(** The server starts exactly when a configuration is at hand: from the file, if
    one is given, merged into the database, otherwise from the database at
    [DATABASE_URL]; without either it refuses, whatever the default of an
    in-memory database. *)
Theorem run_command_spec {FR : FilesInRange} (url path : option string) (s : Spec) :
  database_is url s ->
  match path with
  | Some p =>
      match Config_from_path p with
      | Ok c => exists t, run_command url path = Ok (calm t) /\ represents t (spec_update_config c s)
      | Err e => run_command url path = Err (LoadConfigFailed e)
      | Panic => run_command url path = Panic
      | Diverge => run_command url path = Diverge
      end
  | None =>
      match url with
      | None => run_command url path = Err NoDatabaseOrConfig
      | Some _ =>
          if bool_decide (is_Some (s_config s))
          then exists t, run_command url path = Ok (calm t) /\ represents t s
          else run_command url path = Err NoConfiguration
      end
  end.
Proof.
  intros Hdb. destruct (init_pool_calm _ _ Hdb) as (t & Hinit & Hrep). unfold run_command.
  rewrite Hinit. simpl. destruct path as [p|]; simpl.
  - assert (verify_config url (Some p) = (config ← lift (map_err LoadConfigFailed (Config_from_path p));
      with_err UpdateConfigFailed (update_config config))) as -> by by destruct url.
    rewrite M_bind_eq. unfold lift. destruct (Config_from_path p) as [c| | |] eqn:Hc; simpl; try done.
    destruct (update_config_calm _ _ c (files_in_range _ _ Hc) Hrep) as (t' & Hrun & Hrep').
    exists t'. unfold with_err. by rewrite Hrun.
  - destruct url as [u|]; [|done]. simpl. unfold with_err.
    rewrite M_bind_eq, (get_config_calm _ _ Hrep). unfold spec_config.
    destruct (s_config s) as [[[sk amount] delegate]|]; simpl.
    + by exists t.
    + done.
Qed.

(** ** The simulator *)
Definition sim_txid (i : Z) : string := hex_encode (replicate 32 (as_u8 i)).

Definition pair_ok (tx : ApiTransaction) (v : Vote) : Prop :=
  transaction_ok tx /\ vote_txid v = txid tx /\ tally_ok (vote_tally v).

Lemma draw_Ok {A : Type} (f : RandState -> A * RandState) (r r' : RandState) (a : A) :
  draw f r = (r', Ok a) -> a = (f r).1.
Proof. unfold draw. by destruct (f r); intros [= _ <-]. Qed.

Lemma generate_transaction_ok (i : Z) (r r' : RandState) (tx : ApiTransaction) :
  generate_transaction i r = (r', Ok tx) -> txid tx = sim_txid i /\ transaction_ok tx.
Proof.
  unfold generate_transaction. intros H.
  apply M_bind_Ok_inv in H as (r1 & k & _ & H). apply M_bind_Ok_inv in H as (r2 & bh & Hbh & H).
  apply M_bind_Ok_inv in H as (r3 & delay & _ & H). apply M_bind_Ok_inv in H as (r4 & dl & Hdl & H).
  apply M_bind_Ok_inv in H as (r5 & am & Ham & H). apply M_bind_Ok_inv in H as (r6 & fe & Hfe & H).
  injection H as _ <-. split; [done|]. apply draw_Ok in Hbh, Ham, Hfe.
  injection Hdl as _ Hdl. apply checked_Ok_range in Hdl; [|done]. split_and!; simpl; try done.
  - intros h Hh. apply (gen_option_in r1). by rewrite <-Hbh.
  - subst am. apply gen_u64_in.
  - pose proof (gen_range_in 10 1000 r5 eq_refl). unfold in_uint. subst fe. lia.
Qed.

Lemma generate_vote_ok (id : string) (r r' : RandState) (v : Vote) :
  generate_vote id r = (r', Ok v) -> vote_txid v = id /\ tally_ok (vote_tally v).
Proof.
  unfold generate_vote. intros H.
  apply M_bind_Ok_inv in H as (r1 & m & _ & H). apply M_bind_Ok_inv in H as (r2 & st & _ & H).
  apply M_bind_Ok_inv in H as (r3 & [status c] & Hc & H).
  apply M_bind_Ok_inv in H as (r4 & ch & _ & H). injection H as _ <-. split; [done|].
  split; simpl; [by_compute|]. unfold in_uint.
  repeat case_match; apply M_bind_Ok_inv in Hc as (r5 & c' & Hd & [= _ <- <-]); apply draw_Ok in Hd; subst c';
    match goal with |- 0 <= (gen_range ?a ?b ?r).1 < _ => pose proof (gen_range_in a b r eq_refl) end; lia.
Qed.

Lemma generate_loop_ok (indices : list Z) txs vs (r r' : RandState) txs' vs' :
  generate_loop indices txs vs r = (r', Ok (txs', vs')) ->
  exists l1 l2, txs' = txs ++ l1 /\ vs' = vs ++ l2 /\ txid <$> l1 = sim_txid <$> indices /\
    Forall2 pair_ok l1 l2.
Proof.
  revert txs vs r. induction indices as [|i indices IH]; intros txs vs r; simpl.
  - intros [= _ <- <-]. exists [], []. by rewrite !app_nil_r.
  - intros (r1 & tx & Htx & H)%M_bind_Ok_inv. apply M_bind_Ok_inv in H as (r2 & v & Hv & H).
    apply generate_transaction_ok in Htx as [Hid Hok]. apply generate_vote_ok in Hv as [Hvid Hvok].
    destruct (IH _ _ _ H) as (l1 & l2 & -> & -> & Hids & Hall).
    exists (tx :: l1), (v :: l2). rewrite <-!app_assoc. split_and!; [done..| |].
    + by rewrite fmap_cons, Hids, Hid.
    + by constructor.
Qed.

Lemma sim_txids_distinct : NoDup (sim_txid <$> seqZ 0 10).
Proof.
  apply (NoDup_fmap_1 hex_decode). rewrite <-list_fmap_compose.
  rewrite (list_fmap_ext _ (fun i => Some (replicate 32 (as_u8 i)))).
  - by_compute.
  - intros k i _. apply hex_roundtrip, Forall_replicate, Z.mod_pos_bound. done.
Qed.

(** Adding transactions with new ids, one after the other. *)
Lemma fill_transactions (txs : list ApiTransaction) (t : Tables) (s : Spec) :
  foreign_keys = true -> Forall transaction_ok txs -> represents t s ->
  NoDup ((ballot_key <$> s_ballots s) ++ (txid <$> txs)) ->
  exists t', for_each (fun tx => with_err AddTransactionFailed (add_transaction tx)) txs (calm t) =
      (calm t', Ok tt) /\
    represents t' (set_s_ballots (s_ballots s ++
      ((fun tx => {| b_transaction := stored tx; b_vote := empty_vote (txid tx) |}) <$> txs)) s).
Proof.
  intros Hfk Hok. revert t s. induction Hok as [|tx txs Htx _ IH]; intros t s Hrep Hnd; simpl.
  - exists t. split; [done|]. rewrite app_nil_r. by destruct s.
  - destruct (add_transaction_calm _ _ tx Hfk Htx Hrep) as (t1 & Hrun & Hrep1).
    assert (s_ballots (spec_add tx s) = s_ballots s ++
      [{| b_transaction := stored tx; b_vote := empty_vote (txid tx) |}]) as Hbs.
    { simpl. unfold sql_replace. rewrite delete_absent; [done|].
      apply NoDup_app in Hnd as (_ & Hd & _). intros Hin. apply (Hd _ Hin). by left. }
    destruct (IH t1 (spec_add tx s) Hrep1) as (t2 & Hrun2 & Hrep2).
    { by rewrite Hbs, fmap_app, <-app_assoc. }
    exists t2. rewrite M_bind_eq. unfold with_err at 1. rewrite Hrun. split; [exact Hrun2|].
    rewrite Hbs, <-app_assoc in Hrep2. exact Hrep2.
Qed.

Lemma with_vote_other (v : Vote) (bs : list Ballot) :
  vote_txid v ∉ ballot_key <$> bs -> with_vote v <$> bs = bs.
Proof.
  intros Hv. rewrite <-(list_fmap_id bs) at 2. apply list_fmap_ext. intros k b Hb.
  unfold with_vote. rewrite decide_False; [done|]. intros Heq. apply Hv. rewrite <-Heq.
  apply list_elem_of_fmap_2. by eapply list_elem_of_lookup_2.
Qed.

(** Storing the vote of each transaction, in order. *)
Lemma fill_votes (txs : list ApiTransaction) (vs : list Vote) (bs : list Ballot) (t : Tables) (s : Spec) :
  foreign_keys = true -> Forall2 pair_ok txs vs -> represents t s ->
  s_ballots s = bs ++ ((fun tx => {| b_transaction := stored tx; b_vote := empty_vote (txid tx) |}) <$> txs) ->
  exists t', for_each (fun v => with_err AddVoteFailed (add_vote v)) vs (calm t) = (calm t', Ok tt) /\
    represents t' (set_s_ballots (bs ++
      zip_with (fun tx v => {| b_transaction := stored tx; b_vote := v |}) txs vs) s).
Proof.
  intros Hfk Hall. revert bs t s. induction Hall as [|tx v txs vs (Htx & Hid & Hv) _ IH];
    intros bs t s Hrep Hbs; simpl.
  - exists t. split; [done|]. simpl in Hbs. rewrite <-Hbs. by destruct s.
  - set (b := {| b_transaction := stored tx; b_vote := empty_vote (txid tx) |}) in *.
    assert (ballot_key b = vote_txid v) as Hkey by done.
    pose proof (rep_keyed _ _ Hrep) as Hnd. unfold keyed in Hnd.
    rewrite Hbs, fmap_app, fmap_cons in Hnd. fold b in Hnd.
    assert (b ∈ s_ballots s) as Hin by (rewrite Hbs, fmap_cons; apply elem_of_app; right; left).
    pose proof (rep_lookup_self _ _ _ Hrep Hin) as Hb. rewrite Hkey in Hb.
    destruct (add_vote_calm _ _ _ _ Hfk Hv Hrep Hb) as (t1 & Hrun & Hrep1).
    destruct (IH (bs ++ [{| b_transaction := stored tx; b_vote := v |}]) t1 (spec_vote v s) Hrep1)
      as (t2 & Hrun2 & Hrep2).
    { simpl. rewrite Hbs, fmap_app, !fmap_cons. fold b.
      apply NoDup_app in Hnd as (_ & Hd & [Hb' _]%NoDup_cons).
      rewrite !with_vote_other.
      - rewrite <-app_assoc. simpl. unfold with_vote. by rewrite decide_True.
      - by rewrite <-Hkey.
      - rewrite <-Hkey. intros Hin'. apply (Hd _ Hin'). left. }
    exists t2. rewrite M_bind_eq. unfold with_err at 1. rewrite Hrun. split; [exact Hrun2|].
    rewrite <-app_assoc in Hrep2. exact Hrep2.
Qed.

(** The simulator's database: on a database without ballots the server starts
    with exactly the ten generated transactions in order, each with its generated
    vote, next to the configuration of the built-in key. *)
Theorem simulator_database (url : option string) (rng : RandState) (s : Spec) (c : ApiConfig)
    (txs : list ApiTransaction) (vs : list Vote) :
  foreign_keys = true -> Config_from_secret_key TEST_SECRET_KEY = Ok c ->
  database_is url s -> s_ballots s = [] -> (generate_txs_votes rng).2 = Ok (txs, vs) ->
  length txs = 10%nat /\
  exists t, run_simulator url rng = Ok (calm t) /\
    represents t (set_s_ballots (zip_with (fun tx v => {| b_transaction := stored tx; b_vote := v |}) txs vs)
      (spec_update_config c s)).
Proof.
  intros Hfk Hc Hdb Hbs Hgen. unfold generate_txs_votes in Hgen.
  destruct (generate_loop (seqZ 0 10) [] [] rng) as [rng' g] eqn:Hloop. simpl in Hgen. subst g.
  destruct (generate_loop_ok _ _ _ _ _ _ _ Hloop) as (l1 & l2 & -> & -> & Hids & Hall). simpl app in *.
  split; [rewrite <-(length_fmap txid), Hids; done|].
  destruct (init_pool_calm _ _ Hdb) as (t & Hinit & Hrep). unfold run_simulator.
  rewrite Hinit. simpl. rewrite Hc. simpl.
  assert (in_u64 (auto_approve_max_amount c)) as Hamount.
  { unfold Config_from_secret_key in Hc. apply res_bind_Ok_inv in Hc as (b & _ & Hc).
    apply res_bind_Ok_inv in Hc as (sk & _ & [= <-]). by_compute. }
  destruct (update_config_calm _ _ _ Hamount Hrep) as (t1 & Hrun & Hrep1).
  unfold with_err. rewrite Hrun. simpl. unfold generate_txs_votes. rewrite Hloop. simpl.
  assert (Forall transaction_ok l1) as Hok.
  { clear -Hall. induction Hall as [|tx v l1 l2 [? _]]; by constructor. }
  assert (NoDup ((ballot_key <$> s_ballots (spec_update_config c s)) ++ (txid <$> l1))) as Hnd.
  { simpl. rewrite Hbs, Hids. apply sim_txids_distinct. }
  destruct (fill_transactions l1 t1 _ Hfk Hok Hrep1 Hnd) as (t2 & Hrun2 & Hrep2).
  destruct (fill_votes l1 l2 [] t2 _ Hfk Hall Hrep2) as (t3 & Hrun3 & Hrep3); [simpl; by rewrite Hbs|].
  exists t3. unfold fill_database. rewrite M_bind_eq, Hrun2, Hrun3. split; [done|exact Hrep3].
Qed.
End Theorems.

(** ** Witnesses *)
Module ApiMainWitness.
Import ToyApi.
#[local] Instance fk : ForeignKeys := true.
#[local] Instance bp : BuildProfile := true.

(** A generator that counts. *)
#[local] Instance toy_rand : RandRng := {|
  RandState := Z;
  gen_range a b r := (a + r mod (b - a), r + 1);
  gen_u64 r := (as_u64 r, r + 1);
  gen_option_u64 r := (if Z.even r then Some (as_u64 r) else None, r + 1)
|}.
#[local, refine] Instance toy_rand_laws : RandRngLaws := {| gen_u64_in := as_u64_range |}.
Proof.
  - intros a b r Hab. simpl. pose proof (Z.mod_pos_bound r (b - a)). lia.
  - simpl. intros r x. case_match; [|done]. intros [= <-]. apply as_u64_range.
Defined.

#[local] Instance toy_api_files : ApiFiles := {|
  read_to_string path := if bool_decide (path = "signer.toml") then Some "text"%string else None;
  toml_raw_config _ := Some {| raw_secret_key := true; raw_delegate_public_key := Some "d"%string;
    raw_delegator_public_keys := None; raw_auto_deny_addresses := Some ["a"%string];
    raw_auto_approve_max_amount := None |}
|}.
#[local] Instance toy_databases : Databases := fun url =>
  if bool_decide (url = "sqlite:new") then Some None else None.
#[local] Instance toy_in_range : FilesInRange.
Proof.
  intros path c. unfold Config_from_path, RawConfig_from_path. simpl. case_bool_decide; [|done].
  intros [= <-]. by_compute.
Qed.

Definition config_new : ApiConfig := Config_new (AK := toy_keys) true.
Definition file_config : ApiConfig (AK := toy_keys) :=
  {| secret_key := true; auto_approve_max_amount := 100000; delegate_public_key := "d"%string;
     delegator_public_keys := []; auto_deny_addresses := ["a"%string] |}.

Lemma new_database : database_is (AK := toy_keys) (Some "sqlite:new"%string) spec_empty.
Proof. exists None. split; [done|]. apply represents_empty. Qed.

Lemma run_command_spec_witness :
  (exists t, run_command (Some "sqlite:new"%string) (Some "signer.toml"%string) = Ok (calm t) /\
     represents t (spec_update_config file_config spec_empty)) /\
  run_command (Some "sqlite:new"%string) (Some "other.toml"%string) = Err (LoadConfigFailed IOError) /\
  run_command (Some "sqlite:new"%string) None = Err NoConfiguration /\
  run_command None None = Err NoDatabaseOrConfig.
Proof.
  split_and!.
  - exact (run_command_spec (Some "sqlite:new"%string) (Some "signer.toml"%string) spec_empty new_database).
  - exact (run_command_spec (Some "sqlite:new"%string) (Some "other.toml"%string) spec_empty new_database).
  - exact (run_command_spec (Some "sqlite:new"%string) None spec_empty new_database).
  - exact (run_command_spec None None spec_empty eq_refl).
Defined.

Definition generated : list ApiTransaction * list Vote :=
  match (generate_txs_votes (RR := toy_rand) 0).2 with Ok g => g | _ => ([], []) end.

Lemma simulator_database_witness :
  length generated.1 = 10%nat /\
  exists t, run_simulator (RR := toy_rand) (Some "sqlite:new"%string) 0 = Ok (calm t) /\
    represents t (set_s_ballots
      (zip_with (fun tx v => {| b_transaction := stored tx; b_vote := v |}) generated.1 generated.2)
      (spec_update_config config_new spec_empty)).
Proof.
  apply (simulator_database (RR := toy_rand) (Some "sqlite:new"%string) 0 spec_empty config_new generated.1 generated.2);
    [done|run|apply new_database|done|run].
Defined.
End ApiMainWitness.
