(* ===== verification/ApiCli.v ===== *)
(** * [stacks-signer-api/src/main.rs]: the command line and the served site

    [api_main] dispatches the parsed command; [run] and [run_swagger] end in a
    server on a socket, whose filters are [answer]: the API's routes, and for
    [swagger] the generated document and the Swagger UI before them.  The JSON of
    the document, the disk, the sockets and the assets are external.  Also
    [error.rs], the error replies. *)
From S2P Require Import Prelude ApiTypes Sql ApiDb ApiRoutes ApiMain.

(** ** [error.rs] *)
Inductive ErrorCode := EDatabaseError | ESignerNotFound | EKeyNotFound | EAddressNotFound.
Record ErrorResponse := { er_error : ErrorCode; er_message : option string }.

(** The texts of the errors of other crates are external. *)
Class DbErrorText := { sqlx_text : SqlxError -> string; secp_text : string; migrate_text : string; hex_text : string }.

Definition DbError_to_string {DT : DbErrorText} (e : DbError) : string :=
  match e with
  | SqlxErr e => "Sqlx Error: " +:+ sqlx_text e
  | MalformedData => "Parsing error occurred due to malformed data"
  | DbSecp256k1Error => "Secp256k1 Error: " +:+ secp_text
  | SqlxMigrationError => "Sqlx Migration Error: " +:+ migrate_text
  | InvalidSecretKey => "Invalid Secret Key: " +:+ hex_text
  end.

Definition ErrorResponse_from {DT : DbErrorText} (e : DbError) : ErrorResponse :=
  {| er_error := EDatabaseError; er_message := Some (DbError_to_string e) |}.

(** [serde_json::to_string] of the response, with the status. *)
Definition warp_reply (to_json : ErrorResponse -> string) (r : ErrorResponse) (status : Z) : Z * string :=
  (status, to_json r).

(** ** [struct Cli] *)
Record ServerArgs := { port : Z; address : string }.
Record DocsArgs := { docs_output : option string }.
Record SwaggerArgs := { swagger_path : string; swagger_server : ServerArgs }.
Record SimulatorArgs := { simulator_server : ServerArgs }.
Record RunArgs := { run_server : ServerArgs; run_config : option string }.
Inductive ApiCommand :=
  | Docs (a : DocsArgs)
  | Swagger (a : SwaggerArgs)
  | Simulator (a : SimulatorArgs)
  | Run (a : RunArgs).
Record ApiCli := { command : ApiCommand }.

(** The defaults of the options that are not given. *)
Definition default_server (p : option Z) (a : option string) : ServerArgs :=
  {| port := default 3030 p; address := default "0.0.0.0"%string a |}.
Definition default_swagger (path : option string) (s : ServerArgs) : SwaggerArgs :=
  {| swagger_path := default "/api-docs.json"%string path; swagger_server := s |}.

(** ** Paths

    [Path::file_name]: the last component, unless it is [..]; empty components
    and [.] do not count. *)
Definition pieces (sep : Ascii.ascii) (s : string) : list string :=
  (split_on sep s).1 :: (split_on sep s).2.
Abbreviation slash := (Ascii.Ascii true true true true false true false false).

Definition components (path : string) : list string :=
  filter (fun p => p <> ""%string /\ p <> "."%string) (pieces slash path).
Definition file_name (path : string) : option string :=
  name ← last (components path);
  if bool_decide (name = ".."%string) then None else Some name.

(** What is left of a request's path for the filters: without the slash at its
    start, and an end after the last slash. *)
Definition route (path : string) : string :=
  match path with
  | String c rest => if Ascii.eqb c slash then rest else path
  | EmptyString => path
  end.
Definition drop_end (l : list string) : list string :=
  match last l with Some EmptyString => removelast l | _ => l end.
Definition segments (path : string) : list string := drop_end (pieces slash (route path)).

(** ** Requests to the site *)
Record SiteRequest := {
  site_method : ApiMethod;
  site_path : string;
  site_query : string;
  site_content_length : option Z;
  site_body : bytes
}.
Definition api_request (r : SiteRequest) : ApiHttpRequest :=
  {| h_method := site_method r; h_path := segments (site_path r); h_query := site_query r;
     h_content_length := site_content_length r; h_body := site_body r |}.

(** [warp::path(name).and(warp::get())]: the first segment decides. *)
Definition path_get (name : string) (r : SiteRequest) : bool :=
  bool_decide ((split_on slash (route (site_path r))).1 = name) && bool_decide (site_method r = ApiGet).
(** [warp::path::tail] *)
Definition tail (r : SiteRequest) : string := String.concat "/" (split_on slash (route (site_path r))).2.

Inductive SiteAnswer {AK : ApiKeys} :=
  | DocAnswer
  | UiAnswer (r : SwaggerReply)
  | ApiAnswer (r : ApiRequest).

Section Cli.
Context {FK : ForeignKeys} {AK : ApiKeys} {AF : ApiFiles} {DB : Databases}.
Context {RR : RandRng} {BP : BuildProfile} {AJ : ApiJson}.
(** [utoipa_swagger_ui::serve] with the configured document path. *)
Context (assets : string -> string -> option (string * bytes) + string).

(** [api_doc.or(swagger_ui).or(all_routes)]; [None] is a rejection. *)
Definition swagger_site (doc_path file_name : string) (r : SiteRequest) : option SiteAnswer :=
  if path_get file_name r then Some DocAnswer
  else if path_get "swagger-ui" r
  then Some (UiAnswer (serve_swagger (assets doc_path) (site_path r) (tail r)))
  else ApiAnswer <$> all_routes (api_request r).

Definition api_site (r : SiteRequest) : option SiteAnswer := ApiAnswer <$> all_routes (api_request r).

(** ** Commands

    A process prints, writes files and may end in a server that runs on. *)
Inductive Line :=
  | ServingWarp (address : string) (port : Z)
  | ServingSwagger (address : string) (port : Z)
  | Document (json : string)
  | ErrorRunning (e : MainError)
  | ErrorCommand (e : MainError).
Record Process := { printed : list Line; files : gmap string string }.
Record ApiServer := { socket : string * Z; server_pool : Pool; site : SiteRequest -> option SiteAnswer }.

(** [ApiDoc::openapi().to_pretty_json()], [std::fs::write], binding a socket. *)
Context (openapi_json : option string) (writable : string -> bool) (bindable : string -> Z -> bool).

Abbreviation Main := (M Process MainError).
Definition println {E : Type} (l : Line) : M Process E unit :=
  modify (fun p => {| printed := printed p ++ [l]; files := files p |}).
Definition write_file (path content : string) : Main unit :=
  if writable path then modify (fun p => {| printed := printed p; files := <[path := content]> (files p) |})
  else throw WriteDocsFailed.

(** [warp::serve(..).run(socket).await] *)
Definition serve_on (a : ServerArgs) (pool : Pool) (site : SiteRequest -> option SiteAnswer) : Main (option ApiServer) :=
  if bindable (address a) (port a)
  then mret (Some {| socket := (address a, port a); server_pool := pool; site := site |})
  else panic.

Definition run (pool : Pool) (server_args : ServerArgs) : Main (option ApiServer) :=
  println (ServingWarp (address server_args) (port server_args)) ;;
  serve_on server_args pool api_site.

Definition generate_docs (output : option string) : Main (option ApiServer) :=
  json ← lift (ok_or openapi_json DocsJsonFailed);
  match output with
  | Some output_file => write_file output_file json ;; mret None
  | None => println (Document json) ;; mret None
  end.

Definition run_swagger (database_url : option string) (args : SwaggerArgs) : Main (option ApiServer) :=
  pool ← lift (main_init_pool database_url);
  file_name ← lift (ok_or (file_name (swagger_path args)) InvalidFilePath);
  let server := swagger_server args in
  println (ServingSwagger (address server) (port server)) ;;
  serve_on server pool (swagger_site (swagger_path args) file_name).

(** The match of [main], where [verify_config] has its own message. *)
Definition dispatch (database_url : option string) (rng : RandState) (c : ApiCommand) : Main (option ApiServer) :=
  match c with
  | Docs args => generate_docs (docs_output args)
  | Swagger args => run_swagger database_url args
  | Simulator args =>
      pool ← lift (run_simulator database_url rng);
      run pool (simulator_server args)
  | Run args =>
      pool ← lift (main_init_pool database_url);
      match verify_config database_url (run_config args) pool with
      | (pool, Ok _) => run pool (run_server args)
      | (_, Err e) => println (ErrorRunning e) ;; mret None
      | (_, Panic) => panic
      | (_, Diverge) => lift Diverge
      end
  end.

(** An error is printed, the process ends with success. *)
Definition api_main (database_url : option string) (rng : RandState) (cli : ApiCli)
    : M Process Empty_set (option ApiServer) := fun p =>
  match dispatch database_url rng (command cli) p with
  | (p, Ok s) => (p, Ok s)
  | (p, Err e) => (println (ErrorCommand e) ;; mret None) p
  | (p, Panic) => (p, Panic)
  | (p, Diverge) => (p, Diverge)
  end.
End Cli.

(** ** Properties *)
Definition no_slash (s : string) : Prop := slash ∉ String.list_ascii_of_string s.
(** [/dirs/name] *)
Definition path_of (dirs : list string) (name : string) : string :=
  String slash (String.concat "/" (dirs ++ [name])).

Lemma pieces_concat (l : list string) (x : string) :
  Forall no_slash (x :: l) -> split_on slash (String.concat "/" (x :: l)) = (x, l).
Proof.
  revert x. induction l as [|y l IH]; intros x [Hx Hl]%Forall_cons.
  - by apply split_on_no_sep.
  - change (String.concat "/" (x :: y :: l)) with (x +:+ String slash (String.concat "/" (y :: l))).
    by rewrite split_on_sep, (IH y) by done.
Qed.

(** The segments of an absolute path. *)
Lemma split_path_of (dirs : list string) (name : string) :
  Forall no_slash (name :: dirs) ->
  pieces slash (String.concat "/" (dirs ++ [name])) = dirs ++ [name] /\
  pieces slash (path_of dirs name) = "" :: dirs ++ [name].
Proof.
  intros [Hn Hd]%Forall_cons. assert (pieces slash (String.concat "/" (dirs ++ [name])) = dirs ++ [name]) as Hp.
  { unfold pieces. destruct dirs as [|d dirs]; simpl app.
    - by rewrite pieces_concat by by constructor.
    - rewrite pieces_concat; [done|]. apply Forall_cons in Hd as [Hd Hds].
      constructor; [done|]. apply Forall_app. split; [done|by constructor]. }
  split; [done|]. unfold path_of. rewrite <-Hp at 2. unfold pieces at 1. simpl.
  unfold pieces. by destruct (split_on slash _).
Qed.

Lemma file_name_path_of (dirs : list string) (name : string) :
  Forall no_slash (name :: dirs) -> name ∉ [""; "."; ".."]%string -> file_name (path_of dirs name) = Some name.
Proof.
  intros Hs Hn. unfold file_name, components. rewrite (proj2 (split_path_of _ _ Hs)).
  rewrite !not_elem_of_cons in Hn. destruct Hn as (Hn1 & Hn2 & Hn3 & _).
  rewrite app_comm_cons, filter_app, (filter_cons_True _ name), filter_nil by done.
  rewrite last_snoc. simpl. by rewrite bool_decide_false.
Qed.

Lemma first_segment_path_of (dirs : list string) (name : string) :
  Forall no_slash (name :: dirs) -> (split_on slash (route (path_of dirs name))).1 = hd name dirs.
Proof.
  intros Hs. apply split_path_of in Hs as [Hp _]. unfold path_of. simpl route.
  apply (f_equal (hd name)) in Hp. rewrite <-(app_nil_r dirs) in Hp at 2. by destruct dirs.
Qed.

Section Theorems.
Context {FK : ForeignKeys} {AK : ApiKeys} {AF : ApiFiles} {DB : Databases}.
Context {RR : RandRng} {BP : BuildProfile} {AJ : ApiJson}.
Context (assets : string -> string -> option (string * bytes) + string).
Context (openapi_json : option string) (writable : string -> bool) (bindable : string -> Z -> bool).

Definition first_segment (r : SiteRequest) : string := (split_on slash (route (site_path r))).1.

(** C37: [swagger] with the document path [/dirs/name]: the site answers a GET below
    [/name] with the document, which hides an API of that name, and every other
    request outside [/swagger-ui] as the API does.  So the page finds its document
    at the path it was given exactly when the path's first segment is the file's
    name: with a directory in front it does not. *)
Theorem swagger_doc_spec (url : option string) (dirs : list string) (name : string) (server : ServerArgs)
    (pool : Pool) (p : Process) :
  Forall no_slash (name :: dirs) -> name ∉ [""; "."; ".."]%string ->
  main_init_pool url = Ok pool -> bindable (address server) (port server) = true ->
  exists s, (run_swagger assets bindable url
      {| swagger_path := path_of dirs name; swagger_server := server |} p).2 = Ok (Some s) /\
    server_pool s = pool /\
    (forall r, site_method r = ApiGet -> first_segment r = name -> site s r = Some DocAnswer) /\
    (forall r, first_segment r ∉ [name; "swagger-ui"%string] -> site s r = api_site r) /\
    (forall r, site_method r = ApiGet -> site_path r = path_of dirs name ->
       site s r = Some DocAnswer <-> hd name dirs = name).
Proof.
  intros Hs Hn Hpool Hbind. unfold run_swagger. rewrite M_bind_eq. unfold lift at 1. rewrite Hpool.
  rewrite M_bind_eq. unfold lift. simpl swagger_path. rewrite file_name_path_of by done.
  simpl ok_or. cbv iota. rewrite M_bind_eq. unfold println, modify, serve_on. simpl swagger_server.
  cbn [swagger_server]. rewrite Hbind. eexists. split; [done|]. split; [done|]. unfold site, swagger_site, path_get.
  split_and!.
  - intros r Hm Hf. unfold first_segment in Hf. by rewrite !bool_decide_true by done.
  - intros r Hf. unfold first_segment in Hf. rewrite !not_elem_of_cons in Hf. destruct Hf as (H1 & H2 & _).
    by rewrite (bool_decide_false _ H1), (bool_decide_false _ H2).
  - intros r Hm Hp. rewrite Hp, first_segment_path_of, Hm by done. simpl.
    split; [|intros Hhd; by rewrite bool_decide_true by done].
    case_bool_decide; [done|]. case_bool_decide; simpl; [done|]. by destruct (all_routes _).
Qed.

(** What a process ends in: a server, a document, or one line with an error. *)
Definition served (p p' : Process) (s : ApiServer) : Prop :=
  files p' = files p /\
  (printed p' = printed p ++ [ServingWarp (socket s).1 (socket s).2] /\ site s = api_site \/
   printed p' = printed p ++ [ServingSwagger (socket s).1 (socket s).2]).
Definition documented (p p' : Process) : Prop :=
  exists json, openapi_json = Some json /\
    (printed p' = printed p ++ [Document json] /\ files p' = files p \/
     exists path, writable path = true /\ printed p' = printed p /\ files p' = <[path := json]> (files p)).
Definition refused (p p' : Process) : Prop :=
  files p' = files p /\
  exists e, printed p' = printed p ++ [ErrorRunning e] \/ printed p' = printed p ++ [ErrorCommand e].

Lemma serve_served (p : Process) (a : ServerArgs) (pool : Pool) (si : SiteRequest -> option SiteAnswer) line p' r :
  (println line ;; serve_on bindable a pool si) p = (p', r) ->
  line = ServingWarp (address a) (port a) /\ si = api_site \/ line = ServingSwagger (address a) (port a) ->
  r = Panic \/ exists s, r = Ok (Some s) /\ served p p' s.
Proof.
  rewrite M_bind_eq. unfold println, modify, serve_on. destruct (bindable _ _).
  - intros [= <- <-] Hl. right. eexists. split; [done|]. split; [done|]. simpl. naive_solver.
  - intros [= <- <-]. by left.
Qed.

(** An outcome of [dispatch]. *)
Definition dispatched (p p' : Process) (r : res MainError (option ApiServer)) : Prop :=
  match r with
  | Ok (Some s) => served p p' s
  | Ok None => documented p p' \/ refused p p'
  | Err _ => p' = p
  | _ => True
  end.

Lemma run_dispatched (p p' : Process) (a : ServerArgs) (pool : Pool) r :
  run bindable pool a p = (p', r) -> dispatched p p' r.
Proof. unfold run. intros [->|(s & -> & Hs)]%serve_served; [done..|by left]. Qed.

Lemma generate_docs_dispatched (p p' : Process) (output : option string) r :
  generate_docs openapi_json writable output p = (p', r) -> dispatched p p' r.
Proof.
  unfold generate_docs. rewrite M_bind_eq. unfold lift.
  destruct openapi_json as [json|] eqn:Hj; simpl; [|by intros [= <- <-]].
  destruct output as [path|]; rewrite M_bind_eq.
  - unfold write_file. destruct (writable path) eqn:Hw; simpl; intros [= <- <-]; [|done].
    left. exists json. split; [done|]. right. by exists path.
  - intros [= <- <-]. left. exists json. split; [done|]. by left.
Qed.

Lemma dispatch_dispatched (url : option string) (rng : RandState) (c : ApiCommand) (p p' : Process) r :
  dispatch assets openapi_json writable bindable url rng c p = (p', r) -> dispatched p p' r.
Proof.
  destruct c as [args|args|args|args]; simpl.
  - apply generate_docs_dispatched.
  - unfold run_swagger. rewrite M_bind_eq. unfold lift at 1.
    destruct (main_init_pool url) as [pool| | |]; try by intros [= <- <-].
    rewrite M_bind_eq. unfold lift. destruct (file_name _) as [name|]; simpl; [|by intros [= <- <-]].
    intros [->|(s & -> & Hs)]%serve_served; [done..|by right].
  - rewrite M_bind_eq. unfold lift. destruct (run_simulator url rng); try (by intros [= <- <-]).
    apply run_dispatched.
  - rewrite M_bind_eq. unfold lift at 1. destruct (main_init_pool url) as [pool| | |]; try by intros [= <- <-].
    destruct (verify_config _ _ _) as [pool' [| | |]]; try by intros [= <- <-].
    + apply run_dispatched.
    + intros [= <- <-]. right. split; [done|]. eexists. by left.
Qed.

(** The process ends in a server on the requested socket, in the document, or in
    one line that tells the error, and then nothing was written. *)
Lemma api_main_ends (url : option string) (rng : RandState) (cli : ApiCli) (p p' : Process) (o : option ApiServer) :
  api_main assets openapi_json writable bindable url rng cli p = (p', Ok o) ->
  match o with
  | Some s => served p p' s
  | None => documented p p' \/ refused p p'
  end.
Proof.
  unfold api_main. destruct (dispatch _ _ _ _ _ _ _ p) as [p1 r] eqn:Hd.
  apply dispatch_dispatched in Hd. destruct r as [s|e| |]; try done.
  - intros [= <- <-]. by destruct s.
  - intros [= <- <-]. simpl in Hd. subst p1. right. split; [done|]. exists e. by right.
Qed.
End Theorems.

(** ** Witnesses *)
Module ApiCliWitness.
Import ToyApi.
Import ApiMainWitness.
#[local] Existing Instance toy_keys.
#[local] Existing Instance toy_databases.
#[local] Instance json : ApiJson := {|
  config_from_json _ := None;
  vote_request_from_json _ := None;
  transaction_query_from _ := Some {| q_page := None; q_limit := None; q_status := None |}
|}.
Definition no_assets (_ _ : string) : option (string * bytes) + string := inl None.
Definition any_socket (_ : string) (_ : Z) : bool := true.
Definition empty_pool : Pool := {| tables := empty_tables; faults := [] |}.
Definition idle : Process := {| printed := []; files := ∅ |}.
Definition local_server : ServerArgs := default_server None None.
Definition GET (path : string) : SiteRequest :=
  {| site_method := ApiGet; site_path := path; site_query := ""; site_content_length := None; site_body := [] |}.

(** The default path is found; one in a directory is not, and [--path /v1] hides
    the API. *)
Lemma swagger_doc_spec_witness :
  (exists s, (run_swagger no_assets any_socket None (default_swagger None local_server) idle).2 = Ok (Some s) /\
     site s (GET "/api-docs.json") = Some DocAnswer /\
     site s (GET "/v1/transactions") = api_site (GET "/v1/transactions")) /\
  (exists s, (run_swagger no_assets any_socket None (default_swagger (Some "/docs/api.json"%string) local_server) idle).2 =
       Ok (Some s) /\
     site s (GET "/docs/api.json") <> Some DocAnswer) /\
  (exists s, (run_swagger no_assets any_socket None (default_swagger (Some "/v1"%string) local_server) idle).2 =
       Ok (Some s) /\
     site s (GET "/v1/config") = Some DocAnswer).
Proof.
  split_and!.
  - destruct (swagger_doc_spec no_assets any_socket None [] "api-docs.json" local_server empty_pool idle)
      as (s & Hs & _ & _ & Hapi & Hdoc); [by_compute..|done|done|].
    exists s. split_and!; [exact Hs|by apply Hdoc|apply Hapi; by_compute].
  - destruct (swagger_doc_spec no_assets any_socket None ["docs"%string] "api.json" local_server empty_pool idle)
      as (s & Hs & _ & _ & _ & Hdoc); [by_compute..|done|done|].
    exists s. split; [exact Hs|]. by intros Hd%Hdoc.
  - destruct (swagger_doc_spec no_assets any_socket None [] "v1" local_server empty_pool idle)
      as (s & Hs & _ & Hdoc & _); [by_compute..|done|done|].
    exists s. split; [exact Hs|by apply Hdoc].
Defined.
End ApiCliWitness.
