(* ===== verification/Doctor.v ===== *)
(** * [stacks-doctor/src]: diagnosing a Stacks node

    The commands [analyze], [burns], [reorgs] and [env] on what they read: the
    lines of a log file, the rows of a query, the environment.  The databases
    belong to the Stacks node; a query result is the list of its rows, and what
    the SQL text promises about their order is a hypothesis of the theorems that
    need it.  Output is the value that is printed. *)
From S2P Require Import Prelude.

(** ** Strings *)
Fixpoint contains (needle s : string) : bool :=
  if String.prefix needle s then true
  else match s with
       | EmptyString => false
       | String _ s' => contains needle s'
       end.

Definition ascii_lower (c : Ascii.ascii) : Ascii.ascii :=
  let n := Ascii.N_of_ascii c in
  if (65 <=? n)%N && (n <=? 90)%N then Ascii.ascii_of_N (n + 32) else c.
Fixpoint to_ascii_lowercase (s : string) : string :=
  match s with
  | EmptyString => EmptyString
  | String c s' => String (ascii_lower c) (to_ascii_lowercase s')
  end.

(** ** [cli.rs] *)
Inductive Network := Mainnet | Testnet.
#[export] Instance Network_eq_dec : EqDecision Network.
Proof. solve_decision. Defined.

(** [impl Display for Network]: the name of the variant. *)
Definition Network_to_string (n : Network) : string :=
  match n with Mainnet => "Mainnet" | Testnet => "Testnet" end.
Definition Network_from_str (s : string) : res string Network :=
  let l := to_ascii_lowercase s in
  if bool_decide (l = "mainnet") then Ok Mainnet
  else if bool_decide (l = "testnet") then Ok Testnet
  else Err ("Could not parse Network: " +:+ s).

Inductive Commands :=
  | Analyze
  | Burns (blocks : Z)
  | Reorgs (blocks : Z)
  | Env.
Record Args := {
  network : Network;
  rpc_url : option string;
  log_file : option string;
  db_dir : option string;
  cmd : Commands
}.

(** The context of an [anyhow] error. *)
Abbreviation DoctorError := string.

(** ** [commands/analyze_logs.rs] *)

(** One line: the flag [is_okay] and whether the line is printed. *)
Definition analyze_line (is_okay : bool) (line : string) : bool * option string :=
  if contains "mined anchored block" line then (true, None)
  else if contains "Failure mining" line then (false, Some line)
  else (is_okay, None).

(** [map_while(Result::ok)]: lines up to the first that cannot be read. *)
Fixpoint readable (lines : list (option string)) : list string :=
  match lines with
  | Some line :: lines' => line :: readable lines'
  | _ => []
  end.

Record LogReport := { problems : list string; is_okay : bool }.

Fixpoint analyze_lines (r : LogReport) (lines : list string) : LogReport :=
  match lines with
  | [] => r
  | line :: lines' =>
      let '(ok, found) := analyze_line (is_okay r) line in
      analyze_lines {| problems := problems r ++ option_list found; is_okay := ok |} lines'
  end.

Definition analyze_logs (file : option (list (option string))) : res DoctorError LogReport :=
  lines ← ok_or file "Could not open log file";
  mret (analyze_lines {| problems := []; is_okay := true |} (readable lines)).

(** ** [commands/burns.rs] *)

(** A value of SQLite as [row.get::<_, Option<i64>>] sees it. *)
Inductive SqlValue := SqlNull | SqlInteger (n : Z) | SqlOther.
Definition get_i64 (v : SqlValue) (context : string) : res DoctorError (option Z) :=
  match v with
  | SqlNull => Ok None
  | SqlInteger n => Ok (Some n)
  | SqlOther => Err context
  end.

Section Burns.
Context {BP : BuildProfile}.

Fixpoint height_fee_pairs (rows : list (SqlValue * SqlValue)) : res DoctorError (list (Z * Z)) :=
  match rows with
  | [] => Ok []
  | (h, f) :: rows' =>
      height ← get_i64 h "Could not get block height from row";
      match height with
      | None => height_fee_pairs rows'
      | Some height =>
          fee ← get_i64 f "Could not get burn fee from row";
          match fee with
          | None => height_fee_pairs rows'
          | Some fee =>
              pairs ← height_fee_pairs rows';
              mret ((as_u64 height, as_u64 fee) :: pairs)
          end
      end
  end.

(** [iter().sum::<u64>()] *)
Fixpoint sum_u64 {E : Type} (acc : Z) (l : list Z) : res E Z :=
  match l with
  | [] => Ok acc
  | x :: l' => acc' ← uadd 64 acc x; sum_u64 acc' l'
  end.

Record BurnStats := {
  stat_blocks : Z;
  stat_min : Z;
  stat_max : Z;
  stat_mean : Z;          (* printed as "mean" *)
  stat_avg : Z
}.

Definition burns (rows : list (SqlValue * SqlValue)) (blocks : Z) : res DoctorError BurnStats :=
  pairs ← height_fee_pairs rows;
  match pairs with
  | [] => Err "Query returned no data"%string
  | (last_block, _) :: _ =>
      cutoff_block ← usub 64 last_block blocks;
      let burn_fees := merge_sort Z.le ((filter (fun p => cutoff_block <= p.1) pairs).*2) in
      first ← unwrap (head burn_fees);
      largest ← unwrap (last burn_fees);
      mean ← unwrap (burn_fees !! (length burn_fees / 2)%nat);
      sum ← sum_u64 0 burn_fees;
      mret {| stat_blocks := blocks; stat_min := first; stat_max := largest; stat_mean := mean;
              stat_avg := sum / Z.of_nat (length burn_fees) |}
  end.
End Burns.

(** ** [commands/reorgs.rs] *)
Section Reorgs.
Context {BP : BuildProfile}.

(** Checked or wrapping [i64] arithmetic. *)
Definition in_i64 (x : Z) : Prop := - 2 ^ 63 <= x < 2 ^ 63.
#[export] Instance in_i64_dec (x : Z) : Decision (in_i64 x).
Proof. unfold in_i64. apply _. Defined.
Definition checked_i64 {E : Type} (x : Z) : res E Z :=
  if overflow_checks && negb (bool_decide (in_i64 x)) then Panic else Ok (as_i64 (as_u64 x)).

Record Item := {
  burn_height : Z;
  stacks_block_id : string;
  miner : string;
  stacks_height : Z;
  reorg_depth : Z
}.
Definition set_depth (d : Z) (i : Item) : Item :=
  {| burn_height := burn_height i; stacks_block_id := stacks_block_id i; miner := miner i;
     stacks_height := stacks_height i; reorg_depth := d |}.

Record ReorgResponse := {
  message_blocks : Z;
  max_reorg_depth : Z;
  max_reorg_blocks_ago : Z;
  data : list Item
}.

(** [LIMIT n]: a negative limit is no limit. *)
Definition sql_limit {A : Type} (n : Z) (l : list A) : list A :=
  if n <? 0 then l else take (Z.to_nat n) l.

(** [data.iter_mut().rev().for_each(..)]: from the oldest row, which is last. *)
Fixpoint set_depths {E : Type} (items : list Item) (last_stacks_height : Z) : res E (list Item) :=
  match items with
  | [] => Ok []
  | item :: items' =>
      older ← set_depths items' last_stacks_height;
      let last_height := match head older with Some o => stacks_height o | None => last_stacks_height end in
      a ← checked_i64 (1 + last_height);
      d ← checked_i64 (a - stacks_height item);
      mret (set_depth (Z.max d 0) item :: older)
  end.

(** [max_by_key]: the last of the largest elements. *)
Definition max_item (items : list Item) : option Item :=
  foldl (fun best item => match best with
                          | Some b => if reorg_depth item <? reorg_depth b then Some b else Some item
                          | None => Some item
                          end) None items.

Fixpoint index_of (d : Z) (items : list Item) (i : Z) : option Z :=
  match items with
  | [] => None
  | item :: items' => if reorg_depth item =? d then Some i else index_of d items' (i + 1)
  end.

(** The rows of the query in its order, and the requested number of blocks. *)
Definition reorgs (rows : list Item) (blocks : Z) : res DoctorError ReorgResponse :=
  limit ← checked_i64 (as_i64 blocks + 1);
  let selected := set_depth 0 <$> sql_limit limit rows in
  match last selected with
  | None => Err "No blocks returned from query"%string
  | Some oldest =>
      let rest := take (length selected - 1) selected in
      data ← set_depths rest (stacks_height oldest);
      best ← unwrap (max_item data);
      ago ← unwrap (index_of (reorg_depth best) data 0);
      mret {| message_blocks := blocks; max_reorg_depth := reorg_depth best;
              max_reorg_blocks_ago := ago; data := data |}
  end.
End Reorgs.

(** ** [commands/env.rs] *)
Definition show_env (vars : list (string * string)) : list (string * string) :=
  filter (fun v => contains "DOCTOR" v.1) vars.

(** ** [main.rs]

    What the commands find: files by path, query results by database file. *)
Record World := {
  files : string -> option (list (option string));
  burn_rows : string -> res DoctorError (list (SqlValue * SqlValue));
  reorg_rows : string -> res DoctorError (list Item);
  environment : list (string * string)
}.

Inductive Output :=
  | Report (r : LogReport)
  | Stats (s : BurnStats)
  | ReorgData (r : ReorgResponse)
  | Vars (l : list (string * string))
  | Usage (message : string).

Definition db_mode (n : Network) : string :=
  match n with Mainnet => "mainnet/" | Testnet => "xenon/" end.
(** [Path::join] with a relative path: a separator where there is none. *)
Fixpoint ends_in_slash (s : string) : bool :=
  match s with
  | EmptyString => true
  | String c EmptyString => bool_decide (c = Ascii.ascii_of_N 47)
  | String _ s' => ends_in_slash s'
  end.
Definition join (dir file : string) : string :=
  if ends_in_slash dir then dir +:+ file else dir +:+ "/" +:+ file.

Definition run_command {BP : BuildProfile} (w : World) (args : Args) : res DoctorError Output :=
  match cmd args with
  | Analyze =>
      match log_file args with
      | Some f => Report <$> analyze_logs (files w f)
      | None => Ok (Usage "Log file path needs to be passed")
      end
  | Burns blocks =>
      match db_dir args with
      | Some dir =>
          rows ← burn_rows w (join (join dir (db_mode (network args))) "burnchain/burnchain.sqlite");
          Stats <$> burns rows blocks
      | None => Ok (Usage "Database directory path needs to be passed")
      end
  | Reorgs blocks =>
      match db_dir args with
      | Some dir =>
          rows ← reorg_rows w (join (join dir (db_mode (network args))) "chainstate/vm/index.sqlite");
          ReorgData <$> reorgs rows blocks
      | None => Ok (Usage "Database directory path needs to be passed")
      end
  | Env => Ok (Vars (show_env (environment w)))
  end.

(** [.unwrap()] *)
Definition doctor_main {BP : BuildProfile} (w : World) (args : Args) : res Empty_set Output :=
  unwrap_ok (run_command w args).

(** ** Theorems *)
Lemma Network_roundtrip (n : Network) : Network_from_str (Network_to_string n) = Ok n.
Proof. by destruct n. Qed.

(** *** [analyze] *)
Definition mined (line : string) : bool := contains "mined anchored block" line.
Definition failed (line : string) : bool := negb (mined line) && contains "Failure mining" line.

Lemma filter_cons_bool {A : Type} (f : A -> bool) (a : A) (l : list A) :
  filter f (a :: l) = if f a then a :: filter f l else filter f l.
Proof. rewrite filter_cons. destruct (decide (f a)) as [Hf|Hf]; by destruct (f a). Qed.

Lemma analyze_lines_run (r : LogReport) (lines : list string) :
  analyze_lines r lines =
    {| problems := problems r ++ filter failed lines;
       is_okay := match last (filter (fun l => mined l || failed l) lines) with
                  | Some l => mined l
                  | None => is_okay r
                  end |}.
Proof.
  revert r. induction lines as [|line lines IH]; intros r; simpl.
  { rewrite app_nil_r. by destruct r. }
  rewrite !filter_cons_bool. unfold analyze_line. fold (mined line).
  assert (forall l, match last (filter (fun l => mined l || failed l) lines) with
    | Some x => mined x | None => mined l end =
    match last (l :: filter (fun l => mined l || failed l) lines) with
    | Some x => mined x | None => is_okay r end) as Hlast.
  { intros l. rewrite last_cons. by destruct (last _). }
  assert (failed line = negb (mined line) && contains "Failure mining" line) as Hf by done.
  destruct (mined line) eqn:Hm; rewrite Hf; simpl.
  - rewrite IH. simpl. rewrite app_nil_r, <-Hm. f_equal. apply Hlast.
  - destruct (contains "Failure mining" line); simpl; rewrite IH; simpl; [|by rewrite app_nil_r].
    rewrite <-app_assoc. f_equal. rewrite <-Hm. apply Hlast.
Qed.

(** The log analysis agrees with its description: the readable lines that report
    a mining failure are listed, and the log counts as sound exactly when the
    last line about mining, if there is one, reports success. *)
Theorem analyze_logs_reference (lines : list (option string)) :
  analyze_logs (Some lines) =
    Ok {| problems := filter failed (readable lines);
          is_okay := match last (filter (fun l => mined l || failed l) (readable lines)) with
                     | Some l => mined l
                     | None => true
                     end |}.
Proof. unfold analyze_logs. simpl. by rewrite analyze_lines_run. Qed.

(** *** [burns] *)
Section BurnsTheorems.
Context {BP : BuildProfile}.
Implicit Types (l : list Z).

Definition sum l : Z := foldr Z.add 0 l.

Lemma sum_u64_Ok {E : Type} (acc : Z) l :
  0 <= acc -> Forall (fun x => 0 <= x) l -> acc + sum l < 2 ^ 64 ->
  sum_u64 (E := E) acc l = Ok (acc + sum l).
Proof.
  intros Hacc Hl. revert acc Hacc. induction Hl as [|x l Hx Hl IH]; intros acc Hacc Hsum; simpl in *.
  - f_equal. lia.
  - assert (0 <= sum l) by (clear -Hl; induction Hl; simpl; lia).
    unfold uadd. rewrite checked_small by (unfold in_uint; lia). simpl. rewrite IH by lia. f_equal. lia.
Qed.

Lemma sum_perm l l' : l ≡ₚ l' -> sum l = sum l'.
Proof. induction 1; simpl; lia. Qed.

(** The element at a position of a sorted list: that many elements are not
    larger, and no more are smaller. *)
Lemma sorted_rank l (i : nat) (m : Z) :
  StronglySorted Z.le l -> l !! i = Some m ->
  (length (filter (fun x => (x < m)%Z) l) <= i)%nat /\ (i < length (filter (fun x => (x <= m)%Z) l))%nat.
Proof.
  intros Hs. revert i. induction Hs as [|a l Hs IH Ha]; intros i Hi; [done|].
  rewrite !filter_cons. rewrite Forall_forall in Ha. destruct i as [|i]; simpl in Hi.
  - injection Hi as <-. rewrite decide_False by lia. rewrite decide_True by lia. split; [|simpl; lia].
    assert (filter (fun x => x < a) l = []) as ->; [|done]. apply elem_of_nil_inv.
    intros x [Hx Hin]%list_elem_of_filter. specialize (Ha x Hin). lia.
  - destruct (IH i Hi) as [H1 H2]. assert (a <= m) by (apply Ha; by eapply list_elem_of_lookup_2).
    rewrite (decide_True (P := a <= m)) by done. case_decide; simpl; lia.
Qed.

Lemma fees_sorted l : StronglySorted Z.le (merge_sort Z.le l).
Proof. apply Sorted_StronglySorted; [intros ???; lia|]. apply Sorted_merge_sort. intros ??; lia. Qed.

(** What is reported of the fees of the blocks that count: the extremes, an
    element with at most half of the fees below and more than half not above it,
    and the average rounded down. *)
Record describes (fees : list Z) (st : BurnStats) : Prop := {
  d_min : stat_min st ∈ fees;
  d_max : stat_max st ∈ fees;
  d_bounds : forall f, f ∈ fees -> stat_min st <= f <= stat_max st;
  d_median : (length (filter (fun f => (f < stat_mean st)%Z) fees) <= length fees / 2)%nat /\
             (length fees / 2 < length (filter (fun f => (f <= stat_mean st)%Z) fees))%nat;
  d_avg : stat_avg st * Z.of_nat (length fees) <= sum fees < (stat_avg st + 1) * Z.of_nat (length fees)
}.

Lemma last_sorted l (a m x : Z) :
  StronglySorted Z.le (a :: l) -> last (a :: l) = Some m -> x ∈ a :: l -> x <= m.
Proof.
  intros Hs Hlast Hx. apply list_elem_of_lookup in Hx as [i Hi].
  revert i a Hs Hlast Hi.
  induction l as [|b l IH]; intros i a Hs Hlast Hi.
  - destruct i; simpl in *; simplify_eq; lia.
  - apply StronglySorted_inv in Hs as [Hs Ha]. rewrite last_cons_cons in Hlast. destruct i as [|i].
    + injection Hi as <-. rewrite Forall_forall in Ha. apply Ha.
      apply last_Some_elem_of in Hlast. done.
    + by apply (IH i b).
Qed.

Lemma floor_average (total n : Z) : 0 < n -> total / n * n <= total < (total / n + 1) * n.
Proof.
  intros Hn. pose proof (Z.div_mod total n ltac:(lia)). pose proof (Z.mod_pos_bound total n Hn). nia.
Qed.

Lemma stats_describe (fees : list Z) (a : Z) l (mn mx : Z) (blocks : Z) :
  merge_sort Z.le fees = a :: l -> last (a :: l) = Some mx ->
  (a :: l) !! (length (a :: l) / 2)%nat = Some mn ->
  describes fees {| stat_blocks := blocks; stat_min := a; stat_max := mx; stat_mean := mn;
                    stat_avg := sum (a :: l) / Z.of_nat (length (a :: l)) |}.
Proof.
  intros Hsort Hmx Hmn. pose proof (fees_sorted fees) as Hs.
  pose proof (merge_sort_Permutation Z.le fees) as Hperm. rewrite Hsort in Hs, Hperm.
  split; cbn [stat_min stat_max stat_mean stat_avg].
  - rewrite <-Hperm. left.
  - rewrite <-Hperm. by apply last_Some_elem_of.
  - intros f. rewrite <-Hperm. intros Hf. split; [|by eapply last_sorted].
    apply StronglySorted_inv in Hs as [_ Ha]. rewrite Forall_forall in Ha.
    apply elem_of_cons in Hf as [->|Hf]; [lia|by apply Ha].
  - destruct (sorted_rank _ _ _ Hs Hmn) as [H1 H2]. by rewrite Hperm in H1, H2.
  - rewrite <-(Permutation_length Hperm), <-(sum_perm _ _ Hperm). apply floor_average. simpl. lia.
Qed.

Lemma pairs_range (rows : list (SqlValue * SqlValue)) (pairs : list (Z * Z)) :
  height_fee_pairs rows = Ok pairs -> Forall (fun p => in_u64 p.1 /\ in_u64 p.2) pairs.
Proof.
  revert pairs. induction rows as [|[h f] rows IH]; intros pairs; simpl.
  - intros [= <-]. constructor.
  - intros ([height|] & _ & H)%res_bind_Ok_inv; [|by apply IH].
    apply res_bind_Ok_inv in H as ([fee|] & _ & H); [|by apply IH].
    apply res_bind_Ok_inv in H as (ps & Hps & [= <-]). constructor; [|by apply IH].
    split; apply as_u64_range.
Qed.

(** The burn report: for the last [blocks] blocks before the newest one it gives
    the extremes, the upper median (printed as "mean") and the average of the
    fees.  Asking for more blocks than the chain has panics, with or without
    overflow checks. *)
Theorem burns_spec (rows : list (SqlValue * SqlValue)) (last_block fee blocks : Z) (rest : list (Z * Z)) :
  height_fee_pairs rows = Ok ((last_block, fee) :: rest) ->
  Forall (fun p => p.1 <= last_block) rest -> in_u64 blocks ->
  let fees := (filter (fun p => last_block - blocks <= p.1) ((last_block, fee) :: rest)).*2 in
  if blocks <=? last_block
  then sum fees < 2 ^ 64 ->
       exists st, burns rows blocks = Ok st /\ stat_blocks st = blocks /\ describes fees st
  else burns rows blocks = Panic.
Proof.
  intros Hrows Hdesc Hb fees. pose proof (pairs_range _ _ Hrows) as Hr.
  pose proof (Forall_inv Hr) as [Hlast _]. simpl in Hlast. unfold in_uint in *.
  unfold burns. rewrite Hrows. simpl res_bind. cbv beta iota. destruct (blocks <=? last_block) eqn:Hle.
  - apply Z.leb_le in Hle. intros Hsum. simpl. unfold usub. rewrite checked_small by (unfold in_uint; lia).
    simpl mbind. cbv beta. fold fees.
    assert (fee ∈ fees) as Hfee.
    { unfold fees. apply list_elem_of_fmap. exists (last_block, fee). split; [done|].
      apply list_elem_of_filter. split; [simpl; lia|left]. }
    pose proof (merge_sort_Permutation Z.le fees) as Hperm.
    destruct (merge_sort Z.le fees) as [|a l] eqn:Hsort.
    { rewrite <-Hperm in Hfee. by apply not_elem_of_nil in Hfee. }
    destruct (last_is_Some (a :: l)) as [_ [mx Hmx]]; [done|].
    destruct (lookup_lt_is_Some_2 (a :: l) (length (a :: l) / 2)) as [mn Hmn].
    { apply Nat.div_lt; simpl; lia. }
    assert (sum_u64 (E := DoctorError) 0 (a :: l) = Ok (sum (a :: l))) as Hs.
    { rewrite sum_u64_Ok; [f_equal; lia|lia| |by rewrite (sum_perm _ _ Hperm)].
      rewrite Hperm. unfold fees. apply Forall_fmap, Forall_forall.
      intros p [_ Hp]%list_elem_of_filter. rewrite Forall_forall in Hr. simpl.
      destruct (Hr p Hp) as [_ ?]. unfold in_uint in *. lia. }
    pose proof (stats_describe fees a l mn mx blocks Hsort Hmx Hmn) as Hst.
    assert (head (a :: l) = Some a) as Ha by done.
    revert Ha Hmx Hmn Hs Hst. generalize (a :: l). intros bf Ha Hmx Hmn Hs Hst.
    eexists. split; [|split; [|exact Hst]]; [|done]. change (unwrap (bf !! _)) with
      (unwrap (E := DoctorError) (bf !! (length bf / 2)%nat)). by rewrite Ha, Hmx, Hmn; simpl; rewrite Hs.
  - apply Z.leb_gt in Hle. simpl. unfold usub, checked. destruct overflow_checks; simpl.
    { by rewrite bool_decide_false by (unfold in_uint; lia). }
    assert ((last_block - blocks) mod 2 ^ 64 = last_block - blocks + 2 ^ 64) as ->.
    { rewrite <-(Z.mod_add _ 1) by lia. rewrite Z.mul_1_l. apply Z.mod_small. lia. }
    assert (filter (fun p => last_block - blocks + 2 ^ 64 <= p.1) ((last_block, fee) :: rest) = []) as ->; [|done].
    apply elem_of_nil_inv. intros p [Hp Hin]%list_elem_of_filter.
    apply elem_of_cons in Hin as [->|Hin]; simpl in Hp; [lia|].
    rewrite Forall_forall in Hdesc. specialize (Hdesc p Hin). simpl in Hdesc. lia.
Qed.
End BurnsTheorems.

(** *** [reorgs] *)
Section ReorgTheorems.
Context {BP : BuildProfile}.
Implicit Types (items : list Item).

(** Heights for which the arithmetic stays within [i64]. *)
Definition small_height (i : Item) : Prop := 0 <= stacks_height i < 2 ^ 62.

Lemma checked_i64_small {E : Type} (x : Z) : in_i64 x -> checked_i64 (E := E) x = Ok x.
Proof.
  intros Hx. unfold checked_i64. rewrite bool_decide_true by done. rewrite andb_false_r.
  f_equal. unfold in_i64, as_i64, as_u64 in *. destruct (Z.le_gt_cases 0 x).
  - rewrite Z.mod_small by lia. case_match; lia.
  - replace (x mod 2 ^ 64) with (x + 2 ^ 64); [case_match; lia|].
    rewrite <-(Z.mod_add x 1) by lia. rewrite Z.mul_1_l. symmetry. apply Z.mod_small. lia.
Qed.

(** The depth of a row against the next older one. *)
Definition depth_over (item : Item) (older_height : Z) : Item :=
  set_depth (Z.max (1 + older_height - stacks_height item) 0) item.
Definition older_height items (last_height : Z) : Z :=
  match items with i :: _ => stacks_height i | [] => last_height end.
Fixpoint depths items (last_height : Z) : list Item :=
  match items with
  | [] => []
  | i :: items' => depth_over i (older_height items' last_height) :: depths items' last_height
  end.

Lemma depths_head items (h : Z) :
  match head (depths items h) with Some o => stacks_height o | None => h end = older_height items h.
Proof. by destruct items. Qed.

Lemma set_depths_run {E : Type} items (h : Z) :
  Forall small_height items -> 0 <= h < 2 ^ 62 -> set_depths (E := E) items h = Ok (depths items h).
Proof.
  intros Hall Hh. unfold small_height in Hall.
  induction Hall as [|i items Hi Hall IH]; simpl; [done|]. rewrite IH. simpl. rewrite depths_head.
  assert (0 <= older_height items h < 2 ^ 62) by (destruct Hall; [done|simpl; lia]).
  rewrite checked_i64_small by (unfold in_i64; lia). simpl.
  by rewrite checked_i64_small by (unfold in_i64; lia).
Qed.

Lemma depths_length items (h : Z) : length (depths items h) = length items.
Proof. induction items; simpl; congruence. Qed.

Lemma max_item_spec (best : option Item) items :
  (best = None -> items <> []) ->
  exists m, foldl (fun best item => match best with
      | Some b => if reorg_depth item <? reorg_depth b then Some b else Some item
      | None => Some item end) best items = Some m /\
    (m ∈ items \/ best = Some m) /\ (forall b, best = Some b -> reorg_depth b <= reorg_depth m) /\
    (forall i, i ∈ items -> reorg_depth i <= reorg_depth m).
Proof.
  assert (forall b items, exists m, foldl (fun best item => match best with
      | Some b => if reorg_depth item <? reorg_depth b then Some b else Some item
      | None => Some item end) (Some b) items = Some m /\ (m ∈ items \/ b = m) /\
      reorg_depth b <= reorg_depth m /\ (forall i, i ∈ items -> reorg_depth i <= reorg_depth m)) as Haux.
  { clear. intros b items. revert b. induction items as [|i items IH]; intros b; simpl.
    - exists b. split_and!; [done|by right|lia|]. by intros ? ?%not_elem_of_nil.
    - destruct (Z.ltb_spec (reorg_depth i) (reorg_depth b)) as [Hlt|Hge].
      + destruct (IH b) as (m & Hm & Hin & Hb & Hall). exists m. split_and!; [done|set_solver|done|].
        intros j [->|Hj]%elem_of_cons; [lia|by apply Hall].
      + destruct (IH i) as (m & Hm & Hin & Hb & Hall). exists m. split_and!; [done|set_solver|lia|].
        intros j [->|Hj]%elem_of_cons; [lia|by apply Hall]. }
  intros Hne. destruct best as [b|].
  - destruct (Haux b items) as (m & Hm & Hin & Hb & Hall). exists m. split_and!; [done|naive_solver|naive_solver|done].
  - destruct items as [|i items]; [by specialize (Hne eq_refl)|]. simpl.
    destruct (Haux i items) as (m & Hm & Hin & Hb & Hall). exists m. split_and!; [done|set_solver|done|].
    intros j [->|Hj]%elem_of_cons; [lia|by apply Hall].
Qed.

Lemma index_of_spec (d i : Z) items :
  (exists x, x ∈ items /\ reorg_depth x = d) ->
  exists k : nat, index_of d items i = Some (i + Z.of_nat k) /\
    (exists x, items !! k = Some x /\ reorg_depth x = d) /\
    (forall j x, (j < k)%nat -> items !! j = Some x -> reorg_depth x <> d).
Proof.
  revert i. induction items as [|y items IH]; intros i (x & Hin & Hd); [by apply not_elem_of_nil in Hin|].
  simpl. destruct (Z.eqb_spec (reorg_depth y) d) as [Hy|Hy].
  - exists O. split_and!; [f_equal; lia|by exists y|lia].
  - destruct (IH (i + 1)) as (k & Hk & Hx & Hj).
    { exists x. split; [|done]. apply elem_of_cons in Hin as [->|]; [by destruct Hy|done]. }
    exists (S k). split_and!; [rewrite Hk; f_equal; lia|done|].
    intros [|j] z Hlt Hz; simpl in Hz; [by simplify_eq|]. apply (Hj j); [lia|done].
Qed.

(** The reorganisation report: of the newest [blocks + 1] rows the oldest is the
    reference, every other one gets the number of blocks it fell back against
    its predecessor, and the report names the largest of these and the newest
    row that has it.  A single row makes the command panic. *)
Theorem reorgs_spec (rows : list Item) (blocks : Z) :
  0 <= blocks < 2 ^ 63 - 1 -> Forall small_height rows ->
  let selected := set_depth 0 <$> take (Z.to_nat (blocks + 1)) rows in
  match selected with
  | [] => reorgs rows blocks = Err "No blocks returned from query"%string
  | [_] => reorgs rows blocks = Panic
  | _ => exists r oldest rest, selected = rest ++ [oldest] /\ reorgs rows blocks = Ok r /\
           data r = depths rest (stacks_height oldest) /\
           (forall i, i ∈ data r -> reorg_depth i <= max_reorg_depth r) /\
           exists k : nat, max_reorg_blocks_ago r = Z.of_nat k /\
             (exists i, data r !! k = Some i /\ reorg_depth i = max_reorg_depth r) /\
             (forall j i, (j < k)%nat -> data r !! j = Some i -> reorg_depth i < max_reorg_depth r)
  end.
Proof.
  intros Hb Hsmall selected. unfold reorgs.
  rewrite as_i64_small by lia. rewrite checked_i64_small by (unfold in_i64; lia). simpl mbind. cbv beta.
  unfold sql_limit. rewrite (proj2 (Z.ltb_ge _ _)) by lia. fold selected.
  assert (Forall small_height selected) as Hsel.
  { unfold selected. apply Forall_fmap. apply Forall_take. exact Hsmall. }
  clearbody selected. destruct selected as [|a [|b l]]; [done|done|].
  destruct (exists_last (l := a :: b :: l)) as (rest & oldest & Heq); [done|]. rewrite Heq in *.
  rewrite last_snoc, length_app, take_app_length' by (simpl; lia).
  apply Forall_app in Hsel as [Hrest Hold%Forall_inv]. rewrite set_depths_run by done.
  cbn [mbind res_bind]. set (ds := depths rest (stacks_height oldest)).
  assert (ds <> []) as Hne.
  { intros H0. apply (f_equal length) in H0. unfold ds in H0. rewrite depths_length in H0.
    apply (f_equal length) in Heq. rewrite length_app in Heq. simpl in *. lia. }
  destruct (max_item_spec None ds) as (m & Hm & Hin & _ & Hmax); [done|].
  assert (m ∈ ds) as Hin' by naive_solver. unfold max_item. rewrite Hm. cbn [unwrap mbind res_bind].
  destruct (index_of_spec (reorg_depth m) 0 ds) as (k & Hk & Hkx & Hkj); [by exists m|].
  rewrite Hk. cbn [unwrap mbind res_bind]. eexists _, oldest, rest. split; [done|]. split; [done|]. simpl.
  split; [done|]. split; [done|]. exists k. split; [lia|]. split; [done|].
  intros j i Hj Hi. pose proof (Hkj j i Hj Hi). assert (reorg_depth i <= reorg_depth m); [|lia].
  apply Hmax. by eapply list_elem_of_lookup_2.
Qed.
End ReorgTheorems.

(** ** Witnesses *)
Module DoctorWitness.
#[local] Instance bp : BuildProfile := false.

Definition burn_table : list (SqlValue * SqlValue) :=
  [(SqlInteger 12, SqlInteger 30); (SqlInteger 12, SqlNull); (SqlInteger 11, SqlInteger 10);
   (SqlInteger 9, SqlInteger 500); (SqlNull, SqlOther)].

Lemma burns_spec_witness :
  (exists st, burns burn_table 2 = Ok st /\ stat_blocks st = 2 /\ describes [30; 10] st) /\
  burns burn_table 13 = Panic.
Proof.
  split.
  - apply (burns_spec burn_table 12 30 2 [(11, 10); (9, 500)]); [run|by_compute|by_compute|run].
  - apply (burns_spec burn_table 12 30 13 [(11, 10); (9, 500)]); [run|by_compute|by_compute].
Defined.

Definition row (burn height : Z) : Item :=
  {| burn_height := burn; stacks_block_id := "b"; miner := "m"; stacks_height := height; reorg_depth := 0 |}.

Lemma reorgs_spec_witness :
  (exists r oldest rest,
     [row 14 5; row 13 4; row 12 6; row 11 5] = rest ++ [oldest] /\
     reorgs [row 14 5; row 13 4; row 12 6; row 11 5; row 10 4] 3 = Ok r /\
     data r = depths rest (stacks_height oldest) /\
     (forall i, i ∈ data r -> reorg_depth i <= max_reorg_depth r) /\
     exists k : nat, max_reorg_blocks_ago r = Z.of_nat k /\
       (exists i, data r !! k = Some i /\ reorg_depth i = max_reorg_depth r) /\
       (forall j i, (j < k)%nat -> data r !! j = Some i -> reorg_depth i < max_reorg_depth r)) /\
  reorgs [row 14 5] 3 = Panic.
Proof.
  split.
  - apply (reorgs_spec [row 14 5; row 13 4; row 12 6; row 11 5; row 10 4] 3); [lia|].
    repeat (constructor; [unfold small_height; simpl; lia|]). constructor.
  - apply (reorgs_spec [row 14 5] 3); [lia|]. constructor; [unfold small_height; simpl; lia|constructor].
Defined.

Example reorgs_run :
  (fun r => (max_reorg_depth r, max_reorg_blocks_ago r)) <$>
    reorgs [row 14 5; row 13 4; row 12 6; row 11 5; row 10 4] 3 = Ok (3, 1).
Proof. run. Qed.

Example main_run :
  doctor_main {| files _ := Some [Some "x Failure mining"; Some "mined anchored block 5"; None; Some "Failure mining"]%string;
                 burn_rows _ := Ok burn_table; reorg_rows _ := Ok [row 1 1]; environment := [] |}
    {| network := Mainnet; rpc_url := None; log_file := Some "node.log"%string; db_dir := None; cmd := Analyze |}
  = Ok (Report {| problems := ["x Failure mining"%string]; is_okay := true |}).
Proof. run. Qed.
End DoctorWitness.
