(* ===== verification/SbtcScript.v ===== *)
(** * Bitcoin scripts and transactions of the sBTC tools

    [sbtc-cli] and [test-vectors] build scripts with [bitcoin]'s [Builder] and
    sign messages with [secp256k1], [sha256] and [array-bytes].  These crates are
    external: [ScriptLib] and [SignLib] are the calls the sources make,
    [ScriptLaws] and [SignLaws] their documented behaviour (the serialisation of
    opcodes and pushes, the lengths of digests and signatures).  The
    transactions are the records the tools fill in. *)
From S2P Require Import Prelude.

(** The opcodes the sources push. *)
Inductive Opcode := OP_RETURN | OP_DROP | OP_DUP | OP_HASH160 | OP_EQUAL | OP_CHECKSIGVERIFY.
Definition opcode_byte (o : Opcode) : Z :=
  match o with
  | OP_RETURN => 0x6a
  | OP_DROP => 0x75
  | OP_DUP => 0x76
  | OP_HASH160 => 0xa9
  | OP_EQUAL => 0x87
  | OP_CHECKSIGVERIFY => 0xad
  end.

Class ScriptLib := {
  BScript : Type;
  BScript_eq_dec :: EqDecision BScript;
  BScript_countable :: Countable BScript;
  script_new : BScript;                              (* Builder::new, into_script *)
  push_opcode : Opcode -> BScript -> BScript;
  push_slice : bytes -> BScript -> BScript;
  push_int : Z -> BScript -> BScript;
  script_bytes : BScript -> bytes;                   (* as_bytes *)
  script_dust : BScript -> Z                         (* dust_value().to_sat() *)
}.
Class ScriptLaws `{ScriptLib} := {
  bytes_new : script_bytes script_new = [];
  bytes_opcode : forall o s, script_bytes (push_opcode o s) = script_bytes s ++ [opcode_byte o];
  bytes_slice : forall d s, (length d < 76)%nat ->
    script_bytes (push_slice d s) = script_bytes s ++ [Z.of_nat (length d)] ++ d;
  bytes_slice_long : forall d s, (76 <= length d < 256)%nat ->
    script_bytes (push_slice d s) = script_bytes s ++ [0x4c; Z.of_nat (length d)] ++ d;
  bytes_one : forall s, script_bytes (push_int 1 s) = script_bytes s ++ [0x51]
}.

Class SignLib := {
  SigningKey : Type;
  key_from_slice : bytes -> option SigningKey;       (* SecretKey::from_slice *)
  sha256_digest : bytes -> string;                   (* the digest as hexadecimal text *)
  hex2bytes : string -> option bytes;
  bytes2hex : string -> bytes -> string;             (* with a prefix *)
  EcdsaMessage : Type;
  message_from_slice : bytes -> option EcdsaMessage;
  (* sign_ecdsa_recoverable, serialize_compact: recovery id and signature *)
  sign_recoverable : EcdsaMessage -> SigningKey -> Z * bytes
}.
Class SignLaws `{SignLib} := {
  digest_is_message : forall m, is_Some (hex2bytes (sha256_digest m) ≫= message_from_slice);
  signature_length : forall m k, length (sign_recoverable m k).2 = 64%nat;
  recovery_id_range : forall m k, 0 <= (sign_recoverable m k).1 < 4
}.

Section Transactions.
Context {SL : ScriptLib}.

Record BTxOut := { out_value : Z; out_script : BScript }.
Record BTxIn := {
  in_previous_output : option (bytes * Z);           (* [None] is [OutPoint::null()] *)
  in_script_sig : BScript;
  in_sequence : Z;
  in_witness : list bytes
}.
Record BTransaction := {
  tx_version : Z;
  tx_lock_time : Z;
  tx_input : list BTxIn;
  tx_output : list BTxOut
}.
#[export] Instance BTxOut_eq_dec : EqDecision BTxOut.
Proof. solve_decision. Defined.

(** [data.as_slice().try_into::<&PushBytes>().unwrap()] *)
Definition push_bytes {E : Type} (data : bytes) (s : BScript) : res E BScript :=
  if Z.of_nat (length data) <? 2 ^ 32 then Ok (push_slice data s) else Panic.

(** Signing the digest of a message. *)
Definition generate_signature {GL : SignLib} {E : Type} (msg : bytes) (key : SigningKey)
    : res E (Z * bytes) :=
  msg_hash_bytes ← unwrap (hex2bytes (sha256_digest msg));
  msg_ecdsa ← unwrap (message_from_slice msg_hash_bytes);
  mret (sign_recoverable msg_ecdsa key).

Lemma generate_signature_total {GL : SignLib} {LL : SignLaws} {E : Type} (msg : bytes) (key : SigningKey) :
  exists id sig, generate_signature (E := E) msg key = Ok (id, sig) /\ 0 <= id < 4 /\ length sig = 64%nat.
Proof.
  unfold generate_signature. destruct (digest_is_message msg) as [m Hm].
  apply bind_Some in Hm as (h & -> & Hm). simpl. rewrite Hm. simpl.
  destruct (sign_recoverable m key) as [id sig] eqn:Hs. exists id, sig. split; [done|].
  pose proof (signature_length m key) as Hl. pose proof (recovery_id_range m key) as Hr.
  rewrite Hs in Hl, Hr. done.
Qed.
End Transactions.

(** [[a, b, ..].into_iter().chain(repeat(0)).take(n)] *)
Definition pad_to (n : nat) (l : bytes) : bytes := take n (l ++ replicate n 0).

Lemma pad_to_length (n : nat) (l : bytes) : length (pad_to n l) = n.
Proof. unfold pad_to. rewrite length_take, length_app, length_replicate. lia. Qed.

Lemma pad_to_short (n : nat) (l : bytes) :
  (length l <= n)%nat -> pad_to n l = l ++ replicate (n - length l) 0.
Proof.
  intros Hl. unfold pad_to. rewrite take_app_ge by done. f_equal. rewrite take_replicate. f_equal. lia.
Qed.

Lemma take_pad_to (n k : nat) (l : bytes) : (k <= length l)%nat -> (k <= n)%nat -> take k (pad_to n l) = take k l.
Proof. intros Hk Hn. unfold pad_to. rewrite take_take, Nat.min_l by done. by rewrite take_app_le. Qed.

(** ** An executable instance

    Scripts are their bytes; a signature repeats the first byte of the message. *)
Module ToyScripts.
#[export] Instance toy_scripts : ScriptLib := {|
  BScript := list Z;
  script_new := [];
  push_opcode o s := s ++ [opcode_byte o];
  push_slice d s := s ++ (if (length d <? 76)%nat then [Z.of_nat (length d)]
                          else [0x4c; Z.of_nat (length d)]) ++ d;
  push_int n s := s ++ [0x50 + n];
  script_bytes s := s;
  script_dust s := 300 + Z.of_nat (length s)
|}.
#[export, refine] Instance toy_script_laws : ScriptLaws := {| bytes_new := eq_refl |}.
Proof.
  - done.
  - intros d s Hd. simpl. by rewrite (proj2 (Nat.ltb_lt _ _)).
  - intros d s Hd. simpl. by rewrite (proj2 (Nat.ltb_ge _ _)) by lia.
  - done.
Defined.

#[export] Instance toy_signing : SignLib := {|
  SigningKey := Z;
  key_from_slice b := head b;
  sha256_digest _ := "digest"%string;
  hex2bytes s := if bool_decide (s = "bad"%string) then None else Some (as_bytes s);
  bytes2hex p b := p;
  EcdsaMessage := bytes;
  message_from_slice := Some;
  sign_recoverable m k := (1, replicate 64 k)
|}.
#[export, refine] Instance toy_signing_laws : SignLaws := {| recovery_id_range m k := _ |}.
Proof.
  - intros m. simpl. eauto.
  - intros m k. apply length_replicate.
  - simpl. lia.
Defined.
End ToyScripts.
