(* ===== verification/TestVectors.v ===== *)
(** * [test-vectors/src]: example sBTC transactions

    The payloads of peg-in, peg-out request and handoff operations, the scripts
    that carry them (in an [OP_RETURN] output or in a commit-reveal witness) and
    the transactions of the five test vectors. *)
From S2P Require Import Prelude SbtcScript.

Section TestVectors.
Context {SL : ScriptLib} {GL : SignLib} {E : Type}.

(** ** [utils.rs] *)
Definition generate_test_vector (input : list BTxIn) (output : list BTxOut) : BTransaction :=
  {| tx_version := 2; tx_lock_time := 0; tx_input := input; tx_output := output |}.

(** The input of every vector. *)
Definition vector_input (sequence : Z) (witness : list bytes) : BTxIn :=
  {| in_previous_output := None; in_script_sig := script_new; in_sequence := sequence;
     in_witness := witness |}.
Definition sequence_max : Z := 0xffffffff.

Definition fee_bytes (maybe_fee_subsidy : option Z) : bytes :=
  from_option (be_bytes 8) [] maybe_fee_subsidy.

(** ** [peg_in.rs] *)
Definition C32_ADDRESS_VERSION_TESTNET_SINGLESIG : Z := 26.

Definition peg_in_data (magic_bytes stacks_address : bytes) (stacks_address_version : Z)
    (contract_name : option string) (maybe_fee_subsidy : option Z) : bytes :=
  let principal_byte := match contract_name with Some _ => 0x06 | None => 0x05 end in
  let name := match contract_name with
              | Some n => as_u8 (Z.of_nat (length (as_bytes n))) :: as_bytes n
              | None => []
              end in
  pad_to 78 (magic_bytes ++ [60] ++ [principal_byte] ++ [stacks_address_version] ++ stacks_address ++ name)
  ++ fee_bytes maybe_fee_subsidy.

(** [OP_1 <peg wallet>] *)
Definition peg_wallet_script (peg_wallet_address : bytes) : BScript :=
  push_slice peg_wallet_address (push_int 1 script_new).

(** [<data> OP_DROP OP_DUP OP_HASH160 <wallet> OP_EQUAL OP_CHECKSIGVERIFY] *)
Definition witness_script (data peg_wallet_address : bytes) : res E BScript :=
  s ← push_bytes data script_new;
  mret (push_opcode OP_CHECKSIGVERIFY (push_opcode OP_EQUAL (push_slice peg_wallet_address
    (push_opcode OP_HASH160 (push_opcode OP_DUP (push_opcode OP_DROP s)))))).

Definition generate_peg_in_output (stacks_address current_peg_wallet : bytes)
    (stacks_address_version amount : Z) : res E (list BTxOut) :=
  let op_bytes := [105; 100] in
  let data := peg_in_data op_bytes stacks_address stacks_address_version
                (Some "sbtc-receiver-contract"%string) None in
  op_return_script ← push_bytes data (push_opcode OP_RETURN script_new);
  mret [{| out_value := 0; out_script := op_return_script |};
        {| out_value := amount; out_script := peg_wallet_script current_peg_wallet |}].

Definition generate_peg_in_test_vector : res E BTransaction :=
  output ← generate_peg_in_output (replicate 20 1) (replicate 32 4)
             C32_ADDRESS_VERSION_TESTNET_SINGLESIG 1337;
  mret (generate_test_vector [vector_input sequence_max []] output).

(** [OP_RETURN <"idw">] *)
Definition reveal_script : BScript :=
  push_slice [105; 100; 119] (push_opcode OP_RETURN script_new).

Definition generate_peg_in_reveal_test_vector : res E BTransaction :=
  let current_peg_wallet := replicate 32 4 in
  let data := peg_in_data [] (replicate 20 1) C32_ADDRESS_VERSION_TESTNET_SINGLESIG
                (Some "sbtc-receiver-contract"%string) None in
  w ← witness_script data current_peg_wallet;
  mret (generate_test_vector [vector_input sequence_max [script_bytes w; replicate 97 60]]
    [{| out_value := 0; out_script := reveal_script |};
     {| out_value := 1337; out_script := peg_wallet_script current_peg_wallet |}]).

(** ** [peg_out.rs] *)
Definition peg_out_request_data (magic_bytes : bytes) (amount recovery_id : Z) (signature : bytes)
    (maybe_fee_subsidy : option Z) : bytes :=
  pad_to 78 (magic_bytes ++ [62] ++ be_bytes 8 amount ++ [recovery_id] ++ signature)
  ++ fee_bytes maybe_fee_subsidy.

(** [OP_DUP OP_HASH160 <recipient> OP_EQUAL OP_CHECKSIGVERIFY] *)
Definition recipient_script (recipient_address : bytes) : BScript :=
  push_opcode OP_CHECKSIGVERIFY (push_opcode OP_EQUAL (push_slice recipient_address
    (push_opcode OP_HASH160 (push_opcode OP_DUP script_new)))).

(** What the key of a peg-out request signs. *)
Definition peg_out_message (amount : Z) (recipient : BScript) : bytes :=
  be_bytes 8 amount ++ script_bytes recipient.

Definition peg_out_outputs (op_return recipient : BScript) (peg_wallet_address : bytes)
    (fulfillment_fee dust_amount : Z) : list BTxOut :=
  [{| out_value := 0; out_script := op_return |};
   {| out_value := dust_amount; out_script := recipient |};
   {| out_value := fulfillment_fee; out_script := peg_wallet_script peg_wallet_address |}].

Definition generate_peg_out_request_output (amount : Z) (secret_key : SigningKey)
    (peg_wallet_address recipient_address : bytes) (fulfillment_fee dust_amount : Z)
    : res E (list BTxOut) :=
  let recipient := recipient_script recipient_address in
  '(recovery_id, signature) ← generate_signature (peg_out_message amount recipient) secret_key;
  let data := peg_out_request_data [105; 100] amount (as_u8 recovery_id) signature None in
  op_return_script ← push_bytes data (push_opcode OP_RETURN script_new);
  mret (peg_out_outputs op_return_script recipient peg_wallet_address fulfillment_fee dust_amount).

(** The key of the vectors: 33 bytes of text, the first 32 of which are used. *)
Definition secret_key_hex : string :=
  "42faca653724860da7a41bfcef7e6ba78db55146f6900de8cb2a9f760ffac70c01".
Definition vector_key : res E SigningKey :=
  secret_key_vec ← unwrap (hex2bytes secret_key_hex);
  if (length secret_key_vec <? 32)%nat then Panic
  else unwrap (key_from_slice (take 32 secret_key_vec)).

Definition generate_peg_out_request_test_vector : res E BTransaction :=
  secret_key ← vector_key;
  output ← generate_peg_out_request_output 1337 secret_key (replicate 32 4) (replicate 20 5) 42 21;
  mret (generate_test_vector [vector_input 65535 []] output).

Definition generate_peg_out_request_reveal_test_vector : res E BTransaction :=
  secret_key ← vector_key;
  let peg_wallet_address := replicate 32 4 in
  let recipient := recipient_script (replicate 20 5) in
  '(recovery_id, signature) ← generate_signature (peg_out_message 1337 recipient) secret_key;
  let data := peg_out_request_data [] 1337 (as_u8 recovery_id) signature None in
  w ← witness_script data peg_wallet_address;
  mret (generate_test_vector [vector_input sequence_max [script_bytes w; replicate 97 60]]
    (peg_out_outputs reveal_script recipient peg_wallet_address 42 21)).

(** ** [peg_handoff.rs] *)
Definition generate_peg_handoff_output (peg_wallet_address : bytes) (reward_cycle : Z) : list BTxOut :=
  [{| out_value := 0;
      out_script := push_slice (replicate 68 0) (push_slice (be_bytes 8 reward_cycle)
        (push_slice [105; 100; 72] (push_opcode OP_RETURN script_new))) |};
   {| out_value := 0; out_script := peg_wallet_script peg_wallet_address |}].

Definition generate_peg_handoff_test_vector : BTransaction :=
  generate_test_vector [vector_input 65535 []] (generate_peg_handoff_output (replicate 32 4) 67).

(** ** [main.rs] *)
Inductive Operation := PegIn | PegOutRequest | PegHandoff.
Inductive Protocol := OpReturn | CommitReveal.

Definition vector (operation : Operation) (protocol : Protocol) : res E BTransaction :=
  match operation, protocol with
  | PegIn, OpReturn => generate_peg_in_test_vector
  | PegIn, CommitReveal => generate_peg_in_reveal_test_vector
  | PegOutRequest, OpReturn => generate_peg_out_request_test_vector
  | PegOutRequest, CommitReveal => generate_peg_out_request_reveal_test_vector
  | PegHandoff, OpReturn => Ok generate_peg_handoff_test_vector
  | PegHandoff, CommitReveal => Panic                       (* unimplemented!() *)
  end.

(** [serialize] is the consensus encoding. *)
Definition vectors_main (serialize : BTransaction -> bytes) (operation : Operation)
    (protocol : Protocol) : res E string :=
  tx ← vector operation protocol;
  mret (bytes2hex "" (serialize tx)).
End TestVectors.

(** ** Reading the payloads back

    The layout of a payload after its magic bytes: the reference the encoders
    are checked against. *)
Record PegInPayload := {
  pi_version : Z;
  pi_address : bytes;
  pi_contract : option bytes
}.
Definition read_peg_in (magic : nat) (data : bytes) : option PegInPayload :=
  match drop magic data with
  | 60 :: principal :: version :: rest =>
      if principal =? 0x05 then
        Some {| pi_version := version; pi_address := take 20 rest; pi_contract := None |}
      else if principal =? 0x06 then
        n ← head (drop 20 rest);
        Some {| pi_version := version; pi_address := take 20 rest;
                pi_contract := Some (take (Z.to_nat n) (drop 21 rest)) |}
      else None
  | _ => None
  end.

Record PegOutPayload := { pr_amount : Z; pr_recovery_id : Z; pr_signature : bytes }.
Definition read_peg_out (magic : nat) (data : bytes) : option PegOutPayload :=
  match drop magic data with
  | 62 :: rest =>
      id ← head (drop 8 rest);
      Some {| pr_amount := be_decode (take 8 rest); pr_recovery_id := id;
              pr_signature := take 64 (drop 9 rest) |}
  | _ => None
  end.

(** The payload of an [OP_RETURN] script. *)
Definition read_op_return (script : bytes) : option bytes :=
  match script with
  | 0x6a :: 0x4c :: n :: data => if Z.of_nat (length data) =? n then Some data else None
  | 0x6a :: n :: data => if Z.of_nat (length data) =? n then Some data else None
  | _ => None
  end.

(** The subsidy after the padded payload of a reveal. *)
Definition read_fee_subsidy (data : bytes) : option Z :=
  if bool_decide (length data = 86%nat) then Some (be_decode (drop 78 data)) else None.

(** ** Theorems *)
Section Payloads.
Implicit Types (magic address : bytes).

Lemma fee_bytes_length (fee : option Z) :
  length (fee_bytes fee) = match fee with Some _ => 8%nat | None => O end.
Proof. destruct fee; [apply be_bytes_length|done]. Qed.

Lemma peg_in_data_length magic address (version : Z) (name : option string) (fee : option Z) :
  length (peg_in_data magic address version name fee) =
    (78 + match fee with Some _ => 8 | None => 0 end)%nat.
Proof. unfold peg_in_data. by rewrite length_app, pad_to_length, fee_bytes_length. Qed.

Lemma take_length_app {A : Type} (n : nat) (l k : list A) : length l = n -> take n (l ++ k) = l.
Proof. intros <-. apply take_app_length. Qed.
Lemma drop_length_app {A : Type} (n : nat) (l k : list A) : length l = n -> drop n (l ++ k) = k.
Proof. intros <-. apply drop_app_length. Qed.

(** A payload with a contract name, as its fields followed by padding. *)
Lemma peg_in_data_contract magic address (version : Z) (name : string) (fee : option Z) :
  length address = 20%nat -> (length magic + length (as_bytes name) <= 54)%nat ->
  exists zeros, peg_in_data magic address version (Some name) fee =
    magic ++ [60; 0x06; version] ++ address ++ [Z.of_nat (length (as_bytes name))] ++
    as_bytes name ++ zeros ++ fee_bytes fee.
Proof.
  intros Ha Hl. unfold peg_in_data. rewrite pad_to_short by (rewrite !length_app; simpl; lia).
  set (z := replicate _ _). exists z. clearbody z.
  unfold as_u8. rewrite Z.mod_small by lia. by rewrite <-!app_assoc.
Qed.

Lemma peg_in_data_standard magic address (version : Z) (fee : option Z) :
  length address = 20%nat -> (length magic <= 55)%nat ->
  exists zeros, peg_in_data magic address version None fee =
    magic ++ [60; 0x05; version] ++ address ++ zeros ++ fee_bytes fee.
Proof.
  intros Ha Hl. unfold peg_in_data. rewrite pad_to_short by (rewrite !length_app; simpl; lia).
  set (z := replicate _ _). exists z. clearbody z. by rewrite app_nil_r, <-!app_assoc.
Qed.

Lemma read_subsidy (data : bytes) (fee : Z) :
  length data = 78%nat -> in_u64 fee -> read_fee_subsidy (data ++ fee_bytes (Some fee)) = Some fee.
Proof.
  intros Hd Hf. unfold read_fee_subsidy. rewrite bool_decide_true.
  - rewrite drop_length_app by done. simpl. rewrite be_decode_bytes, Z.mod_small; [done|].
    unfold in_uint in Hf. simpl. lia.
  - rewrite length_app, Hd. simpl. by rewrite be_bytes_length.
Qed.

(** Peg-in payloads are read back: recipient and contract are recovered as long
    as the name fits behind the magic bytes, and so is the fee subsidy of a
    reveal.  (A longer name is cut off.) *)
Theorem peg_in_roundtrip magic address (version : Z) (name : option string) (fee : Z) :
  length address = 20%nat -> (length magic <= 54)%nat ->
  (forall n, name = Some n -> (length magic + length (as_bytes n) <= 54)%nat) -> in_u64 fee ->
  let data := peg_in_data magic address version name (Some fee) in
  take (length magic) data = magic /\
  read_peg_in (length magic) data =
    Some {| pi_version := version; pi_address := address; pi_contract := as_bytes <$> name |} /\
  read_fee_subsidy data = Some fee.
Proof.
  intros Ha Hm Hn Hf data. split_and!; [| |by apply read_subsidy; [apply pad_to_length|]].
  - unfold data. destruct name as [n|].
    + destruct (peg_in_data_contract magic address version n (Some fee) Ha) as [z ->]; [by apply Hn|].
      by apply take_length_app.
    + destruct (peg_in_data_standard magic address version (Some fee) Ha) as [z ->]; [lia|].
      by apply take_length_app.
  - unfold data, read_peg_in. destruct name as [n|].
    + specialize (Hn n eq_refl).
      destruct (peg_in_data_contract magic address version n (Some fee) Ha Hn) as [z ->].
      rewrite drop_length_app by done. simpl. rewrite (take_length_app 20), (drop_length_app 20) by done. simpl.
      change (drop 21 (address ++ ?k)) with (drop (20 + 1) (address ++ k)).
      rewrite <-drop_drop, (drop_length_app 20) by done. simpl. by rewrite drop_0, Nat2Z.id, take_app_length.
    + destruct (peg_in_data_standard magic address version (Some fee) Ha) as [z ->]; [lia|].
      rewrite drop_length_app by done. simpl. by rewrite take_length_app.
Qed.

Lemma peg_out_data_layout magic (amount id : Z) (signature : bytes) (fee : option Z) :
  length signature = 64%nat -> (length magic <= 4)%nat ->
  exists zeros, peg_out_request_data magic amount id signature fee =
    magic ++ [62] ++ be_bytes 8 amount ++ [id] ++ signature ++ zeros ++ fee_bytes fee.
Proof.
  intros Hs Hm. unfold peg_out_request_data.
  rewrite pad_to_short by (rewrite !length_app, be_bytes_length; simpl; lia).
  set (z := replicate _ _). exists z. clearbody z. by rewrite <-!app_assoc.
Qed.

Lemma read_peg_out_data magic (amount id : Z) (signature : bytes) (fee : option Z) :
  length signature = 64%nat -> (length magic <= 4)%nat -> in_u64 amount ->
  read_peg_out (length magic) (peg_out_request_data magic amount id signature fee) =
    Some {| pr_amount := amount; pr_recovery_id := id; pr_signature := signature |}.
Proof.
  intros Hs Hm Ha. destruct (peg_out_data_layout magic amount id signature fee Hs Hm) as [z ->].
  unfold read_peg_out. rewrite drop_length_app by done. simpl.
  pose proof (be_bytes_length 8 amount) as Hb. rewrite (drop_length_app 8), (take_length_app 8) by done. simpl.
  change (drop 9 (be_bytes 8 amount ++ ?k)) with (drop (8 + 1) (be_bytes 8 amount ++ k)).
  rewrite <-drop_drop, (drop_length_app 8) by done. simpl. rewrite drop_0, take_length_app by done.
  rewrite be_decode_bytes, Z.mod_small; [done|]. unfold in_uint in Ha. simpl. lia.
Qed.
End Payloads.

Section Scripts.
Context {SL : ScriptLib} {LL : ScriptLaws} {GL : SignLib} {GLL : SignLaws} {E : Type}.

Lemma read_op_return_push (data : bytes) :
  (length data < 256)%nat ->
  read_op_return (script_bytes (push_slice data (push_opcode OP_RETURN script_new))) = Some data.
Proof.
  intros Hl. destruct (Nat.lt_ge_cases (length data) 76) as [Hs|Hs].
  - rewrite bytes_slice, bytes_opcode, bytes_new by done. simpl.
    destruct (Z.eq_dec (Z.of_nat (length data)) 0x4c); [lia|].
    assert (forall n, n <> 0x4c -> match n with 0x4c => match data with
      | n' :: d => if Z.of_nat (length d) =? n' then Some d else None
      | [] => if Z.of_nat (length data) =? n then Some data else None end
      | _ => if Z.of_nat (length data) =? n then Some data else None end =
      if Z.of_nat (length data) =? n then Some data else None) as Hm.
    { intros k Hk. destruct k as [|p|p]; try done.
      do 7 (destruct p as [p|p|]; try done). }
    rewrite Hm by done. by rewrite Z.eqb_refl.
  - rewrite bytes_slice_long, bytes_opcode, bytes_new by lia. simpl. by rewrite Z.eqb_refl.
Qed.

Lemma push_bytes_small (data : bytes) (s : BScript) :
  (length data < 256)%nat -> push_bytes (E := E) data s = Ok (push_slice data s).
Proof. intros Hl. unfold push_bytes. by rewrite (proj2 (Z.ltb_lt _ _)) by lia. Qed.

(** The peg-in transaction says what it does: its first output carries the
    recipient and the contract, its second pays the amount to the peg wallet. *)
Theorem peg_in_output_readable (address wallet : bytes) (version amount : Z) :
  length address = 20%nat ->
  exists script,
    generate_peg_in_output (E := E) address wallet version amount =
      Ok [{| out_value := 0; out_script := script |};
          {| out_value := amount; out_script := peg_wallet_script wallet |}] /\
    (read_op_return (script_bytes script) ≫= read_peg_in 2) =
      Some {| pi_version := version; pi_address := address;
              pi_contract := Some (as_bytes "sbtc-receiver-contract") |}.
Proof.
  intros Ha. unfold generate_peg_in_output.
  set (data := peg_in_data _ _ _ _ _).
  assert (length data = 78%nat) as Hl by apply peg_in_data_length.
  rewrite push_bytes_small by lia. simpl. eexists. split; [done|].
  rewrite read_op_return_push by lia. simpl. unfold data, read_peg_in.
  destruct (peg_in_data_contract [105; 100] address version "sbtc-receiver-contract" None Ha)
    as [z ->]; [simpl; lia|]. simpl.
  rewrite (take_length_app 20), (drop_length_app 20) by done. simpl.
  change (drop 21 (address ++ ?k)) with (drop (20 + 1) (address ++ k)).
  by rewrite <-drop_drop, (drop_length_app 20).
Qed.

(** The peg-out request is signed for what it asks: the payload carries the
    amount and a signature, under the given key, of the amount and of the script
    that the second output pays; the third output is the fulfillment fee. *)
Theorem peg_out_output_signed (amount : Z) (key : SigningKey) (wallet recipient : bytes)
    (fulfillment_fee dust : Z) :
  in_u64 amount ->
  exists script to message id signature,
    generate_peg_out_request_output (E := E) amount key wallet recipient fulfillment_fee dust =
      Ok [{| out_value := 0; out_script := script |}; {| out_value := dust; out_script := to |};
          {| out_value := fulfillment_fee; out_script := peg_wallet_script wallet |}] /\
    (read_op_return (script_bytes script) ≫= read_peg_out 2) =
      Some {| pr_amount := amount; pr_recovery_id := id; pr_signature := signature |} /\
    (hex2bytes (sha256_digest (be_bytes 8 amount ++ script_bytes to)) ≫= message_from_slice) = Some message /\
    sign_recoverable message key = (id, signature).
Proof.
  intros Ha. unfold generate_peg_out_request_output, generate_signature, peg_out_message.
  set (to := recipient_script recipient).
  destruct (digest_is_message (be_bytes 8 amount ++ script_bytes to)) as [m Hm]. pose proof Hm as Hm'.
  apply bind_Some in Hm' as (h & Hh & Hmsg). rewrite Hh. simpl. rewrite Hmsg. simpl.
  pose proof (signature_length m key) as Hsl. pose proof (recovery_id_range m key) as Hid.
  destruct (sign_recoverable m key) as [id signature] eqn:Hs. simpl in *.
  set (data := peg_out_request_data _ _ _ _ _).
  assert (length data = 78%nat) as Hl.
  { unfold data, peg_out_request_data. by rewrite length_app, pad_to_length. }
  rewrite push_bytes_small by lia. simpl. eexists _, to, m, id, signature. split; [done|].
  split_and!; [|done|done]. rewrite read_op_return_push by lia. simpl. unfold data.
  rewrite (read_peg_out_data [105; 100]) by (done || simpl; lia).
  unfold as_u8. by rewrite Z.mod_small by lia.
Qed.
End Scripts.

(** ** Witnesses *)
Module TestVectorsWitness.
Import ToyScripts.

Lemma peg_in_roundtrip_witness :
  let data := peg_in_data [105; 100] (replicate 20 7) 26 (Some "pool"%string) (Some 1000) in
  take 2 data = [105; 100] /\
  read_peg_in 2 data =
    Some {| pi_version := 26; pi_address := replicate 20 7; pi_contract := as_bytes <$> Some "pool"%string |} /\
  read_fee_subsidy data = Some 1000.
Proof.
  apply (peg_in_roundtrip [105; 100] (replicate 20 7) 26 (Some "pool"%string) 1000);
    [done|simpl; lia|intros n [= <-]; simpl; lia|by_compute].
Defined.

Lemma peg_in_output_readable_witness :
  exists script,
    generate_peg_in_output (E := Empty_set) (replicate 20 1) (replicate 32 4) 26 1337 =
      Ok [{| out_value := 0; out_script := script |};
          {| out_value := 1337; out_script := peg_wallet_script (replicate 32 4) |}] /\
    (read_op_return (script_bytes script) ≫= read_peg_in 2) =
      Some {| pi_version := 26; pi_address := replicate 20 1;
              pi_contract := Some (as_bytes "sbtc-receiver-contract") |}.
Proof. by apply (peg_in_output_readable (replicate 20 1) (replicate 32 4) 26 1337). Defined.

Lemma peg_out_output_signed_witness :
  exists script to message id signature,
    generate_peg_out_request_output (E := Empty_set) 1337 9 (replicate 32 4) (replicate 20 5) 42 21 =
      Ok [{| out_value := 0; out_script := script |}; {| out_value := 21; out_script := to |};
          {| out_value := 42; out_script := peg_wallet_script (replicate 32 4) |}] /\
    (read_op_return (script_bytes script) ≫= read_peg_out 2) =
      Some {| pr_amount := 1337; pr_recovery_id := id; pr_signature := signature |} /\
    (hex2bytes (sha256_digest (be_bytes 8 1337 ++ script_bytes to)) ≫= message_from_slice) = Some message /\
    sign_recoverable message 9 = (id, signature).
Proof.
  apply (peg_out_output_signed (GL := toy_signing) 1337 9 (replicate 32 4) (replicate 20 5) 42 21). by_compute.
Defined.

(** The reveal vectors carry no fee subsidy. *)
Example reveal_without_subsidy :
  read_fee_subsidy (peg_in_data [] (replicate 20 1) 26 (Some "sbtc-receiver-contract"%string) None) = None.
Proof. run. Qed.

Example handoff_reveal : vector (E := Empty_set) PegHandoff CommitReveal = Panic.
Proof. done. Qed.
End TestVectorsWitness.
