(* ===== verification/SbtcCli.v ===== *)
(** * [sbtc-cli/src]: building sBTC transactions from the command line

    [deposit], [withdraw], [broadcast] and [generate-from], with the helpers of
    [utils.rs].  The wallet ([bdk] over Electrum), addresses and keys are
    external ([CliLib]); [CliLaws] is what [bdk] documents of the outputs of a
    built transaction: the requested ones in some order and at most one change
    output, which pays the wallet itself. *)
From S2P Require Import Prelude SbtcScript TestVectors.

(** [bitcoin::Network] *)
Inductive CliNetwork := Bitcoin | Testnet | Signet | Regtest.
#[export] Instance CliNetwork_eq_dec : EqDecision CliNetwork.
Proof. solve_decision. Defined.

Class CliLib {SL : ScriptLib} {GL : SignLib} := {
  PrivateKey : Type;
  key_from_wif : string -> option PrivateKey;
  key_to_wif : PrivateKey -> string;
  key_from_bytes : bytes -> CliNetwork -> option PrivateKey;
  key_to_bytes : PrivateKey -> bytes;
  key_network : PrivateKey -> CliNetwork;
  key_inner : PrivateKey -> SigningKey;
  CliAddress : Type;                                  (* bitcoin::Address *)
  address_from_str : string -> option CliAddress;
  address_script : CliAddress -> BScript;
  StxAddress : Type;
  stx_from_string : string -> option StxAddress;
  stx_version : StxAddress -> Z;
  stx_bytes : StxAddress -> bytes;
  (* bdk and Electrum *)
  CliWorld : Type;
  Electrum : Type;
  electrum_new : string -> CliWorld -> CliWorld * option Electrum;
  Wallet : Type;
  wallet_new : PrivateKey -> CliNetwork -> option Wallet;
  wallet_sync : Wallet -> Electrum -> CliWorld -> CliWorld * option Wallet;
  change_script : Wallet -> BScript;
  Psbt : Type;
  psbt_outputs : Psbt -> list BTxOut;                 (* unsigned_tx.output *)
  set_psbt_outputs : list BTxOut -> Psbt -> Psbt;
  wallet_finish : Wallet -> list (BScript * Z) -> option Psbt;   (* build_tx, add_recipient, finish *)
  wallet_sign : Wallet -> Psbt -> option Psbt;
  CliTx : Type;
  extract_tx : Psbt -> CliTx;
  cli_txid : CliTx -> string;
  cli_serialize : CliTx -> bytes;
  cli_deserialize : bytes -> option CliTx;
  electrum_broadcast : Electrum -> CliTx -> CliWorld -> CliWorld * option unit;
  (* keys and addresses of generate-from *)
  Mnemonic : Type;
  mnemonic_parse : string -> option Mnemonic;
  mnemonic_from_entropy : bytes -> option Mnemonic;
  mnemonic_to_string : Mnemonic -> string;
  mnemonic_private_key : Mnemonic -> CliNetwork -> option PrivateKey;
  CliPublicKey : Type;
  cli_public_key : PrivateKey -> CliPublicKey;
  cli_public_to_bytes : CliPublicKey -> bytes;
  pubkey_hash : CliPublicKey -> bytes;
  c32_mainnet : Z;
  c32_testnet : Z;
  stx_to_string : Z -> bytes -> string;               (* StacksAddress::new, to_string *)
  p2tr_string : CliPublicKey -> CliNetwork -> string;
  p2tr_tweaked_string : CliPublicKey -> CliNetwork -> string;
  p2pkh_string : CliPublicKey -> CliNetwork -> string
}.

Definition to_txout `{ScriptLib} (r : BScript * Z) : BTxOut := {| out_value := r.2; out_script := r.1 |}.

Class CliLaws `{CliLib} := {
  outputs_set : forall os p, psbt_outputs (set_psbt_outputs os p) = os;
  finish_outputs : forall w rs p, wallet_finish w rs = Some p ->
    exists change, psbt_outputs p ≡ₚ (to_txout <$> rs) ++ change /\ (length change <= 1)%nat /\
      Forall (fun o => out_script o = change_script w) change
}.

Inductive CliError :=
  | WifError
  | ElectrumError
  | WalletError
  | StacksAddressError
  | AddressError
  | AmountBelowDust (amount dust : Z)
  | FeeBelowDust (fee dust : Z)
  | BuildError
  | SignError
  | CliHexError
  | DeserializeError
  | BroadcastError
  | MnemonicError
  | KeyError.

Section Cli.
Context {SL : ScriptLib} {GL : SignLib} {CL : CliLib}.

(** ** [commands/utils.rs] *)
Definition call {A : Type} (f : CliWorld -> CliWorld * option A) (e : CliError) : M CliWorld CliError A :=
  fun w => let '(w', o) := f w in (w', ok_or o e).

Definition init_blockchain : M CliWorld CliError Electrum :=
  call (electrum_new "ssl://blockstream.info:993") ElectrumError.

Definition setup_wallet (key : PrivateKey) : M CliWorld CliError Wallet :=
  blockchain ← init_blockchain;
  wallet ← lift (ok_or (wallet_new key (key_network key)) WalletError);
  call (wallet_sync wallet blockchain) WalletError.

Definition build_op_return_script (data : bytes) : BScript :=
  push_slice data (push_opcode OP_RETURN script_new).

(** [HashMap] of the requested outputs: a later equal entry replaces the index. *)
Definition order_index (order : list (BScript * Z)) : gmap (BScript * Z) Z :=
  foldl (fun m iv => <[iv.2 := Z.of_nat iv.1]> m) ∅ (imap pair order).

Definition output_index (order : list (BScript * Z)) (o : BTxOut) : Z :=
  default usize_max (order_index order !! (out_script o, out_value o)).

(** [BTreeMap] from index to output, read in key order. *)
Definition reorder_outputs (outputs : list BTxOut) (order : list (BScript * Z)) : list BTxOut :=
  btree_values (foldl (fun m o => <[output_index order o := o]> m) ∅ outputs).

Definition magic_bytes (network : CliNetwork) : bytes :=
  match network with
  | Bitcoin => as_bytes "X2"
  | Testnet => as_bytes "T2"
  | _ => as_bytes "id"
  end.

Record TransactionData := { tx_id : string; tx_hex : string }.
Definition transaction_data (tx : CliTx) : TransactionData :=
  {| tx_id := cli_txid tx; tx_hex := bytes2hex "" (cli_serialize tx) |}.

(** ** [commands/deposit.rs] *)
Record DepositArgs := { d_wif : string; d_recipient : string; d_amount : Z; d_dkg_wallet : string }.

Definition deposit_data (recipient : StxAddress) (network : CliNetwork) : bytes :=
  magic_bytes network ++ [60] ++ [stx_version recipient] ++ stx_bytes recipient.

Definition build_psbt (wallet : Wallet) (outputs : list (BScript * Z)) : res CliError Psbt :=
  partial_tx ← ok_or (wallet_finish wallet outputs) BuildError;
  mret (set_psbt_outputs (reorder_outputs (psbt_outputs partial_tx) outputs) partial_tx).

Definition deposit_psbt (wallet : Wallet) (recipient : StxAddress) (dkg_address : CliAddress)
    (amount : Z) (network : CliNetwork) : res CliError Psbt :=
  let op_return_script := build_op_return_script (deposit_data recipient network) in
  let dkg_script := address_script dkg_address in
  let dust_amount := script_dust dkg_script in
  if amount <? dust_amount then Err (AmountBelowDust amount dust_amount)
  else build_psbt wallet [(op_return_script, 0); (dkg_script, amount)].

Definition sign_and_print (wallet : Wallet) (psbt : Psbt) : res CliError TransactionData :=
  signed ← ok_or (wallet_sign wallet psbt) SignError;
  mret (transaction_data (extract_tx signed)).

Definition build_deposit_tx (deposit : DepositArgs) : M CliWorld CliError TransactionData :=
  private_key ← lift (ok_or (key_from_wif (d_wif deposit)) WifError);
  wallet ← setup_wallet private_key;
  recipient ← lift (ok_or (stx_from_string (d_recipient deposit)) StacksAddressError);
  dkg_address ← lift (ok_or (address_from_str (d_dkg_wallet deposit)) AddressError);
  psbt ← lift (deposit_psbt wallet recipient dkg_address (d_amount deposit) (key_network private_key));
  lift (sign_and_print wallet psbt).

(** ** [commands/withdraw.rs] *)
Record WithdrawalArgs := {
  w_wif : string;
  w_sender_wif : string;
  w_recipient : string;
  w_amount : Z;
  w_fulfillment_fee : Z;
  w_dkg_wallet : string
}.

Definition withdrawal_data (recipient : CliAddress) (amount : Z) (sender_private_key : PrivateKey)
    (network : CliNetwork) : res CliError bytes :=
  let msg := be_bytes 8 amount ++ script_bytes (address_script recipient) in
  '(recovery_id, signature) ← generate_signature msg (key_inner sender_private_key);
  mret (magic_bytes network ++ [62] ++ be_bytes 8 amount ++ [as_u8 recovery_id] ++ signature).

Definition withdrawal_psbt (wallet : Wallet) (sender_private_key : PrivateKey)
    (recipient dkg_address : CliAddress) (amount fulfillment_fee : Z) (network : CliNetwork)
    : res CliError Psbt :=
  let recipient_script := address_script recipient in
  let dkg_wallet_script := address_script dkg_address in
  let recipient_dust_amount := script_dust recipient_script in
  let dkg_wallet_dust_amount := script_dust dkg_wallet_script in
  if fulfillment_fee <? dkg_wallet_dust_amount
  then Err (FeeBelowDust fulfillment_fee dkg_wallet_dust_amount)
  else
    data ← withdrawal_data recipient amount sender_private_key network;
    build_psbt wallet [(build_op_return_script data, 0); (recipient_script, recipient_dust_amount);
                       (dkg_wallet_script, fulfillment_fee)].

Definition build_withdrawal_tx (withdrawal : WithdrawalArgs) : M CliWorld CliError TransactionData :=
  private_key ← lift (ok_or (key_from_wif (w_wif withdrawal)) WifError);
  wallet ← setup_wallet private_key;
  sender_private_key ← lift (ok_or (key_from_wif (w_sender_wif withdrawal)) WifError);
  recipient ← lift (ok_or (address_from_str (w_recipient withdrawal)) AddressError);
  dkg_address ← lift (ok_or (address_from_str (w_dkg_wallet withdrawal)) AddressError);
  psbt ← lift (withdrawal_psbt wallet sender_private_key recipient dkg_address (w_amount withdrawal)
                 (w_fulfillment_fee withdrawal) (key_network private_key));
  lift (sign_and_print wallet psbt).

(** ** [commands/broadcast.rs] *)
Definition broadcast_tx (tx_hex : string) : M CliWorld CliError TransactionData :=
  blockchain ← init_blockchain;
  data ← lift (ok_or (hex2bytes tx_hex) CliHexError);
  tx ← lift (ok_or (cli_deserialize data) DeserializeError);
  call (electrum_broadcast blockchain tx) BroadcastError ;;
  mret (transaction_data tx).

(** ** [commands/generate.rs] *)
Inductive GenerateSubcommand :=
  | New (entropy : bytes)                              (* 32 random bytes *)
  | Wif (wif : string)
  | PrivateKeyHex (private_key : string)
  | FromMnemonic (mnemonic : string).
Record GenerateArgs := { g_subcommand : GenerateSubcommand; g_network : CliNetwork }.

Record Credentials := {
  c_mnemonic : string;
  c_wif : string;
  c_private_key : string;
  c_public_key : string;
  c_stacks_address : string;
  c_bitcoin_taproot_address_tweaked : string;
  c_bitcoin_taproot_address_untweaked : string;
  c_bitcoin_p2pkh_address : string
}.

Definition private_key_from_wif (wif : string) : res CliError PrivateKey :=
  ok_or (key_from_wif wif) WifError.
Definition parse_private_key_from_hex (private_key : string) (network : CliNetwork)
    : res CliError PrivateKey :=
  slice ← ok_or (hex2bytes private_key) CliHexError;
  ok_or (key_from_bytes slice network) KeyError.
Definition private_key_from_mnemonic (network : CliNetwork) (m : Mnemonic) : res CliError PrivateKey :=
  ok_or (mnemonic_private_key m network) KeyError.

(** [Hash160::from_vec(..).unwrap()] is given the 20 bytes of the key hash. *)
Definition generate_credentials (private_key : PrivateKey) (maybe_mnemonic : option Mnemonic)
    : res CliError Credentials :=
  let public_key := cli_public_key private_key in
  let network := key_network private_key in
  version ← match network with
            | Testnet => Ok c32_testnet
            | Bitcoin => Ok c32_mainnet
            | _ => Panic
            end;
  if negb (length (pubkey_hash public_key) =? 20)%nat then Panic
  else mret {| c_mnemonic := from_option mnemonic_to_string "" maybe_mnemonic;
               c_wif := key_to_wif private_key;
               c_private_key := bytes2hex "0x" (key_to_bytes private_key);
               c_public_key := bytes2hex "0x" (cli_public_to_bytes public_key);
               c_stacks_address := stx_to_string version (pubkey_hash public_key);
               c_bitcoin_taproot_address_tweaked := p2tr_string public_key network;
               c_bitcoin_taproot_address_untweaked := p2tr_tweaked_string public_key network;
               c_bitcoin_p2pkh_address := p2pkh_string public_key network |}.

Definition generate (args : GenerateArgs) : res CliError Credentials :=
  '(private_key, maybe_mnemonic) ←
    match g_subcommand args with
    | New entropy =>
        m ← ok_or (mnemonic_from_entropy entropy) MnemonicError;
        k ← private_key_from_mnemonic (g_network args) m;
        mret (k, Some m)
    | Wif wif => k ← private_key_from_wif wif; mret (k, None)
    | PrivateKeyHex h => k ← parse_private_key_from_hex h (g_network args); mret (k, None)
    | FromMnemonic text =>
        m ← ok_or (mnemonic_parse text) MnemonicError;
        k ← private_key_from_mnemonic (g_network args) m;
        mret (k, Some m)
    end;
  generate_credentials private_key maybe_mnemonic.

(** ** [main.rs] *)
Inductive CliCommand :=
  | Deposit (a : DepositArgs)
  | Withdraw (a : WithdrawalArgs)
  | Broadcast (tx : string)
  | GenerateFrom (a : GenerateArgs).
Definition cli_main (c : CliCommand) : M CliWorld CliError (TransactionData + Credentials) :=
  match c with
  | Deposit a => d ← build_deposit_tx a; mret (inl d)
  | Withdraw a => d ← build_withdrawal_tx a; mret (inl d)
  | Broadcast tx => d ← broadcast_tx tx; mret (inl d)
  | GenerateFrom a => c ← lift (generate a); mret (inr c)
  end.
End Cli.

(** ** Reordering *)
Section Reorder.
Context {SL : ScriptLib}.
Implicit Types (order : list (BScript * Z)) (o : BTxOut) (os : list BTxOut).

Definition kv order o : Z * BTxOut := (output_index order o, o).

Lemma order_index_snoc order (v : BScript * Z) :
  order_index (order ++ [v]) = <[v := Z.of_nat (length order)]> (order_index order).
Proof.
  unfold order_index. rewrite imap_app, foldl_app. simpl. by rewrite Nat.add_0_r.
Qed.

Lemma order_index_lookup order (i : nat) (v : BScript * Z) :
  NoDup order -> order !! i = Some v -> order_index order !! v = Some (Z.of_nat i).
Proof.
  induction order as [|w order IH] using rev_ind; intros Hnd Hi; [done|].
  rewrite order_index_snoc. apply NoDup_app in Hnd as (Hnd & Hd & _).
  apply lookup_app_Some in Hi as [Hi|[Hge Hi]].
  - rewrite lookup_insert_ne; [by apply IH|]. intros ->.
    apply (Hd v); [by eapply list_elem_of_lookup_2|left].
  - apply list_lookup_singleton_Some in Hi as [Hz <-].
    rewrite lookup_insert_eq. do 2 f_equal. lia.
Qed.

Lemma order_index_None order (v : BScript * Z) : v ∉ order -> order_index order !! v = None.
Proof.
  induction order as [|w order IH] using rev_ind; intros Hv; [done|].
  rewrite order_index_snoc, lookup_insert_ne by set_solver. apply IH. set_solver.
Qed.

(** The outputs in the requested order, with their indices, and the change. *)
Definition expected order (change : list BTxOut) : list (Z * BTxOut) :=
  imap (fun i v => (Z.of_nat i, to_txout v)) order ++ ((fun o => (usize_max, o)) <$> change).

Lemma expected_kv order (change : list BTxOut) :
  NoDup order -> Forall (fun o => (out_script o, out_value o) ∉ order) change ->
  kv order <$> ((to_txout <$> order) ++ change) = expected order change.
Proof.
  intros Hnd Hc. unfold expected. rewrite fmap_app. f_equal.
  - apply list_eq. intros i. rewrite !list_lookup_fmap, list_lookup_imap.
    destruct (order !! i) as [[sc v]|] eqn:Hi; [|done]. simpl. unfold kv, output_index, to_txout. simpl.
    by rewrite (order_index_lookup _ _ _ Hnd Hi).
  - apply list_fmap_ext. intros i o Hi. unfold kv, output_index.
    rewrite Forall_lookup in Hc. by rewrite order_index_None by exact (Hc _ _ Hi).
Qed.

Lemma expected_keys order (change : list BTxOut) :
  Z.of_nat (length order) < usize_max -> (length change <= 1)%nat ->
  StronglySorted Z.lt (expected order change).*1.
Proof.
  intros Hl Hc. unfold expected. rewrite fmap_app.
  assert ((imap (fun i v => (Z.of_nat i, to_txout v)) order).*1 = Z.of_nat <$> seq 0 (length order)) as ->.
  { rewrite fmap_imap. apply list_eq. intros i. rewrite list_lookup_imap, list_lookup_fmap.
    destruct (order !! i) eqn:Hi; simpl.
    - by rewrite lookup_seq_lt by by eapply lookup_lt_Some.
    - apply lookup_ge_None in Hi. by rewrite lookup_seq_ge. }
  assert (forall n k, Z.of_nat (k + n) < usize_max -> StronglySorted Z.lt ((Z.of_nat <$> seq k n) ++
    ((fun o => (usize_max, o)) <$> change).*1)) as Hgen; [|by apply Hgen].
  intros n. induction n as [|n IH]; intros k Hk; simpl.
  - destruct change as [|o [|? ?]]; simpl in *; [constructor|repeat constructor|lia].
  - constructor; [apply IH; lia|]. apply Forall_app. split.
    + apply Forall_fmap, Forall_seq. intros j Hj. simpl. lia.
    + apply Forall_fmap, Forall_fmap, Forall_true. intros o. simpl. lia.
Qed.

(** Distinct keys: inserting from the left or from the right is the same. *)
Lemma foldl_insert (l : list (Z * BTxOut)) :
  NoDup l.*1 -> foldl (fun m e => <[e.1 := e.2]> m) ∅ l = (list_to_map l : gmap Z BTxOut).
Proof.
  induction l as [|[k v] l IH] using rev_ind; intros Hnd; [done|].
  rewrite fmap_app in Hnd. pose proof Hnd as (Hl & Hd & _)%NoDup_app.
  rewrite foldl_app, IH by done. simpl.
  rewrite <-(list_to_map_proper ((k, v) :: l) (l ++ [(k, v)])); [done| |].
  - simpl. apply NoDup_cons. split; [|done]. intros Hk. apply (Hd k Hk). left.
  - by rewrite Permutation_app_comm.
Qed.

Lemma sorted_keys_entries (l : list (Z * BTxOut)) :
  StronglySorted Z.lt l.*1 -> StronglySorted entry_le l.
Proof.
  induction l as [|e l IH]; simpl; intros Hs; [constructor|].
  apply StronglySorted_inv in Hs as [Hs Ha]. constructor; [by apply IH|].
  apply (proj1 (Forall_fmap fst (Z.lt e.1) l)) in Ha.
  eapply Forall_impl; [exact Ha|]. intros x Hx. unfold entry_le. simpl in Hx. lia.
Qed.

Lemma sorted_keys_NoDup (l : list Z) : StronglySorted Z.lt l -> NoDup l.
Proof.
  induction 1 as [|k l _ IH Ha]; constructor; [|done]. intros Hk. rewrite Forall_forall in Ha.
  specialize (Ha k Hk). lia.
Qed.

Lemma reorder_run order os (change : list BTxOut) :
  NoDup order -> Z.of_nat (length order) < usize_max ->
  os ≡ₚ (to_txout <$> order) ++ change -> (length change <= 1)%nat ->
  Forall (fun o => (out_script o, out_value o) ∉ order) change ->
  reorder_outputs os order = (to_txout <$> order) ++ change.
Proof.
  intros Hnd Hlen Hperm Hc Hnew. unfold reorder_outputs, btree_values.
  set (m := foldl _ _ _). pose proof (expected_keys order change Hlen Hc) as Hs.
  pose proof (expected_kv order change Hnd Hnew) as Hkv.
  assert (kv order <$> os ≡ₚ expected order change) as Hp by by rewrite Hperm, Hkv.
  assert (m = list_to_map (kv order <$> os)) as Hm.
  { rewrite <-foldl_insert; [|rewrite Hp; by apply sorted_keys_NoDup].
    unfold m. generalize (∅ : gmap Z BTxOut). clear. induction os as [|o os IH]; intros m; simpl; auto. }
  assert (btree_entries m = expected order change) as ->.
  { apply (StronglySorted_unique_strong entry_le).
    - intros [k1 o1] [k2 o2] H1 H2 Hle1 Hle2. unfold entry_le in *. simpl in *.
      assert (k1 = k2) as <- by lia. apply elem_of_btree_entries in H1.
      rewrite Hm in H1. rewrite <-Hp in H2.
      apply (elem_of_list_to_map (M := gmap Z)) in H2; [congruence|].
      rewrite Hp. by apply sorted_keys_NoDup.
    - apply btree_entries_sorted.
    - by apply sorted_keys_entries.
    - rewrite btree_entries_perm, Hm, map_to_list_to_map; [done|].
      rewrite Hp. by apply sorted_keys_NoDup. }
  unfold expected. rewrite fmap_app. f_equal.
  - rewrite fmap_imap. apply list_eq. intros i. rewrite list_lookup_imap, list_lookup_fmap. by destruct (order !! i).
  - rewrite <-list_fmap_compose. rewrite <-(list_fmap_id change) at 2. by apply list_fmap_ext.
Qed.
End Reorder.

(** ** Theorems *)
Section Theorems.
Context {SL : ScriptLib} {GL : SignLib} {CL : CliLib} {LL : CliLaws}.

(** The outputs of a transaction built from distinct requests to other scripts
    than the wallet's own. *)
Lemma build_psbt_outputs (wallet : Wallet) (rs : list (BScript * Z)) (p : Psbt) :
  NoDup rs -> Z.of_nat (length rs) < usize_max ->
  Forall (fun r => r.1 <> change_script wallet) rs -> wallet_finish wallet rs = Some p ->
  exists p' change, build_psbt wallet rs = Ok p' /\ psbt_outputs p' = (to_txout <$> rs) ++ change /\
    (length change <= 1)%nat /\ Forall (fun o => out_script o = change_script wallet) change.
Proof.
  intros Hnd Hlen Hother Hfin. unfold build_psbt. rewrite Hfin.
  destruct (finish_outputs wallet rs p Hfin) as (change & Hperm & Hc & Hw).
  eexists _, change. split; [done|]. rewrite outputs_set. split; [|done].
  apply reorder_run; try done. eapply Forall_impl; [exact Hw|]. intros o Ho Hin.
  rewrite Forall_forall in Hother. by apply (Hother _ Hin).
Qed.

(** A deposit pays the peg wallet: unless the amount is below the dust limit, the
    transaction consists of the [OP_RETURN] with the recipient, the amount for
    the peg wallet, in this order, and at most one change output. *)
Theorem deposit_outputs (wallet : Wallet) (recipient : StxAddress) (dkg : CliAddress) (amount : Z)
    (network : CliNetwork) :
  let op_return := build_op_return_script (deposit_data recipient network) in
  let rs := [(op_return, 0); (address_script dkg, amount)] in
  op_return <> address_script dkg ->
  op_return <> change_script wallet -> address_script dkg <> change_script wallet ->
  if amount <? script_dust (address_script dkg)
  then deposit_psbt wallet recipient dkg amount network =
         Err (AmountBelowDust amount (script_dust (address_script dkg)))
  else match wallet_finish wallet rs with
       | None => deposit_psbt wallet recipient dkg amount network = Err BuildError
       | Some _ => exists p change, deposit_psbt wallet recipient dkg amount network = Ok p /\
           psbt_outputs p = [{| out_value := 0; out_script := op_return |};
                             {| out_value := amount; out_script := address_script dkg |}] ++ change /\
           (length change <= 1)%nat /\ Forall (fun o => out_script o = change_script wallet) change
       end.
Proof.
  intros op_return rs Hne H1 H2. unfold deposit_psbt. fold op_return. case_match; [done|]. fold rs.
  destruct (wallet_finish wallet rs) as [p|] eqn:Hfin; [|unfold build_psbt; by rewrite Hfin].
  apply (build_psbt_outputs wallet rs p); [|done| |done].
  - unfold rs. apply NoDup_cons. split; [|apply NoDup_singleton].
    intros Hin%list_elem_of_singleton. by injection Hin.
  - by repeat constructor.
Qed.

(** The withdrawal payload is the test vectors' peg-out request payload without
    its padding. *)
Theorem withdrawal_format {GLL : SignLaws} (recipient : CliAddress) (amount : Z) (sender : PrivateKey)
    (network : CliNetwork) :
  exists id signature data,
    generate_signature (E := CliError) (peg_out_message amount (address_script recipient)) (key_inner sender) =
      Ok (id, signature) /\
    withdrawal_data recipient amount sender network = Ok data /\
    data ++ [0; 0] = peg_out_request_data (magic_bytes network) amount (as_u8 id) signature None.
Proof.
  destruct (generate_signature_total (E := CliError) (peg_out_message amount (address_script recipient))
    (key_inner sender)) as (id & signature & Hs & _ & Hl).
  eexists id, signature, _. split; [done|]. unfold withdrawal_data, peg_out_message in *.
  rewrite Hs. split; [done|]. unfold peg_out_request_data.
  assert (length (magic_bytes network) = 2%nat) as Hm by by destruct network.
  rewrite pad_to_short; rewrite !length_app, be_bytes_length, Hm, Hl; [|simpl; lia].
  simpl. by rewrite app_nil_r, <-!app_assoc.
Qed.

(** The payload of a withdrawal, read back. *)
Lemma withdrawal_payload {SLL : ScriptLaws} {GLL : SignLaws} (recipient : CliAddress) (amount : Z)
    (sender : PrivateKey) (network : CliNetwork) : in_u64 amount ->
  exists data id signature,
    withdrawal_data recipient amount sender network = Ok data /\
    (read_op_return (script_bytes (build_op_return_script data)) ≫= read_peg_out 2) =
      Some {| pr_amount := amount; pr_recovery_id := id; pr_signature := signature |} /\
    generate_signature (E := CliError) (be_bytes 8 amount ++ script_bytes (address_script recipient)) (key_inner sender) =
      Ok (id, signature).
Proof.
  intros Ha. unfold withdrawal_data.
  destruct (generate_signature_total (E := CliError) (be_bytes 8 amount ++ script_bytes (address_script recipient))
    (key_inner sender)) as (id & signature & Hs & Hid & Hl).
  rewrite Hs. cbn [mbind res_bind]. simpl mret. eexists _, id, signature. split; [reflexivity|]. split; [|done].
  assert (length (magic_bytes network) = 2%nat) as Hm by by destruct network.
  set (data := magic_bytes network ++ _).
  assert (length data = 76%nat) as Hlen.
  { unfold data. rewrite length_app, Hm. simpl. rewrite length_app, be_bytes_length. simpl. by rewrite Hl. }
  unfold build_op_return_script. rewrite read_op_return_push by lia. simpl. unfold read_peg_out, data.
  rewrite (drop_length_app 2) by done. simpl.
  pose proof (be_bytes_length 8 amount) as Hbl. rewrite (drop_length_app 8), (take_length_app 8) by done.
  simpl. change (drop 9 (be_bytes 8 amount ++ ?k)) with (drop (8 + 1) (be_bytes 8 amount ++ k)).
  rewrite <-drop_drop, (drop_length_app 8) by done. simpl.
  rewrite drop_0, take_ge by lia. rewrite be_decode_bytes, Z.mod_small by (unfold in_uint in Ha; simpl; lia).
  unfold as_u8. by rewrite Z.mod_small by lia.
Qed.

(** C35: A withdrawal asks for what it was told.  A fee below the dust limit of the
    peg wallet is refused.  Otherwise the payload carries the amount and a signature
    of amount and recipient script, and what the wallet makes of the three payments
    decides: when it can pay them, the outputs are the payload, the dust for the
    recipient, the fee for the peg wallet, in this order, and at most one change
    output; when it cannot, that is the error.  This is for payments that can be
    told apart: those to recipient and peg wallet differ, neither goes to the
    wallet's own change script, and no address has the payload as its script. *)
Theorem withdrawal_outputs {SLL : ScriptLaws} {GLL : SignLaws} (wallet : Wallet) (sender : PrivateKey)
    (recipient dkg : CliAddress) (amount fee : Z) (network : CliNetwork) :
  let to := address_script recipient in
  let peg := address_script dkg in
  in_u64 amount -> (to, script_dust to) <> (peg, fee) ->
  to <> change_script wallet -> peg <> change_script wallet ->
  (forall data, withdrawal_data recipient amount sender network = Ok data ->
     build_op_return_script data ∉ [to; peg; change_script wallet]) ->
  if fee <? script_dust peg
  then withdrawal_psbt wallet sender recipient dkg amount fee network = Err (FeeBelowDust fee (script_dust peg))
  else exists data id signature,
    withdrawal_data recipient amount sender network = Ok data /\
    (read_op_return (script_bytes (build_op_return_script data)) ≫= read_peg_out 2) =
      Some {| pr_amount := amount; pr_recovery_id := id; pr_signature := signature |} /\
    generate_signature (E := CliError) (be_bytes 8 amount ++ script_bytes to) (key_inner sender) =
      Ok (id, signature) /\
    match wallet_finish wallet [(build_op_return_script data, 0); (to, script_dust to); (peg, fee)] with
    | None => withdrawal_psbt wallet sender recipient dkg amount fee network = Err BuildError
    | Some _ => exists p change, withdrawal_psbt wallet sender recipient dkg amount fee network = Ok p /\
        psbt_outputs p = [{| out_value := 0; out_script := build_op_return_script data |};
                          {| out_value := script_dust to; out_script := to |};
                          {| out_value := fee; out_script := peg |}] ++ change /\
        (length change <= 1)%nat /\ Forall (fun o => out_script o = change_script wallet) change
    end.
Proof.
  intros to peg Ha Hdist H1 H2 Hop. unfold withdrawal_psbt. fold to peg. case_match; [done|].
  destruct (withdrawal_payload recipient amount sender network Ha) as (data & id & signature & Hdata & Hread & Hs).
  exists data, id, signature. split; [done|]. split; [done|]. split; [done|]. rewrite Hdata. cbn [mbind res_bind].
  pose proof (Hop data Hdata) as Hd. rewrite !not_elem_of_cons in Hd. destruct Hd as (Hd1 & Hd2 & Hd3 & _).
  set (op := build_op_return_script data) in *. set (rs := [(op, 0); (to, script_dust to); (peg, fee)]).
  destruct (wallet_finish wallet rs) as [p|] eqn:Hp; [|unfold build_psbt; by rewrite Hp].
  apply (build_psbt_outputs wallet rs p); [|done| |done].
  - apply NoDup_cons. split; [|apply NoDup_cons; split; [|apply NoDup_singleton]].
    + rewrite !not_elem_of_cons. split_and!; [| |apply not_elem_of_nil]; naive_solver.
    + by rewrite list_elem_of_singleton.
  - by repeat constructor.
Qed.

(** The deposit payload has no principal byte: a reader of the test vectors'
    format rejects it. *)
Lemma deposit_without_principal (recipient : StxAddress) (network : CliNetwork) :
  stx_version recipient <> 5 -> stx_version recipient <> 6 ->
  read_peg_in 2 (deposit_data recipient network) = None.
Proof.
  intros H5 H6. unfold read_peg_in, deposit_data. rewrite drop_length_app by by destruct network. simpl.
  destruct (stx_bytes recipient) as [|v rest]; [done|].
  by rewrite !(proj2 (Z.eqb_neq _ _)) by done.
Qed.

Lemma size_union_le (X Y : gset Z) : (size (X ∪ Y) <= size X + size Y)%nat.
Proof.
  rewrite size_union_alt. assert (size (Y ∖ X) <= size Y)%nat; [|lia]. apply subseteq_size. set_solver.
Qed.
Lemma size_list_to_set_le (l : list Z) : (size (list_to_set l : gset Z) <= length l)%nat.
Proof.
  induction l as [|x l IH]; simpl; [done|].
  pose proof (size_union_le {[x]} (list_to_set l)) as Hu. rewrite size_singleton in Hu. lia.
Qed.

(** The keys of the ordered outputs. *)
Lemma reorder_keys (order : list (BScript * Z)) (os : list BTxOut) :
  (length (reorder_outputs os order) = size (list_to_set (output_index order <$> os) : gset Z))%nat.
Proof.
  unfold reorder_outputs. rewrite btree_values_length, <-size_dom. f_equal.
  assert (forall m : gmap Z BTxOut, dom (foldl (fun m o => <[output_index order o := o]> m) m os) =
    dom m ∪ (list_to_set (output_index order <$> os) : gset Z)) as ->; [|set_solver].
  induction os as [|o os IH]; intros m; simpl; [set_solver|]. rewrite IH, dom_insert_L. set_solver.
Qed.

(** Withdrawing to the peg wallet itself with a fee of exactly the dust limit: two
    equal outputs are requested, one of them is lost to the miners. *)
Lemma withdrawal_drops_output (op peg : BScript) (fee : Z) (change : list BTxOut) (os : list BTxOut) :
  let order := [(op, 0); (peg, fee); (peg, fee)] in
  os ≡ₚ (to_txout <$> order) ++ change ->
  (length (reorder_outputs os order) < length os)%nat.
Proof.
  intros order Hperm. rewrite reorder_keys.
  assert (list_to_set (output_index order <$> os) =
    ({[output_index order (to_txout (op, 0)); output_index order (to_txout (peg, fee))]} ∪
    list_to_set (output_index order <$> change) : gset Z)) as ->.
  { rewrite Hperm. simpl. set_solver. }
  rewrite (Permutation_length Hperm), length_app, length_fmap.
  pose proof (size_union_le {[output_index order (to_txout (op, 0)); output_index order (to_txout (peg, fee))]}
    (list_to_set (output_index order <$> change))) as H1.
  pose proof (size_union_le {[output_index order (to_txout (op, 0))]}
    {[output_index order (to_txout (peg, fee))]}) as H2.
  rewrite !size_singleton in H2.
  pose proof (size_list_to_set_le (output_index order <$> change)) as H3. rewrite length_fmap in H3.
  simpl. lia.
Qed.

(** *** [generate-from] *)
Lemma generate_credentials_network (k : PrivateKey) (m : option Mnemonic) :
  length (pubkey_hash (cli_public_key k)) = 20%nat ->
  (exists c, generate_credentials k m = Ok c) <-> key_network k ∈ [Testnet; Bitcoin].
Proof.
  intros Hl. unfold generate_credentials. rewrite Hl. simpl. split.
  - intros [c Hc]. destruct (key_network k); simpl in Hc; set_solver.
  - intros Hn. destruct (key_network k); simpl; [eauto..| |]; exfalso; set_solver.
Qed.
End Theorems.

(** ** An executable instance and witnesses

    Addresses and keys are numbers, a wallet pays its change to the script [[9]]
    and lists the outputs of a transaction backwards. *)
Module SbtcCliWitness.
Import ToyScripts.

#[local] Instance toy_cli : CliLib (SL := toy_scripts) (GL := toy_signing) := {|
  PrivateKey := Z;
  key_from_wif s := if bool_decide (s = "") then None else Some 5;
  key_to_wif _ := "wif"%string;
  key_from_bytes b _ := head b;
  key_to_bytes k := [k];
  key_network k := if k =? 5 then Testnet else Regtest;
  key_inner k := k;
  CliAddress := Z;
  address_from_str s := if bool_decide (s = "") then None else Some (Z.of_nat (String.length s));
  address_script a := [a];
  StxAddress := bytes;
  stx_from_string s := Some (replicate 20 7);
  stx_version _ := 26;
  stx_bytes b := b;
  CliWorld := list string;
  Electrum := unit;
  electrum_new url w := (w ++ [url], Some tt);
  Wallet := unit;
  wallet_new _ _ := Some tt;
  wallet_sync u _ w := (w, Some u);
  change_script _ := [9];
  Psbt := list (BTxOut (SL := toy_scripts));
  psbt_outputs p := p;
  set_psbt_outputs os _ := os;
  wallet_finish _ rs :=
    if bool_decide (rs = []) then None else Some ({| out_value := 777; out_script := [9] |} :: reverse (to_txout <$> rs));
  wallet_sign _ p := Some p;
  CliTx := list (BTxOut (SL := toy_scripts));
  extract_tx p := p;
  cli_txid _ := "txid"%string;
  cli_serialize p := out_value <$> p;
  cli_deserialize b := Some ((fun v => {| out_value := v; out_script := [] |}) <$> b);
  electrum_broadcast _ _ w := (w ++ ["broadcast"%string], Some tt);
  Mnemonic := string;
  mnemonic_parse s := Some s;
  mnemonic_from_entropy _ := Some "words"%string;
  mnemonic_to_string s := s;
  mnemonic_private_key _ n := Some (if bool_decide (n = Testnet) then 5 else 6);
  CliPublicKey := Z;
  cli_public_key k := k;
  cli_public_to_bytes k := [k];
  pubkey_hash k := replicate 20 k;
  c32_mainnet := 22;
  c32_testnet := 26;
  stx_to_string _ _ := "ST"%string;
  p2tr_string _ _ := "tb1p"%string;
  p2tr_tweaked_string _ _ := "tb1pu"%string;
  p2pkh_string _ _ := "m"%string
|}.
#[local, refine] Instance toy_cli_laws : CliLaws := {| outputs_set os p := eq_refl |}.
Proof.
  simpl. intros w rs p Hp. case_bool_decide; [done|]. injection Hp as <-. exists [{| out_value := 777; out_script := [9] : BScript (ScriptLib := toy_scripts) |}]. split_and!.
  - simpl. rewrite reverse_Permutation. by rewrite Permutation_app_comm.
  - done.
  - by constructor.
Defined.

Definition recipient : StxAddress (CliLib := toy_cli) := replicate 20 7.
Definition w0 : Wallet (CliLib := toy_cli) := tt.
Definition peg_address : CliAddress (CliLib := toy_cli) := 4.
Definition to_address : CliAddress (CliLib := toy_cli) := 3.
Definition sender : PrivateKey (CliLib := toy_cli) := 5.

Lemma deposit_outputs_witness :
  exists p change, deposit_psbt w0 recipient peg_address 1337 Testnet = Ok p /\
    psbt_outputs p = [{| out_value := 0; out_script := build_op_return_script (deposit_data recipient Testnet) |};
                      {| out_value := 1337; out_script := address_script peg_address |}] ++ change /\
    (length change <= 1)%nat /\ Forall (fun o => out_script o = change_script w0) change.
Proof. by apply (deposit_outputs w0 recipient peg_address 1337 Testnet). Defined.

Lemma withdrawal_outputs_witness :
  exists data id signature,
    withdrawal_data to_address 42 sender Testnet = Ok data /\
    (read_op_return (script_bytes (build_op_return_script data)) ≫= read_peg_out 2) =
      Some {| pr_amount := 42; pr_recovery_id := id; pr_signature := signature |} /\
    generate_signature (E := CliError) (be_bytes 8 42 ++ script_bytes (address_script to_address)) (key_inner sender) =
      Ok (id, signature) /\
    exists p change, withdrawal_psbt w0 sender to_address peg_address 42 1000 Testnet = Ok p /\
      psbt_outputs p = [{| out_value := 0; out_script := build_op_return_script data |};
                        {| out_value := script_dust (address_script to_address); out_script := address_script to_address |};
                        {| out_value := 1000; out_script := address_script peg_address |}] ++ change /\
      (length change <= 1)%nat /\ Forall (fun o => out_script o = change_script w0) change.
Proof.
  apply (withdrawal_outputs w0 sender to_address peg_address 42 1000 Testnet); try done; try by_compute.
  intros data _ Hin. rewrite !elem_of_cons in Hin. unfold build_op_return_script in Hin. simpl in Hin.
  destruct Hin as [Hin|[Hin|[Hin|Hin]]]; [done..|by apply not_elem_of_nil in Hin].
Defined.

Lemma withdrawal_format_witness :
  exists id signature data,
    generate_signature (E := CliError) (peg_out_message 42 (address_script to_address)) (key_inner sender) =
      Ok (id, signature) /\
    withdrawal_data to_address 42 sender Testnet = Ok data /\
    data ++ [0; 0] = peg_out_request_data (magic_bytes Testnet) 42 (as_u8 id) signature None.
Proof. apply (withdrawal_format to_address 42 sender Testnet). Defined.

(** The commands, run. *)
Example deposit_run :
  cli_main (Deposit {| d_wif := "wif"; d_recipient := "ST"; d_amount := 1337; d_dkg_wallet := "peg" |}) [] =
    (["ssl://blockstream.info:993"%string], Ok (inl {| tx_id := "txid"; tx_hex := "" |})).
Proof. run. Qed.
Example small_deposit :
  deposit_psbt w0 recipient peg_address 200 Testnet = Err (AmountBelowDust 200 301).
Proof. run. Qed.

(** The payload of the example transaction of the README. *)
Example readme_deposit :
  script_bytes (build_op_return_script (magic_bytes Testnet ++ [60; 0x1a] ++
    [0x75; 0x5e; 0x17; 0xb3; 0x5c; 0x75; 0xfb; 0x55; 0x34; 0x19; 0x0b; 0x26; 0x22; 0x81; 0x87; 0xf0;
     0x57; 0x81; 0xb2; 0x82])) =
  [0x6a; 0x18; 0x54; 0x32; 0x3c; 0x1a; 0x75; 0x5e; 0x17; 0xb3; 0x5c; 0x75; 0xfb; 0x55; 0x34; 0x19;
   0x0b; 0x26; 0x22; 0x81; 0x87; 0xf0; 0x57; 0x81; 0xb2; 0x82].
Proof. run. Qed.
End SbtcCliWitness.
