(* ===== verification/TestUtils.v ===== *)
(** * [test-utils/src/lib.rs], second part: wallets, signers and transactions

    What the integration tests build and sign: source wallets, deposits and
    withdrawals, signatures with one key ([sign_transaction_ecdsa]) or with the
    group of [SignerHelper] ([sign_transaction_taproot]).  [bitcoin], [secp256k1]
    and the test helpers of [wsts] are external ([TestBitcoin], [TestWsts]). *)
From S2P Require Import Prelude Crypto StacksNode BitcoinNode SbtcScript TestProcess.

Class TestBitcoin `{SL : ScriptLib, CP : P256k1} := {
  TSecret : Type;
  TPublic : Type;
  TXOnly : Type;
  TAddress : Type;
  keypair_new : Rng -> TSecret * Rng;
  public_of_secret : TSecret -> TPublic;
  xonly_of_secret : TSecret -> TXOnly;
  p2tr_tweaked : TXOnly -> TAddress;                        (* on regtest, as p2wpkh *)
  p2wpkh : TPublic -> option TAddress;
  taddress_to_string : TAddress -> string;
  taddress_script : TAddress -> BScript;
  p2wpkh_script_code : BScript -> option BScript;
  public_from_slice : bytes -> option TPublic;
  public_to_bytes : TPublic -> bytes;
  public_serialize : TPublic -> bytes;                      (* psbt::serialize *)
  secp_xonly : bytes -> option TXOnly;                      (* secp256k1::PublicKey, XOnlyPublicKey::from *)
  wpubkey_hash : TPublic -> option bytes;
  new_op_return : bytes -> BScript;
  new_v1_p2tr_tweaked : TXOnly -> BScript;
  new_v0_p2wpkh : bytes -> BScript;
  segwit_signature_hash : BTransaction -> nat -> BScript -> Z -> option bytes;
  taproot_signature_hash : BTransaction -> nat -> list BTxOut -> option bytes;
  digest_from_slice : bytes -> option bytes;                (* secp256k1::Message *)
  TSig : Type;
  sign_ecdsa_low_r : bytes -> TSecret -> TSig;
  verify_ecdsa : bytes -> TSig -> TPublic -> bool;
  serialize_der : TSig -> bytes;
  consensus_encode : BTransaction -> bytes;
  consensus_decode : bytes -> option BTransaction;
  hex_encode : bytes -> string;
  hex_decode : string -> option bytes;
  TTxid : Type;
  txid_from_str : string -> option TTxid;
  ttxid_to_string : TTxid -> string
}.

(** [wsts::taproot::test_helpers], [wsts::compute::tweaked_public_key] and
    [SignatureAggregator::sign_taproot]; a Merkle root is optional bytes. *)
Class TestWsts `{WA : WstsAggregator} := {
  helper_dkg : list WstsSigner -> Rng -> option bytes -> list WstsSigner * Rng * option (list PolyCommitment);
  helper_sign : bytes -> list WstsSigner -> Rng -> option bytes -> list PublicNonce * list SignatureShare * Rng;
  tweaked_public_key : Point -> option bytes -> Point;
  sign_taproot : Aggregator -> bytes -> list PublicNonce -> list SignatureShare -> option bytes ->
    Signature + AggregatorError;
  proof_r : SchnorrProof -> bytes;
  proof_s : SchnorrProof -> bytes
}.

Section TestUtils.
Context {SL : ScriptLib} {CP : P256k1} {WP : Wsts} {WA : WstsAggregator} {TB : TestBitcoin} {TW : TestWsts}
  {JS : Json} {OS : TestOs}.

(** ** Wallets and blocks *)
Definition generate_wallet {E : Type} (is_taproot : bool) : M Rng E (TSecret * TPublic * TXOnly * TAddress) :=
  fun rng =>
    let '(secret_key, rng') := keypair_new rng in
    let public_key := public_of_secret secret_key in
    let xonly_public_key := xonly_of_secret secret_key in
    (rng', address ← (if is_taproot then Ok (p2tr_tweaked xonly_public_key) else unwrap (p2wpkh public_key));
           Ok (secret_key, public_key, xonly_public_key, address)).

(** [value.as_array().unwrap()[0].as_str().unwrap()] *)
Definition first_string {E : Type} (v : JsonValue) : res E string :=
  items ← unwrap (json_as_array v);
  item ← unwrap (items !! O);
  unwrap (json_as_str item).

Definition mine_and_get_coinbase_txid {E : Type} (btcd : BitcoinProcess) (addr : TAddress)
    : M Machine E (TTxid * string) :=
  blocks ← BitcoinProcess_rpc btcd "generatetoaddress" (PArray [PInt 100; PString (taddress_to_string addr)]);
  block_id ← lift (first_string blocks);
  block ← BitcoinProcess_rpc btcd "getblock" (PArray [PString block_id; PInt 1]);
  hash ← lift (unwrap (json_get block "hash"));
  blockhash ← lift (unwrap (json_as_str hash));
  txs ← lift (unwrap (json_get block "tx"));
  tx ← lift (first_string txs);
  txid ← lift (unwrap (txid_from_str tx));
  mret (txid, blockhash).

(** The error is that of [consensus_decode]. *)
Definition get_raw_transaction (btcd : BitcoinProcess) (txid : TTxid) (blockhash : option string)
    : M Machine unit BTransaction :=
  raw ← BitcoinProcess_rpc btcd "getrawtransaction"
    (PArray ([PString (ttxid_to_string txid); PBool false] ++
             match blockhash with Some h => [PString h] | None => [] end));
  tx_raw ← lift (unwrap (json_as_str raw));
  bytes ← lift (unwrap (hex_decode tx_raw));
  lift (ok_or (consensus_decode bytes) tt).

(** ** [SignerHelper] *)
Record SignerHelper := {
  sh_threshold : Z;
  sh_total : Z;
  sh_rng : Rng;
  sh_signers : list WstsSigner                              (* [Signer; 3] *)
}.

Definition SignerHelper_default (rng : Rng) : SignerHelper :=
  let '(s1, rng) := signer_new 1 [0; 1] 4 3 rng in
  let '(s2, rng) := signer_new 2 [2] 4 3 rng in
  let '(s3, rng) := signer_new 3 [3] 4 3 rng in
  {| sh_threshold := 3; sh_total := 4; sh_rng := rng; sh_signers := [s1; s2; s3] |}.

Definition SignerHelper_dkg {E : Type} (merkle_root : option bytes)
    : M SignerHelper E (list PolyCommitment * Point * TPublic) := fun self =>
  let '(signers, rng, commitments) := helper_dkg (sh_signers self) (sh_rng self) merkle_root in
  ({| sh_threshold := sh_threshold self; sh_total := sh_total self; sh_rng := rng; sh_signers := signers |},
   public_commitments ← unwrap commitments;
   constants ← mapR (fun p => unwrap (poly_A p !! O)) public_commitments;
   let tweaked := tweaked_public_key (foldl point_add point_default constants) merkle_root in
   key ← unwrap (public_from_slice (point_compress tweaked));
   Ok (public_commitments, tweaked, key)).

(** The first two signers sign; the copies they work on are dropped. *)
Definition signing_round {E : Type} (message : bytes) (public_commitments : list PolyCommitment)
    (merkle_root : option bytes) : M SignerHelper E SchnorrProof := fun self =>
  match sh_signers self with
  | s0 :: s1 :: _ =>
      let '(nonces, shares, rng) := helper_sign message [s0; s1] (sh_rng self) merkle_root in
      ({| sh_threshold := sh_threshold self; sh_total := sh_total self; sh_rng := rng;
          sh_signers := sh_signers self |},
       agg ← unwrap_ok (of_call (aggregator_new (sh_total self) (sh_threshold self) public_commitments));
       sig ← unwrap_ok (of_sum (sign_taproot agg message nonces shares merkle_root));
       unwrap_ok (of_sum (schnorr_new sig)))
  | _ => (self, Panic)
  end.

(** ** Transactions *)
Definition set_witness (w : list bytes) (i : BTxIn) : BTxIn :=
  {| in_previous_output := in_previous_output i; in_script_sig := in_script_sig i;
     in_sequence := in_sequence i; in_witness := w |}.
Definition set_inputs (l : list BTxIn) (tx : BTransaction) : BTransaction :=
  {| tx_version := tx_version tx; tx_lock_time := tx_lock_time tx; tx_input := l; tx_output := tx_output tx |}.

(** [tx.input[0].witness.push(..)] *)
Definition push_witness {E : Type} (items : list bytes) (tx : BTransaction) : res E BTransaction :=
  match tx_input tx with
  | [] => Panic
  | i :: l => Ok (set_inputs (set_witness (in_witness i ++ items) i :: l) tx)
  end.

Definition sign_transaction_ecdsa {E : Type} (addr : TAddress) (secret_key : TSecret) (public_key : TPublic)
    (prev_output : BTxOut) : M BTransaction E string := fun tx =>
  let signed :=
    script ← unwrap (p2wpkh_script_code (taddress_script addr));
    tx_sighash ← unwrap (segwit_signature_hash tx 0 script (out_value prev_output));
    msg ← unwrap (digest_from_slice tx_sighash);
    let sig := sign_ecdsa_low_r msg secret_key in
    if verify_ecdsa msg sig (public_of_secret secret_key) then
      push_witness [serialize_der sig ++ [1]; public_serialize public_key] tx
    else Panic in
  match signed with
  | Ok tx' => (tx', Ok (hex_encode (consensus_encode tx')))
  | Err e => (tx, Err e)
  | Panic => (tx, Panic)
  | Diverge => (tx, Diverge)
  end.

(** The transaction and the signers are both mutable arguments. *)
Definition sign_transaction_taproot {E : Type} (prev_output : BTxOut) (group_public_key : Point)
    (public_commitments : list PolyCommitment) (merkle_root : option bytes)
    : M (BTransaction * SignerHelper) E string := fun '(tx, signer) =>
  match taproot_signature_hash tx 0 [prev_output] with
  | None => ((tx, signer), Panic)
  | Some signing_payload =>
      let '(signer', r) := signing_round (E := E) signing_payload public_commitments merkle_root signer in
      let signed :=
        schnorr_proof ← r;
        if schnorr_verify schnorr_proof (point_x group_public_key) signing_payload then
          push_witness [proof_r schnorr_proof ++ proof_s schnorr_proof] tx
        else Panic in
      match signed with
      | Ok tx' => ((tx', signer'), Ok (hex_encode (consensus_encode tx')))
      | Err e => ((tx, signer'), Err e)
      | Panic => ((tx, signer'), Panic)
      | Diverge => ((tx, signer'), Diverge)
      end
  end.

(** A deposit pays the wallet behind a SIP-21 output with the Stacks address. *)
Definition sip_21_deposit_data (stx_address : bytes) : bytes := [0; 0; 60] ++ stx_address.

Definition build_transaction_deposit {E : Type} (satoshis : Z) (deposit_wallet_public_key : TPublic)
    (stx_address : bytes) (prev_output : bytes * Z) : res E BTransaction :=
  key ← unwrap (secp_xonly (public_to_bytes deposit_wallet_public_key));
  Ok {| tx_version := 2; tx_lock_time := 0;
        tx_input := [{| in_previous_output := Some prev_output; in_script_sig := script_new;
                        in_sequence := 0xffffffff; in_witness := [] |}];
        tx_output := [{| out_value := 0; out_script := new_op_return (sip_21_deposit_data stx_address) |};
                      {| out_value := satoshis; out_script := new_v1_p2tr_tweaked key |}] |}.

(** [Sequence::default()] is [Sequence::MAX]. *)
Definition build_transaction_withdrawal {E : Type} (satoshis : Z) (public_key : TPublic)
    (utxo : bytes * Z) : res E BTransaction :=
  hash ← unwrap (wpubkey_hash public_key);
  Ok {| tx_version := 2; tx_lock_time := 0;
        tx_input := [{| in_previous_output := Some utxo; in_script_sig := script_new;
                        in_sequence := 0xffffffff; in_witness := [] |}];
        tx_output := [{| out_value := satoshis; out_script := new_v0_p2wpkh hash |}] |}.

(** [parse_env]: an unset variable is the default, one that does not parse a panic. *)
Definition parse_env {E T : Type} (parse : string -> option T) (env : gmap string string) (var : string)
    (default : T) : res E T :=
  match env !! var with
  | Some v => unwrap (parse v)
  | None => Ok default
  end.

(** ** Properties *)

(** Signing changes the witness of the first input and nothing else. *)
Definition witnessed (items : list bytes) (tx tx' : BTransaction) : Prop :=
  exists i l, tx_input tx = i :: l /\ tx' = set_inputs (set_witness (in_witness i ++ items) i :: l) tx.

Lemma push_witness_Ok {E : Type} (items : list bytes) (tx tx' : BTransaction) :
  push_witness (E := E) items tx = Ok tx' -> witnessed items tx tx'.
Proof. unfold push_witness, witnessed. destruct (tx_input tx) as [|i l]; [done|]. intros [= <-]. eauto. Qed.

(** what [sign_transaction_taproot] returns is the transaction with one more
    witness item, 64 bytes of a proof that verifies for its signature hash; the
    signers themselves stay as they are. *)
Theorem taproot_signed {E : Type} (tx tx' : BTransaction) (signer signer' : SignerHelper) (prev_output : BTxOut)
    (key : Point) (commitments : list PolyCommitment) (merkle_root : option bytes) (hex : string)
    (Hok : sign_transaction_taproot (E := E) prev_output key commitments merkle_root (tx, signer)
           = ((tx', signer'), Ok hex)) :
  exists payload proof, taproot_signature_hash tx 0 [prev_output] = Some payload /\
    schnorr_verify proof (point_x key) payload = true /\
    witnessed [proof_r proof ++ proof_s proof] tx tx' /\ hex = hex_encode (consensus_encode tx') /\
    sh_signers signer' = sh_signers signer.
Proof.
  unfold sign_transaction_taproot in Hok. destruct (taproot_signature_hash tx 0 [prev_output]) as [payload|]; [|done].
  destruct (signing_round payload commitments merkle_root signer) as [s1 r] eqn:Hr.
  destruct r as [proof|e| |]; simpl in Hok; try done.
  destruct (schnorr_verify proof (point_x key) payload) eqn:Hv; [|done].
  destruct (push_witness _ tx) as [tx1|e| |] eqn:Hp; try done. injection Hok as <- <- <-.
  exists payload, proof. split_and!; try done; [by eapply push_witness_Ok|].
  unfold signing_round in Hr. destruct (sh_signers signer) as [|s0 [|s2 l]] eqn:Hs; [done..|].
  destruct (helper_sign _ _ _ _) as [[nonces shares] rng]. injection Hr as <- _. done.
Qed.

(** a round trip of funds: a deposit that the wallet's key can be read from
    pays the whole amount to that key, in the output the withdrawal of the tests
    spends, and the withdrawal pays one output. *)
Theorem deposit_then_withdrawal {E : Type} (satoshis withdrawn : Z) (wallet key : TPublic) (stx_address : bytes)
    (prev : bytes * Z) (txid : bytes) (deposit withdrawal : BTransaction)
    (Hd : build_transaction_deposit (E := E) satoshis wallet stx_address prev = Ok deposit)
    (Hw : build_transaction_withdrawal (E := E) withdrawn key (txid, 1) = Ok withdrawal) :
  (exists xonly, secp_xonly (public_to_bytes wallet) = Some xonly /\
     tx_output deposit !! 1%nat = Some {| out_value := satoshis; out_script := new_v1_p2tr_tweaked xonly |}) /\
  in_previous_output <$> tx_input withdrawal = [Some (txid, 1)] /\
  out_value <$> tx_output withdrawal = [withdrawn] /\
  Forall (fun i => in_witness i = []) (tx_input deposit ++ tx_input withdrawal).
Proof.
  unfold build_transaction_deposit in Hd. destruct (secp_xonly _) as [x|]; [|done]. injection Hd as <-.
  unfold build_transaction_withdrawal in Hw. destruct (wpubkey_hash key); [|done]. injection Hw as <-.
  split; [by exists x|]. split; [done|]. split; [done|]. by repeat constructor.
Qed.
End TestUtils.
