(* ===== verification/UnitTest.v ===== *)
(** * The unit tests of the crates

    The sources carry unit tests; the files [...Tests] translate them and show
    that the definitions of this library pass them.  A test is a computation
    whose failure is a panic, as with [assert!] and [unwrap]; tests that read and
    write a common value run in the monad of that value. *)
From S2P Require Import Prelude.

Abbreviation Test := (res Empty_set unit).

(** [assert!], [assert_eq!] *)
Definition assert {E : Type} (b : bool) : res E unit := if b then Ok tt else Panic.
Definition assert_eq {E A : Type} `{EqDecision A} (a b : A) : res E unit := assert (bool_decide (a = b)).

(** A [Result] that the test looks at. *)
Definition result {E F A : Type} (r : res E A) : res F (A + E) :=
  match r with
  | Ok a => Ok (inl a)
  | Err e => Ok (inr e)
  | Panic => Panic
  | Diverge => Diverge
  end.
Definition result_of {S E F A : Type} (m : M S E A) : M S F (A + E) := fun s =>
  let '(s', r) := m s in (s', result r).

Definition is_ok {A E : Type} (r : A + E) : bool := match r with inl _ => true | inr _ => false end.
Definition is_err {A E : Type} (r : A + E) : bool := negb (is_ok r).

(** [matches!(r, Err(pattern))] *)
Definition is_err_with {A E : Type} (pattern : E -> bool) (r : A + E) : bool :=
  match r with inl _ => false | inr e => pattern e end.

Definition passes (t : Test) : Prop := t = Ok tt.

(** A test of a stateful component, run on a fresh one. *)
Definition run_test {S : Type} (s : S) (m : M S Empty_set unit) : Test := (m s).2.

(** ** Lemmas *)
Lemma assert_true {E : Type} (b : bool) : b = true -> assert (E := E) b = Ok tt.
Proof. by intros ->. Qed.

Lemma assert_eq_refl {E A : Type} `{EqDecision A} (a b : A) : a = b -> assert_eq (E := E) a b = Ok tt.
Proof. intros ->. unfold assert_eq. by rewrite bool_decide_true. Qed.

Lemma passes_assert (b : bool) (t : Test) : b = true -> passes t -> passes (assert b ;; t).
Proof. by intros -> ->. Qed.

Lemma passes_assert_eq {A : Type} `{EqDecision A} (a b : A) (t : Test) :
  a = b -> passes t -> passes (assert_eq a b ;; t).
Proof. intros -> Ht. unfold assert_eq. by rewrite bool_decide_true. Qed.

Lemma passes_bind {A : Type} (m : res Empty_set A) (a : A) (t : A -> Test) :
  m = Ok a -> passes (t a) -> passes (m ≫= t).
Proof. by intros ->. Qed.

(** The suite of a file. *)
Ltac tests := repeat apply Forall_cons_2; [..|apply Forall_nil_2].
