(* ===== verification/HttpTests.v ===== *)
(** * The unit tests of [yarpc] and [relay-server]

    [yarpc/src/to_io_result.rs], [http/request.rs], [url.rs] and [method.rs];
    [relay-server/src/mem_state.rs], [server.rs] and [proxy_state.rs]; and the
    program [relay-server/src/bin/relay-server-test.rs] against a relay.  They run
    for every order in which a [HashMap] is iterated. *)
From S2P Require Import Prelude UnitTest Http Relay Tcp.

(** A line of a message and its end. *)
Definition line (s : string) : bytes := str s ++ EOL.

(** [Cursor::position] *)
Definition position (input rest : bytes) : Z := Z.of_nat (length input) - Z.of_nat (length rest).

Section HttpTests.
Context {HO : HeaderOrder}.

(** ** [to_io_result.rs]: the [Debug] text of a result and an [io::Error] *)
Definition quoted (s : string) : string :=
  let quote := String (Ascii.ascii_of_nat 34) "" in quote +:+ s +:+ quote.
Definition debug_error (e : HttpIoError) : string :=
  match e with
  | InvalidData what => "Custom { kind: InvalidData, error: " +:+ quoted what +:+ " }"
  | UnexpectedEof => "Error { kind: UnexpectedEof, message: " +:+ quoted "failed to fill whole buffer" +:+ " }"
  end.
Definition debug_result (r : res HttpIoError string) : string :=
  match r with
  | Ok a => "Ok(" +:+ a +:+ ")"
  | Err e => "Err(" +:+ debug_error e +:+ ")"
  | _ => ""
  end.
Definition option_test : Test :=
  assert_eq (debug_result (result_to_io_result id (Err "hello")))
    ("Err(Custom { kind: InvalidData, error: " +:+ quoted "hello" +:+ " })").

(** ** [http/request.rs] *)
Definition read_request (input : bytes) : res Empty_set (bytes * Request) :=
  let '(rest, r) := read (T := Request) input in rm ← unwrap_ok r; mret (rest, rm).

Definition request_test : Test :=
  let REQUEST := line "POST / HTTP/1.1" ++ line "Content-Length: 6" ++ EOL ++ str "Hello!" in
  '(rest, rm) ← read_request REQUEST;
  assert_eq (rq_method rm) POST ;;
  assert_eq (rq_url rm) (str "/") ;;
  assert_eq (rq_protocol rm) (str "HTTP/1.1") ;;
  assert_eq (size (rq_headers rm)) O ;;
  assert_eq (rq_content rm) (str "Hello!") ;;
  assert_eq (position REQUEST rest) (Z.of_nat (length REQUEST)) ;;
  let EXPECTED := line "POST / HTTP/1.1" ++ line "content-length:6" ++ EOL ++ str "Hello!" in
  assert_eq (write rm) EXPECTED.

Definition test_header : Test :=
  let REQUEST := line "POST / HTTP/1.1" ++ line "Content-Length: 6" ++ line "Hello: someThing" ++ EOL ++
    str "Hello!" in
  '(rest, rm) ← read_request REQUEST;
  assert_eq (rq_method rm) POST ;;
  assert_eq (rq_url rm) (str "/") ;;
  assert_eq (rq_protocol rm) (str "HTTP/1.1") ;;
  assert_eq (size (rq_headers rm)) 1%nat ;;
  hello ← unwrap (rq_headers rm !! str "hello");
  assert_eq hello (str "someThing") ;;
  assert_eq (rq_content rm) (str "Hello!") ;;
  assert_eq (position REQUEST rest) (Z.of_nat (length REQUEST)) ;;
  let EXPECTED := line "POST / HTTP/1.1" ++ line "hello:someThing" ++ line "content-length:6" ++ EOL ++
    str "Hello!" in
  assert_eq (write rm) EXPECTED.

Definition incomplete_message_test : Test :=
  let REQUEST := line "POST / HTTP/1.1" ++ str "Content-Leng" in
  r ← result (read (T := Request) REQUEST).2;
  assert (is_err r).

Definition incomplete_content_test : Test :=
  let REQUEST := line "POST / HTTP/1.1" ++ line "Content-Length: 6" ++ EOL in
  r ← result (read (T := Request) REQUEST).2;
  assert (is_err r).

Definition invalid_message_test : Test :=
  let REQUEST := line "POST / HTTP/1.1" ++ line "Content-Length 6" ++ EOL ++ str "Hello!" in
  r ← result (read (T := Request) REQUEST).2;
  assert (is_err r).

Definition no_content_test : Test :=
  let REQUEST := line "GET /images/logo.png HTTP/1.1" ++ EOL in
  '(rest, rm) ← read_request REQUEST;
  assert_eq (rq_method rm) GET ;;
  assert_eq (rq_url rm) (str "/images/logo.png") ;;
  assert_eq (rq_protocol rm) (str "HTTP/1.1") ;;
  assert_eq (size (rq_headers rm)) O ;;
  assert_eq (rq_content rm) [] ;;
  assert_eq (position REQUEST rest) (Z.of_nat (length REQUEST)) ;;
  assert_eq (write rm) (line "GET /images/logo.png HTTP/1.1" ++ EOL).

Definition invalid_utf8_should_not_panic : Test :=
  rm ← result (read (T := Request) [0xFF]).2;
  assert (is_err rm).

(** ** [http/url.rs], [http/method.rs] *)
Definition no_query_test : Test := assert_eq (size (url_query (str ""))) O.
Definition empty_test : Test := assert_eq (size (url_query (str "?"))) O.
Definition one_item_test : Test :=
  let x := url_query (str "locahost:8080/?xyz") in
  assert_eq (size x) 1%nat ;;
  v ← unwrap (x !! str "xyz");
  assert_eq v [].
Definition two_items_test : Test :=
  let x := url_query (str "?xyz&azx") in
  assert_eq (size x) 2%nat ;;
  v ← unwrap (x !! str "xyz");
  assert_eq v [] ;;
  v ← unwrap (x !! str "azx");
  assert_eq v [].
Definition three_items_test : Test :=
  let x := url_query (str "something.example?xyz=5&azx&id=hello") in
  assert_eq (size x) 3%nat ;;
  v ← unwrap (x !! str "xyz");
  assert_eq v (str "5") ;;
  v ← unwrap (x !! str "azx");
  assert_eq v [] ;;
  v ← unwrap (x !! str "id");
  assert_eq v (str "hello").

(** [Display] for [Method] writes [to_str]. *)
Definition display_test : Test :=
  assert_eq (str "method: " ++ to_str GET) (str "method: GET") ;;
  assert_eq (str "method: " ++ to_str POST) (str "method: POST").

(** ** [mem_state.rs], [proxy_state.rs]: the same exchange on both states *)
Section States.
Context {S : Type} {ST : State S}.
Definition expect_get (node_id message : string) : M S Empty_set unit :=
  m ← with_unwrap (state_get (str node_id));
  lift (assert_eq (str message) m).
Definition post_message (message : string) : M S Empty_set unit := with_unwrap (state_post (str message)).

Definition exchange : M S Empty_set unit :=
  post_message "Msg # 0" ;;
  expect_get "1" "Msg # 0" ;;
  expect_get "5" "Msg # 0" ;;
  expect_get "4" "Msg # 0" ;;
  expect_get "1" "" ;;
  post_message "Msg # 1" ;;
  expect_get "1" "Msg # 1" ;;
  expect_get "3" "Msg # 0" ;;
  expect_get "5" "Msg # 1" ;;
  post_message "Msg # 2" ;;
  expect_get "1" "Msg # 2" ;;
  expect_get "4" "Msg # 1" ;;
  expect_get "4" "Msg # 2".
End States.

Definition mem_state_test : Test := run_test MemState_default (
  expect_get "1" "" ;;
  expect_get "3" "" ;;
  highwaters ← gets highwaters;
  lift (assert_eq O (size highwaters)) ;;
  exchange).

Definition proxy_state_test : Test := run_test {| proxied := {| server_state := MemState_default |} |} (
  expect_get "1" "" ;;
  expect_get "3" "" ;;
  exchange).

(** ** [bin/relay-server-test.rs]

    Against a relay that listens at some time. *)
Definition relay_server_test (fuel : nat) (relay : nat -> RelayProcess) : Test :=
  remote_server ← wait_for_server fuel relay 0;
  run_test {| proxied := remote_server |} (
    expect_get "1" "" ;;
    expect_get "3" "" ;;
    exchange).

(** ** [server.rs] *)
Definition expect_response (request response : bytes) : M Server Empty_set unit :=
  r ← with_unwrap (raw_call request);
  lift (assert_eq r response).

Definition server_test : Test := run_test {| server_state := MemState_default |} (
  expect_response (line "POST / HTTP/1.0" ++ line "Content-Length: 6" ++ EOL ++ str "Hello!")
                  (line "HTTP/1.1 200 OK" ++ EOL) ;;
  expect_response (line "GET /?id=x HTTP/1.0" ++ EOL)
                  (line "HTTP/1.1 200 OK" ++ line "content-length:6" ++ EOL ++ str "Hello!") ;;
  expect_response (line "GET /?id=x HTTP/1.1" ++ EOL) (line "HTTP/1.1 200 OK" ++ EOL) ;;
  (* invalid request *)
  response ← result_of (raw_call
    (line "POST / HTTP/1.1" ++ line "Content-Length: 6" ++ EOL ++ str "Hello!j"));
  lift (assert (is_err response))).
End HttpTests.

(** ** The suite *)
Section Suite.
Context {HO : HeaderOrder}.

Lemma header_entries_empty : header_entries ∅ = [].
Proof. apply Permutation_nil_r. by rewrite header_entries_perm, map_to_list_empty. Qed.
Lemma header_entries_one (k v : rstring) : header_entries {[k := v]} = [(k, v)].
Proof. apply Permutation_singleton_r. by rewrite header_entries_perm, map_to_list_singleton. Qed.

(** Reading does not depend on the order of the headers, writing does. *)
Ltac step := first
  [ apply passes_assert_eq; [reflexivity|]
  | eapply passes_bind; [reflexivity|] ].

Lemma request_test_passes : passes request_test.
Proof.
  unfold request_test.
  set (rq := {| rq_method := POST; rq_url := str "/"; rq_protocol := PROTOCOL; rq_headers := ∅;
                rq_content := str "Hello!" |}).
  apply (passes_bind _ ([], rq)); [run|]. subst rq. repeat step. apply assert_eq_refl.
  unfold write. cbn [headers Request_Message rq_headers]. rewrite header_entries_empty. run.
Qed.

Lemma test_header_passes : passes test_header.
Proof.
  unfold test_header.
  set (rq := {| rq_method := POST; rq_url := str "/"; rq_protocol := PROTOCOL;
                rq_headers := {[str "hello" := str "someThing"]}; rq_content := str "Hello!" |}).
  apply (passes_bind _ ([], rq)); [run|]. subst rq.
  repeat step. apply assert_eq_refl.
  unfold write. cbn [headers Request_Message rq_headers]. rewrite header_entries_one. run.
Qed.

Lemma no_content_test_passes : passes no_content_test.
Proof.
  unfold no_content_test.
  set (rq := {| rq_method := GET; rq_url := str "/images/logo.png"; rq_protocol := PROTOCOL;
                rq_headers := ∅; rq_content := [] |}).
  apply (passes_bind _ ([], rq)); [run|]. subst rq. repeat step. apply assert_eq_refl.
  unfold write. cbn [headers Request_Message rq_headers]. rewrite header_entries_empty. run.
Qed.

(** A reply has no headers: any order of headers writes it alike. *)
Lemma update_any_order (s : Server * MemIoStream) :
  Relay.update s = Relay.update (HO := HttpWitness.entries_order) s.
Proof.
  unfold Relay.update. rewrite !M_bind_eq.
  destruct (on_istream _ s) as [s1 [request| | |]]; try done. rewrite !M_bind_eq.
  match goal with |- match ?x with _ => _ end = _ => destruct x as [s2 [c| | |]]; try done end.
  unfold write_out, modify, write. cbn [headers Response_Message rs_headers Response_new].
  by rewrite header_entries_empty.
Qed.

Lemma expect_response_any_order (request response : bytes) (s : Server) :
  expect_response request response s = expect_response (HO := HttpWitness.entries_order) request response s.
Proof. unfold expect_response, with_unwrap, raw_call. by rewrite !M_bind_eq, update_any_order. Qed.

Lemma passes_step {S A : Type} (s s' : S) (m : M S Empty_set A) (a : A) (t : A -> M S Empty_set unit) :
  m s = (s', Ok a) -> passes (run_test s' (t a)) -> passes (run_test s (m ≫= t)).
Proof. intros Hm. unfold run_test. by rewrite M_bind_eq, Hm. Qed.

Lemma server_test_passes : passes server_test.
Proof.
  unfold server_test.
  set (s0 := {| server_state := MemState_default |}).
  set (s1 := {| server_state := {| highwaters := ∅; queue := [str "Hello!"] |} |}).
  set (s2 := {| server_state := {| highwaters := {[str "x" := O]}; queue := [str "Hello!"] |} |}).
  apply (passes_step _ s1 _ tt); [rewrite expect_response_any_order; run|].
  apply (passes_step _ s2 _ tt); [rewrite expect_response_any_order; run|].
  apply (passes_step _ s2 _ tt); [rewrite expect_response_any_order; run|].
  unfold run_test, result_of, raw_call. rewrite M_bind_eq, update_any_order. unfold passes. run.
Qed.

(** Reading through the proxy is reading the memory state. *)
Section Proxied.
Context {T : Type} {CT : Call T} (emb : Server -> T).
Context (Hemb : forall r s s' resp, Server_call r s = (s', Ok resp) -> call r (emb s) = (emb s', Ok resp)).

Lemma passes_proxy_get (s s' : MemState) (id message : string) (t : M (ProxyState T) Empty_set unit) :
  op_ok (Get (str id)) -> queue_ok s -> MemState_get (str id) s = (s', Ok (str message)) ->
  passes (run_test (over_call emb s') t) -> passes (run_test (over_call emb s) (expect_get id message ;; t)).
Proof.
  intros Ho Hq Hget Ht. apply (passes_step _ (over_call emb s') _ tt); [clear Ht|exact Ht].
  pose proof (proxy_step emb Hemb (Get (str id)) s Ho Hq) as Hp.
  unfold run_op in Hp. rewrite !M_bind_eq in Hp. cbn [state_get MemState_State] in Hp. rewrite Hget in Hp.
  unfold expect_get, with_unwrap. rewrite M_bind_eq.
  destruct (state_get (str id) (over_call emb s)) as [p r]; destruct r; try done. injection Hp as -> ->.
  cbn [unwrap_ok]. unfold lift, assert_eq. by rewrite bool_decide_true.
Qed.

Lemma passes_proxy_post (s : MemState) (message : string) (t : M (ProxyState T) Empty_set unit) :
  op_ok (Post (str message)) -> queue_ok s ->
  passes (run_test (over_call emb (MemState_post (str message) s).1) t) ->
  passes (run_test (over_call emb s) (post_message message ;; t)).
Proof.
  intros Ho Hq Ht. apply (passes_step _ (over_call emb (MemState_post (str message) s).1) _ tt); [clear Ht|exact Ht].
  pose proof (proxy_step emb Hemb (Post (str message)) s Ho Hq) as Hp.
  unfold run_op in Hp. rewrite !M_bind_eq in Hp. cbn [state_post MemState_State] in Hp.
  unfold post_message, with_unwrap.
  destruct (state_post (str message) (over_call emb s)) as [p r]; destruct r as [[]| | |]; try done. by injection Hp as ->.
Qed.
End Proxied.

Lemma passes_last {S : Type} (s : S) (m : M S Empty_set unit) :
  passes (run_test s (m ;; mret tt)) -> passes (run_test s m).
Proof. unfold run_test. rewrite M_bind_eq. by destruct (m s) as [s' [[]| | |]]. Qed.

Lemma exchange_passes {T : Type} {CT : Call T} (emb : Server -> T) :
  (forall r s s' resp, Server_call r s = (s', Ok resp) -> call r (emb s) = (emb s', Ok resp)) ->
  passes (run_test (over_call emb MemState_default) (expect_get "1" "" ;; expect_get "3" "" ;; exchange)).
Proof.
  intros Hemb. unfold exchange.
  repeat first
    [ eapply (passes_proxy_get emb Hemb); [by_compute|by_compute|vm_compute; reflexivity|]
    | eapply (passes_proxy_post emb Hemb); [by_compute|by_compute|]
    | reflexivity
    | apply passes_last ].
Qed.

Lemma proxy_state_test_passes : passes proxy_state_test.
Proof. by apply (exchange_passes id). Qed.

(** The program ends well against a relay that comes up at any time. *)
Lemma relay_server_test_passes (relay : nat -> RelayProcess) (k fuel : nat) :
  relay k = Some {| server_state := MemState_default |} -> (forall j, (j < k)%nat -> relay j = None) ->
  (k < fuel)%nat -> passes (relay_server_test fuel relay).
Proof.
  intros Hk Hn Hf. unfold relay_server_test. rewrite (wait_ends relay k _ fuel Hk Hn Hf), res_bind_Ok.
  apply (exchange_passes remote). intros r s s' resp. apply remote_call.
Qed.

(** every unit test of the two crates passes. *)
Theorem http_tests_pass :
  Forall passes [request_test; test_header; incomplete_message_test; incomplete_content_test;
    invalid_message_test; no_content_test; invalid_utf8_should_not_panic;
    no_query_test; empty_test; one_item_test; two_items_test; three_items_test; display_test;
    mem_state_test; proxy_state_test; server_test; option_test].
Proof.
  tests; first [ apply request_test_passes | apply test_header_passes | apply no_content_test_passes
    | apply server_test_passes | apply proxy_state_test_passes | unfold passes; run ].
Qed.
End Suite.
