(* ===== verification/FrostTests.v ===== *)
(** * The unit tests of [frost-signer]

    [signer.rs], [signing_round.rs], [config.rs] and [util.rs].  The tests draw
    random keys: they pass whenever a signature of one key they drew does not
    verify under another one ([independent]). *)
From S2P Require Import Prelude UnitTest Crypto FrostUtil FrostConfig Messages SigningRound FrostSigner SignerProcess.

(** Calls of other crates that only the tests make; [KeyTools] has the rest. *)
Class TestTools `{CP : P256k1, WP : !Wsts} := {
  ecdsa_public_key_new : Scalar -> option PublicKey;               (* ecdsa::PublicKey::new *)
  poly_commitment : Scalar -> Scalar -> list Point -> Rng -> PolyCommitment * Rng;  (* id: ID::new(..), A *)
  public_nonce_default : PublicNonce                               (* D and E default *)
}.

Class TestToolsLaws `{CP : P256k1, WP : !Wsts, CL : !P256k1Laws, KT : !KeyTools, TT : !TestTools} := {
  ecdsa_public_key_of : forall sk, ecdsa_public_key_new sk = Some (pk_of sk);
  point_of_scalar : forall s, point_from_scalar s = point_of s;
  ecdsa_sign_total : forall h sk, is_Some (ecdsa_sign h sk)
}.

Section FrostTests.
Context {CP : P256k1} {WP : Wsts} {BP : BuildProfile} {PP : ConfigParsers} {KT : KeyTools} {TT : TestTools}.

(** The tests share the random generator. *)
Abbreviation RTest := (M Rng Empty_set unit).

Definition scalar_random_ {E : Type} : M Rng E Scalar := fun rng => let '(s, rng') := scalar_random rng in (rng', Ok s).
(** [PolyCommitment { id: ID::new(&Scalar::new(), &Scalar::new(), rng), A: vec![] }] *)
Definition empty_poly {E : Type} : M Rng E PolyCommitment := fun rng =>
  let '(p, rng') := poly_commitment scalar_new scalar_new [] rng in (rng', Ok p).

(** ** [signer.rs]: [verify_msg] *)
Definition generate_key_pair {E : Type} : M Rng E (Scalar * PublicKey) :=
  sec_key ← scalar_random_;
  pub_key ← lift (unwrap (ecdsa_public_key_new sec_key));
  mret (sec_key, pub_key).

Record TestConfig := {
  tc_coordinator_sec_key : Scalar;
  tc_coordinator_pub_key : PublicKey;
  tc_sec_keys : list Scalar;
  tc_public_keys : PublicKeys
}.

Definition TestConfig_new {E : Type} : M Rng E TestConfig :=
  '(coordinator_sec_key, coordinator_pub_key) ← generate_key_pair;
  '(sec_key1, pub_key1) ← generate_key_pair;
  '(sec_key2, pub_key2) ← generate_key_pair;
  mret {| tc_coordinator_sec_key := coordinator_sec_key;
          tc_coordinator_pub_key := coordinator_pub_key;
          tc_sec_keys := [sec_key1; sec_key2];
          tc_public_keys :=
            {| pk_signers := {[1 := pub_key1; 2 := pub_key2]};
               pk_key_ids := {[1 := pub_key1; 2 := pub_key1; 3 := pub_key2; 4 := pub_key2]} |} |}.

Definition message (m : MessageTypes) (s : bytes) : Message := {| msg := m; sig := s |}.

(** [assert!(verify_msg(&message, &config.public_keys, key))] and its negation *)
Definition verifies (config : TestConfig) (key : PublicKey) (m : Message) : Test :=
  b ← verify_msg m (tc_public_keys config) key; assert b.
Definition rejects (config : TestConfig) (key : PublicKey) (m : Message) : Test :=
  b ← verify_msg m (tc_public_keys config) key; assert (negb b).

Definition verify_msg_dkg_begin (config : TestConfig) : Test :=
  let inner := {| db_dkg_id := 0 |} in
  s ← unwrap_ok (sign inner (tc_coordinator_sec_key config));
  let dkg_begin := message (MDkgBegin inner) s in
  let dkg_private_begin := message (MDkgPrivateBegin inner) s in
  verifies config (tc_coordinator_pub_key config) dkg_begin ;;
  verifies config (tc_coordinator_pub_key config) dkg_private_begin ;;
  wrong ← unwrap (pk_key_ids (tc_public_keys config) !! 1);
  rejects config wrong dkg_begin ;;
  rejects config wrong dkg_private_begin.

(** The second [dkg_end] of the source also carries a [DkgPublicEnd]. *)
Definition verify_msg_dkg_end_valid_signer_id (config : TestConfig) : Test :=
  let cpk := tc_coordinator_pub_key config in
  let inner := {| de_dkg_id := 0; de_signer_id := 1; de_status := Success |} in
  sk ← unwrap (tc_sec_keys config !! 0%nat);
  s ← unwrap_ok (sign inner sk);
  verifies config cpk (message (MDkgEnd inner) s) ;;
  verifies config cpk (message (MDkgPublicEnd inner) s) ;;
  sk ← unwrap (tc_sec_keys config !! 1%nat);
  s ← unwrap_ok (sign inner sk);
  rejects config cpk (message (MDkgPublicEnd inner) s) ;;
  rejects config cpk (message (MDkgPublicEnd inner) s).

Definition verify_msg_dkg_end_invalid_signer_id (config : TestConfig) : Test :=
  let cpk := tc_coordinator_pub_key config in
  let invalid_inner := {| de_dkg_id := 0; de_signer_id := 3; de_status := Success |} in
  sk ← unwrap (tc_sec_keys config !! 0%nat);
  s ← unwrap_ok (sign invalid_inner sk);
  rejects config cpk (message (MDkgEnd invalid_inner) s) ;;
  rejects config cpk (message (MDkgPublicEnd invalid_inner) s).

(** A message signed with the right key verifies, with the other one not. *)
Definition valid_test {T : Type} `{Signable T} (inner : T) (wrap : T -> MessageTypes) (config : TestConfig) : Test :=
  let cpk := tc_coordinator_pub_key config in
  sk ← unwrap (tc_sec_keys config !! 0%nat);
  s ← unwrap_ok (sign inner sk);
  verifies config cpk (message (wrap inner) s) ;;
  sk ← unwrap (tc_sec_keys config !! 1%nat);
  s ← unwrap_ok (sign inner sk);
  rejects config cpk (message (wrap inner) s).

(** A message of an unknown sender does not verify. *)
Definition invalid_test {T : Type} `{Signable T} (inner : T) (wrap : T -> MessageTypes) (config : TestConfig) : Test :=
  sk ← unwrap (tc_sec_keys config !! 0%nat);
  s ← unwrap_ok (sign inner sk);
  rejects config (tc_coordinator_pub_key config) (message (wrap inner) s).

(** A request verifies with the coordinator's key and no other. *)
Definition request_test {T : Type} `{Signable T} (inner : T) (wrap : T -> MessageTypes) (config : TestConfig) : Test :=
  s ← unwrap_ok (sign inner (tc_coordinator_sec_key config));
  verifies config (tc_coordinator_pub_key config) (message (wrap inner) s) ;;
  wrong ← unwrap (pk_key_ids (tc_public_keys config) !! 1);
  rejects config wrong (message (wrap inner) s).

Definition public_share_inner (party_id : Z) (poly : PolyCommitment) : DkgPublicShare :=
  {| dps_dkg_id := 0; dps_dkg_public_id := 0; dps_party_id := party_id; dps_public_share := poly |}.
Definition private_shares_inner (key_id : Z) : DkgPrivateShares :=
  {| dprs_dkg_id := 0; dprs_key_id := key_id; dprs_private_shares := ∅ |}.
Definition nonce_response_inner (signer_id : Z) : NonceResponse :=
  {| nresp_dkg_id := 0; nresp_sign_id := 0; nresp_sign_nonce_id := 0; nresp_signer_id := signer_id;
     nresp_key_ids := []; nresp_nonces := [] |}.
Definition share_response_inner (signer_id : Z) : SignatureShareResponse :=
  {| ssresp_dkg_id := 0; ssresp_sign_id := 0; ssresp_correlation_id := 0; ssresp_signer_id := signer_id;
     ssresp_signature_shares := [] |}.

Definition verify_msg_dkg_public_share_valid_party_id (poly : PolyCommitment) : TestConfig -> Test :=
  valid_test (public_share_inner 1 poly) MDkgPublicShare.
Definition verify_msg_dkg_public_share_invalid_party_id (poly : PolyCommitment) : TestConfig -> Test :=
  invalid_test (public_share_inner 10 poly) MDkgPublicShare.
Definition verify_msg_dkg_private_share_valid_key_id : TestConfig -> Test :=
  valid_test (private_shares_inner 1) MDkgPrivateShares.
Definition verify_msg_dkg_private_share_invalid_key_id : TestConfig -> Test :=
  invalid_test (private_shares_inner 10) MDkgPrivateShares.
Definition verify_msg_nonce_request : TestConfig -> Test :=
  request_test {| nr_dkg_id := 0; nr_sign_id := 0; nr_sign_nonce_id := 0 |} MNonceRequest.
Definition verify_msg_nonce_response_valid_signer_id : TestConfig -> Test :=
  valid_test (nonce_response_inner 1) MNonceResponse.
Definition verify_msg_nonce_response_invalid_signer_id : TestConfig -> Test :=
  invalid_test (nonce_response_inner 10) MNonceResponse.
Definition verify_msg_sign_share_request : TestConfig -> Test :=
  request_test
    {| ssr_dkg_id := 0; ssr_sign_id := 0; ssr_correlation_id := 0;
       ssr_nonce_responses :=
         [{| nresp_dkg_id := 0; nresp_sign_id := 0; nresp_sign_nonce_id := 0; nresp_signer_id := 1;
             nresp_key_ids := [0]; nresp_nonces := [public_nonce_default] |}];
       ssr_message := [] |} MSignShareRequest.
Definition verify_msg_sign_share_response_valid_signer_id : TestConfig -> Test :=
  valid_test (share_response_inner 1) MSignShareResponse.
Definition verify_msg_sign_share_response_invalid_signer_id : TestConfig -> Test :=
  invalid_test (share_response_inner 10) MSignShareResponse.

(** Each test draws its configuration; two of them also draw a commitment. *)
Definition with_config (test : TestConfig -> Test) : RTest := config ← TestConfig_new; lift (test config).
Definition with_poly (test : PolyCommitment -> TestConfig -> Test) : RTest :=
  config ← TestConfig_new; poly ← empty_poly; lift (test poly config).

Definition signer_tests : list RTest :=
  [with_config verify_msg_dkg_begin; with_config verify_msg_dkg_end_valid_signer_id;
   with_config verify_msg_dkg_end_invalid_signer_id;
   with_poly verify_msg_dkg_public_share_valid_party_id;
   with_poly verify_msg_dkg_public_share_invalid_party_id;
   with_config verify_msg_dkg_private_share_valid_key_id;
   with_config verify_msg_dkg_private_share_invalid_key_id;
   with_config verify_msg_nonce_request;
   with_config verify_msg_nonce_response_valid_signer_id;
   with_config verify_msg_nonce_response_invalid_signer_id;
   with_config verify_msg_sign_share_request;
   with_config verify_msg_sign_share_response_valid_signer_id;
   with_config verify_msg_sign_share_response_invalid_signer_id].

(** ** [signing_round.rs] *)

(** A method of a local round. *)
Definition on_local {E A : Type} (round : SigningRound) (m : M (SigningRound * Rng) E A) : M Rng E (SigningRound * A) :=
  fun rng => let '((round', rng'), r) := m (round, rng) in (rng', a ← r; Ok (round', a)).

(** [SigningRound::new(1, 1, 1, 1, vec![1], Default::default(), Default::default())] *)
Definition test_round {E : Type} : M Rng E SigningRound :=
  SigningRound_new 1 1 1 1 [1] scalar_new PublicKeys_default.

Definition dkg_public_share_test : RTest :=
  signing_round ← test_round;
  poly ← empty_poly;
  '(signing_round, _) ← on_local signing_round (dkg_public_share
    {| dps_dkg_id := 0; dps_party_id := 0; dps_public_share := poly; dps_dkg_public_id := 0 |});
  lift (assert_eq 1%nat (size (commitments signing_round))).

Definition dkg_private_shares_test : RTest :=
  signing_round ← test_round;
  '(signing_round, _) ← on_local signing_round (dkg_private_shares
    {| dprs_dkg_id := 0; dprs_key_id := 0; dprs_private_shares := {[1 := []]} |});
  lift (assert_eq 1%nat (size (shares signing_round))).

Definition public_shares_done_test : RTest :=
  signing_round ← test_round;
  lift (assert_eq false (public_shares_done signing_round)) ;;
  let signing_round := set_state DkgPublicGather signing_round in
  poly ← empty_poly;
  let signing_round := set_commitments (<[1 := poly]> (commitments signing_round)) signing_round in
  lift (assert (public_shares_done signing_round)).

Definition can_dkg_end_test : RTest :=
  signing_round ← test_round;
  lift (assert_eq false (can_dkg_end signing_round)) ;;
  let signing_round := set_state DkgPrivateGather signing_round in
  poly ← empty_poly;
  let signing_round := set_commitments (<[1 := poly]> (commitments signing_round)) signing_round in
  let signing_round := set_shares (<[1 := ∅]> (shares signing_round)) signing_round in
  lift (assert (can_dkg_end signing_round)).

Definition dkg_ended_test : RTest :=
  signing_round ← test_round;
  '(_, m) ← on_local signing_round dkg_ended;
  lift (match m with
        | MDkgEnd dkg_end => match de_status dkg_end with Failure _ => assert true | _ => assert false end
        | _ => assert false
        end).

Definition signing_round_tests : list RTest :=
  [dkg_public_share_test; dkg_private_shares_test; public_shares_done_test; can_dkg_end_test; dkg_ended_test].

(** ** [config.rs] *)
Definition TEST_PUBLIC_KEY : string := "22Rm48xUdpuTuva5gz9S7yDaaw9f8sjMcPSTHYVzPLNcj".
Definition TEST_PRIVATE_KEY : string := "9aSCCR6eirt1NAHwJtSz4HMwBHTyMo62SyPMvVDt5DQn".

(** [#[derive(Default)]] of [RawConfig] *)
Definition RawConfig_default : RawConfig :=
  {| rc_http_relay_url := ""; rc_keys_threshold := 0; rc_network_private_key := ""; rc_signers := [];
     rc_coordinator_public_key := "" |}.
Definition with_coordinator_public_key (k : string) (rc : RawConfig) : RawConfig :=
  {| rc_http_relay_url := rc_http_relay_url rc; rc_keys_threshold := rc_keys_threshold rc;
     rc_network_private_key := rc_network_private_key rc; rc_signers := rc_signers rc;
     rc_coordinator_public_key := k |}.
Definition with_network_private_key (k : string) (rc : RawConfig) : RawConfig :=
  {| rc_http_relay_url := rc_http_relay_url rc; rc_keys_threshold := rc_keys_threshold rc;
     rc_network_private_key := k; rc_signers := rc_signers rc;
     rc_coordinator_public_key := rc_coordinator_public_key rc |}.
Definition with_signers (signers : list RawSigners) (rc : RawConfig) : RawConfig :=
  {| rc_http_relay_url := rc_http_relay_url rc; rc_keys_threshold := rc_keys_threshold rc;
     rc_network_private_key := rc_network_private_key rc; rc_signers := signers;
     rc_coordinator_public_key := rc_coordinator_public_key rc |}.

Definition invalid_public_key (e : ConfigError) : bool := match e with InvalidPublicKey _ => true | _ => false end.
Definition invalid_private_key (e : ConfigError) : bool := match e with InvalidPrivateKey _ => true | _ => false end.
Definition invalid_key_id (e : ConfigError) : bool := match e with InvalidKeyID => true | _ => false end.

Definition try_from_raw_config_test : Test :=
  let raw_config := RawConfig_default in
  r ← result (Config_try_from raw_config);
  assert (is_err_with invalid_public_key r) ;;
  let raw_config := with_coordinator_public_key TEST_PUBLIC_KEY raw_config in
  r ← result (Config_try_from raw_config);
  assert (is_err_with invalid_private_key r) ;;
  let raw_config := with_network_private_key TEST_PRIVATE_KEY raw_config in
  r ← result (Config_try_from raw_config);
  assert (is_ok r).

Definition coordinator_public_key_test : Test :=
  let config := RawConfig_default in
  r ← result (coordinator_public_key config);
  assert (is_err_with invalid_public_key r) ;;
  let config := with_coordinator_public_key "Invalid Public Key" config in
  r ← result (coordinator_public_key config);
  assert (is_err_with invalid_public_key r) ;;
  let config := with_coordinator_public_key TEST_PUBLIC_KEY config in
  r ← result (coordinator_public_key config);
  assert (is_ok r).

Definition public_keys_test : Test :=
  let config := RawConfig_default in
  keys ← unwrap_ok (public_keys config);
  assert (bool_decide (pk_key_ids keys = ∅)) ;;
  assert (bool_decide (pk_signers keys = ∅)) ;;
  let config := with_signers [{| raw_key_ids := [1; 2]; raw_public_key := "" |}] config in
  r ← result (public_keys config);
  assert (is_err_with invalid_public_key r) ;;
  let config := with_signers [{| raw_key_ids := [1; 2]; raw_public_key := "Invalid public key" |}] config in
  r ← result (public_keys config);
  assert (is_err_with invalid_public_key r) ;;
  let config := with_signers [{| raw_key_ids := [0; 1]; raw_public_key := TEST_PUBLIC_KEY |}] config in
  r ← result (public_keys config);
  assert (is_err_with invalid_key_id r) ;;
  let config := with_signers [{| raw_key_ids := [1; 2]; raw_public_key := TEST_PUBLIC_KEY |};
                              {| raw_key_ids := [3; 4]; raw_public_key := TEST_PUBLIC_KEY |}] config in
  keys ← unwrap_ok (public_keys config);
  assert_eq (size (pk_signers keys)) 2%nat ;;
  assert_eq (size (pk_key_ids keys)) 4%nat.

(** ** [util.rs] *)
Definition test_shared_secret : RTest :=
  x ← scalar_random_;
  y ← scalar_random_;
  let X := point_from_scalar x in
  let Y := point_from_scalar y in
  lift (assert_eq (make_shared_secret x Y) (make_shared_secret y X)).

Definition test_encrypt_decrypt : RTest :=
  let m := as_bytes "It was many and many a year ago, in a kingdom by the sea..." in
  x ← scalar_random_;
  y ← scalar_random_;
  let X := point_from_scalar x in
  let Y := point_from_scalar y in
  let xy := make_shared_secret x Y in
  let yx := make_shared_secret y X in
  cipher ← with_unwrap (encrypt xy m);
  plain ← lift (unwrap_ok (decrypt yx cipher));
  lift (assert_eq m plain).

(** ** The suite *)

(** What the tests expect of the parsers of [p256k1]. *)
Class TestKeysParse := {
  test_public_key_parses : is_Some (pk_try_from_str TEST_PUBLIC_KEY);
  test_private_key_parses : is_Some (scalar_try_from_str TEST_PRIVATE_KEY);
  no_private_key : scalar_try_from_str "" = None;
  no_public_key : forall s, s ∈ [""; "Invalid Public Key"; "Invalid public key"]%string -> pk_try_from_str s = None
}.

Context {CL : P256k1Laws} {TL : TestToolsLaws}.

(** No signature of one key verifies under the other. *)
Definition independent (sk sk' : Scalar) : Prop :=
  forall h s, ecdsa_sign h sk = Some s -> ecdsa_verify s h (pk_of sk') = false.

Lemma signed {T : Type} `{Signable T} (inner : T) (b : bytes) (sk : Scalar) :
  preimage inner = Ok b ->
  exists s, unwrap_ok (F := Empty_set) (sign inner sk) = Ok s /\ verify inner s (pk_of sk) = Ok true /\
    forall sk', independent sk sk' -> verify inner s (pk_of sk') = Ok false.
Proof.
  intros Hb. destruct (ecdsa_sign_total (sha256 b) sk) as [s Hs]. exists s.
  assert (sign inner sk = Ok s) as Hsign by (unfold sign; rewrite Hb; simpl; by rewrite Hs).
  split_and!; [by rewrite Hsign|by apply verify_sign|].
  intros sk' Hi. unfold verify. rewrite Hb. simpl. by rewrite (Hi _ _ Hs), andb_false_r.
Qed.

(** The keys of a configuration: the coordinator's and those of the two signers. *)
Definition drawn (rng : Rng) : Scalar * Scalar * Scalar * Rng :=
  let '(c, rng) := scalar_random rng in
  let '(k1, rng) := scalar_random rng in
  let '(k2, rng) := scalar_random rng in (c, k1, k2, rng).

Definition config_of (c k1 k2 : Scalar) : TestConfig :=
  {| tc_coordinator_sec_key := c; tc_coordinator_pub_key := pk_of c; tc_sec_keys := [k1; k2];
     tc_public_keys :=
       {| pk_signers := {[1 := pk_of k1; 2 := pk_of k2]};
          pk_key_ids := {[1 := pk_of k1; 2 := pk_of k1; 3 := pk_of k2; 4 := pk_of k2]} |} |}.

Lemma generate_key_pair_eq {E : Type} (rng : Rng) :
  generate_key_pair (E := E) rng = let '(sk, rng') := scalar_random rng in (rng', Ok (sk, pk_of sk)).
Proof.
  unfold generate_key_pair, scalar_random_. rewrite M_bind_eq. destruct (scalar_random rng) as [sk rng'].
  unfold lift. by rewrite M_bind_eq, ecdsa_public_key_of.
Qed.

Lemma TestConfig_new_eq {E : Type} (rng : Rng) :
  TestConfig_new (E := E) rng = let '(c, k1, k2, rng') := drawn rng in (rng', Ok (config_of c k1 k2)).
Proof.
  unfold TestConfig_new, drawn. rewrite M_bind_eq, generate_key_pair_eq.
  destruct (scalar_random rng) as [c rng1]. rewrite M_bind_eq, generate_key_pair_eq.
  destruct (scalar_random rng1) as [k1 rng2]. rewrite M_bind_eq, generate_key_pair_eq.
  by destruct (scalar_random rng2) as [k2 rng3].
Qed.

(** The outcomes of the three shapes of tests. *)
Section Shapes.
Context {T : Type} `{Signable T} (inner : T) (wrap : T -> MessageTypes).
Context (Hwrap : forall s key, verify (wrap inner) s key = verify inner s key) (Hfit : key_id_fits (wrap inner)).
Context (c k1 k2 : Scalar) (b : bytes) (Hb : preimage inner = Ok b).
Abbreviation config := (config_of c k1 k2).
Abbreviation authorised key := (authorised_key (tc_public_keys config) key (wrap inner)).

Lemma verifies_passes (s : bytes) (cpk key : PublicKey) :
  authorised cpk = Some key -> verify inner s key = Ok true -> passes (verifies config cpk (message (wrap inner) s)).
Proof.
  intros Hk Hv. unfold verifies. rewrite verify_msg_eq by done. unfold message. cbn [msg sig].
  rewrite Hk. simpl. by rewrite Hwrap, Hv.
Qed.

Lemma rejects_passes (s : bytes) (cpk : PublicKey) :
  (authorised cpk = None \/ exists key, authorised cpk = Some key /\ verify inner s key = Ok false) ->
  passes (rejects config cpk (message (wrap inner) s)).
Proof.
  unfold rejects. rewrite verify_msg_eq by done. unfold message. cbn [msg sig].
  intros [->|(key & -> & Hv)]; [done|]. simpl. by rewrite Hwrap, Hv.
Qed.

Lemma valid_test_passes (Hkey : forall cpk, authorised cpk = Some (pk_of k1)) :
  independent k2 k1 -> passes (valid_test inner wrap config).
Proof.
  intros Hi. unfold valid_test. destruct (signed inner b k1 Hb) as (s1 & Hs1 & Hv1 & _).
  destruct (signed inner b k2 Hb) as (s2 & Hs2 & _ & Hv2).
  eapply passes_bind; [done|]. apply (passes_bind _ s1); [done|].
  eapply passes_bind; [by apply (verifies_passes _ _ (pk_of k1))|].
  eapply passes_bind; [done|]. apply (passes_bind _ s2); [done|]. apply rejects_passes. eauto.
Qed.

Lemma invalid_test_passes (Hkey : forall cpk, authorised cpk = None) : passes (invalid_test inner wrap config).
Proof.
  unfold invalid_test. destruct (signed inner b k1 Hb) as (s1 & Hs1 & _).
  eapply passes_bind; [done|]. apply (passes_bind _ s1); [done|]. apply rejects_passes. eauto.
Qed.

Lemma signed_request_test_passes (Hkey : forall cpk, authorised cpk = Some cpk) :
  independent c k1 -> passes (request_test inner wrap config).
Proof.
  intros Hi. unfold request_test. destruct (signed inner b c Hb) as (s1 & Hs1 & Hv1 & Hv2).
  apply (passes_bind _ s1); [done|]. eapply passes_bind; [by apply (verifies_passes _ _ (pk_of c))|].
  apply (passes_bind _ (pk_of k1)); [done|]. apply rejects_passes. right. eauto.
Qed.
End Shapes.

Lemma DkgBegin_preimage (m : DkgBegin) : preimage m = Ok (DkgBegin_bytes m).
Proof. apply appends_preimage, DkgBegin_appends. Qed.
Lemma DkgEnd_preimage (m : DkgEnd) : preimage m = Ok (DkgEnd_bytes m).
Proof. apply appends_preimage, DkgEnd_appends. Qed.

Lemma verify_msg_dkg_begin_passes (c k1 k2 : Scalar) :
  independent c k1 -> passes (verify_msg_dkg_begin (config_of c k1 k2)).
Proof.
  intros Hi. unfold verify_msg_dkg_begin. destruct (signed _ _ c (DkgBegin_preimage {| db_dkg_id := 0 |})) as (s & Hs & Hv1 & Hv2).
  apply (passes_bind _ s); [done|].
  eapply passes_bind; [by apply (verifies_passes _ MDkgBegin ltac:(done) I _ _ _ _ _ (pk_of c))|].
  eapply passes_bind; [by apply (verifies_passes _ MDkgPrivateBegin ltac:(done) I _ _ _ _ _ (pk_of c))|].
  apply (passes_bind _ (pk_of k1)); [done|].
  eapply passes_bind; [apply (rejects_passes _ MDkgBegin); [done|done|right; eauto]|].
  apply (rejects_passes _ MDkgPrivateBegin); [done|done|right; eauto].
Qed.

Lemma verify_msg_dkg_end_valid_passes (c k1 k2 : Scalar) :
  independent k2 k1 -> passes (verify_msg_dkg_end_valid_signer_id (config_of c k1 k2)).
Proof.
  intros Hi. unfold verify_msg_dkg_end_valid_signer_id.
  pose proof (DkgEnd_preimage {| de_dkg_id := 0; de_signer_id := 1; de_status := Success |}) as Hb.
  destruct (signed _ _ k1 Hb) as (s1 & Hs1 & Hv1 & _), (signed _ _ k2 Hb) as (s2 & Hs2 & _ & Hv2).
  eapply passes_bind; [done|]. apply (passes_bind _ s1); [done|].
  eapply passes_bind; [by apply (verifies_passes _ MDkgEnd ltac:(done) I _ _ _ _ _ (pk_of k1))|].
  eapply passes_bind; [by apply (verifies_passes _ MDkgPublicEnd ltac:(done) I _ _ _ _ _ (pk_of k1))|].
  eapply passes_bind; [done|]. apply (passes_bind _ s2); [done|].
  eapply passes_bind; apply (rejects_passes _ MDkgPublicEnd); try done; right; eauto.
Qed.

Lemma verify_msg_dkg_end_invalid_passes (c k1 k2 : Scalar) :
  passes (verify_msg_dkg_end_invalid_signer_id (config_of c k1 k2)).
Proof.
  unfold verify_msg_dkg_end_invalid_signer_id.
  destruct (signed _ _ k1 (DkgEnd_preimage {| de_dkg_id := 0; de_signer_id := 3; de_status := Success |}))
    as (s1 & Hs1 & _).
  eapply passes_bind; [done|]. apply (passes_bind _ s1); [done|].
  eapply passes_bind; [apply (rejects_passes _ MDkgEnd)|apply (rejects_passes _ MDkgPublicEnd)]; try done; by left.
Qed.

Lemma with_config_passes (test : TestConfig -> Test) (rng : Rng) :
  (let '(c, k1, k2, _) := drawn rng in passes (test (config_of c k1 k2))) -> passes (run_test rng (with_config test)).
Proof.
  unfold with_config, run_test. rewrite M_bind_eq, TestConfig_new_eq. by destruct (drawn rng) as [[[c k1] k2] rng'].
Qed.

Lemma with_poly_passes (test : PolyCommitment -> TestConfig -> Test) (rng : Rng) :
  (let '(c, k1, k2, _) := drawn rng in forall poly, passes (test poly (config_of c k1 k2))) ->
  passes (run_test rng (with_poly test)).
Proof.
  unfold with_poly, run_test. rewrite M_bind_eq, TestConfig_new_eq. destruct (drawn rng) as [[[c k1] k2] rng'].
  intros Ht. unfold empty_poly. rewrite M_bind_eq. destruct (poly_commitment _ _ _ rng'). apply Ht.
Qed.

(** One of the shapes, given what is hashed. *)
Ltac shape apply_lemma preimage :=
  apply_lemma; [done|first [exact I|done|by_compute]|preimage|reflexivity|done..].

(** the tests of [verify_msg] pass whichever keys are drawn, if the
    coordinator's and the second signer's signatures are no signatures of the
    first signer. *)
Theorem signer_tests_pass (rng : Rng)
    (Hi : let '(c, k1, k2, _) := drawn rng in independent c k1 /\ independent k2 k1) :
  Forall (fun test => passes (run_test rng test)) signer_tests.
Proof.
  pose proof (fun test => with_config_passes test rng) as Hconfig.
  pose proof (fun test => with_poly_passes test rng) as Hpoly.
  destruct (drawn rng) as [[[c k1] k2] rng']. destruct Hi as [Hck Hkk]. unfold signer_tests. tests.
  - apply Hconfig. by apply verify_msg_dkg_begin_passes.
  - apply Hconfig. by apply verify_msg_dkg_end_valid_passes.
  - apply Hconfig. apply verify_msg_dkg_end_invalid_passes.
  - apply Hpoly. intros poly. shape ltac:(eapply valid_test_passes) ltac:(apply appends_preimage, DkgPublicShare_appends).
  - apply Hpoly. intros poly. shape ltac:(eapply invalid_test_passes) ltac:(apply appends_preimage, DkgPublicShare_appends).
  - apply Hconfig. shape ltac:(eapply valid_test_passes) ltac:(reflexivity).
  - apply Hconfig. shape ltac:(eapply invalid_test_passes) ltac:(reflexivity).
  - apply Hconfig. shape ltac:(eapply signed_request_test_passes) ltac:(apply appends_preimage, NonceRequest_appends).
  - apply Hconfig. shape ltac:(eapply valid_test_passes) ltac:(apply appends_preimage, NonceResponse_appends).
  - apply Hconfig. shape ltac:(eapply invalid_test_passes) ltac:(apply appends_preimage, NonceResponse_appends).
  - apply Hconfig. shape ltac:(eapply signed_request_test_passes) ltac:(apply appends_preimage, SignatureShareRequest_appends).
  - apply Hconfig. shape ltac:(eapply valid_test_passes) ltac:(apply appends_preimage, SignatureShareResponse_appends).
  - apply Hconfig. shape ltac:(eapply invalid_test_passes) ltac:(apply appends_preimage, SignatureShareResponse_appends).
Qed.

(** *** The other files *)
Lemma test_round_eq {E : Type} (rng : Rng) :
  exists fs rng', signer_new 1 [1] 1 1 rng = (fs, rng') /\
    test_round (E := E) rng = (rng', Ok
      {| dkg_id := 0; dkg_public_id := 0; sign_id := 1; sign_nonce_id := 1; threshold := 1; total_signers := 1;
         total_keys := 1; signer := {| frost_signer := fs; signer_id := 1 |}; state := Idle; commitments := ∅;
         shares := ∅; public_nonces := []; sr_network_private_key := scalar_new;
         sr_public_keys := PublicKeys_default |}).
Proof.
  unfold test_round, SigningRound_new. change (1 <=? 1) with true. cbv iota.
  destruct (signer_new 1 [1] 1 1 rng) as [fs rng']. eauto.
Qed.

(** the tests of [signing_round.rs] pass if a signer without any commitments
    cannot compute its secrets. *)
Theorem signing_round_tests_pass (rng : Rng)
    (Hsecrets : is_Some (signer_compute_secrets (signer_new 1 [1] 1 1 rng).1 ∅ []).2) :
  Forall (fun test => passes (run_test rng test)) signing_round_tests.
Proof.
  destruct (test_round_eq (E := Empty_set) rng) as (fs & rng1 & Hfs & Hr). rewrite Hfs in Hsecrets. simpl in Hsecrets.
  unfold signing_round_tests. tests; unfold run_test;
    [unfold dkg_public_share_test|unfold dkg_private_shares_test|unfold public_shares_done_test
    |unfold can_dkg_end_test|unfold dkg_ended_test]; rewrite M_bind_eq, Hr; clear Hr.
  - unfold empty_poly. rewrite M_bind_eq. by destruct (poly_commitment _ _ _ rng1).
  - reflexivity.
  - unfold empty_poly. rewrite !M_bind_eq. cbn [fst snd lift].
    change (lift (assert_eq false _) rng1) with (rng1, Ok (E := Empty_set) tt). cbv iota beta.
    rewrite M_bind_eq. by destruct (poly_commitment _ _ _ rng1).
  - unfold empty_poly. rewrite !M_bind_eq. cbn [fst snd lift].
    change (lift (assert_eq false _) rng1) with (rng1, Ok (E := Empty_set) tt). cbv iota beta.
    rewrite M_bind_eq. by destruct (poly_commitment _ _ _ rng1).
  - destruct Hsecrets as [e He]. rewrite M_bind_eq. unfold on_local, dkg_ended. rewrite M_bind_eq.
    cbn [get_self gets fst snd]. rewrite M_bind_eq. unfold lift at 1.
    change (decrypt_all _) with (Ok (E := Empty_set) (∅ : gmap Z (gmap Z Scalar), @nil Z)). cbv iota beta.
    cbn [frost_signer signer commitments].
    change (btree_values ∅) with (@nil PolyCommitment).
    rewrite bool_decide_true by done. destruct (signer_compute_secrets fs ∅ []) as [fs' o]. simpl in He. by subst o.
Qed.

Lemma result_Ok {E F A : Type} (r : res E A) (a : A) : r = Ok a -> result (F := F) r = Ok (inl a).
Proof. by intros ->. Qed.
Lemma result_Err {E F A : Type} (r : res E A) (e : E) : r = Err e -> result (F := F) r = Ok (inr e).
Proof. by intros ->. Qed.

(** *** The tests of [config.rs] *)
Section Config.
Context {TP : TestKeysParse}.

Lemma no_key (s : string) : s ∈ [""; "Invalid Public Key"; "Invalid public key"]%string ->
  parse_public_key s = Err KeyErrorOpaque.
Proof. intros Hs. unfold parse_public_key. by rewrite no_public_key. Qed.

Lemma test_key : exists pk, parse_public_key TEST_PUBLIC_KEY = Ok pk.
Proof. destruct test_public_key_parses as [pk Hpk]. exists pk. unfold parse_public_key. by rewrite Hpk. Qed.

Lemma try_from_no_signers (pk : PublicKey) (rc : RawConfig) : parse_public_key TEST_PUBLIC_KEY = Ok pk ->
  rc_coordinator_public_key rc = TEST_PUBLIC_KEY -> rc_signers rc = [] ->
  Config_try_from rc = sk ← network_private_key rc;
    Config_new (rc_keys_threshold rc) pk PublicKeys_default ∅ sk (rc_http_relay_url rc).
Proof.
  intros Hpk Hk Hs. unfold Config_try_from, coordinator_public_key, public_keys, signer_key_ids.
  rewrite Hk, Hpk, Hs. reflexivity.
Qed.

Lemma try_from_raw_config_passes : passes try_from_raw_config_test.
Proof.
  destruct test_key as [pk Hpk]. destruct test_private_key_parses as [sk Hsk].
  unfold try_from_raw_config_test. eapply passes_bind; [apply result_Err|].
  { unfold Config_try_from, coordinator_public_key. cbn [rc_coordinator_public_key RawConfig_default].
    rewrite no_key by (by left). reflexivity. }
  apply passes_assert; [done|]. eapply passes_bind; [apply result_Err|].
  { rewrite (try_from_no_signers pk) by done. unfold network_private_key.
    cbn [rc_network_private_key with_coordinator_public_key RawConfig_default]. rewrite no_private_key. reflexivity. }
  apply passes_assert; [done|]. eapply passes_bind; [apply result_Ok|].
  { rewrite (try_from_no_signers pk) by done. unfold network_private_key.
    cbn [rc_network_private_key with_network_private_key]. rewrite Hsk. reflexivity. }
  reflexivity.
Qed.

Lemma coordinator_public_key_passes : passes coordinator_public_key_test.
Proof.
  destruct test_key as [pk Hpk]. unfold coordinator_public_key_test, coordinator_public_key.
  cbn [rc_coordinator_public_key RawConfig_default with_coordinator_public_key].
  rewrite (no_key ""%string) by (by left).
  rewrite (no_key "Invalid Public Key"%string) by (by right; left). by rewrite Hpk.
Qed.

Lemma public_keys_passes : passes public_keys_test.
Proof.
  destruct test_key as [pk Hpk].
  assert (forall signers, public_keys (with_signers signers RawConfig_default) =
    public_keys_loop 0 signers PublicKeys_default) as Hloop by done.
  unfold public_keys_test. apply (passes_bind _ PublicKeys_default); [done|].
  apply passes_assert; [by rewrite bool_decide_true|]. apply passes_assert; [by rewrite bool_decide_true|].
  eapply passes_bind; [apply result_Err|].
  { rewrite Hloop. cbn [public_keys_loop raw_public_key]. rewrite no_key by (by left). reflexivity. }
  apply passes_assert; [done|]. eapply passes_bind; [apply result_Err|].
  { change (public_keys (with_signers ?l (with_signers _ _))) with (public_keys_loop 0 l PublicKeys_default).
    cbn [public_keys_loop raw_public_key]. rewrite no_key by (by right; right; left). reflexivity. }
  apply passes_assert; [done|]. eapply passes_bind; [apply result_Err|].
  { change (public_keys (with_signers ?l (with_signers _ _))) with (public_keys_loop 0 l PublicKeys_default).
    cbn [public_keys_loop raw_public_key]. rewrite Hpk. reflexivity. }
  apply passes_assert; [done|].
  apply (passes_bind _ {| pk_signers := {[2 := pk; 1 := pk]}; pk_key_ids := {[4 := pk; 3 := pk; 2 := pk; 1 := pk]} |}).
  { change (public_keys (with_signers ?l (with_signers _ _))) with (public_keys_loop 0 l PublicKeys_default).
    cbn [public_keys_loop raw_public_key]. rewrite Hpk. destruct BP; vm_compute; reflexivity. }
  reflexivity.
Qed.

(** The tests of [config.rs] pass if the two keys in them parse and the texts
    that are no keys do not. *)
Theorem config_tests_pass : Forall passes [try_from_raw_config_test; coordinator_public_key_test; public_keys_test].
Proof.
  repeat constructor; [apply try_from_raw_config_passes|apply coordinator_public_key_passes|apply public_keys_passes].
Qed.
End Config.

(** both ends of a key exchange derive the same secret, and what one encrypts
    the other decrypts. *)
Theorem util_tests_pass (rng : Rng) :
  Forall (fun test => passes (run_test rng test)) [test_shared_secret; test_encrypt_decrypt].
Proof.
  assert (forall x y, make_shared_secret x (point_from_scalar y) = make_shared_secret y (point_from_scalar x)) as Hxy
    by (intros x y; unfold make_shared_secret; by rewrite !point_of_scalar, diffie_hellman).
  tests; unfold run_test, test_shared_secret, test_encrypt_decrypt, scalar_random_; rewrite M_bind_eq;
    destruct (scalar_random rng) as [x rng1]; rewrite M_bind_eq; destruct (scalar_random rng1) as [y rng2].
  - unfold lift. cbn [snd]. apply assert_eq_refl, Hxy.
  - rewrite M_bind_eq. unfold with_unwrap.
    destruct (encrypt_total (make_shared_secret x (point_from_scalar y))
      (as_bytes "It was many and many a year ago, in a kingdom by the sea...") rng2) as (rng3 & c & Hc).
    rewrite Hc. cbn [unwrap_ok]. rewrite M_bind_eq. unfold lift.
    rewrite Hxy in Hc. rewrite (decrypt_encrypt _ _ c rng2 rng3 Hc). by apply assert_eq_refl.
Qed.
End FrostTests.

(** ** The suite on the executable cryptography *)
Module FrostTestsWitness.
Import ToyCrypto.

#[export] Instance toy_key_tools : KeyTools := {|
  scalar_random rng := (rng, rng + 1);
  scalar_to_string s := "scalar";
  point_from_scalar s := s;
  point_to_string p := "point";
  can_create _ := true
|}.
#[export] Instance toy_test_tools : TestTools := {|
  ecdsa_public_key_new sk := Some sk;
  poly_commitment id _ A rng := ((id, A), rng + 1);
  public_nonce_default := (0, 0)
|}.
#[export] Program Instance toy_test_laws : TestToolsLaws.
Next Obligation. done. Qed.
Next Obligation. done. Qed.
Next Obligation. eauto. Qed.
#[export] Instance checked_build : BuildProfile := true.

Definition seed : Rng (P256k1 := toy_p256k1) := 5.

Lemma toy_independent (sk sk' : Z) : sk <> sk' -> independent sk sk'.
Proof. intros Hne h s [= <-]. simpl. rewrite bool_decide_false; [done|]. congruence. Qed.

Lemma signer_tests_pass_witness : Forall (fun test => passes (run_test seed test)) signer_tests.
Proof. apply (signer_tests_pass seed). split; by apply toy_independent. Defined.

Lemma signing_round_tests_pass_witness : Forall (fun test => passes (run_test seed test)) signing_round_tests.
Proof. apply (signing_round_tests_pass seed). by eexists. Defined.
End FrostTestsWitness.
