(* ===== verification/QueueTests.v ===== *)
(** * The unit tests of [stacks-coordinator/src/peg_queue/sqlite_peg_queue.rs]

    The tests poll a mock of the Stacks node.  They run on an executable instance
    of the external types whose JSON texts order a peg-in before a peg-out of the
    same height, as the texts of [serde_json] do. *)
From Stdlib Require Import String.
From stdpp Require Import pretty.
From S2P Require Import Prelude UnitTest Crypto FrostConfig Net StacksNode PegQueue.

(** The struct literals of the tests.  Their constant fields ([recipient],
    [peg_wallet_address], [amount], [fulfillment_fee], [signature], [memo],
    [vtxindex]) are part of the external constructors. *)
Class PegLiterals `{TY : StacksTypes} := {
  Txid_of : bytes -> Txid;                                        (* Txid([u8; 32]) *)
  BurnchainHeaderHash_of : bytes -> BurnchainHeaderHash;
  default_hasher : list Z -> Z;                                   (* DefaultHasher over the u64s *)
  PegInOp_literal : Txid -> BurnchainHeaderHash -> Z -> PegInOp;
  PegOutRequestOp_literal : Txid -> BurnchainHeaderHash -> Z -> PegOutRequestOp
}.

Section QueueTests.
Context {TY : StacksTypes} {CP : P256k1} {OJ : OpJson} {BP : BuildProfile} {PL : PegLiterals}.

(** ** The mock: what it returns, [None] for a call that must not happen *)
Record MockStacksNode := {
  mock_burn_block_height : option Z;
  mock_peg_in_ops : option (Z -> list PegInOp);
  mock_peg_out_request_ops : option (Z -> list PegOutRequestOp)
}.

(** A call without an expectation panics. *)
Definition unexpected {A : Type} : M MockStacksNode StacksNodeError A := panic.
Definition returning {A : Type} (o : option A) : res StacksNodeError A := unwrap o.

#[export] Instance MockStacksNode_StacksNode : StacksNode MockStacksNode := {|
  burn_block_height n := (n, returning (mock_burn_block_height n));
  get_peg_in_ops height n := (n, returning ((fun f => f height) <$> mock_peg_in_ops n));
  get_peg_out_request_ops height n := (n, returning ((fun f => f height) <$> mock_peg_out_request_ops n));
  next_nonce _ := unexpected;
  broadcast_transaction _ := unexpected;
  keys_threshold _ := unexpected;
  node_public_keys _ := unexpected;
  node_signer_key_ids _ := unexpected;
  node_coordinator_public_key _ := unexpected;
  node_bitcoin_wallet_public_key _ := unexpected
|}.

(** ** Helpers of the tests *)
Definition hash_and_expand (val nonce : Z) : bytes :=
  let hash := default_hasher [val; nonce] in concat (replicate 4 (be_bytes 8 hash)).

Definition peg_in_op (block_height : Z) : PegInOp :=
  PegInOp_literal (Txid_of (hash_and_expand block_height 1))
    (BurnchainHeaderHash_of (hash_and_expand block_height 0)) block_height.
Definition peg_out_request_op (block_height : Z) : PegOutRequestOp :=
  PegOutRequestOp_literal (Txid_of (hash_and_expand block_height 2))
    (BurnchainHeaderHash_of (hash_and_expand block_height 0)) block_height.

Definition default_stacks_node_mock (block_height : Z) : MockStacksNode :=
  {| mock_burn_block_height := Some block_height;
     mock_peg_in_ops := Some (fun height => [peg_in_op height]);
     mock_peg_out_request_ops := Some (fun height => [peg_out_request_op height]) |}.
Definition stacks_node_mock_with_no_sbtc_ops (block_height : Z) : MockStacksNode :=
  {| mock_burn_block_height := Some block_height;
     mock_peg_in_ops := Some (fun _ => []);
     mock_peg_out_request_ops := Some (fun _ => []) |}.

Abbreviation QTest := (M Db Empty_set unit).

(** [SqlitePegQueue::in_memory(..).unwrap()], [queue.poll(&mock).unwrap()] *)
Definition in_memory (start_block_height : option Z) (current_block_height : Z) : QTest :=
  put_st {| sbtc_ops := ∅; metadata := None |} ;;
  with_unwrap (from_connection start_block_height current_block_height).
Definition poll_mock (mock : MockStacksNode) : QTest :=
  with_unwrap (fun db => let '((db', _), r) := poll (db, mock) in (db', r)).

(** [queue.sbtc_op().unwrap().unwrap()] *)
Definition next_sbtc_op : M Db Empty_set SbtcOp :=
  o ← with_unwrap sbtc_op;
  lift (unwrap o).

Definition expect_peg_in (height : Z) : QTest :=
  next_op ← next_sbtc_op;
  lift (assert (bool_decide (is_Some (as_peg_in next_op))) ;;
        o ← unwrap (as_peg_in next_op);
        assert_eq (pi_block_height o) height).
Definition expect_peg_out (height : Z) : QTest :=
  next_op ← next_sbtc_op;
  lift (assert (bool_decide (is_Some (as_peg_out_request next_op))) ;;
        o ← unwrap (as_peg_out_request next_op);
        assert_eq (po_block_height o) height).
Definition expect_block (height : Z) : QTest := expect_peg_in height ;; expect_peg_out height.
Definition skip_block (_ : Z) : QTest := next_sbtc_op ;; next_sbtc_op ;; mret tt.

(** [lo..=hi] *)
Definition inclusive (lo hi : Z) : list Z := seqZ lo (hi - lo + 1).

(** ** The tests *)
Definition calling_sbtc_op_should_return_new_peg_ops : QTest :=
  in_memory (Some 1) 2 ;;
  let number_of_simulated_blocks := 3 in
  let stacks_node_mock := default_stacks_node_mock number_of_simulated_blocks in
  o ← with_unwrap sbtc_op;
  lift (assert (bool_decide (~ is_Some o))) ;;
  poll_mock stacks_node_mock ;;
  for_each expect_block (inclusive 1 number_of_simulated_blocks).

Definition calling_poll_should_not_query_new_ops_if_at_block_height : QTest :=
  in_memory (Some 1) 2 ;;
  let number_of_simulated_blocks := 3 in
  poll_mock (default_stacks_node_mock number_of_simulated_blocks) ;;
  for_each skip_block (inclusive 1 number_of_simulated_blocks) ;;
  poll_mock {| mock_burn_block_height := Some number_of_simulated_blocks;
               mock_peg_in_ops := None; mock_peg_out_request_ops := None |}.

Definition calling_poll_should_find_new_ops_if_at_new_block_height : QTest :=
  in_memory (Some 1) 2 ;;
  let number_of_simulated_blocks := 3 in
  let number_of_simulated_blocks_second_poll := 5 in
  poll_mock (default_stacks_node_mock number_of_simulated_blocks) ;;
  for_each skip_block (inclusive 1 number_of_simulated_blocks) ;;
  poll_mock (default_stacks_node_mock number_of_simulated_blocks_second_poll) ;;
  for_each expect_block (inclusive (number_of_simulated_blocks + 1) number_of_simulated_blocks_second_poll).

Definition acknowledged_entries_should_have_acknowledge_status : QTest :=
  in_memory (Some 1) 2 ;;
  poll_mock (default_stacks_node_mock 1) ;;
  next_op ← next_sbtc_op;
  peg_in_op ← lift (unwrap (as_peg_in next_op));
  with_unwrap (acknowledge (pi_txid peg_in_op) (pi_burn_header_hash peg_in_op)) ;;
  entry ← with_unwrap (get_entry (pi_txid peg_in_op) (pi_burn_header_hash peg_in_op));
  lift (assert_eq (status entry) Acknowledged).

Definition should_start_at_last_observed_block_height_when_polling : QTest :=
  let start_block_height := 10 in
  let initial_node_block_height := 20 in
  let second_poll_node_block_height := 40 in
  in_memory (Some start_block_height) initial_node_block_height ;;
  poll_mock (default_stacks_node_mock initial_node_block_height) ;;
  last ← with_unwrap last_processed_block_height;
  lift (assert_eq last 20) ;;
  poll_mock (stacks_node_mock_with_no_sbtc_ops second_poll_node_block_height) ;;
  last ← with_unwrap last_processed_block_height;
  lift (assert_eq last 40).

Definition queue_tests : list QTest :=
  [calling_sbtc_op_should_return_new_peg_ops; calling_poll_should_not_query_new_ops_if_at_block_height;
   calling_poll_should_find_new_ops_if_at_new_block_height; acknowledged_entries_should_have_acknowledge_status;
   should_start_at_last_observed_block_height_when_polling].
End QueueTests.

(** ** The suite *)
Module ToyQueueTests.
Import ToyCrypto ToyStacks.
#[export] Instance checked_build : BuildProfile := true.

(** The hash of two numbers below 1000 is injective. *)
Fixpoint from_be_bytes (acc : Z) (b : bytes) : Z :=
  match b with [] => acc | x :: b' => from_be_bytes (256 * acc + x) b' end.
#[export] Instance toy_literals : PegLiterals (TY := toy_stacks) := {|
  Txid_of b := pretty (from_be_bytes 0 b);
  BurnchainHeaderHash_of b := pretty (from_be_bytes 0 b);
  default_hasher l := foldl (fun acc x => 1000 * acc + x) 0 l;
  PegInOp_literal t b h :=
    {| toy_txid := t; toy_burn := b; toy_height := h; toy_amount := 1337; toy_fee := 0; toy_who := "26" |};
  PegOutRequestOp_literal t b h :=
    {| toy_txid := t; toy_burn := b; toy_height := h; toy_amount := 1337; toy_fee := 1000; toy_who := "26" |}
|}.

(** The operations of the tests, and the only ones with a text. *)
Definition known_ops : list SbtcOp :=
  ((fun h => PegIn (peg_in_op (TY := toy_stacks) h)) <$> seqZ 0 32) ++
  ((fun h => PegOutRequest (peg_out_request_op (TY := toy_stacks) h)) <$> seqZ 0 32).

#[export] Instance ToyOp_eq_dec : EqDecision ToyOp.
Proof. solve_decision. Defined.
#[export] Instance SbtcOp_eq_dec : EqDecision (SbtcOp (TY := toy_stacks)).
Proof.
  intros [x|x] [y|y].
  1, 4: destruct (ToyOp_eq_dec x y) as [->|Hne]; [by left|right; congruence].
  all: by right.
Defined.

Definition text (o : SbtcOp (TY := toy_stacks)) : string :=
  match o with
  | PegIn o => "PegIn" +:+ pretty (toy_height o)
  | PegOutRequest o => "PegOutRequest" +:+ pretty (toy_height o)
  end.

Lemma text_inj (o o' : SbtcOp (TY := toy_stacks)) :
  o ∈ known_ops -> o' ∈ known_ops -> text o = text o' -> o = o'.
Proof.
  intros Ho Ho'.
  assert (Forall (fun o => Forall (fun o' => text o = text o' -> o = o') known_ops) known_ops) as H by by_compute.
  rewrite Forall_forall in H. specialize (H o Ho). rewrite Forall_forall in H. by apply H.
Qed.

Definition op_of_text (s : string) : option SbtcOp := List.find (fun o => String.eqb (text o) s) known_ops.

Lemma op_of_text_spec (o : SbtcOp (TY := toy_stacks)) : o ∈ known_ops -> op_of_text (text o) = Some o.
Proof.
  unfold op_of_text. intros Hin.
  destruct (List.find (fun o' => String.eqb (text o') (text o)) known_ops) as [o'|] eqn:Hf.
  - apply List.find_some in Hf as [Hin' Heq%String.eqb_eq]. f_equal. apply text_inj; [|done|done].
    by apply list_elem_of_In.
  - apply list_elem_of_In in Hin. pose proof (List.find_none _ _ Hf _ Hin) as Hn. cbv beta in Hn.
    by rewrite String.eqb_refl in Hn.
Qed.

Definition text_of_op (o : SbtcOp (TY := toy_stacks)) : option string :=
  if bool_decide (o ∈ known_ops) then Some (text o) else None.
Lemma op_text (o : SbtcOp (TY := toy_stacks)) (s : string) : text_of_op o = Some s -> op_of_text s = Some o.
Proof. unfold text_of_op. case_bool_decide; [|done]. intros [= <-]. by apply op_of_text_spec. Qed.
#[export] Instance toy_op_json : OpJson := {| op_to_json := text_of_op; op_from_json := op_of_text; op_json := op_text |}.

(** the tests pass on this instance. *)
Theorem queue_tests_pass :
  Forall (fun test => passes (run_test {| sbtc_ops := ∅; metadata := None |} test)) (queue_tests (TY := toy_stacks)).
Proof. tests; unfold passes; run. Qed.
End ToyQueueTests.
