(* ===== verification/WalletTests.v ===== *)
(** * The unit tests of the wallets of [stacks-coordinator]

    [bitcoin_wallet.rs], [stacks_wallet.rs] and the helpers of [util.rs] that
    build a signed peg-out request.  What the tests draw at random (transaction
    ids and 32-byte strings) is [Draws]. *)
From stdpp Require Import pretty.
From S2P Require Import Prelude UnitTest StacksNode BitcoinNode BitcoinWallet StacksWallet.

(** ** [util.rs]: a peg-out request from its burnchain transaction *)
Record BurnTxOutput := { bo_units : Z; bo_p2tr : bytes }.        (* BitcoinTxOutput to a P2TR address *)
Record BurnHeader := { bh_height : Z; bh_hash : bytes; bh_parent_hash : bytes; bh_num_txs : Z; bh_timestamp : Z }.
Record BurnTransaction := {
  bt_txid : bytes; bt_vtxindex : Z; bt_opcode : Z; bt_data : bytes; bt_data_amt : Z;
  bt_outputs : list BurnTxOutput
}.

(** What the helpers call of [blockstack_lib] and [bitcoin]. *)
Class WalletLiterals `{TY : StacksTypes, BT : !BitcoinTypes, TL : !StacksTxLib} := {
  BurnKey : Type;                                                (* util::secp256k1::Secp256k1PrivateKey *)
  burn_key_from_hex : string -> option BurnKey;
  burn_sign : BurnKey -> bytes -> option bytes;
  sha256_sum : bytes -> bytes;                                   (* Sha256Sum::from_data *)
  Opcode_PegOutRequest : Z;
  PegOutRequestOp_from_tx : BurnHeader -> BurnTransaction -> option PegOutRequestOp;
  xonly_from_str : string -> option XOnlyPublicKey;
  bitcoin_testnet : BtcNetwork;
  stacks_key_from_hex : string -> option StacksPrivateKey;
  stacks_address_of_keys : Z -> list StacksPublicKey -> option StacksAddress;  (* from_public_keys, SerializeP2PKH, 1 *)
  stacks_address_from_string : string -> option StacksAddress;
  tx_verify : StacksTransaction -> bool;
  mint_request : Z -> PegInOp;                                   (* PegInOp { amount, .. } of the tests *)
  unsigned_peg_out : Z -> PegOutRequestOp                        (* .. with a signature of zeros *)
}.

Definition PRIVATE_KEY_HEX : string := "b244296d5907de9864c0b0d51f98a13c52890be0404e83f273144cd5b9960eed01".
Definition PUBLIC_KEY_HEX : string := "cc8a4bc64d897bddc5fbc2f670f7a8ba0b386779106cf1223c6fc5d7cd6fc115".

Record Draws := { drawn_txid : Z -> string; drawn_bytes : nat -> bytes }.

(** [#[derive(Default)]] of [UTXO] *)
Definition UTXO_default : UTXO :=
  {| u_txid := ""; u_vout := 0; u_address := ""; u_label := ""; u_scriptPubKey := ""; u_amount := 0;
     u_confirmations := 0; u_redeemScript := ""; u_witnessScript := ""; u_spendable := false;
     u_solvable := false; u_reused := false; u_desc := ""; u_safe := false |}.

Section WalletTests.
Context {TY : StacksTypes} {BT : BitcoinTypes} {TL : StacksTxLib} {TS : TxSigner} {BP : BuildProfile}.
Context {WL : WalletLiterals} (draws : Draws).

Definition build_empty_block_header : BurnHeader :=
  {| bh_height := 0; bh_hash := replicate 32 0; bh_parent_hash := replicate 32 0; bh_num_txs := 0;
     bh_timestamp := 0 |}.

Definition build_burnchain_transaction (opcode : Z) (data : bytes) (outputs : list BurnTxOutput) : BurnTransaction :=
  {| bt_txid := replicate 32 0; bt_vtxindex := 0; bt_opcode := opcode; bt_data := data; bt_data_amt := 0;
     bt_outputs := outputs |}.

Definition build_peg_out_request_op {E : Type} (key_hex : string) (amount dust_amount fulfillment_fee : Z)
    : res E PegOutRequestOp :=
  private_key ← unwrap (burn_key_from_hex key_hex);
  let recipient_address_bytes := drawn_bytes draws 0 in
  let output2 := {| bo_units := dust_amount; bo_p2tr := recipient_address_bytes |} in
  let peg_wallet_address := drawn_bytes draws 1 in
  let output3 := {| bo_units := fulfillment_fee; bo_p2tr := peg_wallet_address |} in
  let script_pubkey := [81; 32] ++ recipient_address_bytes in
  let m := be_bytes 8 amount ++ script_pubkey in
  signature ← unwrap (burn_sign private_key (sha256_sum m));
  let data := be_bytes 8 amount ++ signature in
  let tx := build_burnchain_transaction Opcode_PegOutRequest data [output2; output3] in
  unwrap (PegOutRequestOp_from_tx build_empty_block_header tx).

(** ** [bitcoin_wallet.rs] *)
Definition bitcoin_wallet {E : Type} : res E BitcoinWallet :=
  public_key ← unwrap (xonly_from_str PUBLIC_KEY_HEX);
  mret (BitcoinWallet_new public_key bitcoin_testnet).

Definition build_utxo (txid : string) (vout amount : Z) : UTXO :=
  {| u_txid := txid; u_vout := vout; u_address := u_address UTXO_default; u_label := u_label UTXO_default;
     u_scriptPubKey := u_scriptPubKey UTXO_default; u_amount := amount;
     u_confirmations := u_confirmations UTXO_default; u_redeemScript := u_redeemScript UTXO_default;
     u_witnessScript := u_witnessScript UTXO_default; u_spendable := u_spendable UTXO_default;
     u_solvable := u_solvable UTXO_default; u_reused := u_reused UTXO_default; u_desc := u_desc UTXO_default;
     u_safe := u_safe UTXO_default |}.

Definition build_utxos (nmb : Z) : list UTXO :=
  (fun i => build_utxo (drawn_txid draws i) i (i * 10000)) <$> seqZ 1 nmb.

Definition insufficient_funds (e : BitcoinWalletError) : bool := match e with InsufficientFunds => true | _ => false end.
Definition missing_fulfillment_utxo (e : BitcoinWalletError) : bool :=
  match e with MissingFulfillmentUTXO => true | _ => false end.
Definition mismatched_fulfillment_fee (e : BitcoinWalletError) : bool :=
  match e with MismatchedFulfillmentFee => true | _ => false end.

Definition fulfill_peg_out_insufficient_funds : Test :=
  wallet ← bitcoin_wallet;
  let amount := 200000 in
  let txouts := build_utxos 5 in
  op ← build_peg_out_request_op PRIVATE_KEY_HEX amount 1 1;
  let fulfillment_utxo := build_utxo (txid_to_string (po_txid op)) 2 1 in
  r ← result (fulfill_peg_out wallet op (txouts ++ [fulfillment_utxo]));
  assert (is_err_with insufficient_funds r).

(** [btc_tx.output[i].value] *)
Definition output_value {E : Type} (tx : Transaction) (i : nat) : res E Z :=
  o ← unwrap (output tx !! i); mret (value o).

Definition fulfill_peg_out_change : Test :=
  wallet ← bitcoin_wallet;
  let amount := 200000 in
  let txouts := build_utxos 6 in
  op ← build_peg_out_request_op PRIVATE_KEY_HEX amount 1 1;
  let fulfillment_utxo := build_utxo (txid_to_string (po_txid op)) 2 1 in
  '(btc_tx, _) ← unwrap_ok (fulfill_peg_out wallet op (txouts ++ [fulfillment_utxo]));
  assert_eq (length (input btc_tx)) 7%nat ;;
  assert_eq (length (output btc_tx)) 3%nat ;;
  v0 ← output_value btc_tx 0;
  assert_eq v0 0 ;;
  v1 ← output_value btc_tx 1;
  assert_eq v1 amount ;;
  v2 ← output_value btc_tx 2;
  assert_eq v2 10000.

Definition fulfill_peg_out_no_change : Test :=
  wallet ← bitcoin_wallet;
  let amount := 9999 in
  let txouts := build_utxos 1 in
  op ← build_peg_out_request_op PRIVATE_KEY_HEX amount 1 1;
  let fulfillment_utxo := build_utxo (txid_to_string (po_txid op)) 2 1 in
  '(btc_tx, _) ← unwrap_ok (fulfill_peg_out wallet op (txouts ++ [fulfillment_utxo]));
  assert_eq (length (input btc_tx)) 2%nat ;;
  assert_eq (length (output btc_tx)) 2%nat.

Definition fulfill_peg_out_missing_fulfillment_utxo : Test :=
  wallet ← bitcoin_wallet;
  op ← build_peg_out_request_op PRIVATE_KEY_HEX 9999 1 1;
  let invalid_vout := build_utxo (txid_to_string (po_txid op)) 1 1 in
  let invalid_txid := build_utxo (drawn_txid draws 0) 2 1 in
  r ← result (fulfill_peg_out wallet op [invalid_vout; invalid_txid]);
  assert (is_err_with missing_fulfillment_utxo r).

Definition fulfill_peg_out_mismatched_fulfillment_utxo : Test :=
  wallet ← bitcoin_wallet;
  op ← build_peg_out_request_op PRIVATE_KEY_HEX 9999 1 10;
  let invalid_amount := build_utxo (txid_to_string (po_txid op)) 2 1 in
  r ← result (fulfill_peg_out wallet op [invalid_amount]);
  assert (is_err_with mismatched_fulfillment_fee r).

(** ** [stacks_wallet.rs] *)
Definition stacks_wallet {E : Type} : res E StacksWallet :=
  sender_key ← unwrap (stacks_key_from_hex PRIVATE_KEY_HEX);
  let pk := stacks_pk_from_private sender_key in
  address ← unwrap (stacks_address_of_keys (address_version Testnet) [pk]);
  contract_address ← unwrap (stacks_address_from_string "SP3FBR2AGK5H9QBDH3EEN6DF8EK8JY7RX8QJ5SVTE");
  mret (StacksWallet_new "sbtc-alpha" contract_address sender_key address Testnet 10).

Definition build_mint_transaction_test : Test :=
  let p := mint_request 55155 in
  wallet ← stacks_wallet;
  tx ← unwrap_ok (PegInOp_build p wallet 0);
  assert (tx_verify tx).

Definition build_burn_transaction_test : Test :=
  wallet ← stacks_wallet;
  op ← build_peg_out_request_op PRIVATE_KEY_HEX 10 1 3;
  tx ← unwrap_ok (PegOutRequestOp_build op wallet 0);
  assert (tx_verify tx).

(** The [Display] texts of [peg_wallet::Error] around [stacks_wallet::Error]; the
    texts of the wrapped library errors are left out. *)
Definition display_stacks_wallet_error (e : StacksWalletError) : string :=
  "Stacks Wallet Error: " +:+
  match e with
  | SigningError what => "Failed to sign transaction: " +:+ what
  | MalformedOp what => what
  | ClarityRuntimeError | BlockstackError => "Clarity runtime error ocurred: "
  end.

Definition invalid_burn_op_test : Test :=
  wallet ← stacks_wallet;
  let op := unsigned_peg_out 1000 in
  r ← result (PegOutRequestOp_build op wallet 0);
  match r with
  | inr e => assert_eq (display_stacks_wallet_error e)
      "Stacks Wallet Error: Failed to recover stx address from peg-out request op."%string
  | inl _ => Panic
  end.

Definition build_set_bitcoin_wallet_public_key_transaction_test : Test :=
  wallet ← stacks_wallet;
  xonly_pubkey ← unwrap (xonly_from_str PUBLIC_KEY_HEX);
  tx ← unwrap_ok (build_set_bitcoin_wallet_public_key_transaction wallet xonly_pubkey 0);
  assert (tx_verify tx).

(** ** The suite *)

(** What the tests of the Stacks wallet rely on: their literals parse, the
    library signs, and recovers an address from a signed request only. *)
Class WalletLaws := {
  burn_key_parses : is_Some (burn_key_from_hex PRIVATE_KEY_HEX);
  burn_sign_total : forall k m, is_Some (burn_sign k m);
  signed_request : forall version amount o2 o3 k s,
    burn_key_from_hex PRIVATE_KEY_HEX = Some k ->
    burn_sign k (sha256_sum (be_bytes 8 amount ++ [81; 32] ++ bo_p2tr o2)) = Some s ->
    exists op, PegOutRequestOp_from_tx build_empty_block_header
        (build_burnchain_transaction Opcode_PegOutRequest (be_bytes 8 amount ++ s) [o2; o3]) = Some op /\
      is_Some (po_stx_address op version);
  unsigned_request : forall version amount, po_stx_address (unsigned_peg_out amount) version = None;
  stacks_key_parses : is_Some (stacks_key_from_hex PRIVATE_KEY_HEX);
  stacks_address_derives : forall version keys, is_Some (stacks_address_of_keys version keys);
  contract_address_parses : is_Some (stacks_address_from_string "SP3FBR2AGK5H9QBDH3EEN6DF8EK8JY7RX8QJ5SVTE");
  xonly_parses : is_Some (xonly_from_str PUBLIC_KEY_HEX);
  clarity_names : forall n, n ∈ ["mint!"; "burn!"; "set-bitcoin-wallet-public-key"]%string -> is_Some (clarity_name n);
  singlesig_total : forall k, is_Some (new_singlesig_p2pkh k);
  signing_verifies : forall tx k, exists signing signed,
    sign_origin tx k = Some signing /\ get_tx signing = Some signed /\ tx_verify signed = true
}.
Context {WW : WalletLaws}.

Lemma stacks_wallet_Ok {E : Type} : exists w, stacks_wallet (E := E) = Ok w.
Proof.
  unfold stacks_wallet. destruct stacks_key_parses as [k ->]. cbn [unwrap mbind res_bind].
  destruct (stacks_address_derives (address_version Testnet) [stacks_pk_from_private k]) as [a ->].
  cbn [unwrap mbind res_bind]. destruct contract_address_parses as [c ->]. by eexists.
Qed.

Lemma signed_verifies (w : StacksWallet) (name : string) (args : list ClarityValue) (nonce : Z) :
  name ∈ ["mint!"; "burn!"; "set-bitcoin-wallet-public-key"]%string ->
  exists tx, build_transaction_signed w name args nonce = Ok tx /\ tx_verify tx = true.
Proof.
  intros Hn. unfold build_transaction_signed, build_transaction_unsigned, build_transaction_payload.
  destruct (clarity_names name Hn) as [n ->]. cbn [ok_or mbind res_bind mret res_ret].
  destruct (singlesig_total (sw_public_key w)) as [c ->]. cbn [ok_or mbind res_bind mret res_ret].
  match goal with |- context [sign_origin ?t ?k] => destruct (signing_verifies t k) as (sg & tx & -> & Hg & Hv) end.
  cbn [ok_or mbind res_bind]. rewrite Hg. by exists tx.
Qed.

(** the transactions of the Stacks wallet carry valid signatures. *)
Theorem stacks_wallet_tests_pass :
  Forall passes [build_mint_transaction_test; build_burn_transaction_test; invalid_burn_op_test;
    build_set_bitcoin_wallet_public_key_transaction_test].
Proof.
  destruct (stacks_wallet_Ok (E := Empty_set)) as [w Hw]. tests.
  - unfold build_mint_transaction_test, PegInOp_build. rewrite Hw. cbn [mbind res_bind].
    edestruct signed_verifies as (tx & -> & Hv); [by left|]. cbn [unwrap_ok mbind res_bind]. by rewrite Hv.
  - unfold build_burn_transaction_test, build_peg_out_request_op. rewrite Hw. cbn [mbind res_bind].
    destruct burn_key_parses as [k Hk]. rewrite Hk. cbn [unwrap mbind res_bind].
    match goal with |- context [burn_sign k ?m] => destruct (burn_sign_total k m) as [sg Hs] end. rewrite Hs.
    cbn [unwrap mbind res_bind].
    edestruct (signed_request (address_version (sw_version w)) 10 {| bo_units := 1; bo_p2tr := drawn_bytes draws 0 |}
      {| bo_units := 3; bo_p2tr := drawn_bytes draws 1 |}) as (op & Hop & [a Ha]); [exact Hk|exact Hs|].
    rewrite Hop. cbn [unwrap mbind res_bind]. unfold PegOutRequestOp_build. rewrite Ha. cbn [ok_or mbind res_bind].
    edestruct signed_verifies as (tx & -> & Hv); [by right; left|]. cbn [unwrap_ok mbind res_bind]. by rewrite Hv.
  - unfold invalid_burn_op_test, PegOutRequestOp_build. rewrite Hw. cbn [mbind res_bind].
    rewrite unsigned_request. reflexivity.
  - unfold build_set_bitcoin_wallet_public_key_transaction_test, build_set_bitcoin_wallet_public_key_transaction.
    rewrite Hw. cbn [mbind res_bind]. destruct xonly_parses as [x ->]. cbn [unwrap mbind res_bind].
    edestruct signed_verifies as (tx & -> & Hv); [by right; right; left|]. cbn [unwrap_ok mbind res_bind].
    by rewrite Hv.
Qed.
End WalletTests.

(** The tests of the Bitcoin wallet, on the executable types. *)
Module ToyWalletTests.
Import ToyStacks ToyBitcoin ToyWallet.

Fixpoint be_value (acc : Z) (b : bytes) : Z :=
  match b with [] => acc | x :: b' => be_value (256 * acc + x) b' end.

#[export] Instance toy_wallet_literals : WalletLiterals (TY := toy_stacks) := {|
  BurnKey := string;
  burn_key_from_hex := Some;
  burn_sign _ _ := Some (replicate 65 0);
  sha256_sum b := b;
  Opcode_PegOutRequest := 62;
  PegOutRequestOp_from_tx header tx :=
    Some {| toy_txid := "0000"; toy_burn := "0000"; toy_height := bh_height header;
            toy_amount := be_value 0 (take 8 (bt_data tx));
            toy_fee := default 0 (bo_units <$> bt_outputs tx !! 1%nat); toy_who := "ST2" |};
  xonly_from_str _ := Some [1];
  bitcoin_testnet := tt;
  stacks_key_from_hex _ := Some 5;
  stacks_address_of_keys _ _ := Some "ST1"%string;
  stacks_address_from_string := Some;
  tx_verify _ := true;
  mint_request amount :=
    {| toy_txid := "0000"; toy_burn := "0000"; toy_height := 0; toy_amount := amount; toy_fee := 0; toy_who := "ST2" |};
  unsigned_peg_out amount :=
    {| toy_txid := "0404"; toy_burn := "0000"; toy_height := 0; toy_amount := amount; toy_fee := 0; toy_who := "" |}
|}.

Definition draws : Draws := {| drawn_txid i := "tx" +:+ pretty i; drawn_bytes n := replicate 32 (Z.of_nat n) |}.

(** the tests of the Bitcoin wallet pass. *)
Theorem bitcoin_wallet_tests_pass :
  Forall passes [fulfill_peg_out_insufficient_funds draws; fulfill_peg_out_change draws; fulfill_peg_out_no_change draws;
    fulfill_peg_out_missing_fulfillment_utxo draws; fulfill_peg_out_mismatched_fulfillment_utxo draws].
Proof. tests; unfold passes; run. Qed.
End ToyWalletTests.
