(* ===== verification/ConfigTests.v ===== *)
(** * The unit tests of [stacks-coordinator/src/config.rs]

    The tests write a TOML file and read it back; they pass for any parsers that
    read the file as written and accept exactly the texts the tests expect
    ([ConfigTestLaws]). *)
From Stdlib Require Import Ascii String.
From S2P Require Import Prelude UnitTest Crypto FrostConfig Net StacksNode BitcoinNode StacksWallet CoordinatorConfig WalletTests.

Definition quote : string := String (Ascii.ascii_of_nat 34) EmptyString.
Definition newline : string := String (Ascii.ascii_of_nat 10) EmptyString.
(** [key = "value"] *)
Definition entry_line (key value : string) : string := key +:+ " = " +:+ quote +:+ value +:+ quote.

(** The file of [write_new_config]. *)
Definition coord_contents (sbtc_contract stacks_private_key : string)
    (signer_config_file http_relay_url network_private_key frost_state_file : option string) : string :=
  let append key o contents :=
    match o with Some v => contents +:+ newline +:+ entry_line key v | None => contents end in
  append "signer_config_path"%string signer_config_file
    (append "frost_state_file"%string frost_state_file
      (append "network_private_key"%string network_private_key
        (append "http_relay_url"%string http_relay_url
          (newline +:+ entry_line "sbtc_contract" sbtc_contract +:+
           newline +:+ entry_line "stacks_private_key" stacks_private_key +:+
           newline +:+ entry_line "stacks_node_rpc_url" "http://localhost:20443" +:+
           newline +:+ entry_line "bitcoin_node_rpc_url" "http://localhost:9776" +:+
           newline +:+ "frost_dkg_round_id = 0" +:+ newline +:+ "transaction_fee = 2000" +:+ newline)))).

(** [#[derive(Default)]] of [RawConfig] *)
Definition SCRawConfig_default : SCRawConfig :=
  {| raw_sbtc_contract := ""; raw_stacks_private_key := ""; raw_stacks_node_rpc_url := "";
     raw_bitcoin_node_rpc_url := ""; raw_frost_dkg_round_id := 0; raw_signer_config_path := None;
     raw_start_block_height := None; raw_data_directory := None; raw_network := None; raw_transaction_fee := 0;
     raw_http_relay_url := None; raw_frost_state_file := None; raw_network_private_key := None;
     raw_polling_interval := None |}.
Definition with_contract (s : string) (network : option Network) (key : string) : SCRawConfig :=
  {| raw_sbtc_contract := s; raw_stacks_private_key := key; raw_stacks_node_rpc_url := "";
     raw_bitcoin_node_rpc_url := ""; raw_frost_dkg_round_id := 0; raw_signer_config_path := None;
     raw_start_block_height := None; raw_data_directory := None; raw_network := network; raw_transaction_fee := 0;
     raw_http_relay_url := None; raw_frost_state_file := None; raw_network_private_key := None;
     raw_polling_interval := None |}.

(** The configuration the file stands for. *)
Definition raw_of_file (sbtc_contract stacks_private_key : string)
    (signer_config_file http_relay_url network_private_key frost_state_file : option string) : SCRawConfig :=
  {| raw_sbtc_contract := sbtc_contract; raw_stacks_private_key := stacks_private_key;
     raw_stacks_node_rpc_url := "http://localhost:20443"; raw_bitcoin_node_rpc_url := "http://localhost:9776";
     raw_frost_dkg_round_id := 0; raw_signer_config_path := signer_config_file; raw_start_block_height := None;
     raw_data_directory := None; raw_network := None; raw_transaction_fee := 2000;
     raw_http_relay_url := http_relay_url; raw_frost_state_file := frost_state_file;
     raw_network_private_key := network_private_key; raw_polling_interval := None |}.

Section ConfigTests.
Context {CP : P256k1} {TY : StacksTypes} {TL : StacksTxLib} {BT : BitcoinTypes} {JS : Json}
  {RC : RpcClient} {BR : BitcoinRpc} {SP : CoordinatorParsers}.
Context `{!EqDecision BtcNetwork}.

(** [TempDir]: the path of a new file with the given content; [to_hex]. *)
Class ConfigTools := {
  temp_file : string -> string;
  private_key_to_hex : StacksPrivateKey -> string
}.
Context {CT : ConfigTools}.

Definition write_new_config (sbtc_contract stacks_private_key : string)
    (signer_config_file http_relay_url network_private_key frost_state_file : option string)
    : res SCConfigErr SCConfig :=
  SCConfig_from_path (temp_file (coord_contents sbtc_contract stacks_private_key signer_config_file
    http_relay_url network_private_key frost_state_file)).

Definition is_invalid_config (e : SCConfigErr) : bool := match e with InvalidConfig _ => true | _ => false end.
Definition is_invalid_contract (e : SCConfigErr) : bool := match e with InvalidContract _ => true | _ => false end.
Definition is_invalid_private_key (e : SCConfigErr) : bool :=
  match e with SCInvalidPrivateKey _ => true | _ => false end.

Definition sbtc_contract_address : string := "ST3N4AJFZZYC4BK99H53XP8KDGXFGQ2PRSPNET8TN".
Definition sbtc_contract_name : string := "sbtc-alpha".
Definition sbtc_contract : string := sbtc_contract_address +:+ "." +:+ sbtc_contract_name.

(** What the two accepted configurations hold. *)
Definition check_config (config : SCConfig) : Test :=
  assert_eq (scc_bitcoin_network config) network_bitcoin ;;
  assert_eq (scc_stacks_version config) Mainnet ;;
  assert_eq (scc_contract_name config) sbtc_contract_name ;;
  assert_eq (address_to_string (scc_contract_address config)) sbtc_contract_address ;;
  assert_eq (private_key_to_hex (scc_stacks_private_key config)) PRIVATE_KEY_HEX.

(** [write_new_config] without a signer configuration, with the other options. *)
Definition new_config (contract key : string) : res SCConfigErr SCConfig :=
  write_new_config contract key None (Some "") (Some "") (Some "").

Definition config_from_raw : Test :=
  config ← unwrap_ok (write_new_config sbtc_contract PRIVATE_KEY_HEX (Some "") None None None);
  check_config config ;;
  config ← unwrap_ok (new_config sbtc_contract PRIVATE_KEY_HEX);
  check_config config ;;
  r ← result (write_new_config sbtc_contract PRIVATE_KEY_HEX None None (Some "") (Some ""));
  assert (is_err_with is_invalid_config r) ;;
  r ← result (write_new_config sbtc_contract PRIVATE_KEY_HEX None (Some "") None (Some ""));
  assert (is_err_with is_invalid_config r) ;;
  r ← result (write_new_config sbtc_contract PRIVATE_KEY_HEX None (Some "") (Some "") None);
  assert (is_err_with is_invalid_config r) ;;
  r ← result (new_config ("garbage." +:+ sbtc_contract_name) PRIVATE_KEY_HEX);
  assert (is_err_with is_invalid_contract r) ;;
  r ← result (new_config sbtc_contract_address PRIVATE_KEY_HEX);
  assert (is_err_with is_invalid_contract r) ;;
  r ← result (new_config (sbtc_contract_address +:+ ".") PRIVATE_KEY_HEX);
  assert (is_err_with is_invalid_contract r) ;;
  r ← result (new_config (sbtc_contract_address +:+ ".12") PRIVATE_KEY_HEX);
  assert (is_err_with is_invalid_contract r) ;;
  r ← result (new_config ("garbage." +:+ sbtc_contract_name) PRIVATE_KEY_HEX);
  assert (is_err_with is_invalid_contract r) ;;
  r ← result (new_config sbtc_contract "Garbage");
  assert (is_err_with is_invalid_private_key r).

Definition VALID_PRIVATE_KEY : string := "d655b2523bcd65e34889725c73064feb17ceb796831c0e111ba1a552b0f31b3901".

Definition parse_stacks_private_key_test : Test :=
  r ← result (parse_stacks_private_key SCRawConfig_default);
  assert (is_err_with is_invalid_private_key r) ;;
  r ← result (parse_stacks_private_key (with_contract "" None "This is an invalid private key..."));
  assert (is_err_with is_invalid_private_key r) ;;
  let config := with_contract "" None VALID_PRIVATE_KEY in
  '(key, _) ← unwrap_ok (parse_stacks_private_key config);
  assert_eq (private_key_to_hex key) (raw_stacks_private_key config).

Definition parse_version_test : Test :=
  let '(stacks_version, bitcoin_network) := parse_version SCRawConfig_default in
  assert_eq stacks_version Mainnet ;;
  assert_eq bitcoin_network network_bitcoin ;;
  let '(stacks_version, bitcoin_network) := parse_version (with_contract "" (Some NetTestnet) "") in
  assert_eq stacks_version Testnet ;;
  assert_eq bitcoin_network network_testnet ;;
  let '(stacks_version, bitcoin_network) := parse_version (with_contract "" (Some NetMainnet) "") in
  assert_eq stacks_version Mainnet ;;
  assert_eq bitcoin_network network_bitcoin.

Definition parsed_address : string := "SP3FBR2AGK5H9QBDH3EEN6DF8EK8JY7RX8QJ5SVTE".

Definition parse_contract_test : Test :=
  '(parsed_contract_name, parsed_contract_address) ←
    unwrap_ok (parse_contract (with_contract (parsed_address +:+ ".sbtc-alpha") None ""));
  assert_eq (address_to_string parsed_contract_address) parsed_address ;;
  assert_eq parsed_contract_name "sbtc-alpha"%string ;;
  r ← result (parse_contract (with_contract (parsed_address +:+ "sbtc-alpha") None ""));
  assert (is_err_with is_invalid_contract r) ;;
  r ← result (parse_contract (with_contract "SP3FBR2AGK5H9QBDH3EEN6DF8E.sbtc-alpha" None ""));
  assert (is_err_with is_invalid_contract r) ;;
  r ← result (parse_contract (with_contract (parsed_address +:+ ".12") None ""));
  assert (is_err_with is_invalid_contract r).

(** ** The suite *)
Class ConfigTestLaws := {
  temp_file_read : forall c, sc_read_to_string (temp_file c) = Some c;
  toml_read : forall contract key s h n f, s ∈ [None; Some ""%string] -> h ∈ [None; Some ""%string] ->
    n ∈ [None; Some ""%string] -> f ∈ [None; Some ""%string] ->
    sc_toml_from_str (coord_contents contract key s h n f) = Some (raw_of_file contract key s h n f);
  addresses_parse : forall a, a ∈ [sbtc_contract_address; parsed_address] ->
    exists address, address_from_string a = Some address /\ address_to_string address = a;
  bad_addresses : forall a, a ∈ ["garbage"; "SP3FBR2AGK5H9QBDH3EEN6DF8E"]%string -> address_from_string a = None;
  contract_name_parses : contract_name_try_from sbtc_contract_name = Some sbtc_contract_name;
  bad_contract_names : forall n, n ∈ [""; "12"]%string -> contract_name_try_from n = None;
  keys_parse : forall k, k ∈ [PRIVATE_KEY_HEX; VALID_PRIVATE_KEY] ->
    exists key, private_key_from_hex k = Some key /\ private_key_to_hex key = k;
  bad_keys : forall k, k ∈ [""; "Garbage"; "This is an invalid private key..."]%string -> private_key_from_hex k = None;
  key_address : forall version keys, is_Some (address_from_public_keys version keys);
  stacks_url_parses : is_Some (url_parse "http://localhost:20443");
  bitcoin_url_parses : is_Some (btc_url_parse "http://localhost:9776")
}.
Context {CL : ConfigTestLaws}.

Lemma write_new_config_eq (contract key : string) (s h n f : option string) :
  s ∈ [None; Some ""%string] -> h ∈ [None; Some ""%string] -> n ∈ [None; Some ""%string] ->
  f ∈ [None; Some ""%string] ->
  write_new_config contract key s h n f = SCConfig_try_from (raw_of_file contract key s h n f).
Proof.
  intros Hs Hh Hn Hf. unfold write_new_config, SCConfig_from_path. rewrite temp_file_read. cbn [ok_or mbind res_bind].
  by rewrite toml_read.
Qed.

Lemma parse_contract_split (rc : SCRawConfig) (a n : string) :
  split_on "."%char (raw_sbtc_contract rc) = (a, [n]) ->
  parse_contract rc =
    contract_address ← ok_or (address_from_string a) (InvalidContract "Bad contract address.");
    contract_name ← ok_or (contract_name_try_from n) (InvalidContract "Bad contract name");
    mret (contract_name, contract_address).
Proof. unfold parse_contract. by intros ->. Qed.

Lemma parse_contract_Ok (rc : SCRawConfig) (a : string) :
  split_on "."%char (raw_sbtc_contract rc) = (a, [sbtc_contract_name]) -> a ∈ [sbtc_contract_address; parsed_address] ->
  exists address, parse_contract rc = Ok (sbtc_contract_name, address) /\ address_to_string address = a.
Proof.
  intros Hs Ha. rewrite (parse_contract_split _ _ _ Hs). destruct (addresses_parse a Ha) as (address & -> & Ht).
  exists address. by rewrite contract_name_parses.
Qed.

Lemma parse_contract_Err (rc : SCRawConfig) (a n : string) :
  split_on "."%char (raw_sbtc_contract rc) = (a, [n]) ->
  a ∈ ["garbage"; "SP3FBR2AGK5H9QBDH3EEN6DF8E"]%string \/
    (a ∈ [sbtc_contract_address; parsed_address] /\ n ∈ [""; "12"]%string) ->
  exists what, parse_contract rc = Err (InvalidContract what).
Proof.
  intros Hs Ha. rewrite (parse_contract_split _ _ _ Hs). destruct Ha as [Ha|[Ha Hn]].
  - rewrite bad_addresses by done. by eexists.
  - destruct (addresses_parse a Ha) as (address & -> & _). cbn [ok_or mbind res_bind].
    rewrite bad_contract_names by done. by eexists.
Qed.

Lemma parse_key_Ok (rc : SCRawConfig) :
  raw_stacks_private_key rc ∈ [PRIVATE_KEY_HEX; VALID_PRIVATE_KEY] ->
  exists key address, parse_stacks_private_key rc = Ok (key, address) /\
    private_key_to_hex key = raw_stacks_private_key rc.
Proof.
  intros Hk. unfold parse_stacks_private_key. destruct (keys_parse _ Hk) as (key & -> & Ht). cbn [ok_or mbind res_bind].
  edestruct key_address as [address ->]. by exists key, address.
Qed.

Lemma parse_key_Err (rc : SCRawConfig) :
  raw_stacks_private_key rc ∈ [""; "Garbage"; "This is an invalid private key..."]%string ->
  exists what, parse_stacks_private_key rc = Err (SCInvalidPrivateKey what).
Proof. intros Hk. unfold parse_stacks_private_key. rewrite bad_keys by done. by eexists. Qed.

(** A file whose options, contract and key are fine. *)
Lemma accepted_file (s h n f : option string) :
  check_signer_options (raw_of_file sbtc_contract PRIVATE_KEY_HEX s h n f) = Ok tt ->
  exists config, SCConfig_try_from (raw_of_file sbtc_contract PRIVATE_KEY_HEX s h n f) = Ok config /\
    passes (check_config config).
Proof.
  intros Hopt. unfold SCConfig_try_from. rewrite Hopt. cbn [mbind res_bind].
  destruct (parse_contract_Ok (raw_of_file sbtc_contract PRIVATE_KEY_HEX s h n f) sbtc_contract_address)
    as (address & -> & Ha); [reflexivity|by left|].
  destruct (parse_key_Ok (raw_of_file sbtc_contract PRIVATE_KEY_HEX s h n f)) as (key & sa & Hk & Ht); [by left|].
  change (parse_version _) with (Mainnet, network_bitcoin). cbn [mbind res_bind]. rewrite Hk. cbn [mbind res_bind].
  change (raw_stacks_node_rpc_url _) with "http://localhost:20443"%string.
  change (raw_bitcoin_node_rpc_url _) with "http://localhost:9776"%string.
  destruct stacks_url_parses as [u ->], bitcoin_url_parses as [b ->].
  eexists. split; [reflexivity|]. unfold check_config. simpl. unfold assert_eq.
  rewrite !bool_decide_true by done. reflexivity.
Qed.

Lemma rejected_contract (contract : string) (what : string) (s h n f : option string) :
  check_signer_options (raw_of_file contract PRIVATE_KEY_HEX s h n f) = Ok tt ->
  parse_contract (raw_of_file contract PRIVATE_KEY_HEX s h n f) = Err (InvalidContract what) ->
  SCConfig_try_from (raw_of_file contract PRIVATE_KEY_HEX s h n f) = Err (InvalidContract what).
Proof. intros Hopt Hc. unfold SCConfig_try_from. rewrite Hopt. cbn [mbind res_bind]. by rewrite Hc. Qed.

(** The next [assert!(matches!(r, Err(..)))] of a test. *)
Lemma passes_expect_err {E A : Type} (r : res E A) (e : E) (pattern : E -> bool) (t : Test) :
  r = Err e -> pattern e = true -> passes t ->
  passes (x ← result r; assert (is_err_with pattern x) ;; t).
Proof. intros -> Hp Ht. simpl. by rewrite Hp. Qed.
Lemma passes_expect_err_last {E A : Type} (r : res E A) (e : E) (pattern : E -> bool) :
  r = Err e -> pattern e = true -> passes (x ← result r; assert (is_err_with pattern x)).
Proof. intros -> Hp. simpl. by rewrite Hp. Qed.

Ltac in_list := repeat (first [by left|right]).

Lemma rejected_new_config (contract a n : string) :
  split_on "."%char contract = (a, [n]) ->
  a ∈ ["garbage"; "SP3FBR2AGK5H9QBDH3EEN6DF8E"]%string \/
    (a ∈ [sbtc_contract_address; parsed_address] /\ n ∈ [""; "12"]%string) ->
  exists what, new_config contract PRIVATE_KEY_HEX = Err (InvalidContract what).
Proof.
  intros Hs Ha. unfold new_config. rewrite write_new_config_eq by in_list.
  destruct (parse_contract_Err (raw_of_file contract PRIVATE_KEY_HEX None (Some ""%string) (Some ""%string) (Some ""%string))
    a n Hs Ha) as [what Hw]. exists what. by apply rejected_contract.
Qed.

Lemma config_from_raw_passes : passes config_from_raw.
Proof.
  unfold config_from_raw.
  destruct (accepted_file (Some ""%string) None None None eq_refl) as (c1 & Hc1 & Hp1).
  eapply passes_bind; [rewrite write_new_config_eq by in_list; by rewrite Hc1|]. eapply passes_bind; [exact Hp1|].
  destruct (accepted_file None (Some ""%string) (Some ""%string) (Some ""%string) eq_refl) as (c2 & Hc2 & Hp2).
  eapply passes_bind; [unfold new_config; rewrite write_new_config_eq by in_list; by rewrite Hc2|].
  eapply passes_bind; [exact Hp2|].
  do 3 (eapply passes_expect_err; [rewrite write_new_config_eq by in_list; reflexivity|reflexivity|]).
  destruct (rejected_new_config ("garbage." +:+ sbtc_contract_name) "garbage" sbtc_contract_name eq_refl)
    as [w1 Hw1]; [left; in_list|].
  destruct (rejected_new_config (sbtc_contract_address +:+ ".") sbtc_contract_address "" eq_refl)
    as [w2 Hw2]; [right; split; in_list|].
  destruct (rejected_new_config (sbtc_contract_address +:+ ".12") sbtc_contract_address "12" eq_refl)
    as [w3 Hw3]; [right; split; in_list|].
  eapply passes_expect_err; [exact Hw1|reflexivity|].
  eapply passes_expect_err; [unfold new_config; rewrite write_new_config_eq by in_list; reflexivity|reflexivity|].
  eapply passes_expect_err; [exact Hw2|reflexivity|]. eapply passes_expect_err; [exact Hw3|reflexivity|].
  eapply passes_expect_err; [exact Hw1|reflexivity|].
  set (rc := raw_of_file sbtc_contract "Garbage" None (Some ""%string) (Some ""%string) (Some ""%string)).
  destruct (parse_key_Err rc) as [what Hk]; [in_list|].
  destruct (parse_contract_Ok rc sbtc_contract_address eq_refl) as (address & Hc & _); [in_list|].
  apply (passes_expect_err_last _ (SCInvalidPrivateKey what)); [|reflexivity]. unfold new_config. rewrite write_new_config_eq by in_list. fold rc.
  unfold SCConfig_try_from. change (check_signer_options rc) with (Ok (E := SCConfigErr) tt). cbn [mbind res_bind].
  rewrite Hc. change (parse_version rc) with (Mainnet, network_bitcoin). cbn [mbind res_bind]. rewrite Hk. reflexivity.
Qed.

Lemma parse_contract_test_passes : passes parse_contract_test.
Proof.
  unfold parse_contract_test.
  destruct (parse_contract_Ok (with_contract (parsed_address +:+ ".sbtc-alpha") None "") parsed_address eq_refl)
    as (address & Hc & Ha); [in_list|].
  eapply passes_bind; [by rewrite Hc|]. apply passes_assert_eq; [exact Ha|]. apply passes_assert_eq; [reflexivity|].
  eapply passes_expect_err; [reflexivity|reflexivity|].
  destruct (parse_contract_Err (with_contract "SP3FBR2AGK5H9QBDH3EEN6DF8E.sbtc-alpha" None "")
    "SP3FBR2AGK5H9QBDH3EEN6DF8E" "sbtc-alpha" eq_refl) as [w1 Hw1]; [left; in_list|].
  destruct (parse_contract_Err (with_contract (parsed_address +:+ ".12") None "") parsed_address "12" eq_refl)
    as [w2 Hw2]; [right; split; in_list|].
  eapply passes_expect_err; [exact Hw1|reflexivity|]. eapply passes_expect_err_last; [exact Hw2|reflexivity].
Qed.

(** the tests of the coordinator's configuration pass. *)
Theorem coordinator_config_tests_pass :
  Forall passes [config_from_raw; parse_stacks_private_key_test; parse_version_test; parse_contract_test].
Proof.
  tests; [apply config_from_raw_passes| | |apply parse_contract_test_passes].
  - unfold parse_stacks_private_key_test.
    destruct (parse_key_Err SCRawConfig_default) as [w1 Hw1]; [in_list|].
    destruct (parse_key_Err (with_contract "" None "This is an invalid private key...")) as [w2 Hw2]; [in_list|].
    destruct (parse_key_Ok (with_contract "" None VALID_PRIVATE_KEY)) as (key & address & Hk & Ht); [in_list|].
    eapply passes_expect_err; [exact Hw1|reflexivity|]. eapply passes_expect_err; [exact Hw2|reflexivity|].
    eapply passes_bind; [by rewrite Hk|]. by apply assert_eq_refl.
  - unfold parse_version_test. simpl. unfold assert_eq. rewrite !bool_decide_true by done. reflexivity.
Qed.
End ConfigTests.
