(* ===== verification/NodeTests.v ===== *)
(** * The unit tests of the node clients of [stacks-coordinator]

    [stacks_node/client.rs], whose tests run a server that answers one
    connection, and [bitcoin_node.rs].  They pass for any HTTP client, JSON
    library and Clarity decoder that behave as documented on the literals of the
    tests. *)
From S2P Require Import Prelude UnitTest Crypto FrostConfig Net StacksNode BitcoinNode.

(** JSON literals ([json!], and the bodies the server sends). *)
Class JsonLiterals `{JS : Json} := {
  json_object : list (string * JsonValue) -> JsonValue;
  json_number : Z -> JsonValue;
  json_decimal : string -> JsonValue;
  json_bool : bool -> JsonValue;
  json_array : list JsonValue -> JsonValue;
  json_object_get : forall l k, json_get (json_object l) k = snd <$> List.find (fun e => String.eqb e.1 k) l;
  json_string_as_str : forall s, json_as_str (json_string s) = Some s;
  json_number_as_u64 : forall n, in_u64 n -> json_as_u64 (json_number n) = Some n;
  json_bool_as_bool : forall b, json_as_bool (json_bool b) = Some b;
  json_null_as_u64 : json_as_u64 json_null = None
}.

Section NodeTests.
Context {TY : StacksTypes} {CP : P256k1} {JS : Json} {JL : JsonLiterals} {RC : RpcClient} {BO : Backoff}.

(** ** The server and the client of [TestConfig] *)
Class MockServer := {
  mock_server : Z -> option JsonValue -> RpcWorld;                 (* one reply: status, JSON body *)
  request_bytes : RpcWorld -> bytes;                               (* what the server has read *)
  mock_url : Url;
  test_sender : StacksAddress;
  test_contract_address : StacksAddress;
  test_transaction : StacksTransaction
}.
Context {MS : MockServer}.

Definition client : NodeClient := NodeClient_new mock_url "sbtc-alpha" test_contract_address.

(** A call of the client while the server answers. *)
Definition call {A : Type} (m : M (NodeClient * RpcWorld) StacksNodeError A) (status : Z) (body : option JsonValue)
    : RpcWorld * res StacksNodeError A :=
  let '((_, w), r) := m (client, mock_server status body) in (w, r).
Definition outcome {A : Type} (m : M (NodeClient * RpcWorld) StacksNodeError A) (status : Z) (body : option JsonValue)
    : res Empty_set (A + StacksNodeError) := UnitTest.result (call m status body).2.

(** [{ "okay": true, "result": hex }] *)
Definition okay (hex : string) : option JsonValue :=
  Some (json_object [("okay", json_bool true); ("result", json_string hex)]%string).

Definition call_read_success_test : Test :=
  r ← unwrap_ok (call (call_read test_sender "function-name" []) 200 (okay "0x070d0000000473425443")).2;
  assert_eq r "0x070d0000000473425443"%string.

Definition call_read_failure_test : Test :=
  r ← outcome (call_read test_sender "function-name" []) 200
        (Some (json_object [("okay", json_bool false); ("cause", json_string "Some reason")]%string));
  assert (is_err_with (fun e => match e with ReadOnlyFailure _ => true | _ => false end) r).

Definition signer_data_none_test : Test :=
  r ← outcome (signer_data test_sender 1 (PublicKeys_default, ∅)) 200 (okay "0x09");
  assert (is_err_with (fun e => match e with NoSignerData _ => true | _ => false end) r).

Definition malformed_clarity_value (e : StacksNodeError) : bool :=
  match e with MalformedClarityValue _ _ => true | _ => false end.

Definition keys_threshold_test : Test :=
  r ← unwrap_ok (call (keys_threshold test_sender) 200 (okay "0x0100000000000000000000000000000af0")).2;
  assert_eq r 2800.
Definition keys_threshold_invalid_test : Test :=
  r ← outcome (keys_threshold test_sender) 200 (okay "0x09");
  assert (is_err_with malformed_clarity_value r).

Definition num_signers_test : Test :=
  r ← unwrap_ok (call (num_signers test_sender) 200 (okay "0x0100000000000000000000000000000fa0")).2;
  assert_eq r 4000.
Definition num_signers_invalid_test : Test :=
  r ← outcome (num_signers test_sender) 200 (okay "0x09");
  assert (is_err_with malformed_clarity_value r).

Definition next_nonce_success_test : Test :=
  '(nonce, next) ← unwrap_ok (call
    (nonce ← next_nonce test_sender; next ← next_nonce test_sender; mret (nonce, next)) 200
    (Some (json_object
      [("balance", json_string "0x00000000000000000000000000000000");
       ("locked", json_string "0x00000000000000000000000000000000"); ("unlock_height", json_number 0);
       ("nonce", json_number 20); ("balance_proof", json_string ""); ("nonce_proof", json_string "")]%string))).2;
  assert_eq nonce 20 ;;
  assert_eq next 21.

(** The body of this reply is no JSON. *)
Definition next_nonce_failure_test : Test :=
  r ← outcome (next_nonce test_sender) 404 None;
  assert (is_err_with (fun e => match e with UnknownAddress _ => true | _ => false end) r).

Definition burn_block_height_success_test : Test :=
  r ← unwrap_ok (call burn_block_height 200
    (Some (json_object [("peer_version", json_number 420759911); ("burn_block_height", json_number 2430220)]%string))).2;
  assert_eq r 2430220.
Definition burn_block_height_failure_test : Test :=
  r ← outcome burn_block_height 200
    (Some (json_object [("peer_version", json_number 420759911); ("burn_block_height2", json_number 2430220)]%string));
  assert (is_err_with (fun e => match e with InvalidJsonEntry _ => true | _ => false end) r).

(** [tx.consensus_serialize] into a buffer, up to the last byte that is not zero. *)
Fixpoint strip_zeros (b : bytes) : bytes :=
  match b with
  | [] => []
  | x :: b' => match strip_zeros b' with
               | [] => if x =? 0 then [] else [x]
               | l => x :: l
               end
  end.
(** [haystack.windows(needle.len()).any(|window| window == needle)] *)
Definition contains (haystack needle : bytes) : bool :=
  bool_decide (Exists (fun i => take (length needle) (drop i haystack) = needle)
    (seq 0 (S (length haystack - length needle)))).

Definition should_send_tx_bytes_to_node : Test :=
  tx_bytes ← unwrap (tx_serialize test_transaction);
  let tx_bytes := strip_zeros tx_bytes in
  unwrap (last tx_bytes) ;;                                        (* find(|(_, &x)| x != 0).unwrap() *)
  let '(w, r) := call (broadcast_transaction test_transaction) 200 None in
  unwrap_ok r ;;
  assert (contains (request_bytes w) tx_bytes).

(** ** [bitcoin_node.rs] *)
Context {BT : BitcoinTypes} {BR : BitcoinRpc}.

Definition test_txid : string := "19b7fb5fd6dc25b76aeedb812b7fdc7bf8fac343913706c8b39d23ef7375860c".
Definition test_address : string := "bcrt1qykqup0h6ry9x3c89llzpznrvm9nfd7fqwnt0hu".
Definition test_script : string := "00142581c0befa190a68e0e5ffc4114c6cd96696f920".

#[local] Instance UTXO_eq_dec : EqDecision UTXO.
Proof. solve_decision. Defined.

Definition should_map_json_to_utxo : Test :=
  let value := json_object
    [("address", json_string test_address); ("amount", json_decimal "0.00000050"); ("confirmations", json_number 123);
     ("label", json_string ""); ("parent_descs", json_array []); ("safe", json_bool true);
     ("scriptPubKey", json_string test_script); ("solvable", json_bool false); ("spendable", json_bool false);
     ("txid", json_string test_txid); ("vout", json_number 0)]%string in
  r ← unwrap_ok (raw_to_utxo value);
  assert_eq r
    {| u_txid := test_txid; u_vout := 0; u_address := test_address; u_label := ""; u_scriptPubKey := test_script;
       u_amount := 50; u_confirmations := 123; u_redeemScript := ""; u_witnessScript := ""; u_spendable := false;
       u_solvable := false; u_reused := false; u_desc := ""; u_safe := true |}.

(** ** The suite *)
Class NodeTestLaws := {
  some_attempt : backoff_attempts <> O;
  routes_join : forall r, is_Some (url_join mock_url r);
  mock_get : forall url status body, exists w,
    rpc_get url (mock_server status body) = (w, Some (status, body));
  (* the server reads 1024 bytes of the request *)
  mock_post : forall url ct content status body, exists w before after,
    rpc_post url ct content (mock_server status body) = (w, Some (status, body)) /\
    ((length content <= 512)%nat -> request_bytes w = before ++ content ++ after);
  clarity_2800 : exists v, clarity_from_hex "0x0100000000000000000000000000000af0" = Some v /\ clarity_as_uint v = Some 2800;
  clarity_4000 : exists v, clarity_from_hex "0x0100000000000000000000000000000fa0" = Some v /\ clarity_as_uint v = Some 4000;
  clarity_none : exists v, clarity_from_hex "0x09" = Some v /\ clarity_as_uint v = None /\
    clarity_as_optional v = Some None;
  test_transaction_serializes : exists b, tx_serialize test_transaction = Some b /\ (length b <= 512)%nat /\
    Exists (fun x => x <> 0) b;
  fifty_satoshis : exists n, json_as_f64 (json_decimal "0.00000050") = Some n /\ amount_from_btc n = Some 50
}.
Context {NL : NodeTestLaws}.

Lemma get_response_eq (route : string) (status : Z) (body : option JsonValue) :
  exists w, get_response route (client, mock_server status body) = ((client, w), Ok (status, body)).
Proof.
  destruct (routes_join route) as [u Hu]. destruct (mock_get u status body) as [w Hw]. exists w.
  unfold get_response. rewrite M_bind_eq. unfold build_url. change (node_url client) with mock_url. rewrite Hu.
  cbn [ok_or]. unfold send_request. pose proof some_attempt as Ha.
  destruct backoff_attempts as [|n]; [done|]. cbn [get_attempts]. by rewrite Hw.
Qed.

Lemma post_eq (route ct : string) (content : bytes) (status : Z) (body : option JsonValue) :
  exists u w before after, build_url route (client, mock_server status body) = ((client, mock_server status body), Ok u) /\
    post u ct content (client, mock_server status body) = ((client, w), Ok (status, body)) /\
    ((length content <= 512)%nat -> request_bytes w = before ++ content ++ after).
Proof.
  destruct (routes_join route) as [u Hu]. destruct (mock_post u ct content status body) as (w & b & a & Hw & Hb).
  exists u, w, b, a. unfold build_url, post. change (node_url client) with mock_url. by rewrite Hu, Hw.
Qed.

Lemma json_field (l : list (string * JsonValue)) (k : string) (v : JsonValue) :
  List.find (fun e => String.eqb e.1 k) l = Some (k, v) -> json_get (json_object l) k = Some v.
Proof. intros H. by rewrite json_object_get, H. Qed.

Lemma json_field_as {A : Type} (f : JsonValue -> option A) (l : list (string * JsonValue)) (k : string)
    (v : JsonValue) (a : A) :
  List.find (fun e => String.eqb e.1 k) l = Some (k, v) -> f v = Some a -> json_get (json_object l) k ≫= f = Some a.
Proof. intros H Hf. by rewrite (json_field l k v H). Qed.

Lemma call_read_okay (name hex : string) (args : list string) :
  exists w, call_read test_sender name args (client, mock_server 200 (okay hex)) = ((client, w), Ok hex).
Proof.
  destruct (post_eq ("/v2/contracts/call-read/" +:+ address_to_string (contract_address client) +:+ "/" +:+
    contract_name client +:+ "/" +:+ name) "application/json" (call_read_body (address_to_string test_sender) args) 200
    (okay hex)) as (u & w & b & a & Hu & Hp & _). exists w.
  unfold call_read. rewrite M_bind_eq. cbn [gets fst]. rewrite M_bind_eq, Hu. cbv beta iota zeta.
  rewrite M_bind_eq, Hp. cbv beta iota. unfold okay. rewrite M_bind_eq. unfold lift at 1. cbn [ok_or].
  rewrite (json_field_as json_as_bool _ "okay" (json_bool true) true) by (done || apply json_bool_as_bool).
  change (negb (default false (Some true))) with false. cbv iota. rewrite M_bind_eq. unfold lift at 1.
  rewrite (json_field _ "result" (json_string hex)) by done. cbn [ok_or]. unfold lift.
  by rewrite json_string_as_str.
Qed.

Lemma call_clarity_okay (name hex : string) (args : list string) (v : ClarityValue) :
  clarity_from_hex hex = Some v ->
  exists w, call_clarity test_sender name args (client, mock_server 200 (okay hex)) = ((client, w), Ok v).
Proof.
  intros Hv. destruct (call_read_okay name hex args) as [w Hw]. exists w.
  unfold call_clarity. rewrite M_bind_eq, Hw. unfold lift. by rewrite Hv.
Qed.

(** A test that expects an error, or a value, of a call. *)
Lemma outcome_Err {A : Type} (m : M (NodeClient * RpcWorld) StacksNodeError A) (status : Z) (body : option JsonValue)
    (s : NodeClient * RpcWorld) (e : StacksNodeError) (pattern : StacksNodeError -> bool) :
  m (client, mock_server status body) = (s, Err e) -> pattern e = true ->
  passes (r ← outcome m status body; assert (is_err_with pattern r)).
Proof. intros Hm Hp. unfold outcome, call. rewrite Hm. destruct s. simpl. by rewrite Hp. Qed.

Lemma call_Ok {A : Type} (m : M (NodeClient * RpcWorld) StacksNodeError A) (status : Z) (body : option JsonValue)
    (s : NodeClient * RpcWorld) (a : A) :
  m (client, mock_server status body) = (s, Ok a) -> (call m status body).2 = Ok a.
Proof. intros Hm. unfold call. rewrite Hm. by destruct s. Qed.

Lemma call_read_tests_pass : Forall passes [call_read_success_test; call_read_failure_test].
Proof.
  tests.
  - unfold call_read_success_test.
    destruct (call_read_okay "function-name" "0x070d0000000473425443" []) as [w Hw].
    rewrite (call_Ok _ _ _ _ _ Hw). cbn [unwrap_ok mbind res_bind]. by apply assert_eq_refl.
  - unfold call_read_failure_test.
    set (body := Some (json_object [("okay", json_bool false); ("cause", json_string "Some reason")]%string)).
    destruct (post_eq ("/v2/contracts/call-read/" +:+ address_to_string (contract_address client) +:+ "/" +:+
      contract_name client +:+ "/" +:+ "function-name") "application/json"
      (call_read_body (address_to_string test_sender) []) 200 body) as (u & w & b & a & Hu & Hp & _).
    eapply outcome_Err; [|instantiate (1 := ReadOnlyFailure _); reflexivity].
    unfold call_read. rewrite M_bind_eq. cbn [gets fst]. rewrite M_bind_eq, Hu. cbv beta iota zeta.
    rewrite M_bind_eq, Hp. cbv beta iota. rewrite M_bind_eq. unfold lift at 1. unfold body. cbn [ok_or].
    rewrite (json_field_as json_as_bool _ "okay" (json_bool false) false) by (done || apply json_bool_as_bool).
    change (negb (default false (Some false))) with true. cbv iota. rewrite M_bind_eq. unfold lift at 1.
    rewrite (json_field _ "cause" (json_string "Some reason")) by done. reflexivity.
Qed.

Lemma uint_tests_pass :
  Forall passes [keys_threshold_test; keys_threshold_invalid_test; num_signers_test; num_signers_invalid_test].
Proof.
  assert (forall name hex v n, clarity_from_hex hex = Some v -> clarity_as_uint v = Some n ->
    exists w, (v ← call_clarity test_sender name []; expect_uint name v) (client, mock_server 200 (okay hex)) = ((client, w), Ok n))
    as Hok.
  { intros name hex v n Hv Hn. destruct (call_clarity_okay name hex [] v Hv) as [w Hw]. exists w.
    rewrite M_bind_eq, Hw. unfold expect_uint. by rewrite Hn. }
  assert (forall name, exists w v, (v ← call_clarity test_sender name []; expect_uint name v)
      (client, mock_server 200 (okay "0x09")) = ((client, w), Err (MalformedClarityValue name v))) as Herr.
  { intros name. destruct clarity_none as (v & Hv & Hn & _). destruct (call_clarity_okay name "0x09" [] v Hv) as [w Hw].
    exists w, v. rewrite M_bind_eq, Hw. unfold expect_uint. by rewrite Hn. }
  tests.
  - destruct clarity_2800 as (v & Hv & Hn). destruct (Hok "get-threshold" _ v 2800 Hv Hn) as [w Hw].
    unfold keys_threshold_test. change (keys_threshold test_sender) with (client_keys_threshold test_sender).
    unfold client_keys_threshold. rewrite (call_Ok _ _ _ _ _ Hw). reflexivity.
  - destruct (Herr "get-threshold") as (w & v & Hw). exact (outcome_Err _ _ _ _ _ _ Hw eq_refl).
  - destruct clarity_4000 as (v & Hv & Hn). destruct (Hok "get-num-signers" _ v 4000 Hv Hn) as [w Hw].
    unfold num_signers_test, num_signers. rewrite (call_Ok _ _ _ _ _ Hw). reflexivity.
  - destruct (Herr "get-num-signers") as (w & v & Hw). exact (outcome_Err _ _ _ _ _ _ Hw eq_refl).
Qed.

Lemma signer_data_none_passes : passes signer_data_none_test.
Proof.
  unfold signer_data_none_test. destruct clarity_none as (v & Hv & _ & Ho).
  destruct (call_clarity_okay "get-signer-data" "0x09" [clarity_to_string (clarity_uint 1)] v Hv) as [w Hw].
  eapply outcome_Err; [|instantiate (1 := NoSignerData 1); reflexivity].
  unfold signer_data. rewrite M_bind_eq, Hw. cbv zeta. rewrite Ho. reflexivity.
Qed.

Lemma burn_block_height_tests_pass : Forall passes [burn_block_height_success_test; burn_block_height_failure_test].
Proof.
  assert (forall l, exists w, client_burn_block_height (client, mock_server 200 (Some (json_object l))) =
    ((client, w), ok_or (json_as_u64 (json_index (json_object l) "burn_block_height")) (InvalidJsonEntry "burn_block_height")))
    as Hheight.
  { intros l. destruct (get_response_eq "/v2/info" 200 (Some (json_object l))) as [w Hw]. exists w.
    unfold client_burn_block_height. by rewrite M_bind_eq, Hw. }
  tests.
  - unfold burn_block_height_success_test.
    match goal with |- context [json_object ?l] => destruct (Hheight l) as [w Hw];
      assert (json_as_u64 (json_index (json_object l) "burn_block_height") = Some 2430220) as Hn end.
    { unfold json_index. rewrite (json_field _ "burn_block_height" (json_number 2430220)) by done.
      apply json_number_as_u64. by_compute. }
    rewrite Hn in Hw. change burn_block_height with client_burn_block_height. rewrite (call_Ok _ _ _ _ _ Hw). reflexivity.
  - unfold burn_block_height_failure_test.
    match goal with |- context [json_object ?l] => destruct (Hheight l) as [w Hw];
      assert (json_as_u64 (json_index (json_object l) "burn_block_height") = None) as Hn end.
    { unfold json_index. rewrite json_object_get. apply json_null_as_u64. }
    rewrite Hn in Hw. exact (outcome_Err _ _ _ _ _ _ Hw eq_refl).
Qed.

Lemma next_nonce_tests_pass : Forall passes [next_nonce_success_test; next_nonce_failure_test].
Proof.
  tests.
  - unfold next_nonce_success_test.
    match goal with |- context [call _ 200 (Some (json_object ?l))] => set (body := json_object l) end.
    destruct (get_response_eq ("/v2/accounts/" +:+ address_to_string test_sender) 200 (Some body)) as [w Hw].
    assert (json_get body "nonce" ≫= json_as_u64 = Some 20) as Hn.
    { apply (json_field_as _ _ _ (json_number 20)); [done|]. apply json_number_as_u64. by_compute. }
    rewrite (call_Ok _ _ _ (set_cached_nonce 21 client, w) (20, 21)); [reflexivity|]. rewrite M_bind_eq.
    change (next_nonce test_sender) with (client_next_nonce test_sender).
    assert (client_next_nonce test_sender (client, mock_server 200 (Some body)) = ((set_cached_nonce 20 client, w), Ok 20))
      as ->; [|reflexivity].
    unfold client_next_nonce. rewrite M_bind_eq. cbn [gets fst cached_nonce client NodeClient_new].
    rewrite M_bind_eq. rewrite Hw. cbv beta iota. change (200 =? 404) with false. cbv iota.
    rewrite M_bind_eq. unfold lift at 1. cbn [ok_or]. rewrite M_bind_eq. unfold lift at 1. rewrite Hn. reflexivity.
  - unfold next_nonce_failure_test.
    destruct (get_response_eq ("/v2/accounts/" +:+ address_to_string test_sender) 404 None) as [w Hw].
    eapply outcome_Err; [|instantiate (1 := UnknownAddress _); reflexivity].
    change (next_nonce test_sender) with (client_next_nonce test_sender).
    unfold client_next_nonce. rewrite M_bind_eq. cbn [gets fst cached_nonce client NodeClient_new].
    rewrite M_bind_eq. rewrite Hw. reflexivity.
Qed.

(** *** Bytes *)
Lemma strip_zeros_prefix (b : bytes) : exists l, b = strip_zeros b ++ l.
Proof.
  induction b as [|x b [l IH]]; simpl; [by exists []|]. destruct (strip_zeros b) as [|y r].
  - destruct (x =? 0); [by exists (x :: b)|by exists b].
  - exists l. simpl. by f_equal.
Qed.

Lemma strip_zeros_last (b : bytes) : Exists (fun x => x <> 0) b -> is_Some (last (strip_zeros b)).
Proof.
  induction b as [|x b IH]; [by inversion 1|]. intros Hx. apply Exists_cons in Hx. simpl.
  destruct (strip_zeros b) as [|y r] eqn:Hs.
  - destruct Hx as [Hx|Hx]; [by rewrite (proj2 (Z.eqb_neq x 0)) by done|]. by destruct (IH Hx).
  - destruct (last_is_Some (x :: y :: r)) as [_ Hl]. apply Hl. done.
Qed.

Lemma contains_infix (before needle after : bytes) : contains (before ++ needle ++ after) needle = true.
Proof.
  unfold contains. apply bool_decide_eq_true, Exists_exists. exists (length before). split.
  - apply elem_of_seq. rewrite !length_app. lia.
  - by rewrite drop_app_length, take_app_length.
Qed.

Lemma should_send_tx_bytes_passes : passes should_send_tx_bytes_to_node.
Proof.
  unfold should_send_tx_bytes_to_node. destruct test_transaction_serializes as (buffer & Hb & Hlen & Hnz).
  rewrite Hb. cbn [unwrap mbind res_bind]. destruct (strip_zeros_last buffer Hnz) as [z Hz].
  destruct (post_eq "/v2/transactions" "application/octet-stream" buffer 200 None) as (u & w & before & after & Hu & Hp & Hr).
  assert (broadcast_transaction test_transaction (client, mock_server 200 None) = ((client, w), Ok tt)) as Hc.
  { change (broadcast_transaction test_transaction) with (client_broadcast_transaction test_transaction).
    unfold client_broadcast_transaction. rewrite M_bind_eq, Hu. cbv beta iota. rewrite M_bind_eq. unfold lift at 1.
    rewrite Hb. cbn [ok_or]. by rewrite M_bind_eq, Hp. }
  unfold call. rewrite Hz, Hc. cbn [unwrap unwrap_ok mbind res_bind]. rewrite (Hr Hlen).
  destruct (strip_zeros_prefix buffer) as [l Hl]. rewrite Hl at 1. rewrite <-app_assoc.
  by rewrite contains_infix.
Qed.

(** *** The Bitcoin node *)
Lemma should_map_json_to_utxo_passes : passes should_map_json_to_utxo.
Proof.
  unfold should_map_json_to_utxo. destruct fifty_satoshis as (n & Hf & Hn).
  match goal with |- context [json_object ?l] => set (v := json_object l);
    assert (forall k x, List.find (fun e => String.eqb e.1 k) l = Some (k, x) -> json_index v k = x) as Hv end.
  { intros k x Hk. unfold v, json_index. by rewrite (json_field _ _ _ Hk). }
  eapply passes_bind; [|by apply assert_eq_refl].
  unfold raw_to_utxo, entry. repeat match goal with |- context [json_index v ?k] => erewrite (Hv k) by reflexivity end.
  rewrite !json_string_as_str, !json_bool_as_bool, Hf.
  rewrite !json_number_as_u64 by by_compute. cbn [ok_or mbind res_bind]. rewrite Hn. reflexivity.
Qed.

(** every unit test of the two clients passes. *)
Theorem node_tests_pass :
  Forall passes ([call_read_success_test; call_read_failure_test] ++
    [keys_threshold_test; keys_threshold_invalid_test; num_signers_test; num_signers_invalid_test] ++
    [burn_block_height_success_test; burn_block_height_failure_test] ++
    [next_nonce_success_test; next_nonce_failure_test] ++
    [signer_data_none_test; should_send_tx_bytes_to_node; should_map_json_to_utxo]).
Proof.
  rewrite !Forall_app. split_and!; [apply call_read_tests_pass|apply uint_tests_pass|apply burn_block_height_tests_pass
    |apply next_nonce_tests_pass|].
  tests; [apply signer_data_none_passes|apply should_send_tx_bytes_passes|apply should_map_json_to_utxo_passes].
Qed.
End NodeTests.
