(* ===== verification/ApiTests.v ===== *)
(** * The unit tests of [stacks-signer-api]

    [db/config.rs] runs the queries on an empty database, [routes/config.rs] sends
    requests to the routes.  They pass when the texts of keys and of JSON read
    back ([ApiKeysLaws], [ApiTestLaws]). *)
From S2P Require Import Prelude UnitTest ApiTypes Sql ApiDb ApiSpec ApiRoutes.

Definition TEST_PUBLIC_KEY_1 : string := "025972a1f2532b44348501075075b31eb21c02eef276b91db99d30703f2081b773".
Definition TEST_SECRET_KEY_1 : string := "26F85CE8B2C635AD92F6148E4443FE415F512F3F29F44AB0E2CBDA819295BBD5".
Definition TEST_PUBLIC_KEY_2 : string := "039d3a5ea41730c84e3dd3b513a0a8349b2ed7d178fb026b7b771cea6c395b7870".
Definition TEST_PUBLIC_KEY_3 : string := "0355f69447d2fb4212c20360c67506656c39578ce1ccb0b2e5c1976edd5a51ea4d".

(** What the tests use of [serde_json], [secp256k1] and [warp]: the text of a
    configuration, the bytes of another reply, the answer to a request that no
    filter accepts. *)
Class ApiTestTools `{AK : ApiKeys} := {
  SecretKey_eq_dec :: EqDecision SecretKey;
  config_to_json : ApiConfig -> bytes;
  response_to_json : ReplyBody -> bytes;
  rejected : ApiHttpRequest -> Reply
}.

Section ApiTests.
Context {AK : ApiKeys} {TT : ApiTestTools} {FK : ForeignKeys} {DB : Databases} {BP : BuildProfile} {AJ : ApiJson}.

Definition init_db : res Empty_set Pool := unwrap_ok (init_pool None).

(** A test on a new database. *)
Abbreviation DbTest := (M Pool Empty_set unit).
Definition on_db (t : DbTest) : Test := pool ← init_db; run_test pool t.

Definition test_config : M Pool Empty_set ApiConfig := lift (unwrap_ok (Config_from_secret_key TEST_SECRET_KEY_1)).
Definition parse_key (s : string) : M Pool Empty_set ApiPublicKey := lift (unwrap (public_from_str s)).

(** [expected_config.auto_approve_max_amount = ..] and the like *)
Definition with_max_amount (n : Z) (c : ApiConfig) : ApiConfig :=
  {| secret_key := secret_key c; auto_approve_max_amount := n; delegate_public_key := delegate_public_key c;
     delegator_public_keys := delegator_public_keys c; auto_deny_addresses := auto_deny_addresses c |}.
Definition with_delegators (ks : list ApiPublicKey) (c : ApiConfig) : ApiConfig :=
  {| secret_key := secret_key c; auto_approve_max_amount := auto_approve_max_amount c;
     delegate_public_key := delegate_public_key c; delegator_public_keys := ks;
     auto_deny_addresses := auto_deny_addresses c |}.
Definition with_denied (l : list string) (c : ApiConfig) : ApiConfig :=
  {| secret_key := secret_key c; auto_approve_max_amount := auto_approve_max_amount c;
     delegate_public_key := delegate_public_key c; delegator_public_keys := delegator_public_keys c;
     auto_deny_addresses := l |}.

(** ** [db/config.rs] *)
Definition test_update_config : DbTest :=
  expected_config ← test_config;
  with_unwrap (update_config expected_config) ;;
  config ← with_unwrap get_config;
  lift (assert_eq (auto_approve_max_amount config) (auto_approve_max_amount expected_config)) ;;
  let expected_config := with_max_amount 10 expected_config in
  with_unwrap (update_config expected_config) ;;
  config ← with_unwrap get_config;
  lift (assert_eq (auto_approve_max_amount config) (auto_approve_max_amount expected_config)).

(** The five comparisons that end the test of a whole configuration. *)
Definition assert_same_config (config expected_config : ApiConfig) : Test :=
  assert_eq (secret_key config) (secret_key expected_config) ;;
  assert_eq (auto_approve_max_amount config) (auto_approve_max_amount expected_config) ;;
  assert_eq (delegate_public_key config) (delegate_public_key expected_config) ;;
  assert_eq (delegator_public_keys config) (delegator_public_keys expected_config) ;;
  assert_eq (auto_deny_addresses config) (auto_deny_addresses expected_config).

Definition test_get_config : DbTest :=
  r ← result_of get_config;
  lift (assert (is_err r)) ;;
  expected_config ← test_config;
  with_unwrap (update_config expected_config) ;;
  config ← with_unwrap get_config;
  lift (assert_same_config config expected_config).

Definition test_get_delegator_public_keys : DbTest :=
  config ← test_config;
  k2 ← parse_key TEST_PUBLIC_KEY_2;
  k3 ← parse_key TEST_PUBLIC_KEY_3;
  let config := with_delegators [k2; k3] config in
  with_unwrap (update_config config) ;;
  keys ← with_unwrap get_delegator_public_keys;
  lift (assert_eq keys (delegator_public_keys config)).

Definition test_get_auto_deny_addresses : DbTest :=
  config ← test_config;
  let config := with_denied ["address1"; "address2"; "address3"] config in
  with_unwrap (update_config config) ;;
  addresses ← with_unwrap get_auto_deny_addresses;
  lift (assert_eq addresses (auto_deny_addresses config)).

(** ** [routes/config.rs]

    [warp::test::request()] with a path, a method and a JSON body or none. *)
Definition post_json (c : ApiConfig) : ApiHttpRequest :=
  {| h_method := ApiPost; h_path := ["v1"; "config"]; h_query := "";
     h_content_length := Some (Z.of_nat (length (config_to_json c))); h_body := config_to_json c |}.
Definition get_request : ApiHttpRequest :=
  {| h_method := ApiGet; h_path := ["v1"; "config"]; h_query := ""; h_content_length := None; h_body := [] |}.

(** [.reply(&route)] *)
Definition reply (route : ApiHttpRequest -> option ApiRequest) (h : ApiHttpRequest) : M Pool Empty_set Reply :=
  match route h with
  | Some r => handle r
  | None => mret (rejected h)
  end.
Definition reply_body (r : Reply) : bytes :=
  match body r with
  | NoBody => []
  | ConfigBody c => config_to_json c
  | b => response_to_json b
  end.

Definition updated_config (k1 k2 : ApiPublicKey) (c : ApiConfig) : ApiConfig :=
  with_denied ["Address1"; "Address2"] (with_delegators [k1; k2] (with_max_amount 10 c)).

(** The same comparisons in the order of these tests. *)
Definition assert_expected_config (config expected_config : ApiConfig) : Test :=
  assert_eq (secret_key config) (secret_key expected_config) ;;
  assert_eq (delegate_public_key config) (delegate_public_key expected_config) ;;
  assert_eq (auto_approve_max_amount config) (auto_approve_max_amount expected_config) ;;
  assert_eq (auto_deny_addresses config) (auto_deny_addresses expected_config) ;;
  assert_eq (delegator_public_keys config) (delegator_public_keys expected_config).

Definition test_update_config_route : DbTest :=
  expected_config ← test_config;
  with_unwrap (update_config expected_config) ;;
  k1 ← parse_key TEST_PUBLIC_KEY_1;
  k2 ← parse_key TEST_PUBLIC_KEY_2;
  let expected_config := updated_config k1 k2 expected_config in
  api ← reply update_config_route (post_json expected_config);
  lift (assert_eq (status_code api) OK) ;;
  lift (assert (bool_decide (reply_body api = []))) ;;
  config ← with_unwrap get_config;
  lift (assert_expected_config config expected_config).

Definition test_get_config_route : DbTest :=
  expected_config ← test_config;
  with_unwrap (update_config expected_config) ;;
  api ← reply get_config_route get_request;
  config ← lift (unwrap (config_from_json (reply_body api)));
  lift (assert_expected_config config expected_config).

Definition api_tests : list DbTest :=
  [test_update_config; test_get_config; test_get_delegator_public_keys; test_get_auto_deny_addresses;
   test_update_config_route; test_get_config_route].
End ApiTests.

(** ** The tests pass *)

(** The keys of the tests are the texts that [secp256k1] prints for them; the JSON
    text of a configuration reads back, and that of the posted one is within the
    limit of the route. *)
Class ApiTestLaws `{AK : ApiKeys, TT : !ApiTestTools, AJ : !ApiJson} := {
  test_secret_key : exists sk, Config_from_secret_key TEST_SECRET_KEY_1 = Ok (Config_new sk);
  test_public_key s : s ∈ [TEST_PUBLIC_KEY_1; TEST_PUBLIC_KEY_2; TEST_PUBLIC_KEY_3] ->
    exists k, public_from_str s = Some k /\ public_to_string k = s;
  config_json_roundtrip c : config_from_json (config_to_json c) = Some c;
  config_json_size sk k1 k2 : Z.of_nat (length (config_to_json (updated_config k1 k2 (Config_new sk)))) <= 1024 * 16
}.

Section ApiTestsPass.
Context {AK : ApiKeys} {AL : ApiKeysLaws} {FK : ForeignKeys} {DB : Databases} {BP : BuildProfile} {AJ : ApiJson}.
Context {TT : ApiTestTools} {TL : ApiTestLaws}.
Implicit Types (t : Tables) (s : Spec).

(** A test that ends without a panic, step by step. *)
Definition good (m : M Pool Empty_set unit) (p : Pool) : Prop := (m p).2 = Ok tt.

Lemma on_db_passes (m : M Pool Empty_set unit) : good m (calm empty_tables) -> passes (on_db m).
Proof. intros Hm. unfold passes, on_db, run_test, init_db, init_pool. done. Qed.

Lemma good_config (k : ApiConfig -> M Pool Empty_set unit) p :
  (forall sk, good (k (Config_new sk)) p) -> good (test_config ≫= k) p.
Proof.
  destruct test_secret_key as [sk Hsk]. intros Hk. specialize (Hk sk). unfold good, test_config in *.
  by rewrite Hsk.
Qed.

Lemma good_key (s : string) (key : ApiPublicKey) (k : ApiPublicKey -> M Pool Empty_set unit) p :
  public_from_str s = Some key -> good (k key) p -> good (parse_key s ≫= k) p.
Proof. intros Hs Hk. unfold good, parse_key in *. by rewrite Hs. Qed.

Lemma good_update t s (c : ApiConfig) (k : unit -> M Pool Empty_set unit) :
  represents t s -> in_u64 (auto_approve_max_amount c) ->
  (forall t', represents t' (spec_update_config c s) -> good (k tt) (calm t')) ->
  good (with_unwrap (update_config c) ≫= k) (calm t).
Proof.
  intros Hrep Hc Hk. destruct (update_config_calm _ _ _ Hc Hrep) as (t' & Hrun & Hrep').
  unfold good, with_unwrap. rewrite M_bind_eq, Hrun. by apply Hk.
Qed.

Lemma good_get t s (c : ApiConfig) (k : ApiConfig -> M Pool Empty_set unit) :
  represents t s -> spec_config s = Some c -> good (k c) (calm t) ->
  good (with_unwrap get_config ≫= k) (calm t).
Proof. intros Hrep Hc Hk. unfold good, with_unwrap. by rewrite M_bind_eq, (get_config_calm _ _ Hrep), Hc. Qed.

Lemma good_post t s (c : ApiConfig) (k : Reply -> M Pool Empty_set unit) h :
  represents t s -> in_u64 (auto_approve_max_amount c) -> update_config_route h = Some (PostConfig c) ->
  (forall t', represents t' (spec_update_config c s) -> good (k (status OK)) (calm t')) ->
  good (reply update_config_route h ≫= k) (calm t).
Proof.
  intros Hrep Hc Hh Hk. destruct (update_config_calm _ _ _ Hc Hrep) as (t' & Hrun & Hrep').
  unfold good, reply. rewrite Hh. simpl. unfold update_config_handler.
  rewrite M_bind_eq, M_bind_eq, (attempt_ok _ _ _ _ Hrun). by apply Hk.
Qed.

Lemma good_fetch t s (c : ApiConfig) (k : Reply -> M Pool Empty_set unit) h :
  represents t s -> spec_config s = Some c -> get_config_route h = Some GetConfig ->
  good (k (json (ConfigBody c))) (calm t) -> good (reply get_config_route h ≫= k) (calm t).
Proof.
  intros Hrep Hc Hh Hk. unfold good, reply. rewrite Hh. simpl. unfold get_config_handler.
  by rewrite M_bind_eq, M_bind_eq, (attempt_fetch _ _ _ (get_config_calm _ _ Hrep)), Hc.
Qed.

Lemma good_decode (c : ApiConfig) (k : ApiConfig -> M Pool Empty_set unit) p :
  good (k c) p -> good (lift (unwrap (config_from_json (config_to_json c))) ≫= k) p.
Proof. intros Hk. unfold good. by rewrite config_json_roundtrip. Qed.

Lemma good_assert (r : Test) (k : unit -> M Pool Empty_set unit) p :
  r = Ok tt -> good (k tt) p -> good (lift r ≫= k) p.
Proof. by intros ->. Qed.

Lemma good_assert_last (r : Test) p : r = Ok tt -> good (lift r) p.
Proof. by intros ->. Qed.

Lemma same_config_refl (c : ApiConfig) : assert_same_config c c = Ok tt.
Proof. unfold assert_same_config, assert_eq. by rewrite !bool_decide_true. Qed.

Lemma expected_config_refl (c : ApiConfig) : assert_expected_config c c = Ok tt.
Proof. unfold assert_expected_config, assert_eq. by rewrite !bool_decide_true. Qed.

Lemma test_keys : exists k1 k2 k3,
  public_from_str TEST_PUBLIC_KEY_1 = Some k1 /\ public_from_str TEST_PUBLIC_KEY_2 = Some k2 /\
  public_from_str TEST_PUBLIC_KEY_3 = Some k3 /\ k1 <> k2 /\ k2 <> k3.
Proof.
  destruct (test_public_key TEST_PUBLIC_KEY_1) as (k1 & H1 & T1); [set_solver|].
  destruct (test_public_key TEST_PUBLIC_KEY_2) as (k2 & H2 & T2); [set_solver|].
  destruct (test_public_key TEST_PUBLIC_KEY_3) as (k3 & H3 & T3); [set_solver|].
  assert (TEST_PUBLIC_KEY_1 <> TEST_PUBLIC_KEY_2 /\ TEST_PUBLIC_KEY_2 <> TEST_PUBLIC_KEY_3) as [? ?] by by_compute.
  exists k1, k2, k3. split_and!; congruence.
Qed.

Lemma keys_read_back (ks : list ApiPublicKey) :
  Forall2 (fun text k => ok_or (public_from_str text) DbSecp256k1Error = Ok k) (public_to_string <$> ks) ks.
Proof. induction ks; constructor; [by rewrite public_roundtrip|done]. Qed.

(** The delegators and the denied addresses of an update, on an empty list. *)
Lemma replace_all_empty {A : Type} `{EqDecision A} (ks : list A) :
  NoDup ks -> foldl (fun l k => sql_replace id k l) [] ks = ks.
Proof. intros Hnd. by rewrite (replace_all_fresh [] ks Hnd). Qed.

Lemma spec_config_updated s (c : ApiConfig) :
  s_delegators s = [] -> s_denied s = [] -> NoDup (delegator_public_keys c) -> NoDup (auto_deny_addresses c) ->
  spec_config (spec_update_config c s) = Some c.
Proof.
  intros Hd Hn Hks Has. unfold spec_config, spec_update_config. simpl. rewrite Hd, Hn, !replace_all_empty by done.
  by destruct c.
Qed.

Lemma max_amount_u64 : in_u64 DEFAULT_MAX_AMOUNT.
Proof. by_compute. Qed.
#[local] Hint Resolve max_amount_u64 represents_empty NoDup_nil_2 same_config_refl expected_config_refl
  spec_config_updated assert_eq_refl : core.

Lemma test_update_config_passes : passes (on_db test_update_config).
Proof.
  apply on_db_passes, good_config. intros sk. eapply good_update; [auto..|]. intros t Hrep.
  eapply good_get; [eassumption|by apply spec_config_updated; auto|].
  apply good_assert; [auto|]. eapply good_update; [eassumption|by_compute|]. intros t' Hrep'.
  eapply good_get; [eassumption|by apply spec_config_updated; auto|]. apply good_assert_last. auto.
Qed.

Lemma test_get_config_passes : passes (on_db test_get_config).
Proof.
  apply on_db_passes. unfold test_get_config. apply good_config. intros sk.
  eapply good_update; [auto..|]. intros t Hrep.
  eapply good_get; [eassumption|by apply spec_config_updated; auto|]. apply good_assert_last. auto.
Qed.

Lemma good_delegators t s (k : list ApiPublicKey -> M Pool Empty_set unit) :
  represents t s -> good (k (s_delegators s)) (calm t) -> good (with_unwrap get_delegator_public_keys ≫= k) (calm t).
Proof.
  intros Hrep Hk. unfold good, with_unwrap, get_delegator_public_keys. rewrite M_bind_eq, M_bind_eq. simpl.
  unfold lift. rewrite (rep_delegators _ _ Hrep).
  by rewrite (proj2 (mapR_Forall2 _ _ (s_delegators s)) (keys_read_back _)).
Qed.

Lemma test_get_delegator_public_keys_passes : passes (on_db test_get_delegator_public_keys).
Proof.
  destruct test_keys as (_ & k2 & k3 & _ & H2 & H3 & _ & Hne).
  apply on_db_passes, good_config. intros sk. apply (good_key _ _ _ _ H2), (good_key _ _ _ _ H3).
  eapply good_update; [auto..|]. intros t Hrep. apply (good_delegators _ _ _ Hrep), good_assert_last.
  apply assert_eq_refl, replace_all_empty. simpl. apply NoDup_cons. split; [set_solver|apply NoDup_singleton].
Qed.

Lemma test_get_auto_deny_addresses_passes : passes (on_db test_get_auto_deny_addresses).
Proof.
  apply on_db_passes, good_config. intros sk. eapply good_update; [auto..|]. intros t Hrep.
  unfold good, with_unwrap. rewrite M_bind_eq. simpl. rewrite (rep_denied _ _ Hrep). done.
Qed.

(** ** The routes *)
Lemma test_update_config_route_passes : passes (on_db test_update_config_route).
Proof.
  destruct test_keys as (k1 & k2 & _ & H1 & H2 & _ & Hne & _).
  apply on_db_passes, good_config. intros sk. eapply good_update; [auto..|]. intros t Hrep.
  apply (good_key _ _ _ _ H1), (good_key _ _ _ _ H2).
  apply (good_post _ _ (updated_config k1 k2 (Config_new sk)) _ _ Hrep); [by_compute|..].
  - unfold update_config_route, matches, json_body. simpl.
    pose proof (config_json_size sk k1 k2) as Hsize. apply Z.leb_le in Hsize.
    rewrite Hsize, config_json_roundtrip. reflexivity.
  - intros t' Hrep'. apply good_assert; [auto|]. apply good_assert; [auto|].
    eapply good_get; [exact Hrep'| |apply good_assert_last; auto].
    apply spec_config_updated; [reflexivity..| |by_compute].
    apply NoDup_cons. split; [set_solver|apply NoDup_singleton].
Qed.

Lemma test_get_config_route_passes : passes (on_db test_get_config_route).
Proof.
  apply on_db_passes, good_config. intros sk. eapply good_update; [auto..|]. intros t Hrep.
  eapply good_fetch; [exact Hrep|by apply spec_config_updated; auto|done|].
  apply good_decode, good_assert_last. auto.
Qed.

(** Every unit test of the signer API passes. *)
Theorem api_tests_pass : Forall (fun test => passes (on_db test)) api_tests.
Proof.
  tests.
  - apply test_update_config_passes.
  - apply test_get_config_passes.
  - apply test_get_delegator_public_keys_passes.
  - apply test_get_auto_deny_addresses_passes.
  - apply test_update_config_route_passes.
  - apply test_get_config_route_passes.
Qed.
End ApiTestsPass.

(** ** An instance *)
Module ToyApiTests.
Import ToyApi.
#[local] Instance fk : ForeignKeys := true.
#[local] Instance bp : BuildProfile := true.
#[local] Instance no_databases : Databases := fun _ => None.

(** A configuration is written as one number. *)
Definition fields (c : ApiConfig (AK := toy_keys)) : bool * Z * string * list string * list string :=
  (secret_key c, auto_approve_max_amount c, delegate_public_key c, delegator_public_keys c, auto_deny_addresses c).
Definition of_fields (f : bool * Z * string * list string * list string) : ApiConfig (AK := toy_keys) :=
  let '(sk, n, d, ks, l) := f in
  {| secret_key := sk : SecretKey; auto_approve_max_amount := n; delegate_public_key := d;
     delegator_public_keys := ks; auto_deny_addresses := l |}.

#[local] Instance toy_json : ApiJson (AK := toy_keys) := {|
  config_from_json b := match b with [Zpos p] => of_fields <$> decode p | _ => None end;
  vote_request_from_json _ := None;
  transaction_query_from _ := None
|}.
#[local] Instance toy_tools : ApiTestTools (AK := toy_keys) := {|
  SecretKey_eq_dec := bool_eq_dec;
  config_to_json c := [Zpos (encode (fields c))];
  response_to_json _ := [];
  rejected _ := status NOT_FOUND
|}.
Definition test_secret : bytes :=
  [38; 248; 92; 232; 178; 198; 53; 173; 146; 246; 20; 142; 68; 67; 254; 65; 95; 81; 47; 63;
   41; 244; 74; 176; 226; 203; 218; 129; 146; 149; 187; 213].
Lemma test_secret_hex : hex_bytes TEST_SECRET_KEY_1 = Some test_secret.
Proof. vm_compute. reflexivity. Qed.

#[local, refine] Instance toy_laws : ApiTestLaws (AK := toy_keys) := {}.
Proof.
  - exists true. unfold Config_from_secret_key. change hex_decode with hex_bytes. by rewrite test_secret_hex.
  - intros s _. by exists s.
  - intros c. simpl. rewrite decode_encode. by destruct c.
  - intros sk k1 k2. change (1 <= 1024 * 16). lia.
Defined.

Lemma api_tests_pass_witness : Forall (fun test => passes (on_db test)) api_tests.
Proof. apply api_tests_pass. Defined.
End ToyApiTests.
