(* ===== verification/CoordinatorTests.v ===== *)
(** * The integration tests of [frost-coordinator/src/coordinator.rs]

    The tests start a relay server and the signers of a random configuration and
    run a coordinator against them.  [spawn_processes_and_get_config] gives the
    configurations and the processes it starts; the tests run the coordinator
    behind any network [N], which [connect] gives it through a listener.  The
    signers that start from the configurations form a [cluster], so the runs of
    [SignSystem] are those of the tests. *)
From S2P Require Import Prelude CoordinatorStart UnitTest Http Crypto FrostUtil FrostConfig Messages SigningRound DkgRound Net FrostCoordinator CoordinatorRound CoordinatorSign DkgSystem SignRound SignSystem FrostSigner SignerProcess TestProcess TestUtils FrostTests.

(** ** The configuration *)

Section Spawn.
Context {CP : P256k1} {WP : Wsts} {BP : BuildProfile} {KT : KeyTools} {TT : TestTools}.
(** What [spawn_processes_and_get_config] returns, and what it starts: the relay
    server on a URL without its scheme, and the signers. *)
Record Spawned := {
  sp_config : Config;
  sp_listen : HttpNetListen;
  sp_relay : option string;
  sp_signers : list FrostSigner
}.

(** A [HashMap] is iterated in an order of its own. *)
Context (iter : gmap Z PublicKey -> list (Z * PublicKey)).

Definition create_signer_key_ids {E : Type} (signer_id keys_per_signer : Z) : res E (list Z) :=
  mapR (fun i => p ← umul 32 keys_per_signer signer_id; q ← uadd 32 p i; uadd 32 q 1)
    (seqZ 0 keys_per_signer).

Definition create_public_keys {E : Type} (signer_private_keys : list Scalar) (keys_per_signer : Z) : res E PublicKeys :=
  entries ← mapR (fun e => pk ← unwrap (ecdsa_public_key_new e.2); mret (as_u32 (e.1 + 1), pk))
    (zip (seqZ 0 (Z.of_nat (length signer_private_keys))) signer_private_keys);
  let signer_id_keys := collect entries in
  key_ids ← mapR (fun e => mapR (fun i => p ← umul 32 keys_per_signer e.1; id ← usub 32 p i; mret (id, e.2))
      (seqZ 0 keys_per_signer)) (iter signer_id_keys);
  mret {| pk_signers := signer_id_keys; pk_key_ids := collect (concat key_ids) |}.

Fixpoint random_scalars {E : Type} (n : nat) : M Rng E (list Scalar) :=
  match n with
  | O => mret []
  | S n' => k ← scalar_random_; ks ← random_scalars n'; mret (k :: ks)
  end.

(** [url.strip_prefix("http://")] *)
Definition strip_http (url : string) : option string :=
  if String.prefix "http://" url then Some (String.substring 7 (String.length url - 7) url) else None.

Definition u32_from_str (s : string) : option Z := parse_uint 32 (as_bytes s).

Definition spawn_processes_and_get_config {E : Type} (env : gmap string string) (relay_url : string)
    : M Rng E Spawned :=
  num_signers ← lift (parse_env u32_from_str env "num_signers" 6);
  keys_per_signer ← lift (parse_env u32_from_str env "keys_per_signer" 3);
  keys_threshold ← lift (parse_env u32_from_str env "keys_threshold" 15);
  coordinator_private_key ← scalar_random_;
  coordinator_public_key ← lift (unwrap (ecdsa_public_key_new coordinator_private_key));
  signer_private_keys ← random_scalars (Z.to_nat num_signers);
  signer_key_ids ← lift (mapR (fun i => k ← uadd 32 i 1; ids ← create_signer_key_ids i keys_per_signer; mret (k, ids))
    (seqZ 0 num_signers));
  public_keys ← lift (create_public_keys signer_private_keys keys_per_signer);
  let config := fun k =>
    Config_new keys_threshold coordinator_public_key public_keys (collect signer_key_ids) k relay_url in
  coordinator_config ← lift (config coordinator_private_key);
  signer_configs ← lift (mapR config signer_private_keys);
  signers ← lift (mapR (fun i => config ← unwrap (signer_configs !! Z.to_nat i);
                                 id ← uadd 32 i 1; mret (FrostSigner_new config id)) (seqZ 0 num_signers));
  mret {| sp_config := coordinator_config;
          sp_listen := HttpNetListen_new (HttpNet_new relay_url) [];
          sp_relay := strip_http relay_url;
          sp_signers := signers |}.
End Spawn.

(** ** The tests

    [network_of] is the network with the spawned processes behind the listener of
    the coordinator, [reconnect] that network behind the listener when the
    coordinator is made anew. *)
Section Tests.
Context {CP : P256k1} {WP : Wsts} {WA : WstsAggregator} {BP : BuildProfile} {KT : KeyTools} {TT : TestTools}
  {N : Type} {NL : NetListen N} {BO : Backoff}.
Context (iter : gmap Z PublicKey -> list (Z * PublicKey)) (env : gmap string string) (fuel : nat).
Context (network_of : Spawned -> N) (reconnect : Spawned -> N -> N).

Definition test_coordinator {E : Type} (sp : Spawned) (net : N) : res E (Coordinator (N := N)) :=
  Coordinator_new DEVNET_COORDINATOR_ID (sp_config sp) net.

Definition able_to_run_dkg_sign : M Rng Empty_set unit :=
  let relay_url := "http://127.0.0.1:9776" in
  sp ← spawn_processes_and_get_config iter env relay_url;
  coordinator ← lift (test_coordinator sp (network_of sp));
  lift (with_unwrap (FrostCoordinator.run fuel (DkgSign [0; 1; 2; 3])) coordinator).2.

(** The last statement of the two other tests is [schnorr_proof.verify(..);]:
    they compute what is returned here and do not look at it. *)
Definition valid_signatures_after_dkg : M Rng Empty_set bool :=
  let msg := [1; 3; 3; 7] in
  let relay_url := "http://127.0.0.1:9777" in
  sp ← spawn_processes_and_get_config iter env relay_url;
  coordinator ← lift (test_coordinator sp (network_of sp));
  lift ((public_key ← with_unwrap (run_distributed_key_generation fuel);
         '(_, schnorr_proof) ← with_unwrap (sign_message fuel msg);
         mret (schnorr_verify schnorr_proof (point_x public_key) msg)) coordinator).2.

Definition valid_signatures_after_restart : M Rng Empty_set bool :=
  let msg := [1; 3; 3; 7] in
  let relay_url := "http://127.0.0.1:9778" in
  sp ← spawn_processes_and_get_config iter env relay_url;
  coordinator ← lift (test_coordinator sp (network_of sp));
  let '(first, r) := run_distributed_key_generation fuel coordinator in
  public_key ← lift (unwrap_ok r);
  let dkg_public_shares := FrostCoordinator.dkg_public_shares first in
  coordinator ← lift (test_coordinator sp (reconnect sp (network first)));
  let coordinator := set_dkg_public_shares dkg_public_shares (set_aggregate_public_key public_key coordinator) in
  lift (('(_, schnorr_proof) ← with_unwrap (sign_message fuel msg);
         mret (schnorr_verify schnorr_proof (point_x public_key) msg)) coordinator).2.
End Tests.

(** ** What the configuration is *)
(** Consecutive blocks of [k] numbers. *)
Lemma blocks (k c a n : Z) : 0 <= k -> 0 <= n ->
  seqZ a n ≫= (fun i => seqZ (k * (i - 1) + c) k) = seqZ (k * (a - 1) + c) (k * n).
Proof.
  intros Hk Hn. revert a. pattern n. apply natlike_ind; [|clear n Hn|done].
  - intros a. by rewrite Z.mul_0_r.
  - intros n Hn IH a. rewrite (seqZ_cons _ (Z.succ n)) by lia. rewrite bind_cons.
    replace (Z.pred (Z.succ n)) with n by lia. rewrite IH.
    replace (k * (Z.succ a - 1) + c) with (k * (a - 1) + c + k) by lia.
    rewrite <-seqZ_app by lia. f_equal. lia.
Qed.

Lemma block_down (k i : Z) : (fun j => k * i - j) <$> seqZ 0 k ≡ₚ seqZ (k * (i - 1) + 1) k.
Proof.
  apply NoDup_Permutation; [|apply NoDup_seqZ|].
  - apply NoDup_fmap_2; [intros x y; lia|apply NoDup_seqZ].
  - intros x. rewrite list_elem_of_fmap, elem_of_seqZ. setoid_rewrite elem_of_seqZ.
    split; [intros (j & -> & Hj); lia|]. intros Hx. exists (k * i - x). lia.
Qed.

Section Config.
Context {CP : P256k1} {WP : Wsts} {BP : BuildProfile} {KT : KeyTools} {CL : P256k1Laws} {TT : TestTools} {TL : TestToolsLaws}.
Context (iter : gmap Z PublicKey -> list (Z * PublicKey)) (Hiter : forall m, iter m ≡ₚ map_to_list m).
Context (n k : Z) (Hn : 0 < n) (Hk : 0 < k) (Hnk : k * n < 2 ^ 32).

(** The key ids of the signer with id [i + 1]. *)
Lemma create_signer_key_ids_eq {E : Type} (i : Z) :
  0 <= i < n -> create_signer_key_ids (E := E) i k = Ok (seqZ (k * i + 1) k).
Proof.
  intros Hi. unfold create_signer_key_ids. replace (k * i + 1) with ((k * i + 1) + 0) by lia.
  rewrite <-fmap_add_seqZ. apply mapR_fmap. intros j Hj%elem_of_seqZ.
  assert (k * i + k <= k * n) by nia. assert (0 <= k * i) by nia.
  unfold umul, uadd. rewrite checked_small by (unfold in_uint; lia). simpl.
  rewrite checked_small by (unfold in_uint; lia). simpl.
  rewrite checked_small by (unfold in_uint; lia). f_equal. lia.
Qed.

Definition test_signer_key_ids : SignerKeyIds := list_to_map ((fun i => (i + 1, seqZ (k * i + 1) k)) <$> seqZ 0 n).

Lemma signer_key_ids_lookup (i : Z) : 0 <= i < n -> test_signer_key_ids !! (i + 1) = Some (seqZ (k * i + 1) k).
Proof.
  intros Hi. apply (table_lookup (fun i => i + 1) (fun i => seqZ (k * i + 1) k)).
  - apply NoDup_fmap_2; [intros x y; lia|apply NoDup_seqZ].
  - exists i. split; [apply elem_of_seqZ; lia|done].
Qed.

(** The public keys of the signers by id. *)
Context (sks : list Scalar) (Hsks : Z.of_nat (length sks) = n).
Definition key_entries : list (Z * PublicKey) := zip (seqZ 1 n) (pk_of <$> sks).

Lemma key_entries_ids : key_entries.*1 = seqZ 1 n.
Proof. apply fst_zip. rewrite length_seqZ, length_fmap. lia. Qed.

Lemma elem_of_key_entries (i : Z) (pk : PublicKey) :
  (i, pk) ∈ key_entries <-> exists sk, 1 <= i /\ sks !! Z.to_nat (i - 1) = Some sk /\ pk = pk_of sk.
Proof.
  unfold key_entries. rewrite elem_of_lookup_zip_with. split.
  - intros (j & i' & pk' & [= -> ->] & [Hi Hj]%lookup_seqZ & Hpk). rewrite list_lookup_fmap in Hpk.
    apply fmap_Some in Hpk as (sk & Hsk & ->). exists sk. split; [lia|]. split; [|done]. rewrite <-Hsk. f_equal. lia.
  - intros (sk & Hi & Hsk & ->). exists (Z.to_nat (i - 1)), i, (pk_of sk).
    pose proof (lookup_lt_Some _ _ _ Hsk). split; [done|]. split; [apply lookup_seqZ; lia|].
    by rewrite list_lookup_fmap, Hsk.
Qed.

Definition id_entries (e : Z * PublicKey) : list (Z * PublicKey) := (fun i => (k * e.1 - i, e.2)) <$> seqZ 0 k.
Definition test_public_keys : PublicKeys :=
  {| pk_signers := list_to_map key_entries;
     pk_key_ids := list_to_map (iter (list_to_map key_entries) ≫= id_entries) |}.

Lemma iter_entries : iter (list_to_map key_entries) ≡ₚ key_entries.
Proof. rewrite Hiter. apply map_to_list_to_map. rewrite key_entries_ids. apply NoDup_seqZ. Qed.

Lemma id_entries_keys : (iter (list_to_map key_entries) ≫= id_entries).*1 ≡ₚ seqZ 1 (k * n).
Proof.
  rewrite iter_entries, <-bind_fmap.
  replace (seqZ 1 (k * n)) with (seqZ (k * (1 - 1) + 1) (k * n)) by (f_equal; lia).
  rewrite <-blocks, <-key_entries_ids, fmap_bind by lia. apply bind_perm. intros e _.
  unfold id_entries. rewrite <-list_fmap_compose. apply block_down.
Qed.

Lemma create_public_keys_eq {E : Type} : create_public_keys (E := E) iter sks k = Ok test_public_keys.
Proof.
  unfold create_public_keys.
  rewrite (mapR_fmap _ (fun e => (e.1 + 1, pk_of e.2))).
  2: { intros [i sk] Hi%elem_of_zip_l. apply elem_of_seqZ in Hi. simpl. rewrite ecdsa_public_key_of. simpl.
       unfold as_u32. rewrite Z.mod_small by nia. done. }
  assert ((fun e : Z * Scalar => (e.1 + 1, pk_of e.2)) <$> zip (seqZ 0 (Z.of_nat (length sks))) sks = key_entries) as ->.
  { unfold key_entries. change (seqZ 1 n) with (seqZ (1 + 0) n). rewrite Hsks, <-fmap_add_seqZ, zip_with_fmap_l, zip_with_fmap_r,
      (zip_with_zip (fun (i : Z) (sk : Scalar) => (1 + i, pk_of sk))).
    apply list_fmap_ext. intros j [i sk] _. simpl. f_equal. lia. }
  rewrite res_bind_Ok, collect_table by (rewrite key_entries_ids; apply NoDup_seqZ).
  rewrite (mapR_fmap _ id_entries).
  - rewrite res_bind_Ok, concat_fmap, collect_table; [done|]. rewrite id_entries_keys. apply NoDup_seqZ.
  - intros [i pk] Hi. rewrite iter_entries in Hi. apply list_elem_of_fmap_2 with (f := fst) in Hi.
    rewrite key_entries_ids in Hi. apply elem_of_seqZ in Hi. simpl in Hi. unfold id_entries. apply mapR_fmap.
    intros j Hj%elem_of_seqZ. simpl. assert (k * i <= k * n) by nia. assert (k <= k * i) by nia.
    unfold umul, usub. rewrite checked_small by (unfold in_uint; lia). simpl.
    by rewrite checked_small by (unfold in_uint; lia).
Qed.

(** Every signer is registered with its id and its key ids. *)
Lemma key_id_registered (i x : Z) (sk : Scalar) :
  1 <= i -> sks !! Z.to_nat (i - 1) = Some sk -> k * (i - 1) < x <= k * i ->
  pk_key_ids test_public_keys !! x = Some (pk_of sk).
Proof.
  intros Hi Hsk Hx. simpl. apply elem_of_list_to_map_1.
  - rewrite id_entries_keys. apply NoDup_seqZ.
  - rewrite iter_entries. apply list_elem_of_bind. exists (i, pk_of sk). split.
    + apply list_elem_of_fmap. exists (k * i - x). split; [simpl; f_equal; lia|]. apply elem_of_seqZ. lia.
    + apply elem_of_key_entries. eauto.
Qed.

Context (t : Z) (Ht : 0 < t <= k * n) (url : string) (c : Scalar).
Definition test_config (sk : Scalar) : Config :=
  {| cfg_http_relay_url := url; cfg_keys_threshold := t; cfg_network_private_key := sk;
     cfg_public_keys := test_public_keys; cfg_signer_key_ids := test_signer_key_ids;
     cfg_coordinator_public_key := pk_of c; cfg_total_signers := n; cfg_total_keys := k * n |}.

Lemma config_new_eq {E : Type} (sk : Scalar) :
  Config_new (E := E) t (pk_of c) test_public_keys test_signer_key_ids sk url = Ok (test_config sk).
Proof.
  assert (size (pk_signers test_public_keys) = Z.to_nat n) as H1.
  { simpl. rewrite map_size_list_to_map by (rewrite key_entries_ids; apply NoDup_seqZ).
    by rewrite <-(length_fmap fst), key_entries_ids, length_seqZ. }
  assert (size (pk_key_ids test_public_keys) = Z.to_nat (k * n)) as H2.
  { simpl. rewrite map_size_list_to_map by (rewrite id_entries_keys; apply NoDup_seqZ).
    by rewrite <-(length_fmap fst), id_entries_keys, length_seqZ. }
  assert (n <= k * n) by nia.
  unfold Config_new, u32_try_from. rewrite H1, H2, !Z2Nat.id by lia.
  rewrite !bool_decide_true by (unfold in_uint; lia). done.
Qed.

(** The signers the tests start: those with ids [1] to [n], each with its key. *)
Definition test_signers : list FrostSigner :=
  (fun e => FrostSigner_new (test_config e.2) e.1) <$> zip (seqZ 1 n) sks.

Lemma signers_eq {E : Type} :
  mapR (E := E) (fun i => config ← unwrap ((test_config <$> sks) !! Z.to_nat i);
                          id ← uadd 32 i 1; mret (FrostSigner_new config id)) (seqZ 0 n) = Ok test_signers.
Proof.
  assert (n <= k * n) by nia.
  apply mapR_Forall2, Forall2_fmap_r, Forall2_same_length_lookup. split.
  { rewrite length_zip_with, !length_seqZ. lia. }
  intros j i [id sk] [-> Hj]%lookup_seqZ (? & ? & [= <- <-] & [-> _]%lookup_seqZ & Hsk)%lookup_zip_with_Some.
  replace (Z.to_nat (0 + Z.of_nat j)) with j by lia. rewrite list_lookup_fmap, Hsk. simpl.
  unfold uadd. rewrite checked_small by (unfold in_uint; lia). simpl.
  replace (0 + Z.of_nat j + 1) with (1 + Z.of_nat j) by lia. done.
Qed.
End Config.

(** [wsts::v1::Signer::new] *)
Class SignerNewLaws `{WL : WstsLaws} := {
  new_key_ids : forall id ids total t rng, signer_get_key_ids (signer_new id ids total t rng).1 = ids;
  new_num_keys : forall id ids total t rng, num_keys (signer_new id ids total t rng).1 = total
}.

Section Spawned.
Context {CP : P256k1} {WP : Wsts} {BP : BuildProfile} {KT : KeyTools} {CL : P256k1Laws} {TT : TestTools} {TL : TestToolsLaws}
  {WL : WstsLaws} {NEW : SignerNewLaws}.
Context (iter : gmap Z PublicKey -> list (Z * PublicKey)) (Hiter : forall m, iter m ≡ₚ map_to_list m).
Context (env : gmap string string) (url : string) (n k t : Z) (Hn : 0 < n) (Hk : 0 < k) (Hnk : k * n < 2 ^ 32)
  (Ht : 0 < t <= k * n).
Context (Hpn : forall E, parse_env (E := E) u32_from_str env "num_signers" 6 = Ok n)
  (Hpk : forall E, parse_env (E := E) u32_from_str env "keys_per_signer" 3 = Ok k)
  (Hpt : forall E, parse_env (E := E) u32_from_str env "keys_threshold" 15 = Ok t).

Lemma random_scalars_Ok {E : Type} (j : nat) rng :
  exists rng' sks, random_scalars (E := E) j rng = (rng', Ok sks) /\ length sks = j.
Proof.
  revert rng. induction j as [|j IH]; intros rng; [by exists rng, []|]. simpl. rewrite M_bind_eq.
  unfold scalar_random_ at 1. destruct (scalar_random rng) as [x rng1].
  destruct (IH rng1) as (rng' & sks & Hr & Hl). rewrite M_bind_eq, Hr. exists rng', (x :: sks). simpl. by rewrite Hl.
Qed.

Lemma spawn_eq {E : Type} rng : exists rng' c sks, Z.of_nat (length sks) = n /\
  spawn_processes_and_get_config (E := E) iter env url rng =
    (rng', Ok {| sp_config := test_config iter n k sks t url c c;
                 sp_listen := HttpNetListen_new (HttpNet_new url) [];
                 sp_relay := strip_http url;
                 sp_signers := test_signers iter n k sks t url c |}).
Proof.
  unfold spawn_processes_and_get_config. rewrite Hpn, M_lift_Ok, Hpk, M_lift_Ok, Hpt, M_lift_Ok.
  destruct (scalar_random rng) as [c rng1] eqn:Hc.
  rewrite (M_step _ _ _ rng1 c) by (unfold scalar_random_; by rewrite Hc).
  rewrite ecdsa_public_key_of. cbn [unwrap]. rewrite M_lift_Ok.
  destruct (random_scalars_Ok (E := E) (Z.to_nat n) rng1) as (rng' & sks & Hr & Hl).
  assert (Z.of_nat (length sks) = n) as Hsks by lia. exists rng', c, sks. split; [done|].
  rewrite (M_step _ _ _ _ _ Hr), (mapR_fmap _ (fun i => (i + 1, seqZ (k * i + 1) k))).
  2: { intros i Hi%elem_of_seqZ. assert (n <= k * n) by nia. unfold uadd. rewrite checked_small by (unfold in_uint; lia).
       rewrite res_bind_Ok, (create_signer_key_ids_eq n k) by (done || lia). done. }
  rewrite M_lift_Ok, collect_table.
  2: { rewrite <-list_fmap_compose. apply NoDup_fmap_2; [intros x y; simpl; lia|apply NoDup_seqZ]. }
  fold (test_signer_key_ids n k). rewrite (create_public_keys_eq iter Hiter n k Hn Hk Hnk sks Hsks), M_lift_Ok.
  cbv zeta. rewrite (config_new_eq iter Hiter n k Hn Hk Hnk sks Hsks), M_lift_Ok by done.
  rewrite (mapR_fmap _ (test_config iter n k sks t url c)) by (intros; by apply config_new_eq).
  by rewrite M_lift_Ok, (signers_eq iter n k Hn Hk Hnk sks Hsks), M_lift_Ok.
Qed.

(** ** The processes *)

(** A signer process as it starts: its round and the generator it goes on with. *)
Definition starts (fs : FrostSigner) (rng : Rng) (s : SigningRound * Rng) : Prop :=
  SigningRound_from (E := SigningRoundError) fs rng = (s.2, Ok s.1).

(** The signer with id [e.1] and key [e.2] before its first round. *)
Record fresh (pks : PublicKeys) (e : Z * Scalar) (s : SigningRound * Rng) : Prop := {
  fr_id : node_id s = e.1;
  fr_keys : key_ids s = seqZ (k * (e.1 - 1)) k;
  fr_total : SigningRound.total_keys s.1 = k * n;
  fr_num : num_keys (frost_signer (signer s.1)) = k * n;
  fr_state : state s.1 = Idle;
  fr_public : sr_public_keys s.1 = pks;
  fr_private : sr_network_private_key s.1 = e.2
}.

Section Started.
Context (sks : list Scalar) (Hsks : Z.of_nat (length sks) = n) (c : Scalar).
Abbreviation config := (test_config iter n k sks t url c).

Lemma signer_starts (i : Z) (sk : Scalar) rng : 1 <= i <= n ->
  exists s, starts (FrostSigner_new (config sk) i) rng s /\ fresh (test_public_keys iter n k sks) (i, sk) s.
Proof.
  intros Hi. unfold starts, SigningRound_from, FrostSigner_new. cbn [fs_signer_id fs_config test_config cfg_total_signers
    cfg_signer_key_ids cfg_keys_threshold cfg_total_keys cfg_network_private_key cfg_public_keys].
  rewrite (proj2 (Z.ltb_lt 0 i)), (proj2 (Z.leb_le i n)), (proj2 (Z.leb_le t (k * n))) by lia. cbn [andb negb].
  assert (test_signer_key_ids n k !! i = Some (seqZ (k * (i - 1) + 1) k)) as ->.
  { replace i with (i - 1 + 1) at 1 by lia. apply signer_key_ids_lookup; lia. }
  cbn [unwrap]. rewrite res_bind_Ok.
  rewrite (mapR_fmap _ (Z.add (-1))).
  2: { intros j Hj%elem_of_seqZ. assert (k * i <= k * n) by nia. assert (0 <= k * (i - 1)) by nia.
       unfold usub. rewrite checked_small by (unfold in_uint; lia). f_equal. lia. }
  rewrite fmap_add_seqZ. destruct (signer_new _ _ _ _ rng) as [w rng'] eqn:Hw.
  pose proof (new_key_ids i (seqZ (-1 + (k * (i - 1) + 1)) k) (k * n) t rng) as Hids.
  pose proof (new_num_keys i (seqZ (-1 + (k * (i - 1) + 1)) k) (k * n) t rng) as Hnum.
  rewrite Hw in Hids, Hnum. eexists (_, rng'). split; [reflexivity|].
  split; try done.
  - unfold key_ids. simpl in *. rewrite Hids. f_equal. lia.
Qed.

Lemma fresh_cluster (nodes : list (SigningRound * Rng)) :
  Forall2 (fresh (test_public_keys iter n k sks)) (zip (seqZ 1 n) sks) nodes ->
  cluster nodes (k * n) /\ node_id <$> nodes = seqZ 1 n.
Proof.
  intros Hnodes.
  assert ((zip (seqZ 1 n) sks).*1 = seqZ 1 n) as Hids by (apply fst_zip; rewrite length_seqZ; lia).
  assert (node_id <$> nodes = seqZ 1 n) as Hnid.
  { rewrite <-Hids. clear Hids. induction Hnodes as [|e s l nodes He _ IH]; [done|]. by rewrite !fmap_cons, IH, (fr_id _ _ _ He). }
  assert (forall s, s ∈ nodes -> exists i sk, fresh (test_public_keys iter n k sks) (i, sk) s /\
    1 <= i /\ sks !! Z.to_nat (i - 1) = Some sk) as Hnode.
  { intros s [j Hj]%list_elem_of_lookup. destruct (Forall2_lookup_r _ _ _ _ _ Hnodes Hj) as ([i sk] & He & Hf).
    apply lookup_zip_with_Some in He as (? & ? & [= <- <-] & [-> _]%lookup_seqZ & Hsk).
    eexists _, sk. split; [exact Hf|]. split; [lia|]. rewrite <-Hsk. f_equal. lia. }
  split; [|done]. split.
  - assert (0 < k * n) by nia. lia.
  - replace (nodes ≫= key_ids) with (seqZ 1 n ≫= (fun i => seqZ (k * (i - 1) + 0) k)).
    + rewrite blocks by lia. by replace (k * (1 - 1) + 0) with 0 by lia.
    + rewrite <-Hnid, fmap_bind. apply bind_ext_in. intros s (i & sk & Hf & _)%Hnode.
      rewrite (fr_keys _ _ _ Hf), (fr_id _ _ _ Hf). f_equal. simpl. lia.
  - intros s (i & sk & Hf & _)%Hnode. split; [apply Hf|]. split; [apply Hf|]. by rewrite (fr_state _ _ _ Hf).
  - intros s s' x (i & sk & Hf & _)%Hnode (i' & sk' & Hf' & Hi' & Hsk')%Hnode Hx.
    rewrite (fr_keys _ _ _ Hf'), elem_of_seqZ in Hx. simpl in Hx.
    rewrite (fr_public _ _ _ Hf), (fr_private _ _ _ Hf').
    eapply key_id_registered; try eassumption. lia.
Qed.
End Started.

(** ** Runs against honest signers *)
Section Passing.
Context {WA : WstsAggregator} {WS : WstsSignLaws} {N : Type} {NL : NetListen N} {BO : Backoff} {DN : DeliveringNet (N := N)}.
Context (fuel : nat) (network_of : Spawned -> N) (reconnect : Spawned -> N -> N).
Context (Hretry : backoff_attempts <> O) (rng : Rng).

Abbreviation first_dkg := {| db_dkg_id := 1 |}.

(** Signers that started from the spawned configurations. *)
Definition started (sp : Spawned) (nodes : list (SigningRound * Rng)) : Prop := exists rngs,
  length rngs = length (sp_signers sp) /\ Forall2 (fun p s => starts p.1 p.2 s) (zip (sp_signers sp) rngs) nodes.

(** The log of a key generation of signers in the given states and of a signing
    round for nonce requests that name the key generation [d]. *)
Record session_log (nodes : list (SigningRound * Rng)) (d : Z) (m : bytes) (shares ends l : list Message)
    (segs : list (list Message)) (final sh : list Message) : Prop := {
  sl_log : round_log nodes first_dkg shares ends l;
  sl_even : point_has_even_y (group_key 1 nodes) = true;
  sl_key : group_key 1 nodes <> point_default;
  sl_nonces : nonce_log {| nr_dkg_id := d; nr_sign_id := 1; nr_sign_nonce_id := 1 |} m
    (after (dkg_log first_dkg shares ends l) <$> nodes) segs final;
  sl_shares : share_round m
    {| ssr_dkg_id := d; ssr_sign_id := 1; ssr_correlation_id := 0;
       ssr_nonce_responses := btree_values (nonce_table final); ssr_message := m |}
    (after_rounds (S (length segs)) <$> (after (dkg_log first_dkg shares ends l) <$> nodes)) sh;
}.

(** What a network replays: any number of attempts of the started signers whose key
    has an odd y, then such a log of the signers in the states after them. *)
Definition honest_network (d : Z) (m : bytes) (sp : Spawned) : Prop :=
  exists nodes0 atts nodes shares ends l segs final sh rest sent, started sp nodes0 /\
    attempted_with first_dkg nodes0 atts nodes /\
    session_log nodes d m shares ends l segs final sh /\
    (length ((atts ≫= attempt_log) ++ shares ++ ends ++ l ++ concat segs ++ final ++ sh) < fuel)%nat /\
    net_pending (network_of sp)
      ((atts ≫= attempt_log) ++ shares ++ ends ++ l ++ concat segs ++ final ++ sh ++ rest) sent.

Section Coordinator.
Context (sks : list Scalar) (Hsks : Z.of_nat (length sks) = n) (c : Scalar).
Abbreviation spawned := {|
  sp_config := test_config iter n k sks t url c c;
  sp_listen := HttpNetListen_new (HttpNet_new url) [];
  sp_relay := strip_http url;
  sp_signers := test_signers iter n k sks t url c |}.

Lemma started_cluster (nodes : list (SigningRound * Rng)) :
  started spawned nodes -> cluster nodes (k * n) /\ node_id <$> nodes = seqZ 1 n.
Proof.
  intros (rngs & Hrngs & Hnodes). apply (fresh_cluster sks Hsks).
  simpl in Hrngs, Hnodes. unfold test_signers in *. rewrite length_fmap in Hrngs.
  assert (forall e, e ∈ zip (seqZ 1 n) sks -> 1 <= e.1 <= n) as Hin.
  { intros [i sk] He%elem_of_zip_l. apply elem_of_seqZ in He. simpl. lia. }
  revert rngs nodes Hrngs Hnodes Hin. generalize (zip (seqZ 1 n) sks). intros es.
  induction es as [|[i sk] es IH]; intros [|g rngs] nodes Hrngs Hnodes Hin; try done.
  - inversion Hnodes. constructor.
  - rewrite fmap_cons in Hnodes. simpl in Hnodes. apply Forall2_cons_inv_l in Hnodes as (s & nodes' & Hs & Hnodes & ->).
    constructor.
    + destruct (signer_starts sks c i sk g) as (s' & Hs' & Hf); [apply (Hin (i, sk)); by left|].
      unfold starts in *. simpl in *. rewrite Hs' in Hs. injection Hs as E2 E1.
      destruct s, s'. simpl in *. by subst.
    + apply (IH rngs); [by injection Hrngs|done|]. intros e He. apply Hin. by right.
Qed.

Abbreviation coordinator := {|
  id := DEVNET_COORDINATOR_ID; current_dkg_id := 0; current_dkg_public_id := 0; current_sign_id := 1;
  current_sign_nonce_id := 1; FrostCoordinator.total_signers := n; FrostCoordinator.total_keys := k * n;
  FrostCoordinator.threshold := t; network := network_of spawned; dkg_public_shares := ∅; public_nonces := ∅;
  signature_shares := ∅; aggregate_public_key := point_default; co_network_private_key := c;
  public_key := pk_of c |}.

(** The coordinator of a test generates a key.  A coordinator that holds the key and
    the shares and requests nonces for the key generation [d] then signs. *)
Lemma test_dkg (d : Z) m : honest_network d m spawned -> exists key t n1,
  run_distributed_key_generation fuel coordinator = (set_network n1 (with_key key t coordinator), Ok key) /\
  forall n2, (forall l sent, net_pending n1 l sent -> net_pending n2 l sent) ->
    exists c2 sig proof, sign_message fuel m (set_network n2 (set_aggregate_public_key key
        (set_dkg_public_shares t (set_current_dkg_id d coordinator)))) = (c2, Ok (sig, proof)) /\
      schnorr_verify proof (point_x key) m = true.
Proof.
  intros (nodes0 & atts & nodes & shares & ends & l & segs & final & sh & rest & sent & Hst & Hatts &
    [Hlog Heven Hkey Hnl Hsh] & Hfuel & Hnet).
  destruct (started_cluster nodes0 Hst) as [Hc0 Hids0].
  assert (node_id <$> nodes0 ≡ₚ seqZ 1 n) as Hids' by by rewrite Hids0.
  destruct (attempted_nodes _ _ _ _ _ _ Hatts Hc0 Hids') as (Hc & Hids & _).
  assert (forall h, is_Some (ecdsa_sign h c)) as Hsign by (intros; apply ecdsa_sign_total).
  destruct (coordinator_completes nodes0 nodes (k * n) atts shares ends l (concat segs ++ final ++ sh ++ rest) sent fuel
    coordinator) as (n1 & out & Hdkg & Hp & _); try done.
  { rewrite !length_app in Hfuel. rewrite !length_app. lia. }
  eexists _, _, n1. split; [exact Hdkg|]. intros n2 Hn2.
  destruct (keyed_round nodes (k * n) first_dkg shares ends l segs final sh rest (sent ++ out) fuel m
    (set_network n2 (set_aggregate_public_key (group_key 1 nodes) (set_dkg_public_shares (share_table 1 nodes)
      (set_current_dkg_id d coordinator))))) as (c2 & out2 & sg & proof & Hs & Hv & _); try done.
  - by apply Hn2.
  - rewrite !length_app in Hfuel. rewrite !length_app. lia.
  - eauto.
Qed.

Lemma test_session m : honest_network 1 m spawned ->
  exists key c1 c2 sig proof,
    run_distributed_key_generation fuel coordinator = (c1, Ok key) /\
    sign_message fuel m c1 = (c2, Ok (sig, proof)) /\ schnorr_verify proof (point_x key) m = true.
Proof.
  intros (key & t' & n1 & Hdkg & Hs)%test_dkg. destruct (Hs n1) as (c2 & sig & proof & Hm & Hv); [done|].
  exists key. eexists _, c2, sig, proof. split; [exact Hdkg|]. split; [exact Hm|done].
Qed.

(** The same, with a new coordinator that is given the key and the shares. *)
Lemma test_restart m :
  (forall n1 l sent, net_pending n1 l sent -> net_pending (reconnect spawned n1) l sent) ->
  honest_network 0 m spawned ->
  exists key c1 c2 sig proof,
    run_distributed_key_generation fuel coordinator = (c1, Ok key) /\
    sign_message fuel m (set_dkg_public_shares (FrostCoordinator.dkg_public_shares c1)
      (set_aggregate_public_key key (set_network (reconnect spawned (network c1)) coordinator))) =
      (c2, Ok (sig, proof)) /\ schnorr_verify proof (point_x key) m = true.
Proof.
  intros Hre (key & t' & n1 & Hdkg & Hs)%test_dkg.
  destruct (Hs (reconnect spawned n1) (Hre n1)) as (c2 & sig & proof & Hm & Hv).
  exists key. eexists _, c2, sig, proof. split; [exact Hdkg|]. split; [exact Hm|done].
Qed.
End Coordinator.
End Passing.
End Spawned.

(** ** The tests pass

    On an environment that gives [n] signers with [k] keys each and a threshold of
    [t]; without one these are 6, 3 and 15. *)
Section Pass.
Context {CP : P256k1} {WP : Wsts} {BP : BuildProfile} {KT : KeyTools} {CL : P256k1Laws} {TT : TestTools} {TL : TestToolsLaws}
  {WL : WstsLaws} {NEW : SignerNewLaws} {WA : WstsAggregator} {WS : WstsSignLaws} {N : Type} {NL : NetListen N}
  {BO : Backoff} {DN : DeliveringNet (N := N)}.
Context (iter : gmap Z PublicKey -> list (Z * PublicKey)) (Hiter : forall m, iter m ≡ₚ map_to_list m).
Context (env : gmap string string) (n k t : Z) (Hn : 0 < n) (Hk : 0 < k) (Hnk : k * n < 2 ^ 32) (Ht : 0 < t <= k * n).
Context (Hpn : forall E, parse_env (E := E) u32_from_str env "num_signers" 6 = Ok n)
  (Hpk : forall E, parse_env (E := E) u32_from_str env "keys_per_signer" 3 = Ok k)
  (Hpt : forall E, parse_env (E := E) u32_from_str env "keys_threshold" 15 = Ok t).
Context (fuel : nat) (network_of : Spawned -> N) (reconnect : Spawned -> N -> N) (Hretry : backoff_attempts <> O).

(** Spawning succeeds, the signers start and form a cluster in which the
    coordinator's configuration counts them. *)
Theorem spawned_cluster (url : string) (rng : Rng) :
  exists rng' sp, spawn_processes_and_get_config (E := Empty_set) iter env url rng = (rng', Ok sp) /\
    cfg_total_signers (sp_config sp) = n /\ cfg_total_keys (sp_config sp) = k * n /\
    cfg_keys_threshold (sp_config sp) = t /\ http_relay_url (net (sp_listen sp)) = url /\
    (forall fs g, fs ∈ sp_signers sp -> exists s, starts fs g s) /\
    (forall nodes, started sp nodes -> cluster nodes (k * n) /\ node_id <$> nodes = seqZ 1 n).
Proof.
  destruct (spawn_eq (E := Empty_set) iter Hiter env url n k t Hn Hk Hnk Ht Hpn Hpk Hpt rng) as (rng' & c & sks & Hsks & Hsp).
  eexists rng', _. split; [exact Hsp|]. split_and!; try done.
  - intros fs g ([i sk] & -> & He%elem_of_zip_l)%list_elem_of_fmap. apply elem_of_seqZ in He.
    destruct (signer_starts iter url n k t Hk Hnk Ht sks c i sk g) as (s & Hs & _); [lia|by exists s].
  - intros nodes Hst. eapply started_cluster; eassumption.
Qed.

(** A network is honest for a test when it is with whatever it spawns. *)
Definition honest_for (d : Z) (m : bytes) (url : string) (rng : Rng) : Prop := forall rng' sp,
  spawn_processes_and_get_config (E := Empty_set) iter env url rng = (rng', Ok sp) ->
  honest_network fuel network_of d m sp.

Lemma able_to_run_dkg_sign_passes (rng : Rng) :
  honest_for 1 [0; 1; 2; 3] "http://127.0.0.1:9776" rng ->
  passes (run_test rng (able_to_run_dkg_sign iter env fuel network_of)).
Proof.
  intros Hhon. destruct (spawn_eq (E := Empty_set) iter Hiter env "http://127.0.0.1:9776" n k t Hn Hk Hnk Ht Hpn Hpk Hpt rng)
    as (rng' & c & sks & Hsks & Hsp).
  destruct (test_session iter Hiter "http://127.0.0.1:9776" n k t Hn Hk Hnk Ht fuel network_of Hretry sks Hsks c _
    (Hhon _ _ Hsp)) as (key & c1 & c2 & sig & proof & Hdkg & Hs & _).
  unfold passes, run_test, able_to_run_dkg_sign. rewrite (M_step _ _ _ _ _ Hsp). unfold test_coordinator, Coordinator_new.
  rewrite M_lift_Ok. unfold lift, with_unwrap, FrostCoordinator.run. simpl snd.
  erewrite M_step; [|exact Hdkg]. erewrite M_step; [|exact Hs]. done.
Qed.

(** In the two other tests the proof, at which they do not look, is valid. *)
Lemma valid_signatures_after_dkg_true (rng : Rng) :
  honest_for 1 [1; 3; 3; 7] "http://127.0.0.1:9777" rng ->
  (valid_signatures_after_dkg iter env fuel network_of rng).2 = Ok true.
Proof.
  intros Hhon. destruct (spawn_eq (E := Empty_set) iter Hiter env "http://127.0.0.1:9777" n k t Hn Hk Hnk Ht Hpn Hpk Hpt rng)
    as (rng' & c & sks & Hsks & Hsp).
  destruct (test_session iter Hiter "http://127.0.0.1:9777" n k t Hn Hk Hnk Ht fuel network_of Hretry sks Hsks c _
    (Hhon _ _ Hsp)) as (key & c1 & c2 & sig & proof & Hdkg & Hs & Hv).
  unfold valid_signatures_after_dkg. rewrite (M_step _ _ _ _ _ Hsp). unfold test_coordinator, Coordinator_new.
  rewrite M_lift_Ok. unfold lift. simpl snd.
  erewrite M_step; [|unfold with_unwrap; rewrite Hdkg; reflexivity].
  erewrite M_step; [|unfold with_unwrap; rewrite Hs; reflexivity]. by rewrite <-Hv.
Qed.

Lemma valid_signatures_after_restart_true (rng : Rng) :
  honest_for 0 [1; 3; 3; 7] "http://127.0.0.1:9778" rng ->
  (forall sp n1 l sent, net_pending n1 l sent -> net_pending (reconnect sp n1) l sent) ->
  (valid_signatures_after_restart iter env fuel network_of reconnect rng).2 = Ok true.
Proof.
  intros Hhon Hre. destruct (spawn_eq (E := Empty_set) iter Hiter env "http://127.0.0.1:9778" n k t Hn Hk Hnk Ht Hpn Hpk Hpt rng)
    as (rng' & c & sks & Hsks & Hsp).
  destruct (test_restart iter Hiter "http://127.0.0.1:9778" n k t Hn Hk Hnk Ht fuel network_of reconnect Hretry sks Hsks c _
    (Hre _) (Hhon _ _ Hsp)) as (key & c1 & c2 & sig & proof & Hdkg & Hs & Hv).
  unfold valid_signatures_after_restart. rewrite (M_step _ _ _ _ _ Hsp). unfold test_coordinator, Coordinator_new.
  rewrite M_lift_Ok. cbv zeta. cbn [sp_config test_config cfg_total_signers cfg_total_keys cfg_keys_threshold
    cfg_network_private_key cfg_coordinator_public_key]. rewrite Hdkg. cbn [unwrap_ok]. rewrite !M_lift_Ok.
  cbn [set_network set_aggregate_public_key set_dkg_public_shares] in *.
  unfold lift. simpl snd. erewrite M_step; [|unfold with_unwrap; rewrite Hs; reflexivity]. by rewrite <-Hv.
Qed.

End Pass.

(** ** Two signers with a key each on the executable cryptography *)
Module CoordinatorTestsWitness.
Import ToyCrypto.
Import ScriptNet.
Import DkgToy.
Import SignToy.
Import FrostTestsWitness.
#[local] Instance three_attempts : Backoff := 3%nat.

#[local] Program Instance toy_new_laws : SignerNewLaws.
Next Obligation. done. Qed.
Next Obligation. done. Qed.

Definition two_signers : gmap string string :=
  {["num_signers" := "2"; "keys_per_signer" := "1"; "keys_threshold" := "2"]}%string.
Definition node_of (fs : FrostSigner) : option (SigningRound * Rng) :=
  match SigningRound_from (E := SigningRoundError) fs 0 with
  | (rng, Ok s) => Some (s, rng)
  | _ => None
  end.
Definition posted (m : MessageTypes) : Message := {| msg := m; sig := [] |}.

Section Log.
Context (nodes : list (SigningRound * Rng)) (d : Z) (m : bytes).
Definition one : DkgBegin := {| db_dkg_id := 1 |}.
Definition shares : list Message := posted <$> (nodes ≫= answers [MDkgBegin one]).
Definition ends : list Message := posted <$> ((fun s => public_end 1 s.1) <$> nodes).
Definition private_log : list Message :=
  posted <$> ((nodes ≫= (fun s => answers [MDkgPrivateBegin one] (after (MDkgBegin one :: (msg <$> shares ++ ends)) s))) ++
              ((fun s => success 1 s.1) <$> nodes)).
Definition ready : list (SigningRound * Rng) := after (dkg_log one shares ends private_log) <$> nodes.
Definition nr : NonceRequest := {| nr_dkg_id := d; nr_sign_id := 1; nr_sign_nonce_id := 1 |}.
Definition nonces : list Message := posted <$> (MNonceResponse <$> (nonce_answer nr <$> ready)).
Definition req : SignatureShareRequest :=
  {| ssr_dkg_id := d; ssr_sign_id := 1; ssr_correlation_id := 0;
     ssr_nonce_responses := btree_values (nonce_table nonces); ssr_message := m |}.
Definition sig_shares : list Message :=
  posted <$> (MSignShareResponse <$> (share_answer m req <$> (after_rounds 1 <$> ready))).
Definition log : list Message := shares ++ ends ++ private_log ++ nonces ++ sig_shares.
End Log.

(** The two signers: key ids 0 and 1, private keys 1 and 2. *)
Definition start_node (sk i : Z) : option (SigningRound * Rng) :=
  node_of (FrostSigner_new (test_config map_to_list 2 1 [1; 2] 2 "" 0 sk) i).
Definition nodes0 : list (SigningRound * Rng) := omap (fun p => start_node p.1 p.2) [(1, 1); (2, 2)].

Definition spawned_signers (url : string) : option (string * list FrostSigner) :=
  match (spawn_processes_and_get_config (E := Empty_set) map_to_list two_signers url 0).2 with
  | Ok sp => Some (cfg_http_relay_url (sp_config sp), sp_signers sp)
  | _ => None
  end.

Lemma spawned_signers_eq (url : string) : url ∈ ["http://127.0.0.1:9776"; "http://127.0.0.1:9777"; "http://127.0.0.1:9778"] ->
  spawned_signers url = Some (url, test_signers map_to_list 2 1 [1; 2] 2 url 0).
Proof. intros H. repeat (apply elem_of_cons in H as [-> | H]; [vm_compute; reflexivity|]). by apply elem_of_nil in H. Qed.

Lemma started_nodes (url : string) sp :
  sp_signers sp = test_signers map_to_list 2 1 [1; 2] 2 url 0 -> started sp nodes0.
Proof.
  intros Hsp. exists [0; 0]. rewrite Hsp. split; [done|]. repeat constructor; reflexivity.
Qed.

Lemma msg_of_posted (l : list MessageTypes) : msg <$> (posted <$> l) = l.
Proof. rewrite <-list_fmap_compose. apply list_fmap_id. Qed.

Lemma closed_fmap {A B : Type} (get : Message -> option B) (f : A -> Message) (pre : list Message) (l : list A) :
  l <> [] -> (forall a, is_Some (get (f a))) -> closed_by get (pre ++ (f <$> l)).
Proof.
  intros Hl Hf. induction l as [|a l _] using rev_ind; [done|].
  exists (pre ++ (f <$> l)), (f a). by rewrite fmap_app, app_assoc.
Qed.

Lemma two_nodes : nodes0 <> [].
Proof. discriminate. Qed.

Lemma two_signers_log : round_log nodes0 one (shares nodes0) (ends nodes0) (private_log nodes0).
Proof.
  split; [split| |].
  - unfold shares. by rewrite msg_of_posted.
  - unfold ends. by rewrite msg_of_posted.
  - unfold private_log. by rewrite msg_of_posted.
  - unfold private_log. rewrite fmap_app, <-(list_fmap_compose _ posted). apply closed_fmap; [apply two_nodes|by eexists].
Qed.

(** The key generation named by the requests and the message of each test. *)
Definition sessions : list (string * (Z * bytes)) :=
  [("http://127.0.0.1:9776", (1, [0; 1; 2; 3])); ("http://127.0.0.1:9777", (1, [1; 3; 3; 7]));
   ("http://127.0.0.1:9778", (0, [1; 3; 3; 7]))]%string.

Lemma nonces_round (d : Z) : nonce_round (nr d) (ready nodes0) (nonces nodes0 d).
Proof.
  split_and!; [|by repeat constructor|reflexivity].
  unfold nonces, ready. rewrite <-!list_fmap_compose. apply (closed_fmap _ _ []); [apply two_nodes|by eexists].
Qed.

Lemma shares_round (d : Z) (m : bytes) :
  share_round m (req nodes0 d m) (after_rounds 1 <$> ready nodes0) (sig_shares nodes0 d m).
Proof.
  split_and!; [|by repeat constructor|reflexivity].
  unfold sig_shares, ready. rewrite <-!list_fmap_compose. apply (closed_fmap _ _ []); [apply two_nodes|by eexists].
Qed.

Lemma toy_session (url : string) (d : Z) (m : bytes) : (url, (d, m)) ∈ sessions ->
  session_log nodes0 d m (shares nodes0) (ends nodes0) (private_log nodes0) [] (nonces nodes0 d) (sig_shares nodes0 d m).
Proof.
  intros Hs. split; [apply two_signers_log|run|by vm_compute|split; [apply nonces_round|]|apply shares_round].
  repeat (apply elem_of_cons in Hs as [[= -> -> ->] | Hs]); [run..|by apply elem_of_nil in Hs].
Qed.

Lemma toy_fuel (url : string) (d : Z) (m : bytes) : (url, (d, m)) ∈ sessions ->
  (length (log nodes0 d m) < 20)%nat.
Proof.
  intros Hs. repeat (apply elem_of_cons in Hs as [[= -> -> ->] | Hs]); [apply Nat.ltb_lt; run..|by apply elem_of_nil in Hs].
Qed.

(** The network of a test delivers its log. *)
Definition network_of (sp : Spawned) : Script :=
  let '(d, m) := default (0, []) (snd <$> List.find (fun s => String.eqb s.1 (cfg_http_relay_url (sp_config sp))) sessions) in
  script (Some <$> log nodes0 d m).

Lemma toy_honest (url : string) (d : Z) (m : bytes) : (url, (d, m)) ∈ sessions ->
  honest_for map_to_list two_signers 20 network_of d m url 0.
Proof.
  intros Hs rng' sp Hsp.
  assert (spawned_signers url = Some (cfg_http_relay_url (sp_config sp), sp_signers sp)) as Hsig
    by (unfold spawned_signers; by rewrite Hsp).
  rewrite (spawned_signers_eq url) in Hsig by (apply (list_elem_of_fmap_2 fst) in Hs; exact Hs).
  injection Hsig as Hurl Hsig.
  exists nodes0, [], nodes0, (shares nodes0), (ends nodes0), (private_log nodes0), [], (nonces nodes0 d), (sig_shares nodes0 d m), [], [].
  split; [by eapply started_nodes|]. split; [constructor|]. split; [by eapply toy_session|]. split; [by eapply toy_fuel|].
  assert (network_of sp = script (Some <$> log nodes0 d m)) as ->.
  { unfold network_of. rewrite <-Hurl. clear -Hs.
    repeat (apply elem_of_cons in Hs as [[= -> -> ->] | Hs]); [reflexivity..|by apply elem_of_nil in Hs]. }
  rewrite app_nil_r. by split.
Qed.

End CoordinatorTestsWitness.
