(* ===== verification/PureFrost.v ===== *)
(** * The tests of [frost-test]

    [lib.rs] runs a key generation among [wsts]'s parties and selects signers at
    random; [v1.rs] makes a signer, [sync_test.rs] signing rounds and a relay
    server.  [v1::Party] and its errors are external: [WstsParty], with
    [WstsPartyLaws] for what the key generation relies on. *)
From S2P Require Import Prelude UnitTest Crypto FrostUtil FrostConfig Messages Http Relay SigningRound DkgRound SignRound CoordinatorTests.

(** [wsts::v1::Party]; [next_u64] is the random number generator's. *)
Class WstsParty `{WP : Wsts} := {
  Party : Type;
  DkgError : Type;
  party_new : Z -> Z -> Z -> Rng -> Party * Rng;
  party_gen_nonce : Party -> Rng -> Party * PublicNonce * Rng;
  party_commitment : Party -> Rng -> PolyCommitment * Rng;             (* get_poly_commitment *)
  party_shares : Party -> gmap Z Scalar;                               (* get_shares *)
  party_compute_secret : Party -> gmap Z Scalar -> list PolyCommitment -> Party * option DkgError;
  next_u64 : Rng -> Z * Rng
}.

Section PureFrost.
Context {CP : P256k1} {WP : Wsts} {WA : WstsAggregator} {BP : BuildProfile} {PT : WstsParty}.
Implicit Types (parties : list Party) (A : list PolyCommitment).

(** ** [distribute] *)

(** The shares of all parties for party [i]. *)
Definition shares_for {E : Type} (broadcast_shares : list (gmap Z Scalar)) (i : Z) : res E (gmap Z Scalar) :=
  h ← mapR (fun j => shares ← unwrap (broadcast_shares !! Z.to_nat j);
                     share ← unwrap (shares !! as_u32 i); mret (as_u32 j, share))
    (seqZ 0 (Z.of_nat (length broadcast_shares)));
  mret (collect h).

Definition compute_secret_of (broadcast_shares : list (gmap Z Scalar)) A parties (i : Z) : res DkgError (list Party) :=
  h ← shares_for broadcast_shares i;
  party ← unwrap (parties !! Z.to_nat i);
  let '(party', e) := party_compute_secret party h A in
  match e with
  | None => Ok (<[Z.to_nat i := party']> parties)
  | Some e => Err e
  end.

Definition distribute parties A : res DkgError (list Party) :=
  let broadcast_shares := party_shares <$> parties in
  foldM (compute_secret_of broadcast_shares A) parties (seqZ 0 (Z.of_nat (length parties))).

(** ** [select_parties] *)

(** [Vec::swap_remove]: the last element takes the place of the removed one. *)
Definition swap_remove {E A : Type} (l : list A) (i : nat) : res E (list A) :=
  x ← unwrap (last l);
  if (i <? length l)%nat then Ok (take (length l - 1) (<[i := x]> l)) else Panic.

Fixpoint select_loop {E : Type} (fuel : nat) (T : Z) (indices : list Z) : M Rng E (list Z) :=
  if Z.of_nat (length indices) <=? T then mret indices
  else
    match fuel with
    | O => lift Diverge
    | S fuel' =>
        x ← (fun rng => let '(x, rng') := next_u64 rng in (rng', Ok x));
        len ← lift (u32_try_from (Z.of_nat (length indices)));
        indices ← lift (swap_remove indices (Z.to_nat (as_u32 x mod len)));
        select_loop fuel' T indices
    end.

Definition select_parties {E : Type} (N T : Z) : M Rng E (list Z) := select_loop (Z.to_nat N) T (seqZ 0 N).

(** ** [pure_frost] *)
Fixpoint with_rng {E A B : Type} (f : A -> Rng -> B * Rng) (l : list A) : M Rng E (list B) :=
  match l with
  | [] => mret []
  | a :: l' => b ← (fun rng => let '(b, rng') := f a rng in (rng', Ok b)); bs ← with_rng f l'; mret (b :: bs)
  end.

Definition pure_frost : M Rng Empty_set unit :=
  let N := 10 in
  twice ← lift (umul 32 N 2);
  let T := twice / 3 in
  parties ← with_rng (fun i => party_new i N T) (seqZ 0 N);
  parties ← with_rng (fun p rng => let '(p', _, rng') := party_gen_nonce p rng in (p', rng')) parties;
  commitments ← with_rng party_commitment parties;
  parties ← lift (unwrap_ok (distribute parties commitments));
  lift (unwrap_ok (of_call (aggregator_new N T commitments))) ;;
  for_each (fun _ => select_parties N T ;; mret tt) (seqZ 0 7).

(** ** [v1.rs] *)
Definition signer_test : M Rng Empty_set unit :=
  let ids := [1; 2; 3] in
  let n := 10 in
  let t := 7 in
  signer ← (fun rng => let '(s, rng') := signer_new 1 ids n t rng in (rng', Ok s));
  lift (assert_eq (length (signer_get_key_ids signer)) (length ids)) ;;
  signer ← (fun rng => let '(s, _, rng') := signer_gen_nonces signer rng in (rng', Ok s));
  nonces ← (fun rng => let '(_, nonces, rng') := signer_gen_nonces signer rng in (rng', Ok nonces));
  lift (assert_eq (length nonces) (length ids)).

(** ** [sync_test.rs] *)
Definition new_round (scalar_default : Scalar) (ids : list Z) : M Rng Empty_set SigningRound :=
  SigningRound_new 7 5 10 0 ids scalar_default PublicKeys_default.

Definition template_test {HO : HeaderOrder} (scalar_default : Scalar) : M Rng Empty_set unit :=
  new_round scalar_default [0; 1] ;; new_round scalar_default [2; 3] ;;
  new_round scalar_default [4; 5; 6; 7; 8] ;; new_round scalar_default [10] ;;
  let request := Request_new POST (str "/") ∅ (str "Hello!") in
  lift (response ← unwrap_ok (Server_call request {| server_state := MemState_default |}).2;
        assert_eq (rs_code response) 200).
End PureFrost.

(** ** Selecting parties *)
Section Select.
Context {CP : P256k1} {WP : Wsts} {BP : BuildProfile} {PT : WstsParty}.

Lemma swap_remove_perm {E A : Type} (l : list A) (i : nat) (y : A) :
  l !! i = Some y -> exists l', swap_remove (E := E) l i = Ok l' /\ y :: l' ≡ₚ l.
Proof.
  intros Hi. pose proof (lookup_lt_Some _ _ _ Hi) as Hlt.
  destruct l as [|x l _] using rev_ind; [done|]. unfold swap_remove. rewrite last_snoc.
  rewrite (proj2 (Nat.ltb_lt _ _)) by done. cbn [unwrap]. eexists. split; [reflexivity|].
  rewrite length_app, Nat.add_sub in *. simpl in Hlt.
  destruct (decide (i = length l)) as [->|Hne].
  - rewrite list_lookup_middle in Hi by done. injection Hi as ->.
    rewrite insert_app_r_alt by done. rewrite take_app_le by done. rewrite take_ge by done. solve_Permutation.
  - rewrite lookup_app_l in Hi by lia. rewrite insert_app_l by lia.
    rewrite take_app_le by (rewrite length_insert; lia). rewrite take_ge by (rewrite length_insert; lia).
    rewrite (delete_Permutation l i y Hi) at 2. rewrite insert_take_drop by lia.
    rewrite delete_take_drop. solve_Permutation.
Qed.

Lemma select_loop_spec {E : Type} (fuel : nat) (T : Z) (indices : list Z) rng :
  0 <= T -> Z.of_nat (length indices) < 2 ^ 32 -> (length indices <= fuel)%nat ->
  exists rng' out removed, select_loop (E := E) fuel T indices rng = (rng', Ok out) /\
    Z.of_nat (length out) = Z.min T (Z.of_nat (length indices)) /\ removed ++ out ≡ₚ indices.
Proof.
  intros HT. revert indices rng. induction fuel as [|fuel IH]; intros indices rng Hlen Hfuel; simpl.
  - rewrite (proj2 (Z.leb_le _ _)) by lia. exists rng, indices, []. split_and!; [done|lia|done].
  - destruct (Z.leb_spec (Z.of_nat (length indices)) T).
    + exists rng, indices, []. split_and!; [done|lia|done].
    + rewrite M_bind_eq. destruct (next_u64 rng) as [x rng1]. rewrite M_bind_eq.
      unfold u32_try_from. rewrite bool_decide_true by (unfold in_uint; lia). unfold lift at 1. rewrite M_bind_eq.
      pose proof (Z.mod_pos_bound (as_u32 x) (Z.of_nat (length indices)) ltac:(lia)) as Hx.
      destruct (lookup_lt_is_Some_2 indices (Z.to_nat (as_u32 x mod Z.of_nat (length indices)))) as [y Hy]; [lia|].
      destruct (swap_remove_perm (E := E) _ _ _ Hy) as (l' & Hl' & Hp). rewrite Hl'. unfold lift at 1.
      apply Permutation_length in Hp as Hl. simpl in Hl.
      destruct (IH l' rng1) as (rng' & out & removed & Hr & Hout & Hperm); [lia..|].
      exists rng', out, (y :: removed). split_and!; [exact Hr|lia|]. simpl. by rewrite Hperm.
Qed.

(** The selection ends, with [T] different parties out of [N] (all of them when
    there are fewer). *)
Theorem select_parties_spec {E : Type} (N T : Z) rng : 0 <= N < 2 ^ 32 -> 0 <= T ->
  exists rng' out, select_parties (E := E) N T rng = (rng', Ok out) /\
    Z.of_nat (length out) = Z.min T N /\ NoDup out /\ (forall i, i ∈ out -> 0 <= i < N).
Proof.
  intros HN HT. destruct (select_loop_spec (E := E) (Z.to_nat N) T (seqZ 0 N) rng)
    as (rng' & out & removed & Hr & Hl & Hp); [done|rewrite length_seqZ; lia..|].
  exists rng', out. rewrite length_seqZ in Hl. split; [exact Hr|]. split; [lia|].
  assert (NoDup (removed ++ out)) as Hnd by (rewrite Hp; apply NoDup_seqZ). apply NoDup_app in Hnd as (_ & _ & Hnd).
  split; [done|]. intros i Hi. assert (i ∈ removed ++ out) as Hin by (apply elem_of_app; by right).
  rewrite Hp in Hin. apply elem_of_seqZ in Hin. lia.
Qed.
End Select.

(** ** The key generation

    [party_of p i n t]: [p] is party [i] of [n] with threshold [t];
    [commitment_of a i n t]: [a] is a commitment of such a party. *)
Class WstsPartyLaws `{WL : WstsLaws, WA : !WstsAggregator, PT : !WstsParty} := {
  party_of : Party -> Z -> Z -> Z -> Prop;
  commitment_of : PolyCommitment -> Z -> Z -> Z -> Prop;
  party_new_of i n t rng : party_of (party_new i n t rng).1 i n t;
  party_nonce_of p i n t rng : party_of p i n t -> party_of (party_gen_nonce p rng).1.1 i n t;
  party_shares_total p i n t j : party_of p i n t -> 0 <= j < n -> is_Some (party_shares p !! j);
  party_commitment_of p i n t rng : party_of p i n t -> commitment_of (party_commitment p rng).1 i n t;
  party_share_valid p i n t rng j x : party_of p i n t -> party_shares p !! j = Some x ->
    share_valid (party_commitment p rng).1 j x;
  party_secret_computed p i n t h A : party_of p i n t -> Z.of_nat (length A) = n ->
    (forall j a, A !! j = Some a -> commitment_of a (Z.of_nat j) n t /\
       exists x, h !! Z.of_nat j = Some x /\ share_valid a i x) ->
    (party_compute_secret p h A).2 = None;
  aggregator_made n t A : Z.of_nat (length A) = n ->
    (forall j a, A !! j = Some a -> commitment_of a (Z.of_nat j) n t) -> exists agg, aggregator_new n t A = Some (inl agg);
  nonces_count w rng : length (signer_gen_nonces w rng).1.2 = length (signer_get_key_ids w)
}.

Section Distribute.
Context {CP : P256k1} {WP : Wsts} {WA : WstsAggregator} {WL : WstsLaws} {PT : WstsParty} {PL : WstsPartyLaws}.

Lemma shares_for_eq {E : Type} (broadcast : list (gmap Z Scalar)) (i : Z) :
  0 <= i < 2 ^ 32 -> Z.of_nat (length broadcast) < 2 ^ 32 ->
  (forall j s, broadcast !! j = Some s -> is_Some (s !! i)) ->
  exists h, shares_for (E := E) broadcast i = Ok h /\
    forall j s, broadcast !! j = Some s -> h !! Z.of_nat j = s !! i.
Proof.
  intros Hi Hlen Hs. set (g := fun j => default scalar_new (default ∅ (broadcast !! Z.to_nat j) !! i)).
  assert (forall j s, broadcast !! j = Some s -> s !! i = Some (g (Z.of_nat j))) as Hg.
  { intros j s Hj. unfold g. rewrite Nat2Z.id, Hj. simpl. by destruct (Hs j s Hj) as [x ->]. }
  assert (mapR (E := E) (fun j => shares ← unwrap (broadcast !! Z.to_nat j);
                        share ← unwrap (shares !! as_u32 i); mret (as_u32 j, share))
    (seqZ 0 (Z.of_nat (length broadcast))) = Ok ((fun j => (j, g j)) <$> seqZ 0 (Z.of_nat (length broadcast)))) as Hmap.
  { apply mapR_Forall2, Forall2_fmap_r, Forall_Forall2_diag, Forall_forall. intros j Hj%elem_of_seqZ.
    destruct (lookup_lt_is_Some_2 broadcast (Z.to_nat j)) as [s Hsj]; [lia|]. rewrite Hsj. simpl.
    unfold as_u32. rewrite !Z.mod_small by lia. rewrite (Hg _ _ Hsj), Z2Nat.id by lia. done. }
  unfold shares_for. rewrite Hmap. eexists. split; [reflexivity|]. intros j s Hj. rewrite (Hg _ _ Hj).
  assert (((fun j => (j, g j)) <$> seqZ 0 (Z.of_nat (length broadcast))).*1 = seqZ 0 (Z.of_nat (length broadcast))) as Hkeys
    by (rewrite <-list_fmap_compose; apply list_fmap_id).
  rewrite collect_table by (rewrite Hkeys; apply NoDup_seqZ).
  apply elem_of_list_to_map_1; [rewrite Hkeys; apply NoDup_seqZ|].
  apply list_elem_of_fmap. exists (Z.of_nat j). split; [done|]. apply elem_of_seqZ. apply lookup_lt_Some in Hj. lia.
Qed.

(** What the parties send each other fits together. *)
Context (n t : Z) (Hn : n < 2 ^ 32) (parties : list Party) (A : list PolyCommitment).
Context (Hparties : forall i p, parties !! i = Some p -> party_of p (Z.of_nat i) n t) (Hlen : Z.of_nat (length parties) = n).
Context (HA : Forall2 (fun p a => exists rng, a = (party_commitment p rng).1) parties A).

Lemma commitments_of j a : A !! j = Some a -> commitment_of a (Z.of_nat j) n t.
Proof.
  intros Ha. destruct (Forall2_lookup_r _ _ _ _ _ HA Ha) as (p & Hp & rng & ->). by apply party_commitment_of, Hparties.
Qed.

Lemma secret_computed (now : list Party) (i : nat) (p : Party) :
  parties !! i = Some p -> now !! i = Some p ->
  exists p', compute_secret_of (party_shares <$> parties) A now (Z.of_nat i) = Ok (<[i := p']> now).
Proof.
  intros Hp Hnow. pose proof (lookup_lt_Some _ _ _ Hp) as Hi.
  destruct (shares_for_eq (E := DkgError) (party_shares <$> parties) (Z.of_nat i)) as (h & Hh & Hlook).
  - lia.
  - rewrite length_fmap. lia.
  - intros j s (q & -> & Hq)%list_lookup_fmap_Some. apply (party_shares_total _ (Z.of_nat j) n t); [by apply Hparties|lia].
  - unfold compute_secret_of. rewrite Hh, Nat2Z.id, Hnow. simpl.
    assert ((party_compute_secret p h A).2 = None) as Hnone.
    { apply (party_secret_computed _ (Z.of_nat i) n t); [by apply Hparties|by rewrite <-(Forall2_length _ _ _ HA)|].
      intros j a Ha. split; [by apply commitments_of|].
      destruct (Forall2_lookup_r _ _ _ _ _ HA Ha) as (q & Hq & rng & ->).
      destruct (party_shares_total q (Z.of_nat j) n t (Z.of_nat i)) as [x Hx]; [by apply Hparties|lia|].
      exists x. split; [|by eapply party_share_valid; [apply Hparties|]].
      rewrite (Hlook j (party_shares q)); [done|]. by rewrite list_lookup_fmap, Hq. }
    destruct (party_compute_secret p h A) as [p' e]. simpl in Hnone. subst e. by exists p'.
Qed.

Theorem distribute_succeeds : exists out, distribute parties A = Ok out /\ length out = length parties.
Proof.
  unfold distribute.
  assert (forall m a now, (a + m = length parties)%nat -> length now = length parties ->
    (forall i, (a <= i)%nat -> now !! i = parties !! i) ->
    exists out, foldM (compute_secret_of (party_shares <$> parties) A) now (seqZ (Z.of_nat a) (Z.of_nat m)) = Ok out /\
      length out = length parties) as Hloop.
  2: { apply (Hloop (length parties) O parties); lia || done. }
  induction m as [|m IH]; intros a now Ham Hnow Hsame; [by exists now|].
  rewrite seqZ_cons by lia. simpl foldM.
  destruct (lookup_lt_is_Some_2 parties a) as [p Hp]; [lia|].
  destruct (secret_computed now a p Hp) as [p' ->]; [by rewrite Hsame|]. cbn [mbind res_bind].
  replace (Z.succ (Z.of_nat a)) with (Z.of_nat (S a)) by lia. replace (Z.pred (Z.of_nat (S m))) with (Z.of_nat m) by lia.
  apply IH; [lia|by rewrite length_insert|]. intros i Hi. rewrite list_lookup_insert_ne by lia. apply Hsame. lia.
Qed.
End Distribute.

(** ** The tests pass *)
Section Pass.
Context {CP : P256k1} {WP : Wsts} {WA : WstsAggregator} {BP : BuildProfile} {WL : WstsLaws} {PT : WstsParty} {PL : WstsPartyLaws}.

Lemma with_rng_spec {E A B : Type} (f : A -> Rng -> B * Rng) (l : list A) rng :
  exists rng' bs, with_rng (E := E) f l rng = (rng', Ok bs) /\ Forall2 (fun a b => exists r, b = (f a r).1) l bs.
Proof.
  revert rng. induction l as [|a l IH]; intros rng; [by exists rng, []|]. simpl. rewrite M_bind_eq.
  destruct (f a rng) as [b rng1] eqn:Hf. destruct (IH rng1) as (rng' & bs & Hr & Hbs).
  rewrite (M_step _ _ _ _ _ Hr). exists rng', (b :: bs). split; [done|]. constructor; [|done].
  exists rng. by rewrite Hf.
Qed.

Lemma select_each {E : Type} (N T : Z) (l : list Z) rng : 0 <= N < 2 ^ 32 -> 0 <= T ->
  exists rng', for_each (E := E) (fun _ => select_parties N T ;; mret tt) l rng = (rng', Ok tt).
Proof.
  intros HN HT. revert rng. induction l as [|x l IH]; intros rng; [by exists rng|]. simpl. rewrite M_bind_eq.
  destruct (select_parties_spec (E := E) N T rng HN HT) as (rng1 & out & Hr & _). rewrite (M_step _ _ _ _ _ Hr). apply IH.
Qed.

Lemma nonced_parties (n t : Z) (ps qs : list Party) :
  Forall2 (fun i p => exists r, p = (party_new i n t r).1) (seqZ 0 n) ps ->
  Forall2 (fun p q => exists r, q = ((let '(p', _, rng') := party_gen_nonce p r in (p', rng')) : Party * Rng).1) ps qs ->
  forall i q, qs !! i = Some q -> party_of q (Z.of_nat i) n t.
Proof.
  intros Hps Hqs i q Hq. destruct (Forall2_lookup_r _ _ _ _ _ Hqs Hq) as (p & Hp & r & ->).
  destruct (Forall2_lookup_r _ _ _ _ _ Hps Hp) as (j & [-> _]%lookup_seqZ & r' & ->).
  pose proof (party_nonce_of _ _ _ _ r (party_new_of (0 + Z.of_nat i) n t r')) as H.
  by destruct (party_gen_nonce _ r) as [[p' ?] ?].
Qed.

(** The key generation of [pure_frost] succeeds and its selections end. *)
Theorem pure_frost_passes rng : passes (run_test rng pure_frost).
Proof.
  unfold passes, run_test, pure_frost, umul. rewrite checked_small by by_compute. rewrite M_lift_Ok. cbv zeta.
  destruct (with_rng_spec (E := Empty_set) (fun i => party_new i 10 (10 * 2 / 3)) (seqZ 0 10) rng) as (rng1 & ps & Hr & Hps).
  rewrite (M_step _ _ _ _ _ Hr).
  destruct (with_rng_spec (E := Empty_set) (fun p rng => let '(p', _, rng') := party_gen_nonce p rng in (p', rng')) ps rng1)
    as (rng2 & qs & Hr2 & Hqs).
  rewrite (M_step _ _ _ _ _ Hr2).
  destruct (with_rng_spec (E := Empty_set) party_commitment qs rng2) as (rng3 & A & Hr3 & HA).
  rewrite (M_step _ _ _ _ _ Hr3).
  assert (length qs = 10%nat) as Hlen by by rewrite <-(Forall2_length _ _ _ Hqs), <-(Forall2_length _ _ _ Hps).
  assert (Z.of_nat (length qs) = 10) as Hlen' by by rewrite Hlen.
  pose proof (nonced_parties 10 (10 * 2 / 3) ps qs Hps Hqs) as Hof.
  destruct (distribute_succeeds 10 (10 * 2 / 3) eq_refl qs A Hof Hlen' HA) as (out & Hd & _). rewrite Hd. cbn [unwrap_ok]. rewrite M_lift_Ok.
  destruct (aggregator_made 10 (10 * 2 / 3) A) as [agg Hagg].
  { by rewrite <-(Forall2_length _ _ _ HA). }
  { intros j a. by apply (commitments_of 10 (10 * 2 / 3) qs A Hof HA). }
  rewrite Hagg. cbn [of_call of_sum unwrap_ok]. rewrite M_lift_Ok. destruct (select_each (E := Empty_set) 10 (10 * 2 / 3) (seqZ 0 7) rng3) as [rng4 Hs]; [done..|].
  by rewrite Hs.
Qed.

Lemma signer_test_passes {NEW : SignerNewLaws} {WS : WstsSignLaws} rng : passes (run_test rng signer_test).
Proof.
  unfold passes, run_test, signer_test. cbv zeta. rewrite M_bind_eq.
  pose proof (new_key_ids 1 [1; 2; 3] 10 7 rng) as Hids. destruct (signer_new 1 [1; 2; 3] 10 7 rng) as [w rng1].
  simpl fst in Hids. rewrite assert_eq_refl by by rewrite Hids. rewrite M_lift_Ok, M_bind_eq.
  pose proof (nonces_key_ids w rng1) as Hkeys. destruct (signer_gen_nonces w rng1) as [[w' l] rng2]. simpl fst in Hkeys.
  rewrite M_bind_eq. pose proof (nonces_count w' rng2) as Hn. destruct (signer_gen_nonces w' rng2) as [[w2 l2] rng3].
  simpl in Hn. unfold lift. rewrite assert_eq_refl; [done|]. by rewrite Hn, Hkeys, Hids.
Qed.

Lemma template_test_passes {HO : HeaderOrder} (scalar_default : Scalar) rng :
  passes (run_test rng (template_test scalar_default)).
Proof.
  assert (forall ids rng, exists rng' s, new_round scalar_default ids rng = (rng', Ok s)) as Hnew.
  { intros ids g. unfold new_round, SigningRound_new. simpl. destruct (signer_new 0 ids 10 7 g) as [w g']. eauto. }
  unfold passes, run_test, template_test.
  do 4 (match goal with |- context [(new_round _ ?ids ≫= _) ?g] =>
          destruct (Hnew ids g) as (? & ? & Hr); rewrite (M_step _ _ _ _ _ Hr); clear Hr end).
  cbv zeta. rewrite (Server_call_eq _ _ {| highwaters := ∅; queue := [str "Hello!"] |} []); [done|..].
  - by apply post_request_ok.
  - done.
  - done.
Qed.
End Pass.

(** ** An instance *)
Module PureFrostWitness.
Import ToyCrypto.
Import DkgToy.
#[local] Instance bp : BuildProfile := true.

(** A party is its id, the number of parties and the threshold. *)
#[local] Instance toy_party : WstsParty (WP := toy_wsts) := {|
  Party := Z * Z * Z;
  DkgError := unit;
  party_new i n t rng := ((i, n, t), rng + 1);
  party_gen_nonce p rng := (p, (0, rng), rng + 1);
  party_commitment p rng := ((p.1.1 + 1, [2 * (p.1.1 + 1)]), rng + 1);
  party_shares p := list_to_map ((fun j => (j, 100 * p.1.1 + j)) <$> seqZ 0 p.1.2);
  party_compute_secret p h A := (p, None);
  next_u64 rng := (rng, rng + 1)
|}.
#[local, refine] Instance toy_party_laws : WstsPartyLaws (PT := toy_party) := {|
  party_of p i n t := p = (i, n, t);
  commitment_of a i n t := a = (i + 1, [2 * (i + 1)])
|}.
Proof.
  - done.
  - by intros p i n t rng ->.
  - intros p i n t j -> Hj. apply (toy_is_Some (fun j => 100 * i + j)), elem_of_seqZ. simpl. lia.
  - by intros p i n t rng ->.
  - intros p i n t rng j x -> Hx. apply toy_share_lookup in Hx. simpl in *. lia.
  - done.
  - intros n t A Hlen Hcom. simpl. rewrite bool_decide_true by done. eexists.
    assert (forallb (fun p : Z * list Z => negb (bool_decide (p.2 = []))) A = true) as ->; [|reflexivity].
    apply forallb_forall. intros p [j Hj]%list_elem_of_In%list_elem_of_lookup. by rewrite (Hcom j p Hj).
  - intros w rng. simpl. by rewrite length_fmap.
Defined.

Lemma pure_frost_passes_witness : passes (run_test 3 pure_frost).
Proof. exact (pure_frost_passes (PT := toy_party) (PL := toy_party_laws) 3). Defined.
End PureFrostWitness.
