(* ===== verification/FrostBtc.v ===== *)
(** * [frost-test/tests/frost-btc.rs]: a deposit and a withdrawal on regtest

    The tests run on a [bitcoind] of [TestProcess] with the helpers of
    [TestUtils]: [frost_btc] deposits a mined output into a wallet of the group's
    key and withdraws it with a signature of the group, [blog_post] reads a
    transaction and checks a published signature of one of its inputs. *)
From S2P Require Import Prelude Crypto StacksNode BitcoinNode SbtcScript TestProcess TestUtils UnitTest.

Section FrostBtc.
Context {SL : ScriptLib} {CP : P256k1} {WP : Wsts} {WA : WstsAggregator} {TB : TestBitcoin} {TW : TestWsts}
  {JS : Json} {OS : TestOs} {BP : BuildProfile}.
(** [Transaction::txid] *)
Context (compute_txid : BTransaction -> bytes).

(** A method on one of the local variables. *)
Definition on_local {S T E A : Type} (t : T) (m : M T E A) : M S E (T * A) := fun s =>
  let '(t', r) := m t in (s, a ← r; Ok (t', a)).

Definition is_string (v : JsonValue) : bool := bool_decide (is_Some (json_as_str v)).

(** [sendrawtransaction], whose answer is a string when the node accepts. *)
Definition send_raw {E : Type} (btcd : BitcoinProcess) (hex : string) : M Machine E unit :=
  result ← BitcoinProcess_rpc btcd "sendrawtransaction" (PArray [PString hex]);
  lift (assert (is_string result)).

Definition merkle_root : bytes := replicate 32 0.
Definition stx_address : bytes := replicate 32 0.

(** The deposit of the first output of [source_tx], signed by its owner. *)
Definition deposit_of {E : Type} (source_tx : BTransaction) (wallet_key : TPublic) (secret : TSecret) (public : TPublic)
    (address : TAddress) : M Machine E (BTransaction * string) :=
  source_utxo ← lift (unwrap (tx_output source_tx !! 0%nat));
  satoshis ← lift (usub 64 (out_value source_utxo) 1000);
  deposit_tx ← lift (build_transaction_deposit satoshis wallet_key stx_address (compute_txid source_tx, 0));
  on_local deposit_tx (sign_transaction_ecdsa address secret public source_utxo).

(** The withdrawal of the deposit's second output, signed by the group. *)
Definition withdrawal_of {E : Type} (deposit_tx : BTransaction) (public : TPublic) (signer : SignerHelper)
    (group_key : Point) (commitments : list PolyCommitment) : M Machine E (BTransaction * string) :=
  deposit_utxo ← lift (unwrap (tx_output deposit_tx !! 1%nat));
  withdrawal_amount ← lift (usub 64 (out_value deposit_utxo) 2000);
  withdrawal_tx ← lift (build_transaction_withdrawal withdrawal_amount public (compute_txid deposit_tx, 1));
  '((tx, _), hex) ← on_local (withdrawal_tx, signer)
    (sign_transaction_taproot deposit_utxo group_key commitments (Some merkle_root));
  mret (tx, hex).

Definition frost_btc_on (btcd : BitcoinProcess) (signer : SignerHelper) (commitments : list PolyCommitment)
    (group_key : Point) (wallet_key : TPublic) (rng : Rng) : M Machine Empty_set unit :=
  '(secret, public, _, address) ← lift (generate_wallet false rng).2;
  '(source_txid, blockhash) ← mine_and_get_coinbase_txid btcd address;
  source_tx ← with_unwrap (get_raw_transaction btcd source_txid (Some blockhash));
  '(deposit_tx, deposit_hex) ← deposit_of source_tx wallet_key secret public address;
  BitcoinProcess_rpc btcd "decoderawtransaction" (PArray [PString deposit_hex]) ;;
  send_raw btcd deposit_hex ;;
  '(_, withdrawal_hex) ← withdrawal_of deposit_tx public signer group_key commitments;
  send_raw btcd withdrawal_hex.

(** The signers and the wallet draw their own random numbers. *)
Definition frost_btc (rng wallet_rng : Rng) : M Machine Empty_set unit :=
  let '(signer, dkg) := SignerHelper_dkg (Some merkle_root) (SignerHelper_default rng) in
  '(commitments, group_key, wallet_key) ← lift dkg;
  btcd ← BitcoinProcess_new;
  unwinding (frost_btc_on btcd signer commitments group_key wallet_key wallet_rng) (BitcoinProcess_drop btcd) ;;
  BitcoinProcess_drop btcd.

(** ** [blog_post]

    The published key, transaction, signature hash and signature are arguments. *)
Definition blog_post (secret_of : bytes -> option TSecret) (from_der : bytes -> option TSig) (testnet_p2wpkh : TPublic -> option TAddress)
    (secret_hex tx_hex sighash_hex sig_hex : string) : Test :=
  secret_bytes ← unwrap (hex_decode secret_hex);
  secret_key ← unwrap (secret_of secret_bytes);
  let public_key := public_of_secret secret_key in
  address ← unwrap (testnet_p2wpkh public_key);
  blog_tx_bytes ← unwrap (hex_decode tx_hex);
  transaction ← unwrap (consensus_decode blog_tx_bytes);
  assert_eq blog_tx_bytes (consensus_encode transaction) ;;
  i ← unwrap (tx_input transaction !! 1%nat);
  (* second_to_last, last *)
  unwrap (reverse (in_witness i) !! 1%nat) ;;
  unwrap (last (in_witness i)) ;;
  script ← unwrap (p2wpkh_script_code (taddress_script address));
  segwit_sighash ← unwrap (segwit_signature_hash transaction 1 script 9300);
  blog_sighash_bytes ← unwrap (hex_decode sighash_hex);
  assert_eq segwit_sighash blog_sighash_bytes ;;
  msg ← unwrap (digest_from_slice segwit_sighash);
  let sig := sign_ecdsa_low_r msg secret_key in
  assert (verify_ecdsa msg sig public_key) ;;
  sig_bytes ← unwrap (hex_decode sig_hex);
  blog_sig ← unwrap (from_der sig_bytes);
  assert (verify_ecdsa msg blog_sig public_key).

(** ** What a run has sent *)
Definition accepted (btcd : BitcoinProcess) (hex : string) : Prop :=
  exists m m' v, BitcoinProcess_rpc (E := Empty_set) btcd "sendrawtransaction" (PArray [PString hex]) m = (m', Ok v) /\
    is_string v = true.

Lemma send_raw_accepted (btcd : BitcoinProcess) (hex : string) (m m' : Machine) :
  send_raw (E := Empty_set) btcd hex m = (m', Ok tt) -> accepted btcd hex.
Proof.
  intros (m1 & v & Hrpc & Ha)%M_bind_Ok_inv. exists m, m1, v. split; [done|].
  unfold lift, assert in Ha. by destruct (is_string v).
Qed.

Lemma unwrap_lift_inv {S E A : Type} (o : option A) (s s' : S) (a : A) :
  lift (E := E) (unwrap o) s = (s', Ok a) -> s' = s /\ o = Some a.
Proof. unfold lift. destruct o; [by intros [= <- <-]|done]. Qed.

Lemma on_local_inv {S T E A : Type} (t t' : T) (a : A) (m : M T E A) (s s' : S) :
  on_local t m s = (s', Ok (t', a)) -> m t = (t', Ok a).
Proof. unfold on_local. destruct (m t) as [t1 [b| | |]]; try done. by intros [= _ <- <-]. Qed.

Lemma ecdsa_inv {E : Type} addr secret public prev (tx tx' : BTransaction) (hex : string) :
  sign_transaction_ecdsa (E := E) addr secret public prev tx = (tx', Ok hex) ->
  (exists items, witnessed items tx tx') /\ hex = hex_encode (consensus_encode tx').
Proof.
  unfold sign_transaction_ecdsa. intros H. case_match eqn:Hs; try done. injection H as <- <-. split; [|done].
  apply res_bind_Ok_inv in Hs as (script & _ & Hs). apply res_bind_Ok_inv in Hs as (sighash & _ & Hs).
  apply res_bind_Ok_inv in Hs as (d & _ & Hs). case_match; [|done].
  eexists. by eapply push_witness_Ok.
Qed.

Lemma deposit_of_inv source_tx wallet_key secret public address (m m' : Machine) (deposit : BTransaction) (hex : string) :
  deposit_of (E := Empty_set) source_tx wallet_key secret public address m = (m', Ok (deposit, hex)) ->
  exists source_utxo satoshis xonly, tx_output source_tx !! 0%nat = Some source_utxo /\
    usub (E := Empty_set) 64 (out_value source_utxo) 1000 = Ok satoshis /\
    in_previous_output <$> tx_input deposit = [Some (compute_txid source_tx, 0)] /\
    tx_output deposit !! 1%nat = Some {| out_value := satoshis; out_script := new_v1_p2tr_tweaked xonly |} /\
    hex = hex_encode (consensus_encode deposit).
Proof.
  intros (m1 & utxo & [-> Hu]%unwrap_lift_inv & H)%M_bind_Ok_inv.
  apply M_bind_Ok_inv in H as (m2 & satoshis & [= -> Hsub] & H).
  apply M_bind_Ok_inv in H as (m3 & tx & [= -> Hb] & H). apply on_local_inv, ecdsa_inv in H as [[items (i & l & Hi & ->)] ->].
  apply res_bind_Ok_inv in Hb as (xonly & _ & [= <-]). injection Hi as <- <-. by exists utxo, satoshis, xonly.
Qed.

Lemma withdrawal_of_inv deposit public signer group_key commitments (m m' : Machine) (withdrawal : BTransaction) (hex : string) :
  withdrawal_of (E := Empty_set) deposit public signer group_key commitments m = (m', Ok (withdrawal, hex)) ->
  exists deposit_utxo amount payload proof tx, tx_output deposit !! 1%nat = Some deposit_utxo /\
    usub (E := Empty_set) 64 (out_value deposit_utxo) 2000 = Ok amount /\
    in_previous_output <$> tx_input withdrawal = [Some (compute_txid deposit, 1)] /\
    out_value <$> tx_output withdrawal = [amount] /\
    taproot_signature_hash tx 0 [deposit_utxo] = Some payload /\ witnessed [proof_r proof ++ proof_s proof] tx withdrawal /\
    schnorr_verify proof (point_x group_key) payload = true /\ hex = hex_encode (consensus_encode withdrawal).
Proof.
  intros (m1 & utxo & [-> Hu]%unwrap_lift_inv & H)%M_bind_Ok_inv.
  apply M_bind_Ok_inv in H as (m2 & amount & [= -> Hsub] & H).
  apply M_bind_Ok_inv in H as (m3 & tx & [= -> Hb] & H).
  apply M_bind_Ok_inv in H as (m4 & [[tx' signer'] hex'] & Hs & [= _ -> ->]). apply on_local_inv in Hs.
  destruct (taproot_signed _ _ _ _ _ _ _ _ _ Hs) as (payload & proof & Hp & Hv & Hw & -> & _).
  exists utxo, amount, payload, proof, tx. pose proof Hw as (i & l & Hi & ->).
  apply res_bind_Ok_inv in Hb as (hash & _ & [= <-]). injection Hi as <- <-. done.
Qed.

(** A run of the test that passes has sent two transactions that the node accepted:
    one that spends the mined output and pays all of it but 1000 satoshis to the
    wallet, and one that spends that payment and pays all but 2000 satoshis of it,
    with a signature of the group as its witness. *)
Lemma frost_btc_sends (btcd : BitcoinProcess) (signer : SignerHelper) (commitments : list PolyCommitment)
    (group_key : Point) (wallet_key : TPublic) (rng : Rng) (m m' : Machine) :
  frost_btc_on btcd signer commitments group_key wallet_key rng m = (m', Ok tt) ->
  exists source_tx source_utxo deposit xonly satoshis withdrawal amount,
    tx_output source_tx !! 0%nat = Some source_utxo /\
    accepted btcd (hex_encode (consensus_encode deposit)) /\
    in_previous_output <$> tx_input deposit = [Some (compute_txid source_tx, 0)] /\
    usub (E := Empty_set) 64 (out_value source_utxo) 1000 = Ok satoshis /\
    tx_output deposit !! 1%nat = Some {| out_value := satoshis; out_script := new_v1_p2tr_tweaked xonly |} /\
    accepted btcd (hex_encode (consensus_encode withdrawal)) /\
    in_previous_output <$> tx_input withdrawal = [Some (compute_txid deposit, 1)] /\
    usub (E := Empty_set) 64 satoshis 2000 = Ok amount /\ out_value <$> tx_output withdrawal = [amount] /\
    exists payload proof tx, schnorr_verify proof (point_x group_key) payload = true /\
      taproot_signature_hash tx 0 [{| out_value := satoshis; out_script := new_v1_p2tr_tweaked xonly |}] = Some payload /\
      witnessed [proof_r proof ++ proof_s proof] tx withdrawal.
Proof.
  intros (m1 & [[[secret public] xo] address] & _ & H)%M_bind_Ok_inv.
  apply M_bind_Ok_inv in H as (m2 & [txid blockhash] & _ & H). apply M_bind_Ok_inv in H as (m3 & source_tx & _ & H).
  apply M_bind_Ok_inv in H as (m4 & [deposit dhex] & Hd & H).
  apply M_bind_Ok_inv in H as (m5 & decoded & _ & H). apply M_bind_Ok_inv in H as (m6 & [] & Hsend1%send_raw_accepted & H).
  apply M_bind_Ok_inv in H as (m7 & [withdrawal whex] & Hw & Hsend2%send_raw_accepted).
  destruct (deposit_of_inv _ _ _ _ _ _ _ _ _ Hd) as (source_utxo & satoshis & xonly & Hu & Hs & Hin & Hout & ->).
  destruct (withdrawal_of_inv _ _ _ _ _ _ _ _ _ Hw)
    as (deposit_utxo & amount & payload & proof & tx & Hdu & Ha & Hwin & Hwout & Hp & Hwit & Hv & ->).
  rewrite Hout in Hdu. injection Hdu as <-.
  exists source_tx, source_utxo, deposit, xonly, satoshis, withdrawal, amount. split_and!; try done.
  by exists payload, proof, tx.
Qed.
End FrostBtc.
