(* ===== verification/RpcTests.v ===== *)
(** * [yarpc/tests/deno.rs], [frost-signer/tests/net.rs]: tests across processes

    The calls to the scripts of [yarpc/js/tests], which [deno] runs, and the
    listener with a message in its queue.  The scripts are line servers
    ([JsRpc.LineServer]); the texts of JSON are external. *)
From S2P Require Import Prelude Crypto Messages Net Http JsRpc UnitTest.

(** ** [deno.rs] *)
Section Deno.
Context {JP : JsProcess} {JJ : JsJson} (to_value : string -> option JsIn) (value_string : JsOut -> string).

Definition json_call (input : string) : M Js JsError string :=
  i ← lift (ok_or (to_value input) JsonFailed);
  o ← js_call i;
  mret (value_string o).

Definition quoted_text (s : string) : string := String (Ascii.ascii_of_nat 34) s +:+ String (Ascii.ascii_of_nat 34) EmptyString.
Definition mirrored : list string :=
  [("{" +:+ quoted_text "b" +:+ ":[]," +:+ quoted_text "a" +:+ ":2}")%string; "[54,null]"; "42"; quoted_text "Hello!"; "true"; "null"]%string.

Definition test_wrap : res JsError unit :=
  js ← Js_new "./js/tests/mirror.ts";
  (for_each (fun input => o ← json_call input; lift (assert_eq o input)) mirrored js).2.

Definition deno_test : Test := unwrap_ok test_wrap.

Definition test_err_of (path : string) (input : JsIn) : Test :=
  js ← unwrap_ok (Js_new path);
  error ← result (js_call input js).2;
  assert (is_err error).
Definition test_err : JsIn -> Test := test_err_of "./js/tests/throw.ts".
Definition test_async_err : JsIn -> Test := test_err_of "./js/tests/async_throw.ts".

(** [deno] runs a script that answers its lines. *)
Definition runs (path : string) (answer : rstring -> rstring) {LS : LineServer answer} : Prop :=
  exists child, spawn "deno" ["run"; "--allow-env"; "--allow-read"; "--allow-net"; path] = Some child /\
    has_stdio child = true /\ ready child.

Context (mirror throwing : rstring -> rstring) {LM : LineServer mirror} {LT : LineServer throwing}.
Context (one_line : forall i s, to_json i = Some s -> LF ∉ utf8 s).
Context (Hmirror : forall t, t ∈ mirrored -> exists i o, to_value t = Some i /\
  reply_to mirror i = Ok o /\ value_string o = t).
Context (input : JsIn) (Hthrow : exists e, reply_to throwing input = Err e).

Lemma js_new_ready (path : string) (answer : rstring -> rstring) {LS : LineServer answer} :
  runs path answer -> exists js, Js_new path = Ok js /\ ready (js_child js).
Proof. intros (child & Hs & Hio & Hr). exists {| js_child := child |}. unfold Js_new. rewrite Hs. simpl. by rewrite Hio. Qed.

Lemma mirror_calls (texts : list string) (js : Js) :
  (forall t, t ∈ texts -> t ∈ mirrored) -> ready (LineServer := LM) (js_child js) ->
  (for_each (fun input => o ← json_call input; lift (assert_eq o input)) texts js).2 = Ok tt.
Proof.
  revert js. induction texts as [|t texts IH]; intros js Ht Hr; [done|]. simpl.
  destruct (Hmirror t) as (i & o & Hi & Hreply & Ho); [apply Ht; by left|].
  destruct (js_call_answer mirror one_line i js Hr) as (js1 & Hcall & Hr1).
  rewrite M_bind_eq, M_bind_eq. unfold json_call. rewrite M_bind_eq, Hi. cbn [ok_or lift].
  rewrite M_bind_eq, Hcall, Hreply. cbn [mret M_ret]. rewrite Ho. unfold lift, assert_eq, assert.
  rewrite bool_decide_true by done. apply IH; [|done]. intros t' Ht'. apply Ht. by right.
Qed.

(** The three tests pass with the mirror and with scripts that answer an error. *)
Lemma deno_tests_pass :
  runs "./js/tests/mirror.ts" mirror -> runs "./js/tests/throw.ts" throwing -> runs "./js/tests/async_throw.ts" throwing ->
  passes deno_test /\ passes (test_err input) /\ passes (test_async_err input).
Proof.
  intros Hm Ht Ha. split.
  - destruct (js_new_ready _ mirror Hm) as (js & Hjs & Hr). unfold passes, deno_test, test_wrap. rewrite Hjs, res_bind_Ok.
    by rewrite (mirror_calls mirrored js (fun t H => H) Hr).
  - assert (forall path, runs path throwing -> passes (test_err_of path input)) as Herr; [|by split; apply Herr].
    intros path Hp. destruct (js_new_ready _ throwing Hp) as (js & Hjs & Hr).
    destruct (js_call_answer throwing one_line input js Hr) as (js1 & Hcall & _). destruct Hthrow as [e He].
    unfold passes, test_err_of. rewrite Hjs. simpl. rewrite Hcall, He. done.
Qed.
End Deno.

(** ** [net.rs] *)
Section ReceiveMsg.
Context {CP : P256k1} {WP : Wsts} {HC : HttpClient}.

Definition receive_msg_queue : list Message := [{| msg := MDkgBegin {| db_dkg_id := 0 |}; sig := replicate 64 0 |}].
Definition receive_msg (world : World) : Test :=
  let net_listen := HttpNetListen_new (HttpNet_new "http://localhost:9775") receive_msg_queue in
  let '(_, received) := next_message (net_listen, world) in
  match received with
  | Some _ => assert true
  | None => Ok tt
  end.

(** The queued message is received, without the relay. *)
Lemma receive_msg_passes (world : World) :
  passes (receive_msg world) /\
  (next_message (HttpNetListen_new (HttpNet_new "http://localhost:9775") receive_msg_queue, world)).2 =
    last receive_msg_queue.
Proof. by split. Qed.
End ReceiveMsg.
